(* ===== verification/_CoqProject ===== *)
-Q . S2P
Prelude.v
Memory.v
Trace.v
Spsc.v
TransitionCfg.v
Ia32.v
Mtrr.v
Paging.v
Ept.v
EptUpdate.v
Vmcs.v
Segments.v
Vcpu.v
Asm.v
Stubs.v
Exception.v
Introspection.v
Format.v
Logging.v
Hv.v
VmcsSetup.v
Sync.v
Crash.v
Lifecycle.v
VmExit.v
NmiWindow.v
Hypercall.v
Devices.v
ExitStub.v
LaunchStub.v
FaultStub.v
TraceFiles.v
System.v
UmMemory.v
Runtime.v
HookCode.v
Hooks.v
StdFormat.v
Pe.v
UmFiles.v
KModules.v
TraceParser.v
Commands.v
UmMain.v
Dump.v
