(* ===== verification/Prelude.v ===== *)
(** * revhv: a verification development

    revhv is a hypervisor for Intel VT-x that starts under a running Windows and
    moves it into a guest. A kernel driver ([src/revhv-km/]) builds extended page
    tables that map physical memory to itself, host page tables, descriptor
    tables and a VMCS for each core, and then handles the exits of the guest. A
    controller ([src/revhv-um/]) talks to it by hypercalls: it reads and writes
    the memory of any process, hooks pages, traces the execution of a range of
    code, and collects logs. The formats both sides share are in [src/common/].

    ** How the parts interact

    An exit of a core enters [vmexit::handler], which dispatches on the reason.
    The handlers work on the core's own [vcpu], on the VMCS (through VMREAD and
    VMWRITE), on physical memory (through a window in the host page tables) and,
    for hypercalls, on state the cores share ([g_hv]: the logger, the trace
    buffers, the onload target). Each core has two extended page tables: the
    normal one, and the target one that is active while traced code runs; an EPT
    violation switches between them and records a trace entry, or shows the other
    view of a hooked page. Instructions that can fault on the host are wrapped: the
    exception handler recognises the wrapper, records the exception, and the exit
    handler passes it on to the guest. Anything unexpected ends in
    [unrecoverable_host_error], which stops the other cores by NMI, leaves VMX
    operation and reports the crash.

    The controller runs each hypercall on one core after the other. Its console
    commands resolve symbols against the images of the kernel modules, configure
    what the cores record, start the threads that move the trace buffers into
    files, and turn those files into a log.

    ** Conventions

    A machine word is a [Z] kept in its range, wrapped where the code can leave
    it. A routine that can end in the unrecoverable error or perform an undefined
    access returns an [outcome]: [Ok], [Crash] or [Undefined]; a theorem that a
    routine is [Ok] therefore shows that it neither crashes nor leaves its
    buffers. State is passed explicitly in records with a C-like update notation.
    The bits of the architectural structures come from [ia32-doc], which is not
    part of the repository: they are fields of the classes [Ia32], [MtrrLayout]
    and [ExitLayout], used through the laws of [Ia32Ok], with instances that
    follow the Intel manuals. Windows, the processor and the allocators are
    arguments of the definitions.

    ** Files

    - [Prelude]: words, bits, record update, outcomes, shared automation.
    - [Trace], [Spsc]: [common/trace_log.hpp], [revhv-km/trace.h]. The trace ring
      buffer; [emit] and [drain] refine a bounded queue, and interleaved access by
      access they still deliver a prefix of what was emitted, untorn.
    - [TransitionCfg]: the hash table of trace configurations in [hypercall.cpp]
      and [vmexit.cpp], a refinement of a finite map.
    - [Ia32]: the layouts of paging structures and what is assumed of them.
    - [Mtrr]: [memory.cpp], memory types of addresses and ranges from the MTRRs.
    - [Memory], [Paging]: bytes and buffers; [memory.cpp]: the guest page walk
      equals a reference walk, the host tables map the physical window.
    - [Ept], [EptUpdate]: [ept.cpp]. The invariant of the tables, splitting, hooks,
      tracing, initial map, and the memory types after a change of the MTRRs.
    - [Vmcs], [VmcsSetup]: [vmx.h], [vmcs.cpp], [vmx.cpp], [stealth.cpp]. VMREAD and
      VMWRITE, control fields against their capability MSRs, all fields written
      before the launch, the MSR bitmap.
    - [Segments]: [utils.inl], [gdt.cpp], [idt.cpp].
    - [Vcpu]: [vcpu.h]. [Exception]: [exception.cpp].
    - [Lifecycle]: [main.cpp], [hv.cpp], [vcpu.cpp], [vmx.cpp]. From the entry of the
      driver over VMXON and VMLAUNCH to a running guest on each core, and back after
      a crash.
    - [Asm], [Stubs]: the x86 subset of the [.asm] files and their listings, line by
      line. [ExitStub], [LaunchStub], [FaultStub]: what the exit stub, the launch and
      benchmark stubs, and the interrupt stubs with the wrappers do on that machine.
    - [Introspection]: [introspection.cpp]. Guest memory, page by page: reads stop
      at the first unmapped byte, writes are exact and read back.
    - [Format], [Logging]: [format.cpp], [logging.cpp]. The formatter is a truncating
      renderer; the log is a queue of the last 512 lines.
    - [Hv]: [hv.h], the shared state.
    - [VmExit]: [vmexit.cpp]. All handlers and the dispatch. [NmiWindow]: the NMI
      queue with host NMIs arriving between its accesses.
    - [Hypercall]: [hypercall.cpp]. All requests; what they deliver, and that they
      touch nothing else of the guest.
    - [Sync]: [sync.hpp]. Both locks as interleaved accesses of any number of cores.
    - [Crash]: [error.cpp] with [handle_nmi] of [exception.cpp]. The crash protocol of
      all cores as interleaved steps.
    - [TraceFiles]: [trace_poller.hpp], [module_export.hpp], [trace_cfg_export.hpp] and
      the loading part of [trace_parser.hpp]. The files of a session, byte for byte.
    - [StdFormat], [Pe]: what the controller uses of [std::format]; [pe.cpp], [pe.hpp],
      images from a file or from kernel memory. [UmFiles]: [utils.hpp], [pe.cpp],
      [pdb_parser.cpp], the handles and views that images own, the symbols of a PDB.
    - [TraceParser]: [trace_parser.hpp]. Merging the streams, formatting entries.
    - [System]: [hypercall.cpp] of [revhv-um], [for_each_cpu]. The cores together.
    - [Runtime]: the invariant of the running hypervisor. Every exit of every core
      keeps it, from the start on.
    - [HookCode], [Hooks]: [hooks.cpp], [revhv-km/pe.cpp]. The hook of the image loader,
      down to the bytes of its jump, and the trace it starts.
    - [Devices]: [serial.cpp], [apic.cpp]. The driver of the serial port against an
      interface that a 16550 implements, and the NMI that stops the other cores.
    - [UmMemory]: [hypercall.cpp] of [revhv-um]. Ranges of any length moved by hypercalls.
    - [KModules]: [kmodules.cpp]. Modules and symbol resolution.
    - [Commands]: [commands.cpp]. Every console command.
    - [Dump]: a memory dump from the command line to the memory of the guest and back.
    - [UmMain]: [main.cpp], [logger.hpp] of [revhv-um]. The program around the commands and
      its log thread, which works between arbitrary steps of the rest of the system.

    ** Groups of theorems

    Functional: what each routine computes, on every branch, against a
    specification independent of the code (page walk, MTRR rules, queues, maps,
    rendered text, guest bytes). Invariants: [ept_inv] of the page tables, the
    ring-buffer and logger invariants, the NMI counter under interleaving.
    Safety and errors: which exceptions the host survives, what a hypercall can
    change, and the behaviours that differ from the intention of the code, stated
    as theorems of what the code does. Round trips: memory writes and reads, a
    tracing session on one core and on all, the files of a session, typed lines,
    symbols and addresses, numerals, descriptor bases. Concurrency: the trace ring,
    the locks, the NMI queue and the crash protocol under every interleaving, with
    progress where the code has it. From end to end: [configured_session] follows a
    configuration from the command line over the tables of the cores and the
    exported file to the line the parser prints; [parse_session] and
    [worker_file_round_trip] follow the entries; [log_file_is_the_log] follows the
    messages of the hypervisor into the file of the controller,
    [process_memory_moves] the bytes of another process and [dump_shows_memory]
    prints them; [hooked_function_runs_hook] goes from the call that installs a hook
    to the instructions a core then fetches, and [reachable_systems_are_well_formed]
    from the start of the driver over any sequence of exits.

    ** Loops and fuel

    Loops over a fixed range are folds. The copy loops of [Introspection] and the
    flush loop of [Hypercall] have fuel: their length is at most the number of
    bytes or entries asked for, since every round makes progress, and the
    theorems show the result for that fuel. The merge of the parser has as many
    rounds as there are entries, the drain of the poller one for every entry left; a
    transfer of memory has one round for every page of its range and one more.
    Other loops are structural.

    ** Not modelled

    What the processor does between a VM entry and an exit, other than that it may
    change its registers, the memory and the guest's part of the VMCS. The
    diagnostic messages of the handlers other than through [Logging]. The parts
    of the controller that only call Windows (terminal, privileges, downloads), the decoding
    of the streams of a PDB file, which is that of a third-party library, and the vendored
    disassembler. The threads of the controller are the steps they make: the body of a
    worker, a round of the snapshot thread, a round of the log thread. *)
From Stdlib Require Import ZArith Lia List Bool.
From stdpp Require Import base numbers list option functions relations.

#[export] Set Default Goal Selector "!".

Declare Scope revhv_scope.
Delimit Scope revhv_scope with revhv.
Global Open Scope Z_scope.
Global Open Scope revhv_scope.

(** ** Machine words

    A [w]-bit unsigned integer of the C++ code is a [Z] kept below [2^w]; every
    operation that can leave the range wraps explicitly. *)
Definition wrap (w x : Z) : Z := x mod 2 ^ w.
Abbreviation u8 := (wrap 8).
Abbreviation u16 := (wrap 16).
Abbreviation u32 := (wrap 32).
Abbreviation u64 := (wrap 64).

Definition add64 (x y : Z) : Z := u64 (x + y).
Definition sub64 (x y : Z) : Z := u64 (x - y).
Definition shl64 (x n : Z) : Z := u64 (Z.shiftl x n).
(** [~x] on 64 bits. *)
Definition not64 (x : Z) : Z := Z.ldiff (Z.ones 64) x.
(** A value that fits a [uint64_t]. *)
Definition is_u64 (x : Z) : Prop := 0 <= x < 2 ^ 64.

(** The signed value of a [w]-bit word. *)
Definition signed (w x : Z) : Z :=
  let x := wrap w x in if x <? 2 ^ (w - 1) then x else x - 2 ^ w.
Abbreviation s32 := (signed 32).

Lemma signed_small w x : 0 <= x < 2 ^ (w - 1) -> signed w x = x.
Proof.
  intros Hx. assert (0 < w) as Hw.
  { destruct (Z.lt_ge_cases 0 w); [done |]. rewrite Z.pow_neg_r in Hx by lia. lia. }
  unfold signed, wrap. assert (2 ^ w = 2 * 2 ^ (w - 1)) as E.
  { rewrite <- Z.pow_succ_r by lia. f_equal. lia. }
  rewrite Z.mod_small by lia. destruct (Z.ltb_spec x (2 ^ (w - 1))); lia.
Qed.

Notation "x +64 y" := (add64 x y) (at level 50, left associativity) : revhv_scope.
Notation "x -64 y" := (sub64 x y) (at level 50, left associativity) : revhv_scope.

(** A bit-field member [len] bits wide that starts at bit [lo] of a register
    union: its value, and assignment to it. *)
Definition bits (x lo len : Z) : Z := Z.land (Z.shiftr x lo) (Z.ones len).
Definition set_bits (x lo len v : Z) : Z :=
  Z.lor (Z.ldiff x (Z.shiftl (Z.ones len) lo)) (Z.shiftl (Z.land v (Z.ones len)) lo).

Definition b2z (b : bool) : Z := if b then 1 else 0.

(** ** Record update

    [r <| field := v |>] is the C++ assignment [r.field = v]. The instance of
    [Eta] for a record names its constructor applied to its projections, and a
    [Setter] is found from it by replacing one projection. *)
Class Eta (R : Type) := eta : R -> R.
Class Setter {R E : Type} (getter : R -> E) := setter : (E -> E) -> R -> R.
Definition set {R E : Type} (getter : R -> E) {S : Setter getter} : (E -> E) -> R -> R := S.

Ltac solve_setter :=
  lazymatch goal with
  | |- @Setter ?R ?E ?getter =>
      let inst := constr:(_ : Eta R) in
      let body := eval hnf in inst in
      exact (fun (f : E -> E) (r : R) => ltac:(
        let b := eval cbv beta in (body r) in
        match b with
        | context C [getter r] => let b' := context C [f (getter r)] in exact b'
        end))
  end.
#[export] Hint Extern 1 (Setter _) => solve_setter : typeclass_instances.

Notation "r <| getter := v |>" := (set getter (fun _ => v) r)
  (at level 1, left associativity, getter constr at level 9, v constr at level 99,
   format "r  <| getter  :=  v |>") : revhv_scope.

(** ** Outcomes

    A routine of the hypervisor returns a value, or ends in
    [error::unrecoverable_host_error] and never returns, or performs an access
    that C++ leaves undefined. *)
Inductive outcome (A : Type) : Type :=
  | Ok (a : A)
  | Crash
  | Undefined.
Arguments Ok {A} a.
Arguments Crash {A}.
Arguments Undefined {A}.

Definition obind {A B} (m : outcome A) (k : A -> outcome B) : outcome B :=
  match m with
  | Ok a => k a
  | Crash => Crash
  | Undefined => Undefined
  end.
Notation "'let!' x ':=' m 'in' k" := (obind m (fun x => k))
  (at level 10, x pattern, m at level 100, k at level 200) : revhv_scope.

Definition is_ok_b {A} (m : outcome A) : bool :=
  match m with Ok _ => true | _ => false end.
Definition is_ok {A} (m : outcome A) : Prop := exists a, m = Ok a.

(** [m] can only return what satisfies [P]. *)
Definition ensures {A} (P : A -> Prop) (m : outcome A) : Prop :=
  match m with Ok a => P a | _ => True end.

Lemma ensures_ok {A} (P : A -> Prop) m a : ensures P m -> m = Ok a -> P a.
Proof. by intros H ->. Qed.

Lemma ensures_impl {A} (P Q : A -> Prop) m : (forall a, P a -> Q a) -> ensures P m -> ensures Q m.
Proof. destruct m; cbn; auto. Qed.

Lemma ensures_bind {A B} (Q : A -> Prop) (P : B -> Prop) m (k : A -> outcome B) :
  ensures Q m -> (forall a, Q a -> ensures P (k a)) -> ensures P (obind m k).
Proof. destruct m; cbn; auto. Qed.

(** ** Bit-level automation *)

Create Rewrite HintDb zbits.
#[export] Hint Rewrite Z.land_spec Z.lor_spec Z.lxor_spec Z.ldiff_spec : zbits.
#[export] Hint Rewrite Z.shiftl_spec Z.shiftr_spec Z.lnot_spec using lia : zbits.
#[export] Hint Rewrite Z.testbit_0_l Z.bits_m1 using lia : zbits.

Lemma testbit_ones_nonneg n i : 0 <= n -> 0 <= i -> Z.testbit (Z.ones n) i = (i <? n).
Proof.
  intros Hn Hi. rewrite Z.testbit_ones by lia.
  destruct (Z.leb_spec 0 i); [done | lia].
Qed.

Lemma testbit_wrap w x i : 0 <= w -> 0 <= i ->
  Z.testbit (wrap w x) i = (i <? w) && Z.testbit x i.
Proof.
  intros Hw Hi. unfold wrap. rewrite <- Z.land_ones by lia.
  rewrite Z.land_spec, testbit_ones_nonneg by lia. apply andb_comm.
Qed.

#[export] Hint Rewrite testbit_ones_nonneg testbit_wrap using lia : zbits.

(** Bits at or above the width of a bounded number are zero. *)
Lemma testbit_above w x i : 0 <= x < 2 ^ w -> w <= i -> Z.testbit x i = false.
Proof.
  intros Hx Hi. destruct (Z.eq_dec x 0) as [-> | Hne]; [apply Z.testbit_0_l |].
  apply Z.bits_above_log2; [lia |].
  apply Z.lt_le_trans with w; [| lia]. apply Z.log2_lt_pow2; lia.
Qed.

(** A non-negative number all of whose bits from [w] on are zero is below [2^w]. *)
Lemma bounded_of_testbit w x :
  0 <= w -> 0 <= x -> (forall i, w <= i -> Z.testbit x i = false) -> x < 2 ^ w.
Proof.
  intros Hw Hx Hb.
  enough (x = x mod 2 ^ w) as -> by (apply Z.mod_pos_bound, Z.pow_pos_nonneg; lia).
  rewrite <- Z.land_ones by lia. apply Z.bits_inj'. intros i Hi.
  rewrite Z.land_spec, testbit_ones_nonneg by lia.
  destruct (Z.ltb_spec i w); [by rewrite andb_true_r |].
  rewrite Hb by lia. done.
Qed.

(** Decide every comparison of bit positions that occurs in the goal. *)
Ltac zcases :=
  repeat match goal with
  | |- context [?a <? ?b] => destruct (Z.ltb_spec a b); try lia
  | |- context [?a <=? ?b] => destruct (Z.leb_spec a b); try lia
  | |- context [?a =? ?b] => destruct (Z.eqb_spec a b); try lia
  end.

(** Bits at a negative position are zero. *)
Ltac znegbits :=
  repeat match goal with
  | |- context [Z.testbit ?x ?i] =>
      lazymatch i with
      | _ - _ => rewrite (Z.testbit_neg_r x i) by lia
      end
  end.

(** Prove an equation between words bit by bit. *)
Ltac zbits :=
  apply Z.bits_inj'; intros ?i ?Hi; autorewrite with zbits; zcases; znegbits;
  autorewrite with zbits; zcases; cbn [andb orb negb xorb];
  try (repeat match goal with
         | |- context [Z.testbit ?x ?j] => destruct (Z.testbit x j) end; done).

(** ** Words *)

Section words.
Implicit Types w x y v lo len : Z.

Lemma wrap_range w x : 0 <= w -> 0 <= wrap w x < 2 ^ w.
Proof. intros. apply Z.mod_pos_bound, Z.pow_pos_nonneg; lia. Qed.

Lemma wrap_small w x : 0 <= x < 2 ^ w -> wrap w x = x.
Proof. intros. by apply Z.mod_small. Qed.

Lemma wrap_wrap w x : 0 <= w -> wrap w (wrap w x) = wrap w x.
Proof. intros. by apply wrap_small, wrap_range. Qed.

Lemma wrap_add_l w x y : wrap w (wrap w x + y) = wrap w (x + y).
Proof. apply Zplus_mod_idemp_l. Qed.

Lemma wrap_add_r w x y : wrap w (x + wrap w y) = wrap w (x + y).
Proof. apply Zplus_mod_idemp_r. Qed.

Lemma wrap_sub_l w x y : wrap w (wrap w x - y) = wrap w (x - y).
Proof. apply Zminus_mod_idemp_l. Qed.

Lemma wrap_sub_r w x y : wrap w (x - wrap w y) = wrap w (x - y).
Proof. apply Zminus_mod_idemp_r. Qed.

Lemma land_ones_mod x n : 0 <= n -> Z.land x (Z.ones n) = x mod 2 ^ n.
Proof. apply Z.land_ones. Qed.

Lemma bits_eq x lo len :
  0 <= lo -> 0 <= len -> bits x lo len = x / 2 ^ lo mod 2 ^ len.
Proof. intros. unfold bits. by rewrite Z.land_ones, Z.shiftr_div_pow2 by lia. Qed.

Lemma bits_range x lo len : 0 <= len -> 0 <= bits x lo len < 2 ^ len.
Proof.
  intros. unfold bits. rewrite Z.land_ones by lia.
  apply Z.mod_pos_bound, Z.pow_pos_nonneg; lia.
Qed.

Lemma testbit_bits x lo len i :
  0 <= lo -> 0 <= len -> 0 <= i ->
  Z.testbit (bits x lo len) i = (i <? len) && Z.testbit x (i + lo).
Proof.
  intros. unfold bits. autorewrite with zbits. apply andb_comm.
Qed.

Lemma testbit_set_bits x lo len v i :
  0 <= lo -> 0 <= len -> 0 <= i ->
  Z.testbit (set_bits x lo len v) i =
    if (lo <=? i) && (i <? lo + len) then Z.testbit v (i - lo) else Z.testbit x i.
Proof.
  intros. unfold set_bits. autorewrite with zbits.
  destruct (Z.leb_spec lo i); cbn [andb].
  - rewrite testbit_ones_nonneg by lia.
    destruct (Z.ltb_spec (i - lo) len), (Z.ltb_spec i (lo + len)); try lia;
      cbn [negb]; by rewrite ?andb_false_r, ?andb_true_r, ?orb_false_r.
  - rewrite !(Z.testbit_neg_r _ (i - lo)) by lia.
    by rewrite andb_false_l, orb_false_r, andb_true_r.
Qed.

Lemma bits_set_bits_same x lo len v :
  0 <= lo -> 0 <= len -> bits (set_bits x lo len v) lo len = wrap len v.
Proof.
  intros. apply Z.bits_inj'. intros i Hi.
  rewrite testbit_bits, testbit_set_bits, testbit_wrap by lia.
  destruct (Z.ltb_spec i len); [| done]. cbn [andb].
  destruct (Z.leb_spec lo (i + lo)); [| lia].
  destruct (Z.ltb_spec (i + lo) (lo + len)); [| lia].
  cbn [andb]. f_equal. lia.
Qed.

Lemma bits_set_bits_other x lo len v lo' len' :
  0 <= lo -> 0 <= len -> 0 <= lo' -> 0 <= len' ->
  lo' + len' <= lo \/ lo + len <= lo' ->
  bits (set_bits x lo len v) lo' len' = bits x lo' len'.
Proof.
  intros ? ? ? ? Hd. apply Z.bits_inj'. intros i Hi.
  rewrite !testbit_bits, testbit_set_bits by lia.
  destruct (Z.ltb_spec i len'); [| done]. cbn [andb].
  destruct (Z.leb_spec lo (i + lo')); [| done].
  destruct (Z.ltb_spec (i + lo') (lo + len)); [lia | done].
Qed.

Lemma testbit_not64 x i :
  0 <= i -> Z.testbit (not64 x) i = (i <? 64) && negb (Z.testbit x i).
Proof. intros. unfold not64. by autorewrite with zbits. Qed.

(** Rounding down to a power of two by masking. *)
Lemma land_not64_ones x n :
  is_u64 x -> 0 <= n <= 64 -> Z.land x (not64 (Z.ones n)) = x / 2 ^ n * 2 ^ n.
Proof.
  intros Hx Hn. rewrite <- Z.shiftr_div_pow2, <- Z.shiftl_mul_pow2 by lia.
  apply Z.bits_inj'. intros i Hi.
  rewrite Z.land_spec, testbit_not64, testbit_ones_nonneg, Z.shiftl_spec by lia.
  destruct (Z.ltb_spec i n); cbn [negb].
  - rewrite !andb_false_r. symmetry. apply Z.testbit_neg_r. lia.
  - rewrite Z.shiftr_spec, Z.sub_add, andb_true_r by lia.
    destruct (Z.ltb_spec i 64); [by rewrite andb_true_r |].
    by rewrite (testbit_above 64 x i) by (lia || done).
Qed.

Lemma set_bits_u64 x lo len v :
  is_u64 x -> 0 <= lo -> 0 <= len -> lo + len <= 64 -> is_u64 (set_bits x lo len v).
Proof.
  intros Hx Hlo Hlen Hsum.
  assert (0 <= set_bits x lo len v).
  { apply Z.lor_nonneg. split; [apply Z.ldiff_nonneg; left; apply Hx |].
    apply Z.shiftl_nonneg, Z.land_nonneg. right.
    rewrite Z.ones_equiv. pose proof (Z.pow_pos_nonneg 2 len). lia. }
  split; [done |]. apply bounded_of_testbit; [lia | done |].
  intros i Hi. rewrite testbit_set_bits by lia. zcases; cbn [andb];
    by apply (testbit_above 64 x).
Qed.
End words.
#[export] Hint Rewrite testbit_not64 testbit_bits testbit_set_bits using lia : zbits.
Create HintDb zrange.
#[export] Hint Resolve wrap_range bits_range : zrange.

(** ** Ranges of integers *)

Lemma map_seqZ_add {A} (f : Z -> A) m k n :
  map f (seqZ (m + k) n) = map (fun j => f (m + j)) (seqZ k n).
Proof.
  rewrite <- fmap_add_seqZ. unfold fmap. change list_fmap with map. apply map_map.
Qed.

Lemma seqZ_succ m n : 0 <= n -> seqZ m (Z.succ n) = seqZ m n ++ [m + n].
Proof.
  intros Hn. rewrite <- Z.add_1_r, seqZ_app by lia. done.
Qed.

Lemma map_seqZ_succ {A} (f : Z -> A) n :
  map f (seqZ (Z.succ 0) n) = map (fun j => f (1 + j)) (seqZ 0 n).
Proof. apply (map_seqZ_add f 1 0). Qed.

(** Updates of a function at every index of a range. *)
Lemma fold_insert_seqZ {A} (g : Z -> A) (f : Z -> A) m n i :
  fold_left (fun f j => <[j := g j]> f) (seqZ m n) f i =
  if (m <=? i) && (i <? m + n) then g i else f i.
Proof.
  destruct (Z.le_gt_cases 0 n) as [Hn |].
  2: { rewrite seqZ_nil by lia. cbn [fold_left]. zcases; done. }
  revert m f. pattern n. apply natlike_ind; [| | exact Hn].
  - intros m f. rewrite seqZ_nil by lia. cbn [fold_left]. zcases; done.
  - intros k Hk IH m f. rewrite seqZ_cons by lia. cbn [fold_left].
    rewrite Z.pred_succ, IH. unfold insert, fn_insert.
    destruct (decide (m = i)) as [-> |]; zcases; done.
Qed.

(** ** Sums over the cores *)

(** The sum of [w] over the indices below [n]. *)
Fixpoint total (n : nat) (w : nat -> nat) : nat :=
  match n with
  | O => 0
  | S n => total n w + w n
  end.

Lemma total_ext n w w' : (forall d, (d < n)%nat -> w d = w' d) -> total n w = total n w'.
Proof.
  induction n as [| n IH]; intros H; [done |]. cbn. rewrite IH by (intros; apply H; lia).
  by rewrite H by lia.
Qed.

(** Changing the weight of one index. *)
Lemma total_update n w w' c :
  (c < n)%nat -> (forall d, d <> c -> w' d = w d) -> (total n w' + w c = total n w + w' c)%nat.
Proof.
  induction n as [| n IH]; intros Hc H; [lia |]. cbn.
  destruct (decide (c = n)) as [-> | Hne].
  - rewrite (total_ext n w' w) by (intros; apply H; lia). lia.
  - rewrite (H n) by congruence. specialize (IH ltac:(lia) H). lia.
Qed.

Lemma total_bound n w k : (forall d, (d < n)%nat -> (w d <= k)%nat) -> (total n w <= n * k)%nat.
Proof.
  induction n as [| n IH]; intros H; [done |]. cbn [total].
  specialize (IH ltac:(intros; apply H; lia)). specialize (H n ltac:(lia)). lia.
Qed.

Lemma total_full n w :
  (forall d, (w d <= 1)%nat) -> (n <= total n w)%nat -> forall d, (d < n)%nat -> w d = 1%nat.
Proof.
  induction n as [| n IH]; intros H Hn d Hd; [lia |]. cbn [total] in Hn.
  pose proof (total_bound n w 1 ltac:(auto)). pose proof (H n).
  destruct (decide (d = n)) as [-> |]; [lia |]. apply IH; [done | lia | lia].
Qed.

Lemma total_le n w w' : (forall d, (d < n)%nat -> (w d <= w' d)%nat) -> (total n w <= total n w')%nat.
Proof.
  induction n as [| n IH]; intros H; [done |]. cbn [total].
  specialize (IH ltac:(intros; apply H; lia)). specialize (H n ltac:(lia)). lia.
Qed.

(** ** Schedules *)

(** Perform a sequence of events; [None] when one of them cannot happen. *)
Fixpoint replay {S E} (perform : S -> E -> option S) (s : S) (es : list E) : option S :=
  match es with
  | [] => Some s
  | e :: es => match perform s e with Some s => replay perform s es | None => None end
  end.

Lemma replay_rtc {S E} (perform : S -> E -> option S) (R : S -> S -> Prop) es s s' :
  (forall s e s', perform s e = Some s' -> R s s') -> replay perform s es = Some s' -> rtc R s s'.
Proof.
  intros HR. revert s. induction es as [| e es IH]; intros s H.
  - injection H as <-. apply rtc_refl.
  - cbn [replay] in H. destruct (perform s e) as [s1 |] eqn:E1; [| done].
    eapply rtc_l; [by eapply HR | by apply IH].
Qed.

(** An invariant of the steps holds wherever they lead. *)
Lemma rtc_invariant {S} (R : S -> S -> Prop) (P : S -> Prop) s s' :
  (forall a b, P a -> R a b -> P b) -> P s -> rtc R s s' -> P s'.
Proof. intros HR HP H. induction H as [| a b c Hab _ IH]; [done |]. by eauto. Qed.
