(* ===== verification/Memory.v ===== *)
(** * Byte-addressed memory

    Physical memory and the buffers of the hypervisor as functions from
    addresses to bytes, with the little-endian accesses of the C++ code
    ([__movsb] copies and 64-bit dereferences). *)
From Stdlib Require Import ZArith Lia String Ascii List Bool.
From stdpp Require Import base numbers list option functions.
From S2P Require Import Prelude.

Definition mem : Type := Z -> Z.

(** [n] bytes from address [a]. *)
Definition load (m : mem) (a n : Z) : list Z := map (fun i => m (a + i)) (seqZ 0 n).

(** The bytes [bs] written from address [a]. *)
Definition store (m : mem) (a : Z) (bs : list Z) : mem := fun x =>
  if (a <=? x) && (x <? a + Z.of_nat (length bs)) then nth (Z.to_nat (x - a)) bs 0 else m x.

Fixpoint le_combine (bs : list Z) : Z :=
  match bs with
  | [] => 0
  | b :: bs => b + 256 * le_combine bs
  end.

Fixpoint le_split (n : nat) (x : Z) : list Z :=
  match n with
  | O => []
  | S n => x mod 256 :: le_split n (x / 256)
  end.

Definition read64 (m : mem) (a : Z) : Z := le_combine (load m a 8).
Definition write64 (m : mem) (a v : Z) : mem := store m a (le_split 8 v).

(** A buffer with the bytes [bs] copied in at [off]. *)
Definition overlay (buf : list Z) (off : Z) (bs : list Z) : list Z :=
  take (Z.to_nat off) buf ++ bs ++ drop (Z.to_nat off + length bs) buf.

(** [n] bytes of a buffer from [off]. *)
Definition slice (buf : list Z) (off n : Z) : list Z := take (Z.to_nat n) (drop (Z.to_nat off) buf).

(** Every byte of memory is a byte. *)
Definition mem_ok (m : mem) : Prop := forall a, 0 <= m a < 256.

Section memory.
Implicit Types (m : mem) (a b n : Z) (bs : list Z).

Lemma load_length m a n : length (load m a n) = Z.to_nat n.
Proof. unfold load. by rewrite length_map, length_seqZ. Qed.

Lemma load_ext m m' a a' n :
  (forall i, 0 <= i < n -> m (a + i) = m' (a' + i)) -> load m a n = load m' a' n.
Proof.
  intros Hext. apply map_ext_in. intros i Hi. apply Hext.
  apply list_elem_of_In, elem_of_seqZ in Hi. lia.
Qed.

Lemma load_nil m a n : n <= 0 -> load m a n = [].
Proof. intros. unfold load. by rewrite seqZ_nil. Qed.

Lemma load_app m a n n' :
  0 <= n -> 0 <= n' -> load m a (n + n') = load m a n ++ load m (a + n) n'.
Proof.
  intros Hn Hn'. unfold load. rewrite seqZ_app by lia. rewrite map_app. f_equal.
  rewrite Z.add_comm, map_seqZ_add. apply map_ext. intros i. f_equal. lia.
Qed.

Lemma load_cons m a n : 0 < n -> load m a n = m a :: load m (a + 1) (n - 1).
Proof.
  intros Hn. unfold load. rewrite seqZ_cons by lia. cbn [map]. rewrite Z.add_0_r.
  f_equal. rewrite map_seqZ_succ, Z.sub_1_r. apply map_ext. intros i. f_equal. lia.
Qed.

Lemma store_in m a bs x :
  a <= x < a + Z.of_nat (length bs) -> store m a bs x = nth (Z.to_nat (x - a)) bs 0.
Proof. intros. unfold store. zcases; done. Qed.

Lemma store_out m a bs x :
  x < a \/ a + Z.of_nat (length bs) <= x -> store m a bs x = m x.
Proof. intros. unfold store. zcases; done. Qed.

Lemma store_nil m a x : store m a [] x = m x.
Proof. apply store_out. cbn. lia. Qed.

Lemma store_cons m a b bs x : store m a (b :: bs) x = store (<[a := b]> m) (a + 1) bs x.
Proof.
  unfold store, insert, fn_insert. cbn [length].
  destruct (decide (a = x)) as [<- |].
  - rewrite Z.sub_diag. zcases; done.
  - replace (Z.to_nat (x - a)) with (if a <? x then S (Z.to_nat (x - (a + 1))) else 0%nat)
      by (zcases; lia).
    zcases; done.
Qed.

(** A store of two pieces is the two stores, in either order. *)
Lemma store_app m a bs bs' x :
  store m a (bs ++ bs') x = store (store m a bs) (a + Z.of_nat (length bs)) bs' x.
Proof.
  unfold store. rewrite length_app.
  destruct (Z.ltb_spec x (a + Z.of_nat (length bs))).
  - destruct (Z.leb_spec a x); zcases; cbn [andb]; try done.
    rewrite app_nth1 by lia. done.
  - destruct (Z.leb_spec a x); zcases; cbn [andb]; try done.
    rewrite app_nth2 by lia. f_equal. lia.
Qed.

Lemma load_store_same m a bs n :
  n = Z.of_nat (length bs) -> load (store m a bs) a n = bs.
Proof.
  intros ->. apply (nth_ext _ _ 0 0); rewrite load_length, Nat2Z.id; [done |].
  intros i Hi. unfold load.
  rewrite (nth_indep _ 0 (store m a bs (a + 0))) by (rewrite length_map, length_seqZ; lia).
  rewrite (map_nth (fun i => store m a bs (a + i))).
  assert (nth i (seqZ 0 (Z.of_nat (length bs))) 0 = Z.of_nat i) as ->.
  { erewrite nth_lookup, lookup_seqZ_lt by lia. cbn. lia. }
  rewrite store_in by lia. f_equal. lia.
Qed.

Lemma load_store_other m a bs b n :
  b + n <= a \/ a + Z.of_nat (length bs) <= b -> load (store m a bs) b n = load m b n.
Proof. intros. apply load_ext. intros i Hi. apply store_out. lia. Qed.

Lemma le_split_length (k : nat) x : length (le_split k x) = k.
Proof. revert x. induction k as [| k IH]; intros x; cbn; [done | by rewrite IH]. Qed.

Lemma le_combine_split (k : nat) x :
  0 <= x < 256 ^ Z.of_nat k -> le_combine (le_split k x) = x.
Proof.
  revert x. induction k as [| k IH]; intros x Hx.
  - rewrite Z.pow_0_r in Hx. cbn. lia.
  - cbn [le_split le_combine]. rewrite IH.
    + pose proof (Z.div_mod x 256). lia.
    + rewrite Nat2Z.inj_succ, Z.pow_succ_r in Hx by lia.
      pose proof (Z.div_le_lower_bound x 256 0 ltac:(lia) ltac:(lia)).
      pose proof (Z.div_lt_upper_bound x 256 (256 ^ Z.of_nat k) ltac:(lia) ltac:(lia)). lia.
Qed.

Lemma le_combine_range bs :
  Forall (fun b => 0 <= b < 256) bs -> 0 <= le_combine bs < 256 ^ Z.of_nat (length bs).
Proof.
  induction 1 as [| b bs Hb Hbs IH]; cbn [le_combine length]; [cbn; lia |].
  rewrite Nat2Z.inj_succ, Z.pow_succ_r by lia. lia.
Qed.

Lemma read64_range m a : mem_ok m -> is_u64 (read64 m a).
Proof.
  intros Hm. unfold is_u64, read64.
  change (2 ^ 64) with (256 ^ Z.of_nat (length (load m a 8))).
  apply le_combine_range. apply Forall_map, Forall_true. intros. apply Hm.
Qed.

Lemma read64_write64_same m a v : is_u64 v -> read64 (write64 m a v) a = v.
Proof.
  intros Hv. unfold read64, write64. rewrite load_store_same by done.
  by apply le_combine_split.
Qed.

Lemma read64_write64_other m a b v :
  b + 8 <= a \/ a + 8 <= b -> read64 (write64 m a v) b = read64 m b.
Proof.
  intros. unfold read64, write64. rewrite load_store_other; [done |].
  rewrite le_split_length. lia.
Qed.

Lemma load_mem_ok m a n : mem_ok m -> Forall (fun b => 0 <= b < 256) (load m a n).
Proof. intros Hm. apply Forall_map, Forall_true. intros. apply Hm. Qed.

Lemma store_mem_ok m a bs :
  mem_ok m -> Forall (fun b => 0 <= b < 256) bs -> mem_ok (store m a bs).
Proof.
  intros Hm Hbs x. unfold store. destruct (_ && _) eqn:E; [| apply Hm].
  rewrite List.Forall_forall in Hbs. apply Hbs, nth_In. lia.
Qed.

(** ** Buffers *)

Lemma overlay_length buf off bs :
  0 <= off -> off + Z.of_nat (length bs) <= Z.of_nat (length buf) ->
  length (overlay buf off bs) = length buf.
Proof.
  intros. unfold overlay. rewrite !length_app, length_take, length_drop, Nat.min_l by lia. lia.
Qed.

(** Consecutive copies into a buffer are one copy. *)
Lemma overlay_overlay buf off bs bs' :
  0 <= off -> off + Z.of_nat (length bs) <= Z.of_nat (length buf) ->
  overlay (overlay buf off bs) (off + Z.of_nat (length bs)) bs' = overlay buf off (bs ++ bs').
Proof.
  intros H0 Hle. unfold overlay.
  replace (Z.to_nat (off + Z.of_nat (length bs))) with (Z.to_nat off + length bs)%nat by lia.
  set (p := take (Z.to_nat off) buf ++ bs).
  assert (length p = (Z.to_nat off + length bs)%nat) as Hp.
  { unfold p. rewrite length_app, length_take, Nat.min_l by lia. lia. }
  rewrite (app_assoc (take _ buf) bs). fold p. rewrite <- Hp, take_app_length.
  rewrite length_app, Nat.add_assoc, <- Hp.
  replace (drop (length p + length bs') (p ++ drop (length p) buf))
    with (drop (length bs') (drop (length p) (p ++ drop (length p) buf)))
    by (by rewrite drop_drop).
  rewrite drop_app_length, drop_drop. unfold p. by rewrite <- !app_assoc.
Qed.

Lemma slice_length buf off n :
  0 <= off -> 0 <= n -> off + n <= Z.of_nat (length buf) ->
  Z.of_nat (length (slice buf off n)) = n.
Proof. intros. unfold slice. rewrite length_take, length_drop, Nat.min_l by lia. lia. Qed.

Lemma nth_slice buf off n i :
  0 <= off -> 0 <= i < n -> off + n <= Z.of_nat (length buf) ->
  nth (Z.to_nat i) (slice buf off n) 0 = nth (Z.to_nat (off + i)) buf 0.
Proof.
  intros. unfold slice. rewrite !nth_lookup, lookup_take_lt, lookup_drop by lia.
  do 2 f_equal. lia.
Qed.
End memory.

(** ** Strings *)

(** A C string is the list of its bytes before the terminator; of a literal: *)
Definition chr (c : ascii) : Z := Z.of_nat (nat_of_ascii c).
Definition bytes (s : string) : list Z := map chr (list_ascii_of_string s).

(** The bytes of an array up to the first zero. *)
Fixpoint cstr (buf : list Z) : list Z :=
  match buf with
  | [] => []
  | c :: buf => if c =? 0 then [] else c :: cstr buf
  end.

Definition nonzero (l : list Z) : Prop := Forall (fun c => c <> 0) l.

Lemma cstr_terminated l rest : nonzero l -> cstr (l ++ 0 :: rest) = l.
Proof.
  induction 1 as [| c l Hc Hl IH]; [done |]. cbn [app cstr]. destruct (Z.eqb_spec c 0); [done |].
  by rewrite IH.
Qed.

(** A test for a literal. *)
Lemma nonzero_check l : forallb (fun c => negb (c =? 0)) l = true -> nonzero l.
Proof.
  intros H. apply List.Forall_forall. intros c Hc. rewrite forallb_forall in H.
  specialize (H c Hc). by destruct (Z.eqb_spec c 0).
Qed.
