(* ===== verification/Trace.v ===== *)
(** * Trace logging: [common/trace_log.hpp] and [revhv-km/trace.h]

    The binary trace entry, the per-core single-producer / single-consumer ring
    buffer, its two operations run to completion ([emit], [drain]), and the
    same two operations as interleaved memory accesses ([Spsc]). *)
From Stdlib Require Import ZArith Lia List Bool.
From stdpp Require Import base numbers list option functions.
From S2P Require Import Prelude Memory.

(** ** Data *)

Definition max_data_fields : Z := 6.
Definition ring_buffer_entry_count : Z := 8192.
Definition ring_buffer_index_mask : Z := ring_buffer_entry_count - 1.
Definition max_flush_entries : Z := 512.
Definition fmt_ept_target_transition : Z := 1.
Definition sizeof_entry : Z := 64.

(** [trace::ept_transition_data_field]; the configuration bytes come from the
    guest, so a value outside the enumeration is possible. *)
Inductive ept_transition_data_field : Type :=
  | field_none
  | guest_rip
  | guest_rsp
  | guest_rax
  | guest_rbx
  | guest_rcx
  | guest_rdx
  | guest_rsi
  | guest_rdi
  | guest_rbp
  | guest_r8
  | guest_r9
  | guest_r10
  | guest_r11
  | guest_r12
  | guest_r13
  | guest_r14
  | guest_r15
  | guest_retaddr
  | field_other (n : Z).

#[export] Instance ept_transition_data_field_eq_dec :
  EqDecision ept_transition_data_field.
Proof. solve_decision. Defined.

(** The numeric value of a field descriptor. *)
Definition field_of_byte (b : Z) : ept_transition_data_field :=
  nth (Z.to_nat b)
    [field_none; guest_rip; guest_rsp; guest_rax; guest_rbx; guest_rcx;
     guest_rdx; guest_rsi; guest_rdi; guest_rbp; guest_r8; guest_r9; guest_r10;
     guest_r11; guest_r12; guest_r13; guest_r14; guest_r15; guest_retaddr]
    (field_other b).

(** [ept_transition_cfg::data_map], six slots. *)
Definition ept_transition_cfg : Type := list ept_transition_data_field.

Definition default_generic_cfg : ept_transition_cfg :=
  [guest_rip; guest_retaddr; field_none; field_none; field_none; field_none].

Record entry := mk_entry {
  format_id : Z;
  core_id : Z;
  pad0 : Z;
  timestamp : Z;
  data0 : Z; data1 : Z; data2 : Z; data3 : Z; data4 : Z; data5 : Z
}.

(** [e.data[i]]. *)
Definition entry_data (e : entry) (i : nat) : Z :=
  nth i [data0 e; data1 e; data2 e; data3 e; data4 e; data5 e] 0.

Definition zero_entry : entry := mk_entry 0 0 0 0 0 0 0 0 0 0.

(** The bytes of an entry in memory and in a trace file. *)
Definition entry_bytes (e : entry) : list Z :=
  le_split 2 (format_id e) ++ le_split 2 (core_id e) ++ le_split 4 (pad0 e) ++ le_split 8 (timestamp e) ++
  concat (map (le_split 8) [data0 e; data1 e; data2 e; data3 e; data4 e; data5 e]).

Lemma entry_bytes_length e : length (entry_bytes e) = 64%nat.
Proof. reflexivity. Qed.

Record ring_buffer := mk_ring {
  write_head : Z;
  read_tail : Z;
  active : Z;
  entries : Z -> entry
}.
#[export] Instance eta_ring_buffer : Eta ring_buffer :=
  fun b => mk_ring (write_head b) (read_tail b) (active b) (entries b).

Definition next_index (i : Z) : Z := Z.land (i + 1) ring_buffer_index_mask.

(** [hv::trace::emit]; [tsc] is the value [__rdtsc()] returns. *)
Definition emit (buf : ring_buffer) (fmt core tsc d0 d1 d2 d3 d4 d5 : Z) : ring_buffer :=
  if active buf =? 0 then buf
  else
    let head := write_head buf in
    let next := next_index head in
    if next =? read_tail buf then buf
    else
      let e := mk_entry fmt core 0 tsc d0 d1 d2 d3 d4 d5 in
      buf <| entries := <[head := e]> (entries buf) |> <| write_head := next |>.

(** The copying loop of [hv::trace::drain]: [n] is [max_entries - count]. *)
Fixpoint drain_loop (buf : ring_buffer) (n : nat) (tail : Z) : list entry * Z :=
  match n with
  | O => ([], tail)
  | S n' =>
      if tail =? write_head buf then ([], tail)
      else
        let '(out, tail') := drain_loop buf n' (next_index tail) in
        (entries buf tail :: out, tail')
  end.

(** [hv::trace::drain]: the entries copied to [out_entries], whose number is
    the returned count, and the buffer with the new read position. *)
Definition drain (buf : ring_buffer) (max_entries : Z) : list entry * ring_buffer :=
  let '(out, tail) := drain_loop buf (Z.to_nat max_entries) (read_tail buf) in
  (out, buf <| read_tail := tail |>).

(** ** Abstract specification: a bounded FIFO queue *)

Definition ring_wf (buf : ring_buffer) : Prop :=
  0 <= write_head buf < ring_buffer_entry_count /\
  0 <= read_tail buf < ring_buffer_entry_count.

(** How many entries wait between the two indices. *)
Definition pending (buf : ring_buffer) : nat :=
  Z.to_nat ((write_head buf - read_tail buf) mod ring_buffer_entry_count).

(** The waiting entries, oldest first. *)
Definition queue_from (buf : ring_buffer) (tail : Z) (n : nat) : list entry :=
  map (fun k => entries buf ((tail + Z.of_nat k) mod ring_buffer_entry_count)) (seq 0 n).
Definition queue (buf : ring_buffer) : list entry :=
  queue_from buf (read_tail buf) (pending buf).

(** The capacity: one slot always stays free. *)
Definition queue_capacity : Z := ring_buffer_entry_count - 1.

Definition queue_push (q : list entry) (e : entry) : list entry :=
  if Z.of_nat (length q) =? queue_capacity then q else q ++ [e].

(** ** Index arithmetic *)

Lemma next_index_mod i : next_index i = (i + 1) mod ring_buffer_entry_count.
Proof. unfold next_index. change ring_buffer_index_mask with (Z.ones 13). by rewrite Z.land_ones. Qed.

Lemma ring_mod_range i : 0 <= i mod ring_buffer_entry_count < ring_buffer_entry_count.
Proof. by apply Z.mod_pos_bound. Qed.
#[export] Hint Resolve ring_mod_range : zrange.

Lemma next_index_range i : 0 <= next_index i < ring_buffer_entry_count.
Proof. rewrite next_index_mod. apply ring_mod_range. Qed.

(** Distinct positions less than one lap apart use distinct slots. *)
Lemma ring_slot_ne i j :
  i < j < i + ring_buffer_entry_count ->
  i mod ring_buffer_entry_count <> j mod ring_buffer_entry_count.
Proof.
  unfold ring_buffer_entry_count. intros Hij Heq.
  pose proof (Z.div_mod i 8192 ltac:(lia)). pose proof (Z.div_mod j 8192 ltac:(lia)). lia.
Qed.

Lemma ring_mod_add_l i k :
  (i mod ring_buffer_entry_count + k) mod ring_buffer_entry_count
  = (i + k) mod ring_buffer_entry_count.
Proof. apply Zplus_mod_idemp_l. Qed.

Lemma pending_bound buf : Z.of_nat (pending buf) <= queue_capacity.
Proof.
  unfold pending, queue_capacity.
  pose proof (ring_mod_range (write_head buf - read_tail buf)).
  unfold ring_buffer_entry_count in *. lia.
Qed.

Lemma queue_length buf : length (queue buf) = pending buf.
Proof. unfold queue, queue_from. by rewrite length_map, length_seq. Qed.

Lemma pending_zero buf : ring_wf buf -> pending buf = O <-> read_tail buf = write_head buf.
Proof.
  intros [Hh Ht]. unfold pending. pose proof (ring_mod_range (write_head buf - read_tail buf)).
  split; intros Heq.
  - assert ((write_head buf - read_tail buf) mod ring_buffer_entry_count = 0) as Hz by lia.
    unfold ring_buffer_entry_count in *.
    pose proof (Z.div_mod (write_head buf - read_tail buf) 8192 ltac:(lia)). lia.
  - rewrite Heq, Z.sub_diag. done.
Qed.

(** The slots of the queue depend only on the entries strictly before the head. *)
Lemma queue_from_S buf tail n :
  queue_from buf tail (S n) =
    entries buf (tail mod ring_buffer_entry_count) :: queue_from buf (next_index tail) n.
Proof.
  unfold queue_from. cbn [seq map]. rewrite Z.add_0_r. f_equal.
  rewrite <- seq_shift, map_map. apply map_ext. intros k.
  rewrite next_index_mod, ring_mod_add_l. do 2 f_equal. lia.
Qed.

Lemma queue_from_snoc buf tail n :
  queue_from buf tail (S n) =
    queue_from buf tail n ++ [entries buf ((tail + Z.of_nat n) mod ring_buffer_entry_count)].
Proof. unfold queue_from. by rewrite seq_S, map_app. Qed.

Lemma next_index_full buf :
  ring_wf buf ->
  next_index (write_head buf) = read_tail buf <->
  Z.of_nat (pending buf) = queue_capacity.
Proof.
  intros [Hh Ht]. rewrite next_index_mod. unfold pending, queue_capacity.
  pose proof (ring_mod_range (write_head buf - read_tail buf)).
  rewrite Z2Nat.id by lia. unfold ring_buffer_entry_count in *.
  pose proof (Z.div_mod (write_head buf - read_tail buf) 8192 ltac:(lia)).
  pose proof (Z.div_mod (write_head buf + 1) 8192 ltac:(lia)).
  pose proof (Z.mod_pos_bound (write_head buf + 1) 8192 ltac:(lia)).
  lia.
Qed.

(** Writing at the head touches no waiting slot, and publishing appends it. *)
Lemma queue_publish buf e :
  ring_wf buf -> Z.of_nat (pending buf) <> queue_capacity ->
  queue (buf <| entries := <[write_head buf := e]> (entries buf) |>
             <| write_head := next_index (write_head buf) |>) = queue buf ++ [e].
Proof.
  intros Hwf Hroom. pose proof (pending_bound buf) as Hb.
  set (buf' := buf <| entries := _ |> <| write_head := _ |>).
  pose proof Hwf as [Hh Ht].
  assert (pending buf' = S (pending buf)) as Hp.
  { unfold pending in *. cbn. rewrite next_index_mod. unfold queue_capacity in *.
    pose proof (ring_mod_range (write_head buf - read_tail buf)).
    unfold ring_buffer_entry_count in *. rewrite Zminus_mod_idemp_l.
    pose proof (Z.div_mod (write_head buf - read_tail buf) 8192 ltac:(lia)).
    pose proof (Z.div_mod (write_head buf + 1 - read_tail buf) 8192 ltac:(lia)).
    pose proof (Z.mod_pos_bound (write_head buf + 1 - read_tail buf) 8192 ltac:(lia)).
    lia. }
  unfold queue. rewrite Hp, queue_from_snoc. cbn.
  assert ((read_tail buf + Z.of_nat (pending buf)) mod ring_buffer_entry_count
          = write_head buf) as Hlast.
  { unfold pending. rewrite Z2Nat.id by apply ring_mod_range.
    rewrite Zplus_mod_idemp_r, Zplus_minus. by apply Z.mod_small. }
  f_equal; [| by rewrite Hlast, fn_lookup_insert].
  apply map_ext_in. intros k [_ Hk]%in_seq. cbn.
  rewrite fn_lookup_insert_ne; [done |]. rewrite <- Hlast.
  intros Heq. symmetry in Heq. revert Heq. apply ring_slot_ne.
  unfold queue_capacity in *. lia.
Qed.

(** ** Properties of the operations *)

Lemma drain_loop_spec buf n tail :
  0 <= tail < ring_buffer_entry_count ->
  let '(out, tail') := drain_loop buf n tail in
  let q := queue_from buf tail (Z.to_nat ((write_head buf - tail) mod ring_buffer_entry_count)) in
  0 <= write_head buf < ring_buffer_entry_count ->
  0 <= tail' < ring_buffer_entry_count /\
  out = take n q /\
  queue_from buf tail' (Z.to_nat ((write_head buf - tail') mod ring_buffer_entry_count)) = drop n q.
Proof.
  revert tail. induction n as [| n IH]; intros tail Ht; cbn [drain_loop]; [done |].
  destruct (Z.eqb_spec tail (write_head buf)) as [-> | Hne].
  - intros Hh. rewrite Z.sub_diag. done.
  - specialize (IH (next_index tail) (next_index_range tail)).
    destruct (drain_loop buf n (next_index tail)) as [out tail'].
    intros Hh. destruct (IH Hh) as (IH1 & IH2 & IH3).
    assert (Z.to_nat ((write_head buf - tail) mod ring_buffer_entry_count)
      = S (Z.to_nat ((write_head buf - next_index tail) mod ring_buffer_entry_count))) as ->.
    { rewrite next_index_mod. unfold ring_buffer_entry_count in *. rewrite Zminus_mod_idemp_r.
      pose proof (Z.div_mod (write_head buf - tail) 8192 ltac:(lia)).
      pose proof (Z.mod_pos_bound (write_head buf - tail) 8192 ltac:(lia)).
      pose proof (Z.div_mod (write_head buf - (tail + 1)) 8192 ltac:(lia)).
      pose proof (Z.mod_pos_bound (write_head buf - (tail + 1)) 8192 ltac:(lia)).
      lia. }
    rewrite queue_from_S, Z.mod_small by done. cbn [take drop].
    split; [done |]. split; [by rewrite IH2 | done].
Qed.

Lemma emit_ok buf fmt core tsc d0 d1 d2 d3 d4 d5 :
  ring_wf buf ->
  let buf' := emit buf fmt core tsc d0 d1 d2 d3 d4 d5 in
  ring_wf buf' /\
  queue buf' =
    (if active buf =? 0 then queue buf
     else queue_push (queue buf) (mk_entry fmt core 0 tsc d0 d1 d2 d3 d4 d5)).
Proof.
  intros Hwf. unfold emit, queue_push. rewrite queue_length.
  destruct (Z.eqb_spec (active buf) 0); [done |].
  pose proof (next_index_full buf Hwf) as Hfull.
  destruct (Z.eqb_spec (next_index (write_head buf)) (read_tail buf)) as [E | E].
  - apply Hfull in E. rewrite E. by rewrite Z.eqb_refl.
  - destruct (Z.eqb_spec (Z.of_nat (pending buf)) queue_capacity); [tauto |].
    split; [| by apply queue_publish].
    split; [apply next_index_range | apply Hwf].
Qed.

(** Emitting into an active ring buffer appends the entry to the queue of
    waiting entries, except when 8191 entries already wait, in which case the
    entry is dropped and nothing changes; an inactive buffer is unchanged. *)
Theorem emit_refines_queue_push buf fmt core tsc d0 d1 d2 d3 d4 d5 :
  ring_wf buf ->
  let buf' := emit buf fmt core tsc d0 d1 d2 d3 d4 d5 in
  ring_wf buf' /\
  queue buf' =
    (if active buf =? 0 then queue buf
     else queue_push (queue buf) (mk_entry fmt core 0 tsc d0 d1 d2 d3 d4 d5)).
Proof. apply emit_ok. Qed.

Lemma drain_ok buf max_entries :
  ring_wf buf ->
  let '(out, buf') := drain buf max_entries in
  ring_wf buf' /\
  out = take (Z.to_nat max_entries) (queue buf) /\
  queue buf' = drop (Z.to_nat max_entries) (queue buf).
Proof.
  intros [Hh Ht]. unfold drain.
  pose proof (drain_loop_spec buf (Z.to_nat max_entries) (read_tail buf) Ht) as Hd.
  destruct (drain_loop buf (Z.to_nat max_entries) (read_tail buf)) as [out tail].
  destruct (Hd Hh) as (H1 & H2 & H3). done.
Qed.

(** Draining removes the oldest [max_entries] waiting entries (all of them
    if fewer wait), in order, and leaves exactly the rest waiting. *)
Theorem drain_refines_queue_take buf max_entries :
  ring_wf buf ->
  let '(out, buf') := drain buf max_entries in
  ring_wf buf' /\
  out = take (Z.to_nat max_entries) (queue buf) /\
  queue buf' = drop (Z.to_nat max_entries) (queue buf).
Proof. apply drain_ok. Qed.

(** ** Witnesses *)

Definition ring_two : ring_buffer :=
  mk_ring 1 8191 1 (fun i => mk_entry 1 0 0 i 0 0 0 0 0 0).

Lemma emit_refines_queue_push_witness :
  ring_wf ring_two /\
  queue (emit ring_two 1 0 9 1 2 3 4 5 6)
    = queue ring_two ++ [mk_entry 1 0 0 9 1 2 3 4 5 6].
Proof.
  assert (Hwf : ring_wf ring_two) by (split; vm_compute; done).
  split; [exact Hwf |].
  exact (proj2 (emit_refines_queue_push ring_two 1 0 9 1 2 3 4 5 6 Hwf)).
Defined.

Lemma drain_refines_queue_take_witness :
  ring_wf ring_two /\ map timestamp (fst (drain ring_two 1)) = [8191].
Proof.
  assert (Hwf : ring_wf ring_two) by (split; vm_compute; done).
  split; [exact Hwf |].
  pose proof (drain_refines_queue_take ring_two 1 Hwf) as H.
  destruct (drain ring_two 1) as [out buf]. destruct H as (_ & -> & _).
  vm_compute. reflexivity.
Defined.
