(* ===== verification/Spsc.v ===== *)
(** * The trace ring buffer under interleaving

    [trace::ring_buffer] is written by the VMX-root exit handler of its core
    and drained by the hypercall handler of any core, without a lock. This file
    models [hv::trace::emit] and [hv::trace::drain] as sequences of single
    memory accesses (every field of an entry is stored, and copied out, by a
    step of its own), interleaves them in every order, and proves that the
    consumer still receives the published entries in order, complete and
    exactly once.

    Steps are interleaved in program order of each side: the code relies on
    [_ReadWriteBarrier] and on the x86 order of stores for that. *)
From Stdlib Require Import ZArith Lia List Bool.
From stdpp Require Import base numbers list option functions relations.
From S2P Require Import Prelude Trace.

(** The members of an entry in the order [emit] stores them. *)
Definition entry_get (k : nat) (e : entry) : Z :=
  nth k [format_id e; core_id e; pad0 e; timestamp e;
         data0 e; data1 e; data2 e; data3 e; data4 e; data5 e] 0.

Definition entry_set (k : nat) (v : Z) (e : entry) : entry :=
  let g j := if decide (j = k) then v else entry_get j e in
  mk_entry (g 0%nat) (g 1%nat) (g 2%nat) (g 3%nat) (g 4%nat)
           (g 5%nat) (g 6%nat) (g 7%nat) (g 8%nat) (g 9%nat).

Definition entry_fields : nat := 10.

(** Where the producer is inside [emit]. *)
Inductive producer : Type :=
  | P_idle
  | P_load_head (e : entry)
  | P_load_tail (e : entry) (head next : Z)
  | P_store (e : entry) (head next : Z) (k : nat).

(** Where the consumer is inside [drain]. *)
Inductive consumer : Type :=
  | C_idle
  | C_loop (max : nat) (out : list entry) (tail : Z)
  | C_copy (max : nat) (out : list entry) (tail : Z) (partial : entry) (k : nat)
  | C_publish (out : list entry) (tail : Z).

(** The shared buffer, both program counters, and two ghost logs: the entries
    made visible by a store to [write_head], and the entries [drain] returned. *)
Record spsc := mk_spsc {
  ring : ring_buffer;
  prod : producer;
  cons : consumer;
  published : list entry;
  delivered : list entry
}.
#[export] Instance eta_spsc : Eta spsc :=
  fun s => mk_spsc (ring s) (prod s) (cons s) (published s) (delivered s).

Inductive spsc_step : spsc -> spsc -> Prop :=
  (** [if (!buf.active) return;] *)
  | step_inactive s :
      prod s = P_idle -> active (ring s) = 0 -> spsc_step s s
  | step_active s e :
      prod s = P_idle -> active (ring s) <> 0 ->
      spsc_step s (s <| prod := P_load_head e |>)
  (** [const uint64_t head = buf.write_head; next = (head + 1) & mask;] *)
  | step_load_head s e :
      prod s = P_load_head e ->
      spsc_step s (s <| prod := P_load_tail e (write_head (ring s))
                                  (next_index (write_head (ring s))) |>)
  (** [if (next == buf.read_tail) return;] *)
  | step_full s e head next :
      prod s = P_load_tail e head next -> next = read_tail (ring s) ->
      spsc_step s (s <| prod := P_idle |>)
  | step_room s e head next :
      prod s = P_load_tail e head next -> next <> read_tail (ring s) ->
      spsc_step s (s <| prod := P_store e head next 0 |>)
  (** one store to [buf.entries[head]] *)
  | step_store s e head next k :
      prod s = P_store e head next k -> (k < entry_fields)%nat ->
      spsc_step s
        (s <| ring := (ring s) <| entries :=
                <[head := entry_set k (entry_get k e) (entries (ring s) head)]>
                  (entries (ring s)) |> |>
           <| prod := P_store e head next (S k) |>)
  (** [buf.write_head = next;] *)
  | step_publish s e head next :
      prod s = P_store e head next entry_fields ->
      spsc_step s
        (s <| ring := (ring s) <| write_head := next |> |>
           <| prod := P_idle |> <| published := published s ++ [e] |>)
  (** [uint64_t tail = buf.read_tail;] *)
  | step_drain s max :
      cons s = C_idle ->
      spsc_step s (s <| cons := C_loop max [] (read_tail (ring s)) |>)
  (** [while (count < max_entries) { if (tail == buf.write_head) break; ... }] *)
  | step_drain_max s max out tail :
      cons s = C_loop max out tail -> (max <= length out)%nat ->
      spsc_step s (s <| cons := C_publish out tail |>)
  | step_drain_empty s max out tail :
      cons s = C_loop max out tail -> (length out < max)%nat ->
      tail = write_head (ring s) ->
      spsc_step s (s <| cons := C_publish out tail |>)
  | step_drain_more s max out tail junk :
      cons s = C_loop max out tail -> (length out < max)%nat ->
      tail <> write_head (ring s) ->
      spsc_step s (s <| cons := C_copy max out tail junk 0 |>)
  (** one member of [out_entries[count] = buf.entries[tail];] *)
  | step_copy s max out tail partial k :
      cons s = C_copy max out tail partial k -> (k < entry_fields)%nat ->
      spsc_step s
        (s <| cons := C_copy max out tail
                (entry_set k (entry_get k (entries (ring s) tail)) partial) (S k) |>)
  (** [++count; tail = (tail + 1) & mask;] *)
  | step_copied s max out tail partial :
      cons s = C_copy max out tail partial entry_fields ->
      spsc_step s (s <| cons := C_loop max (out ++ [partial]) (next_index tail) |>)
  (** [buf.read_tail = tail; return count;] *)
  | step_return s out tail :
      cons s = C_publish out tail ->
      spsc_step s
        (s <| ring := (ring s) <| read_tail := tail |> |>
           <| cons := C_idle |> <| delivered := delivered s ++ out |>)
  (** tracing is switched on or off *)
  | step_active_flag s a :
      spsc_step s (s <| ring := (ring s) <| active := a |> |>).

(** [handle_enable_auto_trace] resets both indices. *)
Definition spsc_initial (s : spsc) : Prop :=
  write_head (ring s) = 0 /\ read_tail (ring s) = 0 /\
  prod s = P_idle /\ cons s = C_idle /\ published s = [] /\ delivered s = [].

Definition spsc_reachable (s : spsc) : Prop :=
  exists s0, spsc_initial s0 /\ rtc spsc_step s0 s.

(** ** Entries are determined by their members *)

Lemma entry_get_set_same k v e : (k < entry_fields)%nat -> entry_get k (entry_set k v e) = v.
Proof.
  unfold entry_fields. intros Hk.
  do 10 (destruct k as [| k]; [by cbn |]). lia.
Qed.

Lemma entry_get_set_other j k v e :
  j <> k -> entry_get j (entry_set k v e) = entry_get j e.
Proof.
  intros Hjk. unfold entry_set.
  do 10 (destruct j as [| j]; [cbn; by rewrite decide_False by done |]). by destruct j.
Qed.

Lemma entry_ext e e' :
  (forall k, (k < entry_fields)%nat -> entry_get k e = entry_get k e') -> e = e'.
Proof.
  unfold entry_fields. intros H. destruct e, e'.
  pose proof (H 0%nat ltac:(lia)); pose proof (H 1%nat ltac:(lia));
  pose proof (H 2%nat ltac:(lia)); pose proof (H 3%nat ltac:(lia));
  pose proof (H 4%nat ltac:(lia)); pose proof (H 5%nat ltac:(lia));
  pose proof (H 6%nat ltac:(lia)); pose proof (H 7%nat ltac:(lia));
  pose proof (H 8%nat ltac:(lia)); pose proof (H 9%nat ltac:(lia)).
  cbn in *. congruence.
Qed.

(** [agree k e e']: the first [k] members of [e] and [e'] are equal. *)
Definition agree (k : nat) (e e' : entry) : Prop :=
  forall j, (j < k)%nat -> entry_get j e = entry_get j e'.

Lemma agree_all e e' : agree entry_fields e e' -> e = e'.
Proof. apply entry_ext. Qed.

Lemma agree_set k e e' :
  (k < entry_fields)%nat -> agree k e e' ->
  agree (S k) (entry_set k (entry_get k e') e) e'.
Proof.
  intros Hk Ha j Hj. destruct (decide (j = k)) as [-> | Hne].
  - by apply entry_get_set_same.
  - rewrite entry_get_set_other by done. apply Ha. lia.
Qed.

#[global] Arguments entry_get : simpl never.
#[global] Arguments entry_set : simpl never.

(** ** Invariant *)

Abbreviation N := ring_buffer_entry_count.
Abbreviation w_pos s := (Z.of_nat (length (published s))).
Abbreviation r_pos s := (Z.of_nat (length (delivered s))).

(** The producer's local indices are the shared ones; once it passed the
    fullness check there is room, and stays so because only it adds entries. *)
Definition producer_ok (s : spsc) : Prop :=
  match prod s with
  | P_idle | P_load_head _ => True
  | P_load_tail _ head next => head = w_pos s mod N /\ next = (w_pos s + 1) mod N
  | P_store e head next k =>
      head = w_pos s mod N /\ next = (w_pos s + 1) mod N /\
      w_pos s < r_pos s + queue_capacity /\ (k <= entry_fields)%nat /\
      agree k (entries (ring s) head) e
  end.

Definition taken_ok (s : spsc) (out : list entry) (tail : Z) : Prop :=
  tail = (r_pos s + Z.of_nat (length out)) mod N /\
  delivered s ++ out `prefix_of` published s.

Definition consumer_ok (s : spsc) : Prop :=
  match cons s with
  | C_idle => True
  | C_loop _ out tail | C_publish out tail => taken_ok s out tail
  | C_copy _ out tail partial k =>
      taken_ok s out tail /\
      (length (delivered s) + length out < length (published s))%nat /\
      (k <= entry_fields)%nat /\ agree k partial (entries (ring s) tail)
  end.

Record spsc_inv (s : spsc) : Prop := {
  inv_head : write_head (ring s) = w_pos s mod N;
  inv_tail : read_tail (ring s) = r_pos s mod N;
  inv_room : w_pos s <= r_pos s + queue_capacity;
  inv_delivered : delivered s `prefix_of` published s;
  inv_slots : forall j : nat, (length (delivered s) <= j < length (published s))%nat ->
    published s !! j = Some (entries (ring s) (Z.of_nat j mod N));
  inv_producer : producer_ok s;
  inv_consumer : consumer_ok s
}.

Lemma taken_length s out tail :
  taken_ok s out tail -> (length (delivered s) + length out <= length (published s))%nat.
Proof. intros [_ Hp%prefix_length]. by rewrite length_app in Hp. Qed.

(** A producer past its fullness check writes no slot the consumer may read. *)
Lemma head_slot_free s e head next k j :
  spsc_inv s -> prod s = P_store e head next k ->
  (length (delivered s) <= j < length (published s))%nat ->
  Z.of_nat j mod N <> head.
Proof.
  intros Hi Hp Hj. pose proof (inv_producer _ Hi) as Hok.
  unfold producer_ok in Hok. rewrite Hp in Hok. destruct Hok as (-> & _ & Hroom & _).
  apply ring_slot_ne. unfold queue_capacity in Hroom. lia.
Qed.

(** The entry at position [j] is the one the consumer meets next. *)
Lemma taken_slot s out tail :
  spsc_inv s -> taken_ok s out tail ->
  (length (delivered s) + length out < length (published s))%nat ->
  published s !! (length (delivered s) + length out)%nat
    = Some (entries (ring s) tail) /\
  tail = Z.of_nat (length (delivered s) + length out) mod N.
Proof.
  intros Hi [Ht _] Hlt.
  assert (tail = Z.of_nat (length (delivered s) + length out) mod N) as ->
    by (rewrite Ht; f_equal; lia).
  split; [| done]. apply (inv_slots _ Hi). lia.
Qed.

(** The facts that hold after a change of the producer only. *)
Lemma inv_set_prod s p :
  spsc_inv s -> producer_ok (s <| prod := p |>) -> spsc_inv (s <| prod := p |>).
Proof. intros [] Hp. split; done. Qed.

Lemma inv_set_cons s c :
  spsc_inv s -> consumer_ok (s <| cons := c |>) -> spsc_inv (s <| cons := c |>).
Proof. intros [] Hc. split; done. Qed.

Lemma inv_store s e head next k :
  spsc_inv s -> prod s = P_store e head next k -> (k < entry_fields)%nat ->
  spsc_inv (s <| ring := (ring s) <| entries :=
                <[head := entry_set k (entry_get k e) (entries (ring s) head)]>
                  (entries (ring s)) |> |>
              <| prod := P_store e head next (S k) |>).
Proof.
  intros Hi Hp Hk. pose proof (head_slot_free s e head next k) as Hfree.
  pose proof (inv_producer _ Hi) as Hok. unfold producer_ok in Hok. rewrite Hp in Hok.
  destruct Hok as (Hh & Hn & Hr & _ & Ha).
  pose proof Hi as [? ? ? ? Hslots ? Hc]. split; try done; cbn in *.
  - intros j Hj. rewrite fn_lookup_insert_ne; [by apply Hslots |].
    apply not_eq_sym. by apply Hfree.
  - split_and!; try done. rewrite fn_lookup_insert. by apply agree_set.
  - unfold consumer_ok in *. cbn. destruct (cons s); try done.
    destruct Hc as (Ht & Hlt & Hk' & Hag). split_and!; try done.
    destruct (taken_slot s out tail Hi Ht Hlt) as [_ Hslot].
    rewrite fn_lookup_insert_ne; [done |].
    rewrite Hslot. apply not_eq_sym, Hfree; [done .. |]. lia.
Qed.

Lemma inv_publish s e head next :
  spsc_inv s -> prod s = P_store e head next entry_fields ->
  spsc_inv (s <| ring := (ring s) <| write_head := next |> |>
              <| prod := P_idle |> <| published := published s ++ [e] |>).
Proof.
  intros Hi Hp. pose proof (inv_producer _ Hi) as Hok.
  unfold producer_ok in Hok. rewrite Hp in Hok.
  destruct Hok as (Hh & Hn & Hr & _ & Ha). apply agree_all in Ha.
  destruct Hi as [? Htl ? Hd Hslots ? Hc]. split; cbn; rewrite ?length_app; cbn; try done.
  - rewrite Hn. f_equal. lia.
  - unfold queue_capacity in *. lia.
  - by apply prefix_app_r.
  - intros j Hj. destruct (decide (j = length (published s))) as [-> | Hne].
    + rewrite list_lookup_middle by done. by rewrite <- Hh, Ha.
    + rewrite lookup_app_l by lia. apply Hslots. lia.
  - unfold consumer_ok, taken_ok in *. cbn. destruct (cons s); try done.
    all: rewrite ?length_app; cbn; intuition (auto using prefix_app_r; lia).
Qed.

Lemma inv_return s out tail :
  spsc_inv s -> cons s = C_publish out tail ->
  spsc_inv (s <| ring := (ring s) <| read_tail := tail |> |>
              <| cons := C_idle |> <| delivered := delivered s ++ out |>).
Proof.
  intros Hi Hcs. pose proof (inv_consumer _ Hi) as Hc.
  unfold consumer_ok in Hc. rewrite Hcs in Hc.
  pose proof (taken_length _ _ _ Hc) as Hle. destruct Hc as [Ht Hpre].
  destruct Hi as [? ? Hroom ? Hslots Hp ?]. split; cbn; rewrite ?length_app; try done.
  - rewrite Ht. f_equal. lia.
  - unfold queue_capacity in *. lia.
  - intros j Hj. apply Hslots. lia.
  - unfold producer_ok in *. cbn. destruct (prod s); try done.
    rewrite length_app. unfold queue_capacity in *. intuition lia.
Qed.

Lemma inv_copied s max out tail partial :
  spsc_inv s -> cons s = C_copy max out tail partial entry_fields ->
  spsc_inv (s <| cons := C_loop max (out ++ [partial]) (next_index tail) |>).
Proof.
  intros Hi Hcs. pose proof (inv_consumer _ Hi) as Hc.
  unfold consumer_ok in Hc. rewrite Hcs in Hc. destruct Hc as (Ht & Hlt & _ & Ha).
  apply inv_set_cons; [done |]. unfold consumer_ok, taken_ok. cbn.
  destruct (taken_slot s out tail Hi Ht Hlt) as [Hl Htl]. apply agree_all in Ha.
  rewrite next_index_mod, Htl, ring_mod_add_l, length_app. cbn. split; [f_equal; lia |].
  destruct Ht as [_ [rest Hrest]]. rewrite app_assoc.
  rewrite Hrest, lookup_app_r in Hl by (rewrite length_app; lia).
  rewrite length_app, Nat.sub_diag in Hl.
  destruct rest as [| x rest]; [done |]. cbn in Hl. injection Hl as ->.
  exists rest. rewrite Hrest, Ha. by rewrite <- !app_assoc.
Qed.

Lemma inv_initial s : spsc_initial s -> spsc_inv s.
Proof.
  intros (Hh & Ht & Hp & Hc & Hpub & Hdel).
  split; unfold producer_ok, consumer_ok; rewrite ?Hh, ?Ht, ?Hp, ?Hc, ?Hpub, ?Hdel; try done.
  cbn. lia.
Qed.

Lemma inv_step s s' : spsc_step s s' -> spsc_inv s -> spsc_inv s'.
Proof.
  intros Hs Hi. destruct Hs; try done.
  - by apply inv_set_prod.
  - apply inv_set_prod; [done |]. unfold producer_ok. cbn.
    rewrite (inv_head _ Hi), next_index_mod, ring_mod_add_l. done.
  - by apply inv_set_prod.
  - apply inv_set_prod; [done |]. pose proof (inv_producer _ Hi) as Hok.
    unfold producer_ok in *. rewrite H in Hok. cbn. destruct Hok as [-> Hn].
    split_and!; try done.
    + assert (w_pos s <> r_pos s + queue_capacity); [| pose proof (inv_room _ Hi); lia].
      intros Hw. apply H0. rewrite Hn, (inv_tail _ Hi), Hw.
      unfold queue_capacity, ring_buffer_entry_count.
      replace (r_pos s + (8192 - 1) + 1) with (r_pos s + 1 * 8192) by lia. apply Z_mod_plus_full.
    + unfold entry_fields. lia.
    + intros j Hj. lia.
  - by eapply inv_store.
  - by eapply inv_publish.
  - apply inv_set_cons; [done |]. split; cbn; rewrite ?Z.add_0_r, ?app_nil_r; apply Hi.
  - apply inv_set_cons; [done |]. pose proof (inv_consumer _ Hi) as Hc.
    unfold consumer_ok in *. by rewrite H in Hc.
  - apply inv_set_cons; [done |]. pose proof (inv_consumer _ Hi) as Hc.
    unfold consumer_ok in *. by rewrite H in Hc.
  - apply inv_set_cons; [done |]. pose proof (inv_consumer _ Hi) as Hc.
    unfold consumer_ok in *. rewrite H in Hc. cbn. split_and!; [done | | lia | intros j; lia].
    pose proof (taken_length _ _ _ Hc). destruct Hc as [Ht _].
    assert (length (delivered s) + length out <> length (published s))%nat; [| lia].
    intros Heq. apply H1. rewrite Ht, (inv_head _ Hi). f_equal. lia.
  - apply inv_set_cons; [done |]. pose proof (inv_consumer _ Hi) as Hc.
    unfold consumer_ok in *. rewrite H in Hc. cbn.
    destruct Hc as (? & ? & ? & ?). split_and!; [done .. | lia |]. by apply agree_set.
  - by apply (inv_copied s max out tail partial).
  - by apply (inv_return s out tail).
  - destruct Hi. by split.
Qed.

Lemma inv_reachable s : spsc_reachable s -> spsc_inv s.
Proof.
  intros (s0 & H0 & Hrtc). apply inv_initial in H0.
  induction Hrtc; [done |]. eauto using inv_step.
Qed.

(** What the running [drain] has already copied out. *)
Definition in_flight (s : spsc) : list entry :=
  match cons s with
  | C_idle => []
  | C_loop _ out _ | C_copy _ out _ _ _ | C_publish out _ => out
  end.

(** (C6) In every state reachable by interleaving the accesses of the producer and
    of the consumer, what [drain] has returned followed by what it is copying is
    a prefix of the sequence of published entries: nothing is lost, duplicated,
    reordered or torn. At most 8191 published entries are undelivered, and when
    no drain is running and the indices meet, everything was delivered. *)
Theorem spsc_fifo s :
  spsc_reachable s ->
  delivered s ++ in_flight s `prefix_of` published s /\
  Z.of_nat (length (published s)) <= Z.of_nat (length (delivered s)) + queue_capacity /\
  (cons s = C_idle -> read_tail (ring s) = write_head (ring s) -> delivered s = published s).
Proof.
  intros Hi%inv_reachable. split_and!.
  - pose proof (inv_consumer _ Hi) as Hc. unfold consumer_ok, in_flight in *.
    destruct (cons s); [rewrite app_nil_r; apply Hi | apply Hc ..].
  - apply Hi.
  - intros _ Heq. pose proof (inv_delivered _ Hi) as Hd.
    apply prefix_length_eq; [done |]. pose proof (prefix_length _ _ Hd).
    rewrite (inv_tail _ Hi), (inv_head _ Hi) in Heq.
    destruct (decide (r_pos s = w_pos s)) as [? | Hne]; [lia |]. exfalso. revert Heq.
    apply ring_slot_ne. pose proof (inv_room _ Hi). unfold queue_capacity in *. lia.
Qed.

(** The producer drops an entry exactly when the ring is really full: its
    check of [read_tail] fails iff 8191 published entries are undelivered at
    that moment. *)
Theorem spsc_drop_iff_full s e head next :
  spsc_reachable s -> prod s = P_load_tail e head next ->
  next = read_tail (ring s) <->
  Z.of_nat (length (published s)) = Z.of_nat (length (delivered s)) + queue_capacity.
Proof.
  intros Hi%inv_reachable Hp. pose proof (inv_producer _ Hi) as Hok.
  unfold producer_ok in Hok. rewrite Hp in Hok. destruct Hok as [_ ->].
  rewrite (inv_tail _ Hi).
  pose proof (inv_room _ Hi). pose proof (prefix_length _ _ (inv_delivered _ Hi)).
  split.
  - intros Hf. destruct (decide (w_pos s = r_pos s + queue_capacity)) as [? | Hne]; [done |].
    exfalso. symmetry in Hf. revert Hf. apply ring_slot_ne.
    unfold queue_capacity in *. lia.
  - intros ->. unfold queue_capacity, ring_buffer_entry_count.
    replace (r_pos s + (8192 - 1) + 1) with (r_pos s + 1 * 8192) by lia.
    apply Z_mod_plus_full.
Qed.

(** ** Witnesses *)

Definition spsc_start : spsc :=
  mk_spsc (mk_ring 0 0 1 (fun _ => zero_entry)) P_idle C_idle [] [].

Definition sample_entry : entry := mk_entry 1 3 0 77 10 11 12 13 14 15.

Lemma spsc_start_initial : spsc_initial spsc_start.
Proof. by split_and!. Qed.

(** The ten stores of an entry, run one after the other. *)
Lemma run_stores s e head next j :
  prod s = P_store e head next 0 -> (j <= entry_fields)%nat ->
  exists s', rtc spsc_step s s' /\ prod s' = P_store e head next j /\
    cons s' = cons s /\ published s' = published s.
Proof.
  intros Hp. induction j as [| j IH]; intros Hj.
  - exists s. split_and!; done.
  - destruct IH as (s' & Hr & Hp' & Hc & Hpub); [lia |].
    eexists. split_and!.
    + eapply rtc_r; [exact Hr |]. eapply step_store; [exact Hp' | lia].
    + reflexivity.
    + exact Hc.
    + exact Hpub.
Qed.

(** One complete [emit] that ends while a [drain] is running. *)
Lemma spsc_one_entry :
  exists s, spsc_reachable s /\ length (published s) = 1%nat /\ cons s = C_loop 4 [] 0.
Proof.
  set (s1 := spsc_start <| prod := P_load_head sample_entry |>).
  set (s2 := s1 <| prod := P_load_tail sample_entry 0 1 |>).
  set (s3 := s2 <| cons := C_loop 4 [] 0 |>).
  set (s4 := s3 <| prod := P_store sample_entry 0 1 0 |>).
  destruct (run_stores s4 sample_entry 0 1 entry_fields) as (s5 & Hr & Hp & Hc & Hpub);
    [done .. |].
  eexists. split.
  - exists spsc_start. split; [apply spsc_start_initial |].
    eapply (rtc_l _ _ s1); [by apply (step_active _ sample_entry) |].
    eapply (rtc_l _ _ s2); [by apply (step_load_head s1 sample_entry) |].
    eapply (rtc_l _ _ s3); [by apply (step_drain s2 4) |].
    eapply (rtc_l _ _ s4); [by apply (step_room s3 sample_entry 0 1) |].
    eapply rtc_r; [exact Hr |]. eapply step_publish. exact Hp.
  - split; [cbn; by rewrite Hpub | exact Hc].
Qed.

Lemma spsc_fifo_witness :
  exists s, length (published s) = 1%nat /\
    delivered s ++ in_flight s `prefix_of` published s.
Proof.
  destruct spsc_one_entry as (s & Hr & Hp & _). exists s.
  split; [exact Hp |]. exact (proj1 (spsc_fifo s Hr)).
Defined.

Lemma spsc_drop_iff_full_witness :
  exists s, prod s = P_load_tail sample_entry 0 1 /\
    ~ Z.of_nat (length (published s)) = Z.of_nat (length (delivered s)) + queue_capacity.
Proof.
  exists (spsc_start <| prod := P_load_tail sample_entry 0 1 |>).
  split; [reflexivity |].
  assert (Hr : spsc_reachable (spsc_start <| prod := P_load_tail sample_entry 0 1 |>)).
  { exists spsc_start. split; [apply spsc_start_initial |].
    eapply rtc_l; [apply (step_active _ sample_entry); done |].
    eapply rtc_l; [eapply step_load_head; done | apply rtc_refl]. }
  intros Hfull.
  pose proof (proj2 (spsc_drop_iff_full _ sample_entry 0 1 Hr eq_refl) Hfull) as H.
  discriminate H.
Defined.
