(* ===== verification/TransitionCfg.v ===== *)
(** * The per-vCPU transition configuration table

    [insert_exact_transition_cfg] of [revhv-km/hypercall.cpp] and
    [lookup_transition_cfg] of [revhv-km/vmexit.cpp]: an open-addressing hash
    table of 64 exact-address configurations without deletion, refined to a
    finite map from guest RIP to configuration. *)
From Stdlib Require Import ZArith Lia List Bool.
From stdpp Require Import base numbers list option functions fin_maps gmap.
From S2P Require Import Prelude Trace.

(** [hv::hypercall::max_exact_transition_cfgs]. *)
Definition max_exact_transition_cfgs : Z := 64.

(** [hv::vcpu::ept_transition_exact_entry]. *)
Record ept_transition_exact_entry := mk_exact { addr : Z; cfg : ept_transition_cfg }.

(** The members of [vcpu] the two routines use. *)
Record transition_table := mk_table {
  generic_transition_cfg : ept_transition_cfg;
  exact_transition_cfgs : Z -> ept_transition_exact_entry;
  exact_transition_cfg_count : Z
}.
#[export] Instance eta_transition_table : Eta transition_table :=
  fun t => mk_table (generic_transition_cfg t) (exact_transition_cfgs t)
                    (exact_transition_cfg_count t).

(** [(a >> 3) & (table_size - 1)]. *)
Definition initial_slot (a : Z) : Z :=
  u32 (Z.land (Z.shiftr a 3) (max_exact_transition_cfgs - 1)).

(** [(initial_slot + i) & (table_size - 1)]. *)
Definition probe (a : Z) (i : nat) : Z :=
  Z.land (initial_slot a + Z.of_nat i) (max_exact_transition_cfgs - 1).

(** The probing loop of [lookup_transition_cfg] from iteration [i], with [n]
    iterations left. *)
Fixpoint lookup_loop (t : transition_table) (rip : Z) (i n : nat)
    : option ept_transition_cfg :=
  match n with
  | O => None
  | S n' =>
      let e := exact_transition_cfgs t (probe rip i) in
      if addr e =? 0 then None
      else if addr e =? rip then Some (cfg e)
      else lookup_loop t rip (S i) n'
  end.

Definition lookup_transition_cfg (t : transition_table) (rip : Z) : ept_transition_cfg :=
  if 0 <? exact_transition_cfg_count t then
    default (generic_transition_cfg t)
      (lookup_loop t rip 0 (Z.to_nat max_exact_transition_cfgs))
  else generic_transition_cfg t.

(** The probing loop of [insert_exact_transition_cfg]. *)
Fixpoint insert_loop (t : transition_table) (a : Z) (c : ept_transition_cfg) (i n : nat)
    : bool * transition_table :=
  match n with
  | O => (false, t)
  | S n' =>
      let s := probe a i in
      let e := exact_transition_cfgs t s in
      if addr e =? a then
        (true, t <| exact_transition_cfgs :=
                      <[s := mk_exact (addr e) c]> (exact_transition_cfgs t) |>)
      else if addr e =? 0 then
        (true, t <| exact_transition_cfgs :=
                      <[s := mk_exact a c]> (exact_transition_cfgs t) |>
                 <| exact_transition_cfg_count := u32 (exact_transition_cfg_count t + 1) |>)
      else insert_loop t a c (S i) n'
  end.

Definition insert_exact_transition_cfg (t : transition_table) (a : Z)
    (c : ept_transition_cfg) : bool * transition_table :=
  insert_loop t a c 0 (Z.to_nat max_exact_transition_cfgs).

(** [utils::memset(vcpu, 0, ...)]: the table of a fresh vCPU. *)
Definition empty_table : transition_table :=
  mk_table (replicate 6 field_none) (fun _ => mk_exact 0 (replicate 6 field_none)) 0.

(** ** Abstract specification *)

Definition occupied (t : transition_table) (s : Z) : bool :=
  negb (addr (exact_transition_cfgs t s) =? 0).

Definition slots : list Z := seqZ 0 max_exact_transition_cfgs.

(** Every stored address sits on its own probe sequence, after slots that are
    all in use for other addresses. *)
Definition probes_ok (t : transition_table) : Prop :=
  forall s, In s slots -> occupied t s = true ->
    exists i : nat, (i < 64)%nat /\ s = probe (addr (exact_transition_cfgs t s)) i /\
      forall j, (j < i)%nat ->
        occupied t (probe (addr (exact_transition_cfgs t s)) j) = true /\
        addr (exact_transition_cfgs t (probe (addr (exact_transition_cfgs t s)) j))
          <> addr (exact_transition_cfgs t s).

(** Besides, the counter counts the slots in use. *)
Record table_wf (t : transition_table) : Prop := {
  wf_probe : probes_ok t;
  wf_count : exact_transition_cfg_count t
    = Z.of_nat (length (List.filter (occupied t) slots))
}.

(** The table stores the finite map [m]. *)
Definition table_models (t : transition_table) (m : gmap Z ept_transition_cfg) : Prop :=
  forall a c, m !! a = Some c <->
    a <> 0 /\ exists s, In s slots /\ exact_transition_cfgs t s = mk_exact a c.

(** ** Probing *)

Lemma probe_mod a i : probe a i = (initial_slot a + Z.of_nat i) mod 64.
Proof.
  unfold probe, max_exact_transition_cfgs. change (64 - 1) with (Z.ones 6).
  by rewrite Z.land_ones.
Qed.

Lemma in_slots s : In s slots <-> 0 <= s < 64.
Proof. unfold slots, max_exact_transition_cfgs. rewrite <- list_elem_of_In, elem_of_seqZ. lia. Qed.

Lemma probe_in_slots a i : In (probe a i) slots.
Proof. apply in_slots. rewrite probe_mod. by apply Z.mod_pos_bound. Qed.

Lemma probe_inj a i j : (i < 64)%nat -> (j < 64)%nat -> probe a i = probe a j -> i = j.
Proof.
  intros Hi Hj. rewrite !probe_mod. intros H.
  pose proof (Z.div_mod (initial_slot a + Z.of_nat i) 64 ltac:(lia)).
  pose proof (Z.div_mod (initial_slot a + Z.of_nat j) 64 ltac:(lia)). lia.
Qed.

(** Every slot is met once while probing for any address. *)
Lemma probe_surj a s : In s slots -> exists i, (i < 64)%nat /\ s = probe a i.
Proof.
  intros Hs%in_slots. exists (Z.to_nat ((s - initial_slot a) mod 64)).
  pose proof (Z.mod_pos_bound (s - initial_slot a) 64 ltac:(lia)).
  split; [lia |]. rewrite probe_mod, Z2Nat.id by lia.
  rewrite Zplus_mod_idemp_r, Zplus_minus. symmetry. apply Z.mod_small. lia.
Qed.

(** The first probe position whose slot is free or holds [a]. *)
Definition stops_at (t : transition_table) (a : Z) (i : nat) : Prop :=
  (i < 64)%nat /\
  (occupied t (probe a i) = false \/ addr (exact_transition_cfgs t (probe a i)) = a) /\
  forall j, (j < i)%nat ->
    occupied t (probe a j) = true /\ addr (exact_transition_cfgs t (probe a j)) <> a.

Definition never_stops (t : transition_table) (a : Z) : Prop :=
  forall j, (j < 64)%nat ->
    occupied t (probe a j) = true /\ addr (exact_transition_cfgs t (probe a j)) <> a.

Lemma occupied_false t s : occupied t s = false <-> addr (exact_transition_cfgs t s) = 0.
Proof. unfold occupied. destruct (Z.eqb_spec (addr (exact_transition_cfgs t s)) 0); naive_solver. Qed.
Lemma occupied_true t s : occupied t s = true <-> addr (exact_transition_cfgs t s) <> 0.
Proof. unfold occupied. destruct (Z.eqb_spec (addr (exact_transition_cfgs t s)) 0); naive_solver. Qed.

Lemma probing_cases t a : (exists i, stops_at t a i) \/ never_stops t a.
Proof.
  assert (forall n, (n <= 64)%nat ->
    (exists i, stops_at t a i) \/
    forall j, (j < n)%nat -> occupied t (probe a j) = true /\
      addr (exact_transition_cfgs t (probe a j)) <> a) as H.
  { induction n as [| n IH]; intros Hn; [right; lia |].
    destruct IH as [? | Hb]; [lia | by left |].
    destruct (occupied t (probe a n)) eqn:Ho;
      [destruct (Z.eq_dec (addr (exact_transition_cfgs t (probe a n))) a) |].
    - left. exists n. split_and!; [lia | by right | done].
    - right. intros j Hj. destruct (decide (j = n)) as [-> |]; [done | apply Hb; lia].
    - left. exists n. split_and!; [lia | by left | done]. }
  apply (H 64%nat). lia.
Qed.

Lemma stops_at_unique t a i j : stops_at t a i -> stops_at t a j -> i = j.
Proof.
  intros (Hi & Hi' & Hib) (Hj & Hj' & Hjb).
  destruct (lt_eq_lt_dec i j) as [[Hlt |] | Hlt]; [| done |].
  - destruct (Hjb i Hlt) as [? ?]. destruct Hi' as [? | ?]; congruence.
  - destruct (Hib j Hlt) as [? ?]. destruct Hj' as [? | ?]; congruence.
Qed.

(** ** The loops, by where probing stops *)

Lemma lookup_loop_run t a k n i :
  a <> 0 -> (k + n = 64)%nat -> (k <= i)%nat -> stops_at t a i ->
  lookup_loop t a k n =
    (if occupied t (probe a i)
     then Some (cfg (exact_transition_cfgs t (probe a i))) else None).
Proof.
  intros Ha. revert k. induction n as [| n IH]; intros k Hk Hki Hs.
  { destruct Hs as (? & _). lia. }
  cbn [lookup_loop]. destruct (decide (k = i)) as [-> | Hne].
  - destruct Hs as (_ & Hst & _). destruct (occupied t (probe a i)) eqn:Ho.
    + destruct Hst as [? | Hst]; [done |]. rewrite Hst.
      by rewrite (proj2 (Z.eqb_neq a 0) Ha), Z.eqb_refl.
    + apply occupied_false in Ho. by rewrite Ho.
  - pose proof Hs as (_ & _ & Hb). destruct (Hb k ltac:(lia)) as [Ho%occupied_true Hna].
    apply Z.eqb_neq in Ho, Hna. rewrite Ho, Hna. apply IH; [lia | lia | done].
Qed.

Lemma lookup_loop_never t a k n :
  (k + n <= 64)%nat -> never_stops t a -> lookup_loop t a k n = None.
Proof.
  revert k. induction n as [| n IH]; intros k Hk Hs; cbn [lookup_loop]; [done |].
  destruct (Hs k ltac:(lia)) as [Ho%occupied_true Hna].
  apply Z.eqb_neq in Ho, Hna. rewrite Ho, Hna. apply IH; [lia | done].
Qed.

(** What [insert_loop] does at the slot where probing stops. *)
Definition store_at (t : transition_table) (a : Z) (c : ept_transition_cfg) (s : Z)
    : transition_table :=
  let t' := t <| exact_transition_cfgs := <[s := mk_exact a c]> (exact_transition_cfgs t) |> in
  if addr (exact_transition_cfgs t s) =? a then t'
  else t' <| exact_transition_cfg_count := u32 (exact_transition_cfg_count t + 1) |>.

Lemma insert_loop_run t a c k n i :
  (k + n = 64)%nat -> (k <= i)%nat -> stops_at t a i ->
  insert_loop t a c k n = (true, store_at t a c (probe a i)).
Proof.
  revert k. induction n as [| n IH]; intros k Hk Hki Hs.
  { destruct Hs as (? & _). lia. }
  cbn [insert_loop]. destruct (decide (k = i)) as [-> | Hne].
  - unfold store_at. destruct (Z.eqb_spec (addr (exact_transition_cfgs t (probe a i))) a)
      as [-> | Hna]; [done |].
    destruct Hs as (_ & [Ho%occupied_false | ?] & _); [| done]. by rewrite Ho.
  - pose proof Hs as (_ & _ & Hb). destruct (Hb k ltac:(lia)) as [Ho%occupied_true Hna].
    apply Z.eqb_neq in Ho, Hna. rewrite Ho, Hna. apply IH; [lia | lia | done].
Qed.

Lemma insert_loop_never t a c k n :
  (k + n <= 64)%nat -> never_stops t a -> insert_loop t a c k n = (false, t).
Proof.
  revert k. induction n as [| n IH]; intros k Hk Hs; cbn [insert_loop]; [done |].
  destruct (Hs k ltac:(lia)) as [Ho%occupied_true Hna].
  apply Z.eqb_neq in Ho, Hna. rewrite Ho, Hna. apply IH; [lia | done].
Qed.

(** ** The table as a finite map *)

Section models.
Context (t : transition_table) (m : gmap Z ept_transition_cfg).
Hypothesis Hwf : table_wf t.
Hypothesis Hm : table_models t m.

(** A stored address is found where probing for it stops. *)
Lemma stored_stops s a c :
  In s slots -> exact_transition_cfgs t s = mk_exact a c -> a <> 0 ->
  exists i, stops_at t a i /\ s = probe a i.
Proof.
  intros Hs He Ha.
  assert (occupied t s = true) as Ho by (apply occupied_true; by rewrite He).
  destruct (wf_probe t Hwf s Hs Ho) as (i & Hi & Hsi & Hb). rewrite He in Hsi, Hb. cbn in *.
  exists i. split; [| done]. split_and!; [done | | done].
  right. by rewrite <- Hsi, He.
Qed.

Lemma stops_lookup a i :
  a <> 0 -> stops_at t a i ->
  m !! a = if occupied t (probe a i)
           then Some (cfg (exact_transition_cfgs t (probe a i))) else None.
Proof.
  intros Ha Hs. destruct (m !! a) as [c |] eqn:E.
  - apply Hm in E as (_ & s & Hin & He).
    destruct (stored_stops s a c Hin He Ha) as (j & Hj & ->).
    rewrite (stops_at_unique t a i j Hs Hj).
    assert (occupied t (probe a j) = true) as -> by (apply occupied_true; by rewrite He).
    by rewrite He.
  - destruct (occupied t (probe a i)) eqn:Ho; [| done].
    destruct Hs as (_ & [? | Ha'] & _); [congruence |].
    enough (m !! a = Some (cfg (exact_transition_cfgs t (probe a i)))) by congruence.
    apply Hm. split; [done |]. exists (probe a i). split; [apply probe_in_slots |].
    destruct (exact_transition_cfgs t (probe a i)); cbn in *; congruence.
Qed.

Lemma never_lookup a : a <> 0 -> never_stops t a -> m !! a = None.
Proof.
  intros Ha Hn. destruct (m !! a) as [c |] eqn:E; [| done].
  apply Hm in E as (_ & s & Hin & He).
  destruct (probe_surj a s Hin) as (j & Hj & ->).
  destruct (Hn j Hj) as [_ Hne]. rewrite He in Hne. cbn in Hne. congruence.
Qed.

Lemma lookup_loop_models a :
  a <> 0 -> lookup_loop t a 0 (Z.to_nat max_exact_transition_cfgs) = m !! a.
Proof.
  intros Ha. destruct (probing_cases t a) as [[i Hi] | Hn].
  - rewrite (lookup_loop_run t a 0 _ i) by (done || lia).
    symmetry. by apply stops_lookup.
  - rewrite lookup_loop_never by (done || lia). symmetry. by apply never_lookup.
Qed.

(** A counter of zero means an empty map. *)
Lemma count_zero_empty : exact_transition_cfg_count t <= 0 -> forall a, m !! a = None.
Proof.
  intros Hc a. destruct (m !! a) as [c |] eqn:E; [| done].
  apply Hm in E as (Ha & s & Hin & He). rewrite (wf_count t Hwf) in Hc.
  assert (In s (List.filter (occupied t) slots)) as Hf.
  { apply filter_In. split; [done |]. apply occupied_true. by rewrite He. }
  destruct (List.filter (occupied t) slots); [done | cbn in Hc; lia].
Qed.
End models.

(** ** Insertion *)

Lemma store_at_lookup t a c s x :
  exact_transition_cfgs (store_at t a c s) x =
    if decide (x = s) then mk_exact a c else exact_transition_cfgs t x.
Proof.
  unfold store_at.
  destruct (addr (exact_transition_cfgs t s) =? a); cbn;
    (destruct (decide (x = s)) as [-> |];
      [apply fn_lookup_insert | by apply fn_lookup_insert_ne]).
Qed.

Lemma store_at_occupied t a c s x :
  a <> 0 -> occupied (store_at t a c s) x = if decide (x = s) then true else occupied t x.
Proof.
  intros Ha. unfold occupied. rewrite store_at_lookup. destruct (decide (x = s)); [| done].
  cbn. by rewrite (proj2 (Z.eqb_neq a 0) Ha).
Qed.

(** Filling one free slot raises the number of slots in use by one. *)
Lemma count_filled (f g : Z -> bool) (l : list Z) s :
  NoDup l -> In s l -> f s = false -> g s = true -> (forall x, x <> s -> g x = f x) ->
  length (List.filter g l) = S (length (List.filter f l)).
Proof.
  intros Hnd Hin Hf Hg Heq. induction l as [| x l IH]; [done |].
  apply NoDup_cons in Hnd as [Hx Hnd]. cbn. destruct (decide (x = s)) as [-> | Hne].
  - rewrite Hf, Hg. cbn. do 2 f_equal. apply filter_ext_in. intros y Hy.
    apply Heq. intros ->. by apply Hx, list_elem_of_In.
  - destruct Hin as [? | Hin]; [done |]. rewrite (Heq x Hne).
    destruct (f x); cbn; rewrite IH by done; done.
Qed.

Lemma count_le t : (length (List.filter (occupied t) slots) <= 64)%nat.
Proof. etrans; [apply filter_length_le |]. done. Qed.

Lemma store_at_probes t a c i :
  a <> 0 -> probes_ok t -> stops_at t a i -> probes_ok (store_at t a c (probe a i)).
Proof.
  intros Ha Hwf (Hi & Hst & Hb) x Hx Ho. rewrite store_at_occupied in Ho by done.
  rewrite store_at_lookup. destruct (decide (x = probe a i)) as [-> | Hne]; cbn.
  - exists i. split_and!; [done .. |]. intros j Hj.
    assert (probe a j <> probe a i) by (intros ?%probe_inj; lia).
    rewrite store_at_occupied, store_at_lookup, !decide_False by done. by apply Hb.
  - destruct (Hwf x Hx Ho) as (k & Hk & Hxk & Hbk).
    exists k. split_and!; [done .. |]. intros j Hj.
    destruct (Hbk j Hj) as [Hoj Hnj].
    rewrite store_at_occupied, store_at_lookup by done.
    destruct (decide (probe (addr (exact_transition_cfgs t x)) j = probe a i)) as [He | ?];
      [| done].
    split; [done |]. cbn. rewrite He in *. destruct Hst as [? | <-]; [congruence | done].
Qed.

(** Storing for address 0 changes no address. *)
Lemma store_zero_probes t c i :
  probes_ok t -> stops_at t 0 i -> probes_ok (store_at t 0 c (probe 0 i)).
Proof.
  intros Hwf (_ & Hst & _). rewrite occupied_false in Hst.
  assert (forall x, addr (exact_transition_cfgs (store_at t 0 c (probe 0 i)) x) = addr (exact_transition_cfgs t x)) as Ea.
  { intros x. rewrite store_at_lookup. destruct (decide (x = probe 0 i)) as [-> |]; cbn; [symmetry; tauto | done]. }
  intros x Hx Ho. unfold occupied in *. rewrite Ea in Ho. destruct (Hwf x Hx Ho) as (k & Hk & Hxk & Hbk).
  exists k. rewrite !Ea. split_and!; [done .. |]. intros j Hj. unfold occupied. rewrite !Ea. by apply Hbk.
Qed.

Lemma insert_probes t a c : probes_ok t -> probes_ok (snd (insert_exact_transition_cfg t a c)).
Proof.
  intros Hwf. unfold insert_exact_transition_cfg. destruct (probing_cases t a) as [[i Hi] | Hn].
  - rewrite (insert_loop_run t a c 0 _ i) by (done || lia). cbn [snd].
    destruct (decide (a = 0)) as [-> |]; [by apply store_zero_probes | by apply store_at_probes].
  - by rewrite insert_loop_never by (done || lia).
Qed.

Lemma store_at_wf t a c i :
  a <> 0 -> table_wf t -> stops_at t a i -> table_wf (store_at t a c (probe a i)).
Proof.
  intros Ha Hwf Hs. pose proof Hs as (Hi & Hst & Hb). split.
  - by apply store_at_probes; [| apply (wf_probe t) |].
  - pose proof (count_le t). pose proof (wf_count t Hwf) as Hc.
    destruct (Z.eqb_spec (addr (exact_transition_cfgs t (probe a i))) a) as [He | He].
    + unfold store_at at 1. rewrite He, Z.eqb_refl. cbn. rewrite Hc. f_equal. f_equal.
      apply filter_ext_in. intros x _. rewrite store_at_occupied by done.
      destruct (decide (x = probe a i)) as [-> |]; [| done].
      apply occupied_true. congruence.
    + destruct Hst as [Hfree | ?]; [| done].
      rewrite (count_filled (occupied t) _ slots (probe a i)).
      * unfold store_at. rewrite (proj2 (Z.eqb_neq _ _) He). cbn. rewrite Hc.
        rewrite wrap_small; lia.
      * apply NoDup_seqZ.
      * apply probe_in_slots.
      * done.
      * rewrite store_at_occupied by done. by rewrite decide_True.
      * intros x Hx. rewrite store_at_occupied by done. by rewrite decide_False.
Qed.

Lemma store_at_models t m a c i :
  a <> 0 -> table_wf t -> table_models t m -> stops_at t a i ->
  table_models (store_at t a c (probe a i)) (<[a := c]> m).
Proof.
  intros Ha Hwf Hm Hs b d. destruct (decide (a = b)) as [<- | Hab].
  - rewrite lookup_insert_eq. split.
    + intros [= ->]. split; [done |]. exists (probe a i).
      split; [apply probe_in_slots |]. by rewrite store_at_lookup, decide_True.
    + intros (_ & x & Hx & He). rewrite store_at_lookup in He.
      destruct (decide (x = probe a i)) as [-> | Hne]; [congruence |].
      destruct (stored_stops t Hwf x a d Hx He Ha) as (j & Hj & ->).
      by rewrite (stops_at_unique t a i j Hs Hj) in Hne.
  - rewrite lookup_insert_ne by done. rewrite (Hm b d).
    split; intros (Hb & x & Hx & He); (split; [done |]); exists x; (split; [done |]).
    + rewrite store_at_lookup. destruct (decide (x = probe a i)) as [-> |]; [| done].
      exfalso. destruct Hs as (_ & [Hst%occupied_false | Hst] & _);
        rewrite He in Hst; cbn in Hst; congruence.
    + rewrite store_at_lookup in He. destruct (decide (x = probe a i)); [congruence | done].
Qed.

Lemma empty_table_wf : table_wf empty_table /\ table_models empty_table ∅.
Proof.
  split; [split; [intros s _ H; discriminate H | done] |].
  intros a c. rewrite lookup_empty. split; [done |]. by intros (Ha & s & _ & [= <- _]).
Qed.

(** ** Properties *)

Lemma lookup_transition_cfg_ok t m rip :
  table_wf t -> table_models t m -> rip <> 0 ->
  lookup_transition_cfg t rip = default (generic_transition_cfg t) (m !! rip).
Proof.
  intros Hwf Hm Hr. unfold lookup_transition_cfg.
  destruct (Z.ltb_spec 0 (exact_transition_cfg_count t)).
  - by rewrite (lookup_loop_models t m).
  - by rewrite (count_zero_empty t m).
Qed.

(** Looking up a guest RIP in a well-formed table gives the configuration
    stored for exactly that address if there is one, and the generic
    configuration otherwise, for every state of the table the insertions build. *)
Theorem lookup_transition_cfg_spec t m rip :
  table_wf t -> table_models t m -> rip <> 0 ->
  lookup_transition_cfg t rip = default (generic_transition_cfg t) (m !! rip).
Proof. apply lookup_transition_cfg_ok. Qed.

Lemma insert_exact_transition_cfg_ok t m a c :
  table_wf t -> table_models t m -> a <> 0 ->
  match insert_exact_transition_cfg t a c with
  | (true, t') =>
      table_wf t' /\ table_models t' (<[a := c]> m) /\
      generic_transition_cfg t' = generic_transition_cfg t
  | (false, t') =>
      t' = t /\ m !! a = None /\ exact_transition_cfg_count t = max_exact_transition_cfgs
  end.
Proof.
  intros Hwf Hm Ha. unfold insert_exact_transition_cfg.
  destruct (probing_cases t a) as [[i Hi] | Hn].
  - rewrite (insert_loop_run t a c 0 _ i) by (done || lia).
    split; [by apply store_at_wf |]. split; [by apply store_at_models |].
    unfold store_at. by destruct (addr _ =? a).
  - rewrite insert_loop_never by (done || lia). split; [done |].
    split; [by apply (never_lookup t m) |]. rewrite (wf_count t Hwf).
    rewrite forallb_filter_id; [done |]. apply forallb_forall. intros s Hs.
    destruct (probe_surj a s Hs) as (j & Hj & ->). by apply Hn.
Qed.

(** Inserting for a non-zero address either stores the configuration in the
    map, replacing an earlier one for the same address, and keeps the table
    well formed; or fails, leaving the table as it was, which happens exactly
    when the address is absent and all 64 slots are in use. *)
Theorem insert_exact_transition_cfg_spec t m a c :
  table_wf t -> table_models t m -> a <> 0 ->
  match insert_exact_transition_cfg t a c with
  | (true, t') =>
      table_wf t' /\ table_models t' (<[a := c]> m) /\
      generic_transition_cfg t' = generic_transition_cfg t
  | (false, t') =>
      t' = t /\ m !! a = None /\ exact_transition_cfg_count t = max_exact_transition_cfgs
  end.
Proof. apply insert_exact_transition_cfg_ok. Qed.

(** An insertion for address zero reports success (whenever a free slot is
    met), yet no lookup ever returns its configuration: every guest RIP is
    answered exactly as before. *)
Theorem insert_zero_is_lost t c rip :
  let '(ok, t') := insert_exact_transition_cfg t 0 c in
  lookup_transition_cfg t' rip = lookup_transition_cfg t rip /\
  (exact_transition_cfg_count t < max_exact_transition_cfgs -> table_wf t -> ok = true).
Proof.
  unfold insert_exact_transition_cfg.
  destruct (probing_cases t 0) as [[i Hi] | Hn].
  - rewrite (insert_loop_run t 0 c 0 _ i) by (done || lia). split; [| done].
    destruct Hi as (_ & Hst & _). rewrite occupied_false in Hst.
    assert (addr (exact_transition_cfgs t (probe 0 i)) = 0) as Hz by tauto.
    assert (forall n k, lookup_loop (store_at t 0 c (probe 0 i)) rip k n
                        = lookup_loop t rip k n) as Heq.
    { induction n as [| n IH]; intros k; cbn [lookup_loop]; [done |].
      rewrite store_at_lookup, IH. destruct (decide (probe rip k = probe 0 i)) as [-> |]; [| done].
      by rewrite Hz. }
    unfold lookup_transition_cfg. rewrite Heq. unfold store_at. by rewrite Hz.
  - rewrite insert_loop_never by (done || lia). split; [done |].
    intros Hlt Hwf. exfalso. rewrite (wf_count t Hwf), forallb_filter_id in Hlt; [done |].
    apply forallb_forall. intros s Hs. destruct (probe_surj 0 s Hs) as (j & Hj & ->).
    by apply Hn.
Qed.

(** ** Witnesses *)

Definition sample_cfg : ept_transition_cfg :=
  [guest_rip; guest_retaddr; guest_rcx; guest_rdx; guest_r8; guest_r9].

Lemma insert_exact_transition_cfg_spec_witness :
  fst (insert_exact_transition_cfg empty_table 4096 sample_cfg) = true /\
  table_models (snd (insert_exact_transition_cfg empty_table 4096 sample_cfg))
               (<[4096 := sample_cfg]> ∅).
Proof.
  destruct empty_table_wf as [Hwf Hm].
  pose proof (insert_exact_transition_cfg_spec empty_table ∅ 4096 sample_cfg Hwf Hm ltac:(lia)) as H.
  split; [reflexivity |].
  change (insert_exact_transition_cfg empty_table 4096 sample_cfg) with
    (true, snd (insert_exact_transition_cfg empty_table 4096 sample_cfg)) in H.
  exact (proj1 (proj2 H)).
Defined.

Lemma lookup_transition_cfg_spec_witness :
  lookup_transition_cfg empty_table 4096 = replicate 6 field_none.
Proof.
  destruct empty_table_wf as [Hwf Hm].
  exact (lookup_transition_cfg_spec empty_table ∅ 4096 Hwf Hm ltac:(lia)).
Defined.

Lemma insert_zero_is_lost_witness :
  fst (insert_exact_transition_cfg empty_table 0 sample_cfg) = true.
Proof.
  pose proof (insert_zero_is_lost empty_table sample_cfg 0) as H.
  destruct (insert_exact_transition_cfg empty_table 0 sample_cfg) as [ok t'].
  exact (proj2 H eq_refl (proj1 empty_table_wf)).
Defined.
