(* ===== verification/Ia32.v ===== *)
(** * The hardware definitions the sources rely on

    The repository takes the names of memory types, MSRs and register layouts
    from the [ia32-doc] submodule, which is not part of it. They are the
    members of a class here; a theorem that needs more than their names asks
    for the documented values ([Ia32Ok]), and [sdm] is the instance with the
    values of the Intel SDM. *)
From Stdlib Require Import ZArith Lia List Bool.
From stdpp Require Import base numbers list.
From S2P Require Import Prelude.

Class Ia32 := {
  MEMORY_TYPE_UNCACHEABLE : Z;
  MEMORY_TYPE_WRITE_THROUGH : Z;
  MEMORY_TYPE_WRITE_BACK : Z;
  MEMORY_TYPE_INVALID : Z;
  IA32_MTRR_FIX64K_SIZE : Z;
  IA32_MTRR_FIX16K_BASE : Z;
  IA32_MTRR_FIX16K_SIZE : Z;
  IA32_MTRR_FIX4K_BASE : Z;
  IA32_MTRR_FIX4K_SIZE : Z;
  IA32_MTRR_FIX_COUNT : Z;
  IA32_MTRR_VARIABLE_COUNT : Z;
  IA32_MTRR_CAPABILITIES : Z;
  IA32_MTRR_DEF_TYPE : Z;
  IA32_MTRR_FIX64K_00000 : Z;
  IA32_MTRR_FIX16K_80000 : Z;
  IA32_MTRR_FIX16K_A0000 : Z;
  IA32_MTRR_FIX4K_C0000 : Z;
  IA32_MTRR_FIX4K_C8000 : Z;
  IA32_MTRR_FIX4K_D0000 : Z;
  IA32_MTRR_FIX4K_D8000 : Z;
  IA32_MTRR_FIX4K_E0000 : Z;
  IA32_MTRR_FIX4K_E8000 : Z;
  IA32_MTRR_FIX4K_F0000 : Z;
  IA32_MTRR_FIX4K_F8000 : Z;
  IA32_MTRR_PHYSBASE0 : Z;
  IA32_MTRR_PHYSMASK0 : Z;
  IA32_VMX_CR0_FIXED0 : Z;
  IA32_VMX_CR0_FIXED1 : Z;
  IA32_VMX_CR4_FIXED0 : Z;
  IA32_VMX_CR4_FIXED1 : Z;
  IA32_APIC_BASE : Z;
  IA32_DEBUGCTL : Z;
  IA32_EFER : Z;
  IA32_FS_BASE : Z;
  IA32_GS_BASE : Z;
  IA32_KERNEL_GS_BASE : Z;
  IA32_PAT : Z;
  IA32_PERF_GLOBAL_CTRL : Z;
  IA32_SYSENTER_CS : Z;
  IA32_SYSENTER_ESP : Z;
  IA32_SYSENTER_EIP : Z;
  IA32_VMX_BASIC : Z;
  IA32_VMX_PINBASED_CTLS : Z;
  IA32_VMX_PROCBASED_CTLS : Z;
  IA32_VMX_EXIT_CTLS : Z;
  IA32_VMX_ENTRY_CTLS : Z;
  IA32_VMX_MISC : Z;
  IA32_VMX_PROCBASED_CTLS2 : Z;
  IA32_VMX_TRUE_PINBASED_CTLS : Z;
  IA32_VMX_TRUE_PROCBASED_CTLS : Z;
  IA32_VMX_TRUE_EXIT_CTLS : Z;
  IA32_VMX_TRUE_ENTRY_CTLS : Z;
  IA32_FEATURE_CONTROL : Z;
  IA32_TIME_STAMP_COUNTER : Z;
  IA32_MPERF : Z;
  IA32_APERF : Z;
  IA32_X2APIC_ICR : Z;
  MSR_ID_LOW_MAX : Z;
  MSR_ID_HIGH_MIN : Z;
  MSR_ID_HIGH_MAX : Z;
  MEMORY_TYPE_UNCACHEABLE_MINUS : Z;
  (** width in bits of [page_frame_number] in a page-table entry *)
  pfn_width : Z
}.

(** The documented values the theorems rely on. *)
Class Ia32Ok (H : Ia32) : Prop := {
  memory_types_distinct :
    NoDup [MEMORY_TYPE_UNCACHEABLE; MEMORY_TYPE_WRITE_THROUGH;
           MEMORY_TYPE_WRITE_BACK; MEMORY_TYPE_INVALID];
  fix64k_size_ok : IA32_MTRR_FIX64K_SIZE = 0x10000;
  fix16k_base_ok : IA32_MTRR_FIX16K_BASE = 0x80000;
  fix16k_size_ok : IA32_MTRR_FIX16K_SIZE = 0x4000;
  fix4k_base_ok : IA32_MTRR_FIX4K_BASE = 0xC0000;
  fix4k_size_ok : IA32_MTRR_FIX4K_SIZE = 0x1000;
  fix_count_ok : IA32_MTRR_FIX_COUNT = 88;
  msr_low_max_ok : MSR_ID_LOW_MAX = 0x1FFF;
  msr_high_min_ok : MSR_ID_HIGH_MIN = 0xC0000000;
  msr_high_max_ok : MSR_ID_HIGH_MAX = 0xC0001FFF;
  pfn_width_ok : 32 <= pfn_width <= 40
}.

#[export] Instance sdm : Ia32 := {|
  MEMORY_TYPE_UNCACHEABLE := 0;
  MEMORY_TYPE_WRITE_THROUGH := 4;
  MEMORY_TYPE_WRITE_BACK := 6;
  MEMORY_TYPE_INVALID := 0xFF;
  IA32_MTRR_FIX64K_SIZE := 0x10000;
  IA32_MTRR_FIX16K_BASE := 0x80000;
  IA32_MTRR_FIX16K_SIZE := 0x4000;
  IA32_MTRR_FIX4K_BASE := 0xC0000;
  IA32_MTRR_FIX4K_SIZE := 0x1000;
  IA32_MTRR_FIX_COUNT := 88;
  IA32_MTRR_VARIABLE_COUNT := 255;
  IA32_MTRR_CAPABILITIES := 0xFE;
  IA32_MTRR_DEF_TYPE := 0x2FF;
  IA32_MTRR_FIX64K_00000 := 0x250;
  IA32_MTRR_FIX16K_80000 := 0x258;
  IA32_MTRR_FIX16K_A0000 := 0x259;
  IA32_MTRR_FIX4K_C0000 := 0x268;
  IA32_MTRR_FIX4K_C8000 := 0x269;
  IA32_MTRR_FIX4K_D0000 := 0x26A;
  IA32_MTRR_FIX4K_D8000 := 0x26B;
  IA32_MTRR_FIX4K_E0000 := 0x26C;
  IA32_MTRR_FIX4K_E8000 := 0x26D;
  IA32_MTRR_FIX4K_F0000 := 0x26E;
  IA32_MTRR_FIX4K_F8000 := 0x26F;
  IA32_MTRR_PHYSBASE0 := 0x200;
  IA32_MTRR_PHYSMASK0 := 0x201;
  IA32_VMX_CR0_FIXED0 := 0x486;
  IA32_VMX_CR0_FIXED1 := 0x487;
  IA32_VMX_CR4_FIXED0 := 0x488;
  IA32_VMX_CR4_FIXED1 := 0x489;
  IA32_APIC_BASE := 0x1B;
  IA32_DEBUGCTL := 0x1D9;
  IA32_EFER := 0xC0000080;
  IA32_FS_BASE := 0xC0000100;
  IA32_GS_BASE := 0xC0000101;
  IA32_KERNEL_GS_BASE := 0xC0000102;
  IA32_PAT := 0x277;
  IA32_PERF_GLOBAL_CTRL := 0x38F;
  IA32_SYSENTER_CS := 0x174;
  IA32_SYSENTER_ESP := 0x175;
  IA32_SYSENTER_EIP := 0x176;
  IA32_VMX_BASIC := 0x480;
  IA32_VMX_PINBASED_CTLS := 0x481;
  IA32_VMX_PROCBASED_CTLS := 0x482;
  IA32_VMX_EXIT_CTLS := 0x483;
  IA32_VMX_ENTRY_CTLS := 0x484;
  IA32_VMX_MISC := 0x485;
  IA32_VMX_PROCBASED_CTLS2 := 0x48B;
  IA32_VMX_TRUE_PINBASED_CTLS := 0x48D;
  IA32_VMX_TRUE_PROCBASED_CTLS := 0x48E;
  IA32_VMX_TRUE_EXIT_CTLS := 0x48F;
  IA32_VMX_TRUE_ENTRY_CTLS := 0x490;
  IA32_FEATURE_CONTROL := 0x3A;
  IA32_TIME_STAMP_COUNTER := 0x10;
  IA32_MPERF := 0xE7;
  IA32_APERF := 0xE8;
  IA32_X2APIC_ICR := 0x830;
  MSR_ID_LOW_MAX := 0x1FFF;
  MSR_ID_HIGH_MIN := 0xC0000000;
  MSR_ID_HIGH_MAX := 0xC0001FFF;
  MEMORY_TYPE_UNCACHEABLE_MINUS := 7;
  pfn_width := 36
|}.

#[export] Instance sdm_ok : Ia32Ok sdm.
Proof. split; try done. apply (bool_decide_unpack _). vm_compute. done. Qed.

(** ** Exception vectors of the architecture *)

Definition divide_error : Z := 0.
Definition debug : Z := 1.
Definition nmi : Z := 2.
Definition breakpoint : Z := 3.
Definition overflow : Z := 4.
Definition bound_range_exceeded : Z := 5.
Definition invalid_opcode : Z := 6.
Definition device_not_available : Z := 7.
Definition double_fault : Z := 8.
Definition invalid_tss : Z := 10.
Definition segment_not_present : Z := 11.
Definition stack_segment_fault : Z := 12.
Definition general_protection : Z := 13.
Definition page_fault : Z := 14.
Definition x87_floating_point_error : Z := 16.
Definition alignment_check : Z := 17.
Definition machine_check : Z := 18.
Definition simd_floating_point_error : Z := 19.
Definition virtualization_exception : Z := 20.
Definition control_protection : Z := 21.
