(* ===== verification/Mtrr.v ===== *)
(** * Memory types from the MTRRs: [revhv-km/memory.cpp]

    Reading the memory type range registers and computing the memory type of an
    address and of a range, as the EPT construction uses them. *)
From Stdlib Require Import ZArith Lia List Bool.
From stdpp Require Import base numbers list option functions.
From S2P Require Import Prelude Ia32.

(** [ia32_mtrr_def_type_register], [ia32_mtrr_physbase_register] and
    [ia32_mtrr_physmask_register]: the members the code uses. *)
Record mtrr_def_type := mk_def_type {
  default_memory_type : Z;
  fixed_range_mtrr_enable : bool;
  mtrr_enable : bool
}.
Record mtrr_variable := mk_variable {
  base_type : Z;
  base_pfn : Z;
  mask_valid : bool;
  mask_pfn : Z
}.

(** [hv::memory::mtrr_state]. *)
Record mtrr_state := mk_mtrr {
  def_type : mtrr_def_type;
  fixed_supported : bool;
  fixed : Z -> Z;
  variable : Z -> mtrr_variable;
  variable_count : Z
}.
#[export] Instance eta_mtrr_state : Eta mtrr_state :=
  fun s => mk_mtrr (def_type s) (fixed_supported s) (fixed s) (variable s) (variable_count s).

(** [utils::memset(&state, 0, sizeof(state))]. *)
Definition zero_mtrr_state : mtrr_state :=
  mk_mtrr (mk_def_type 0 false false) false (fun _ => 0)
          (fun _ => mk_variable 0 0 false 0) 0.

(** How the bits of the four registers are laid out; the decoding is that of
    the register unions of [ia32-doc]. *)
Class MtrrLayout := {
  cap_variable_range_count : Z -> Z;
  cap_fixed_range_supported : Z -> bool;
  decode_def_type : Z -> mtrr_def_type;
  decode_base_type : Z -> Z;
  decode_base_pfn : Z -> Z;
  decode_mask_valid : Z -> bool;
  decode_mask_pfn : Z -> Z
}.

#[export] Instance sdm_mtrr_layout : MtrrLayout := {|
  cap_variable_range_count := fun m => bits m 0 8;
  cap_fixed_range_supported := fun m => Z.testbit m 8;
  decode_def_type := fun m => mk_def_type (bits m 0 3) (Z.testbit m 10) (Z.testbit m 11);
  decode_base_type := fun m => bits m 0 8;
  decode_base_pfn := fun m => bits m 12 36;
  decode_mask_valid := fun m => Z.testbit m 11;
  decode_mask_pfn := fun m => bits m 12 36
|}.

Section mtrr.
Context {ia32 : Ia32} {layout : MtrrLayout}.

(** ** Reading the registers *)

(** Eight consecutive [fixed] entries from the eight bytes of one MSR. *)
Definition store_fixed (first : Z) (msr : Z) (f : Z -> Z) : Z -> Z :=
  fold_left (fun f i => <[first + i := Z.land (Z.shiftr msr (i * 8)) 0xFF]> f) (seqZ 0 8) f.

Definition fix16k_msrs : list Z := [IA32_MTRR_FIX16K_80000; IA32_MTRR_FIX16K_A0000].
Definition fix4k_msrs : list Z :=
  [IA32_MTRR_FIX4K_C0000; IA32_MTRR_FIX4K_C8000; IA32_MTRR_FIX4K_D0000;
   IA32_MTRR_FIX4K_D8000; IA32_MTRR_FIX4K_E0000; IA32_MTRR_FIX4K_E8000;
   IA32_MTRR_FIX4K_F0000; IA32_MTRR_FIX4K_F8000].

Definition read_variable (rdmsr : Z -> Z) (i : Z) : mtrr_variable :=
  let base := rdmsr (IA32_MTRR_PHYSBASE0 + i * 2) in
  let mask := rdmsr (IA32_MTRR_PHYSMASK0 + i * 2) in
  mk_variable (decode_base_type base) (decode_base_pfn base)
              (decode_mask_valid mask) (decode_mask_pfn mask).

(** The fixed-range part of [read_mtrrs]. *)
Definition read_fixed (rdmsr : Z -> Z) (f : Z -> Z) : Z -> Z :=
  let f := store_fixed 0 (rdmsr IA32_MTRR_FIX64K_00000) f in
  let f := fold_left (fun f j => store_fixed (8 + j * 8)
             (rdmsr (nth (Z.to_nat j) fix16k_msrs 0)) f) (seqZ 0 2) f in
  fold_left (fun f j => store_fixed (24 + j * 8)
    (rdmsr (nth (Z.to_nat j) fix4k_msrs 0)) f) (seqZ 0 8) f.

Definition read_mtrrs (rdmsr : Z -> Z) : mtrr_state :=
  let state := zero_mtrr_state in
  let cap := rdmsr IA32_MTRR_CAPABILITIES in
  let state := state <| variable_count := u8 (cap_variable_range_count cap) |>
                     <| fixed_supported := cap_fixed_range_supported cap |>
                     <| def_type := decode_def_type (rdmsr IA32_MTRR_DEF_TYPE) |> in
  if negb (mtrr_enable (def_type state)) then state
  else
    let state :=
      if fixed_range_mtrr_enable (def_type state) && fixed_supported state
      then state <| fixed := read_fixed rdmsr (fixed state) |> else state in
    state <| variable := fold_left (fun v i => <[i := read_variable rdmsr i]> v)
                           (seqZ 0 (variable_count state)) (variable state) |>.

(** ** The memory type of an address *)

Definition fixed_index (pa : Z) : Z :=
  if pa <? 0x80000 then pa / IA32_MTRR_FIX64K_SIZE
  else if pa <? 0xC0000 then 8 + (pa - IA32_MTRR_FIX16K_BASE) / IA32_MTRR_FIX16K_SIZE
  else 24 + (pa - IA32_MTRR_FIX4K_BASE) / IA32_MTRR_FIX4K_SIZE.

(** The overlap rules, written the same way in both routines. *)
Definition combine_types (type result : Z) : Z :=
  if (type =? MEMORY_TYPE_UNCACHEABLE) || (result =? MEMORY_TYPE_UNCACHEABLE)
  then MEMORY_TYPE_UNCACHEABLE
  else if ((type =? MEMORY_TYPE_WRITE_THROUGH) && (result =? MEMORY_TYPE_WRITE_BACK)) ||
          ((type =? MEMORY_TYPE_WRITE_BACK) && (result =? MEMORY_TYPE_WRITE_THROUGH))
  then MEMORY_TYPE_WRITE_THROUGH
  else MEMORY_TYPE_UNCACHEABLE.

Definition variable_matches (v : mtrr_variable) (pa : Z) : bool :=
  let range_mask := shl64 (mask_pfn v) 12 in
  let range_base := shl64 (base_pfn v) 12 in
  Z.land pa range_mask =? Z.land range_base range_mask.

(** One iteration over the variable ranges. *)
Definition variable_step (st : mtrr_state) (pa : Z) (final i : Z) : Z :=
  let v := variable st i in
  if negb (mask_valid v) then final
  else if negb (variable_matches v pa) then final
  else if final =? MEMORY_TYPE_INVALID then base_type v
  else combine_types (base_type v) final.

Definition get_mtrr_memory_type_single (st : mtrr_state) (pa : Z) : Z :=
  if negb (mtrr_enable (def_type st)) then MEMORY_TYPE_UNCACHEABLE
  else if (pa <? 0x100000) && fixed_supported st && fixed_range_mtrr_enable (def_type st)
  then fixed st (fixed_index pa)
  else
    let final := fold_left (variable_step st pa) (seqZ 0 (variable_count st))
                   MEMORY_TYPE_INVALID in
    if negb (final =? MEMORY_TYPE_INVALID) then final
    else u8 (default_memory_type (def_type st)).

(** ** The memory type of a range *)

(** The loop over the pages after the first; [n] bounds the iterations. *)
Fixpoint range_loop (st : mtrr_state) (n : nat) (addr end_address result : Z)
    (is_uniform : bool) : Z * bool :=
  match n with
  | O => (result, is_uniform)
  | S n' =>
      if addr <? end_address then
        let type := get_mtrr_memory_type_single st addr in
        if type =? result
        then range_loop st n' (addr +64 0x1000) end_address result is_uniform
        else range_loop st n' (addr +64 0x1000) end_address (combine_types type result) false
      else (result, is_uniform)
  end.

Definition range_fuel (target_size : Z) : nat := Z.to_nat (target_size / 0x1000 + 1).

(** The returned type and the [is_uniform] out-parameter. *)
Definition get_mtrr_range_memory_type (st : mtrr_state) (pa target_size : Z) : Z * bool :=
  let first_type := get_mtrr_memory_type_single st pa in
  range_loop st (range_fuel target_size)
    (Z.land pa (not64 0xFFF) +64 0x1000) (pa +64 target_size) first_type true.

(** ** Specification of the overlap rules *)

(** The types of the enabled variable ranges that contain [pa], in order. *)
Definition matching_types (st : mtrr_state) (pa : Z) : list Z :=
  map base_type (List.filter (fun v => mask_valid v && variable_matches v pa)
    (map (variable st) (seqZ 0 (variable_count st)))).

Definition is_wt_or_wb (t : Z) : bool :=
  (t =? MEMORY_TYPE_WRITE_THROUGH) || (t =? MEMORY_TYPE_WRITE_BACK).

(** SDM 13.11.4.1 for ranges of pairwise distinct types; combinations the SDM
    leaves undefined are UC, as the code comments say. *)
Definition sdm_effective_type (default_type : Z) (types : list Z) : Z :=
  match types with
  | [] => default_type
  | [t] => t
  | _ => if forallb is_wt_or_wb types then MEMORY_TYPE_WRITE_THROUGH
         else MEMORY_TYPE_UNCACHEABLE
  end.

Definition overlap_step (final t : Z) : Z :=
  if final =? MEMORY_TYPE_INVALID then t else combine_types t final.

(** The type of every page of a range. *)
Definition page_types (st : mtrr_state) (pa target_size : Z) : list Z :=
  map (fun k => get_mtrr_memory_type_single st (pa + k * 0x1000))
      (seqZ 0 (target_size / 0x1000)).

(** The first address and the size of the fixed range with a given index, as
    the comment on [mtrr_state::fixed] lays them out. *)
Definition fixed_range (i : Z) : Z * Z :=
  if i <? 8 then (i * 0x10000, 0x10000)
  else if i <? 24 then (0x80000 + (i - 8) * 0x4000, 0x4000)
  else (0xC0000 + (i - 24) * 0x1000, 0x1000).

(** ** Helper lemmas *)

Context `{!Ia32Ok ia32}.

Lemma types_ne :
  MEMORY_TYPE_UNCACHEABLE <> MEMORY_TYPE_INVALID /\
  MEMORY_TYPE_WRITE_THROUGH <> MEMORY_TYPE_INVALID /\
  MEMORY_TYPE_WRITE_BACK <> MEMORY_TYPE_INVALID /\
  MEMORY_TYPE_UNCACHEABLE <> MEMORY_TYPE_WRITE_THROUGH /\
  MEMORY_TYPE_UNCACHEABLE <> MEMORY_TYPE_WRITE_BACK /\
  MEMORY_TYPE_WRITE_THROUGH <> MEMORY_TYPE_WRITE_BACK.
Proof.
  pose proof memory_types_distinct as Hd. rewrite !list.NoDup_cons in Hd.
  rewrite !not_elem_of_cons in Hd. tauto.
Qed.

(** Case analysis on the comparisons of memory types. *)
Ltac type_cases :=
  repeat match goal with
  | |- context [?a =? ?b] => destruct (Z.eqb_spec a b); subst; cbn [orb andb negb]
  end.

(** Combining different types: WT for the pair WT/WB, else UC. *)
Lemma combine_types_ne t r :
  t <> r -> combine_types t r =
    if is_wt_or_wb t && is_wt_or_wb r then MEMORY_TYPE_WRITE_THROUGH
    else MEMORY_TYPE_UNCACHEABLE.
Proof.
  intros Hne. pose proof types_ne. unfold combine_types, is_wt_or_wb.
  type_cases; try done; intuition congruence.
Qed.

Lemma combine_types_result t r :
  combine_types t r = MEMORY_TYPE_WRITE_THROUGH \/ combine_types t r = MEMORY_TYPE_UNCACHEABLE.
Proof. unfold combine_types. type_cases; auto. Qed.

Lemma combine_types_same t : combine_types t t = MEMORY_TYPE_UNCACHEABLE.
Proof. pose proof types_ne. unfold combine_types. type_cases; try done; intuition congruence. Qed.

Lemma is_wt_or_wb_uc : is_wt_or_wb MEMORY_TYPE_UNCACHEABLE = false.
Proof. pose proof types_ne. unfold is_wt_or_wb. type_cases; intuition congruence. Qed.
Lemma is_wt_or_wb_wt : is_wt_or_wb MEMORY_TYPE_WRITE_THROUGH = true.
Proof. unfold is_wt_or_wb. by rewrite Z.eqb_refl. Qed.

Lemma overlap_step_valid r t : r <> MEMORY_TYPE_INVALID -> overlap_step r t = combine_types t r.
Proof. intros Hr%Z.eqb_neq. unfold overlap_step. by rewrite Hr. Qed.

(** Once UC, always UC. *)
Lemma overlap_uc ts : fold_left overlap_step ts MEMORY_TYPE_UNCACHEABLE = MEMORY_TYPE_UNCACHEABLE.
Proof.
  induction ts as [| t ts IH]; cbn; [done |].
  rewrite overlap_step_valid by apply types_ne.
  unfold combine_types. by rewrite Z.eqb_refl, orb_true_r.
Qed.

(** The loop over the variable ranges only sees the matching types. *)
Lemma variable_fold st pa l final :
  fold_left (variable_step st pa) l final =
  fold_left overlap_step
    (map base_type (List.filter (fun v => mask_valid v && variable_matches v pa)
       (map (variable st) l))) final.
Proof.
  revert final. induction l as [| i l IH]; intros final; [done |]. cbn [fold_left map List.filter].
  rewrite IH. unfold variable_step at 1.
  destruct (mask_valid (variable st i)); [| done].
  by destruct (variable_matches (variable st i) pa).
Qed.

Lemma overlap_nodup default_type types :
  NoDup types -> Forall (fun t => t <> MEMORY_TYPE_INVALID) types ->
  (let final := fold_left overlap_step types MEMORY_TYPE_INVALID in
   if negb (final =? MEMORY_TYPE_INVALID) then final else default_type)
  = sdm_effective_type default_type types.
Proof.
  intros Hnd Hinv. pose proof types_ne as Hne.
  destruct types as [| a types]; cbn; [by rewrite Z.eqb_refl |].
  assert (overlap_step MEMORY_TYPE_INVALID a = a) as ->
    by (unfold overlap_step; by rewrite Z.eqb_refl).
  apply list.Forall_cons in Hinv as [Ha%Z.eqb_neq Hinv].
  destruct types as [| b types]; cbn; [by rewrite Ha |].
  apply list.NoDup_cons in Hnd as [Hab Hnd]. apply not_elem_of_cons in Hab as [Hab Hat].
  apply list.NoDup_cons in Hnd as [Hbt _].
  rewrite overlap_step_valid by (by apply Z.eqb_neq).
  rewrite combine_types_ne by congruence. rewrite (andb_comm (is_wt_or_wb b)), andb_assoc.
  destruct (is_wt_or_wb a && is_wt_or_wb b) eqn:E; cbn [andb].
  - destruct types as [| c types].
    { cbn. destruct (Z.eqb_spec MEMORY_TYPE_WRITE_THROUGH MEMORY_TYPE_INVALID); [tauto | done]. }
    cbn [fold_left forallb]. rewrite overlap_step_valid by tauto.
    apply not_elem_of_cons in Hat as [Hac _]. apply not_elem_of_cons in Hbt as [Hbc _].
    assert (is_wt_or_wb c = false) as Hc.
    { unfold is_wt_or_wb in *. revert E. type_cases; try done; congruence. }
    rewrite Hc. cbn [andb].
    assert (combine_types c MEMORY_TYPE_WRITE_THROUGH = MEMORY_TYPE_UNCACHEABLE) as ->.
    { rewrite combine_types_ne, Hc; [done |]. intros ->. by rewrite is_wt_or_wb_wt in Hc. }
    rewrite overlap_uc. destruct (Z.eqb_spec MEMORY_TYPE_UNCACHEABLE MEMORY_TYPE_INVALID); tauto.
  - rewrite overlap_uc. destruct (Z.eqb_spec MEMORY_TYPE_UNCACHEABLE MEMORY_TYPE_INVALID); tauto.
Qed.

(** The range loop folds the types of the pages that are left. *)
Definition range_step (acc : Z * bool) (t : Z) : Z * bool :=
  if t =? fst acc then acc else (combine_types t (fst acc), false).

Lemma range_loop_fold st n k addr end_address r u :
  (k <= n)%nat -> 0 <= addr -> end_address = addr + Z.of_nat k * 0x1000 ->
  end_address + 0x1000 <= 2 ^ 64 ->
  range_loop st n addr end_address r u =
  fold_left range_step
    (map (fun j => get_mtrr_memory_type_single st (addr + j * 0x1000)) (seqZ 0 (Z.of_nat k)))
    (r, u).
Proof.
  revert k addr r u. induction n as [| n IH]; intros k addr r u Hk Ha He Hw.
  { assert (k = 0%nat) as -> by lia. done. }
  cbn [range_loop]. destruct k as [| k].
  { destruct (Z.ltb_spec addr end_address); [lia | done]. }
  destruct (Z.ltb_spec addr end_address); [| lia].
  rewrite seqZ_cons by lia. cbn [map fold_left]. rewrite Z.mul_0_l, Z.add_0_r.
  replace (Z.pred (Z.of_nat (S k))) with (Z.of_nat k) by lia.
  assert (addr +64 0x1000 = addr + 0x1000) as -> by (apply wrap_small; lia).
  assert (map (fun j => get_mtrr_memory_type_single st (addr + j * 0x1000))
            (seqZ (Z.succ 0) (Z.of_nat k))
          = map (fun j => get_mtrr_memory_type_single st (addr + 0x1000 + j * 0x1000))
            (seqZ 0 (Z.of_nat k))) as ->.
  { rewrite map_seqZ_succ. apply map_ext. intros j. f_equal. lia. }
  unfold range_step at 2. cbn [fst].
  destruct (_ =? r); (rewrite <- IH; [done | lia | lia | lia | lia]).
Qed.

(** Folding from a uniform state, and from a mixed one. *)
Lemma range_fold_mixed ts r :
  (r = MEMORY_TYPE_WRITE_THROUGH \/ r = MEMORY_TYPE_UNCACHEABLE) ->
  fold_left range_step ts (r, false) =
    (if is_wt_or_wb r && forallb is_wt_or_wb ts then MEMORY_TYPE_WRITE_THROUGH
     else MEMORY_TYPE_UNCACHEABLE, false).
Proof.
  revert r. induction ts as [| t ts IH]; intros r Hr; cbn [fold_left forallb].
  - destruct Hr as [-> | ->]; [by rewrite is_wt_or_wb_wt | by rewrite is_wt_or_wb_uc].
  - unfold range_step at 2. cbn [fst]. destruct (Z.eqb_spec t r) as [-> | Hne].
    + rewrite IH by done. by destruct (is_wt_or_wb r).
    + rewrite IH by apply combine_types_result. rewrite combine_types_ne by done.
      destruct (is_wt_or_wb t), (is_wt_or_wb r); cbn [andb];
        by rewrite ?is_wt_or_wb_wt, ?is_wt_or_wb_uc.
Qed.

Lemma range_fold_uniform ts r :
  fold_left range_step ts (r, true) =
    (if forallb (Z.eqb r) ts then (r, true)
     else (if is_wt_or_wb r && forallb is_wt_or_wb ts then MEMORY_TYPE_WRITE_THROUGH
           else MEMORY_TYPE_UNCACHEABLE, false)).
Proof.
  induction ts as [| t ts IH]; cbn [fold_left forallb]; [done |].
  unfold range_step at 2. cbn [fst]. destruct (Z.eqb_spec t r) as [-> | Hne].
  - rewrite Z.eqb_refl. cbn [andb]. rewrite IH. by destruct (is_wt_or_wb r).
  - rewrite (proj2 (Z.eqb_neq r t)) by congruence. cbn [andb].
    rewrite range_fold_mixed by apply combine_types_result.
    rewrite combine_types_ne by done.
    destruct (is_wt_or_wb t), (is_wt_or_wb r); cbn [andb];
      by rewrite ?is_wt_or_wb_wt, ?is_wt_or_wb_uc.
Qed.

(** Storing one MSR changes its eight entries only. *)
Lemma store_fixed_spec first msr f i :
  store_fixed first msr f i =
  if (first <=? i) && (i <? first + 8)
  then Z.land (Z.shiftr msr ((i - first) * 8)) 0xFF else f i.
Proof.
  unfold store_fixed.
  assert (forall l f, fold_left (fun f i => <[first + i := Z.land (Z.shiftr msr (i * 8)) 0xFF]> f) l f
    = fold_left (fun f j => <[j := Z.land (Z.shiftr msr ((j - first) * 8)) 0xFF]> f)
        (map (Z.add first) l) f) as ->.
  { induction l as [| j l IH]; intros f'; [done |]. cbn [map fold_left]. rewrite IH.
    by replace (first + j - first) with j by lia. }
  change (map (Z.add first) (seqZ 0 8)) with (Z.add first <$> seqZ 0 8).
  rewrite fmap_add_seqZ, Z.add_0_r. apply (fold_insert_seqZ (fun j => _)).
Qed.

(** The registers in the order in which the entries of [fixed] are laid out. *)
Definition fixed_msrs : list Z := IA32_MTRR_FIX64K_00000 :: fix16k_msrs ++ fix4k_msrs.

Lemma read_fixed_spec rdmsr f i :
  0 <= i < 88 ->
  read_fixed rdmsr f i =
    Z.land (Z.shiftr (rdmsr (nth (Z.to_nat (i / 8)) fixed_msrs 0)) (i mod 8 * 8)) 0xFF.
Proof.
  intros Hi. unfold read_fixed.
  change (seqZ 0 2) with [0; 1]. change (seqZ 0 8) with [0; 1; 2; 3; 4; 5; 6; 7].
  cbn [fold_left]. rewrite !store_fixed_spec.
  pose proof (Z.div_mod i 8 ltac:(lia)). pose proof (Z.mod_pos_bound i 8 ltac:(lia)).
  set (q := i / 8) in *. set (m := i mod 8) in *. clearbody q m. subst i.
  assert (q = 0 \/ q = 1 \/ q = 2 \/ q = 3 \/ q = 4 \/ q = 5 \/ q = 6 \/ q = 7 \/ q = 8 \/
          q = 9 \/ q = 10) as Hq by lia.
  repeat destruct Hq as [-> | Hq]; subst; zcases; cbn [andb]; do 2 f_equal; lia.
Qed.

(** A fixed-range address below 1 MB selects an entry inside the 88-byte
    [fixed] array, and that entry is the one whose documented range contains it. *)
Lemma fixed_index_in_range pa :
  0 <= pa < 0x100000 ->
  0 <= fixed_index pa < IA32_MTRR_FIX_COUNT /\
  let '(first, size) := fixed_range (fixed_index pa) in first <= pa < first + size.
Proof.
  intros Hpa. unfold fixed_index, fixed_range.
  rewrite fix64k_size_ok, fix16k_base_ok, fix16k_size_ok, fix4k_base_ok, fix4k_size_ok,
    fix_count_ok.
  pose proof (Z.div_mod pa 0x10000 ltac:(lia)). pose proof (Z.mod_pos_bound pa 0x10000 ltac:(lia)).
  pose proof (Z.div_mod (pa - 0x80000) 0x4000 ltac:(lia)).
  pose proof (Z.mod_pos_bound (pa - 0x80000) 0x4000 ltac:(lia)).
  pose proof (Z.div_mod (pa - 0xC0000) 0x1000 ltac:(lia)).
  pose proof (Z.mod_pos_bound (pa - 0xC0000) 0x1000 ltac:(lia)).
  destruct (Z.ltb_spec pa 0x80000); [| destruct (Z.ltb_spec pa 0xC0000)];
    zcases; lia.
Qed.

Lemma range_memory_type_eq st pa target_size :
  pa mod 0x1000 = 0 -> target_size mod 0x1000 = 0 -> 0 <= pa -> 0 < target_size ->
  pa + target_size + 0x1000 <= 2 ^ 64 ->
  let first_type := get_mtrr_memory_type_single st pa in
  let types := page_types st pa target_size in
  get_mtrr_range_memory_type st pa target_size =
    if forallb (Z.eqb first_type) types then (first_type, true)
    else (if forallb is_wt_or_wb types then MEMORY_TYPE_WRITE_THROUGH
          else MEMORY_TYPE_UNCACHEABLE, false).
Proof.
  intros Hpa Hts Hpa0 Hts0 Hw first_type types. unfold get_mtrr_range_memory_type.
  assert (Z.land pa (not64 0xFFF) = pa) as ->.
  { apply Z.bits_inj'. intros i Hi. rewrite Z.land_spec, testbit_not64 by lia.
    change 0xFFF with (Z.ones 12). rewrite testbit_ones_nonneg by lia.
    destruct (Z.ltb_spec i 12) as [Hlt | Hge]; cbn [negb].
    - rewrite !andb_false_r. symmetry. replace i with (i + 0) by lia.
      rewrite <- Z.mod_pow2_bits_low with (n := 12) by lia.
      change (2 ^ 12) with 0x1000. rewrite Hpa. apply Z.testbit_0_l.
    - rewrite andb_true_r. destruct (Z.ltb_spec i 64); [by rewrite andb_true_r |].
      rewrite (testbit_above 64 pa i) by lia. done. }
  assert (pa +64 0x1000 = pa + 0x1000) as -> by (apply wrap_small; lia).
  assert (pa +64 target_size = pa + target_size) as -> by (apply wrap_small; lia).
  pose proof (Z.div_mod target_size 0x1000 ltac:(lia)) as Hdiv. rewrite Hts in Hdiv.
  assert (0 < target_size / 0x1000) as Hq by lia.
  rewrite (range_loop_fold st _ (Z.to_nat (target_size / 0x1000 - 1)))
    by (unfold range_fuel; lia).
  rewrite Z2Nat.id by lia. rewrite range_fold_uniform.
  assert (types = first_type ::
    map (fun j => get_mtrr_memory_type_single st (pa + 0x1000 + j * 0x1000))
        (seqZ 0 (target_size / 0x1000 - 1))) as ->.
  { unfold types, page_types. rewrite seqZ_cons by lia. cbn [map].
    rewrite Z.mul_0_l, Z.add_0_r. f_equal.
    rewrite map_seqZ_succ, <- Z.sub_1_r. apply map_ext. intros j. f_equal. lia. }
  cbn [forallb]. by rewrite Z.eqb_refl.
Qed.

(** A range reported uniform has the reported type on every page. *)
Lemma range_uniform st pa n type :
  pa mod 0x1000 = 0 -> 0 <= pa -> 0 < n -> pa + n * 0x1000 + 0x1000 <= 2 ^ 64 ->
  get_mtrr_range_memory_type st pa (n * 0x1000) = (type, true) ->
  forall k, 0 <= k < n -> get_mtrr_memory_type_single st (pa + k * 0x1000) = type.
Proof.
  intros Hpa H0 Hn Hw. rewrite range_memory_type_eq;
    [| done | apply Z.mod_mul; lia | lia | lia | lia]. cbv zeta.
  destruct (forallb _ _) eqn:E; [| done]. intros [= <-] k Hk.
  rewrite forallb_forall in E. symmetry. apply Z.eqb_eq, E.
  apply in_map_iff. exists k. split; [done |]. apply list_elem_of_In, elem_of_seqZ.
  rewrite Z.div_mul by lia. lia.
Qed.

(** A single page is always uniform. *)
Lemma range_single_page st pa :
  pa mod 0x1000 = 0 -> 0 <= pa -> pa + 0x2000 <= 2 ^ 64 ->
  get_mtrr_range_memory_type st pa 0x1000 = (get_mtrr_memory_type_single st pa, true).
Proof.
  intros Hpa H0 Hw. rewrite range_memory_type_eq; [| done | done | lia | lia | lia].
  unfold page_types. change (seqZ 0 (0x1000 / 0x1000)) with [0]. cbn [map forallb].
  rewrite Z.mul_0_l, Z.add_0_r, Z.eqb_refl. done.
Qed.

(** ** Properties *)

(** With the fixed ranges enabled, an address below 1 MB selects an entry
    inside the 88-byte array whose documented range contains the address, and the
    entry that [read_mtrrs] fills in and [get_mtrr_memory_type_single] returns is
    the byte the SDM assigns to it in the eleven fixed-range MSRs. *)
Theorem fixed_memory_type_from_msrs rdmsr pa :
  let st := read_mtrrs rdmsr in
  let i := fixed_index pa in
  mtrr_enable (def_type st) = true -> fixed_supported st = true ->
  fixed_range_mtrr_enable (def_type st) = true -> 0 <= pa < 0x100000 ->
  0 <= i < IA32_MTRR_FIX_COUNT /\
  (let '(first, size) := fixed_range i in first <= pa < first + size) /\
  get_mtrr_memory_type_single st pa =
    Z.land (Z.shiftr (rdmsr (nth (Z.to_nat (i / 8)) fixed_msrs 0)) (i mod 8 * 8)) 0xFF.
Proof.
  intros st i He Hs Hf Hpa. destruct (fixed_index_in_range pa Hpa) as [Hi Hr].
  split; [done |]. split; [done |].
  rewrite fix_count_ok in Hi. unfold get_mtrr_memory_type_single. rewrite He, Hs, Hf.
  destruct (Z.ltb_spec pa 0x100000); [| lia]. cbn [negb andb].
  rewrite <- (read_fixed_spec rdmsr (fixed zero_mtrr_state)) by done.
  revert He Hs Hf. unfold st, read_mtrrs. cbv zeta.
  unfold set. cbn [def_type fixed_supported fixed].
  destruct (mtrr_enable (decode_def_type (rdmsr IA32_MTRR_DEF_TYPE))) eqn:E;
    cbn [negb def_type fixed_supported fixed]; [| by rewrite E].
  destruct (fixed_range_mtrr_enable _ && _) eqn:E2;
    cbn [def_type fixed_supported fixed]; [done |].
  intros _ Hs Hf. by rewrite Hs, Hf in E2.
Qed.

(** (C39) When the fixed ranges do not apply and the enabled variable ranges that
    contain an address have pairwise different types, the computed type is the
    one the SDM's overlap rules give, the default type when no range matches. *)
Theorem mtrr_single_follows_sdm st pa :
  mtrr_enable (def_type st) = true ->
  (pa <? 0x100000) && fixed_supported st && fixed_range_mtrr_enable (def_type st) = false ->
  NoDup (matching_types st pa) ->
  Forall (fun t => t <> MEMORY_TYPE_INVALID) (matching_types st pa) ->
  get_mtrr_memory_type_single st pa =
    sdm_effective_type (u8 (default_memory_type (def_type st))) (matching_types st pa).
Proof.
  intros He Hf Hnd Hinv. unfold get_mtrr_memory_type_single. rewrite He, Hf. cbn [negb].
  rewrite variable_fold. by apply overlap_nodup.
Qed.

(** Two enabled ranges of the same type over one address make it UC,
    whatever the type: the loop combines equal types like undefined overlaps. *)
Theorem mtrr_identical_overlap_is_uc st pa t :
  mtrr_enable (def_type st) = true ->
  (pa <? 0x100000) && fixed_supported st && fixed_range_mtrr_enable (def_type st) = false ->
  matching_types st pa = [t; t] -> t <> MEMORY_TYPE_INVALID ->
  get_mtrr_memory_type_single st pa = MEMORY_TYPE_UNCACHEABLE.
Proof.
  intros He Hf Hm Ht. unfold get_mtrr_memory_type_single. rewrite He, Hf. cbn [negb].
  rewrite variable_fold. unfold matching_types in Hm. rewrite Hm. cbn [fold_left].
  assert (overlap_step MEMORY_TYPE_INVALID t = t) as ->
    by (unfold overlap_step; by rewrite Z.eqb_refl).
  rewrite overlap_step_valid, combine_types_same by done.
  destruct (Z.eqb_spec MEMORY_TYPE_UNCACHEABLE MEMORY_TYPE_INVALID) as [E |]; [| done].
  destruct types_ne. congruence.
Qed.

(** The type of a page-aligned range: [is_uniform] is set exactly when all
    its 4 KB pages have the type of the first one, which is then returned;
    otherwise WT is returned if every page is WT or WB, and UC in all other
    cases. The loop always ends within the fuel. *)
Theorem get_mtrr_range_memory_type_spec st pa target_size :
  pa mod 0x1000 = 0 -> target_size mod 0x1000 = 0 -> 0 <= pa -> 0 < target_size ->
  pa + target_size + 0x1000 <= 2 ^ 64 ->
  let first_type := get_mtrr_memory_type_single st pa in
  let types := page_types st pa target_size in
  get_mtrr_range_memory_type st pa target_size =
    if forallb (Z.eqb first_type) types then (first_type, true)
    else (if forallb is_wt_or_wb types then MEMORY_TYPE_WRITE_THROUGH
          else MEMORY_TYPE_UNCACHEABLE, false).
Proof. apply range_memory_type_eq. Qed.
End mtrr.

(** ** Instances at concrete inputs *)

(** A machine with write-back memory, an uncached range from 2 GB and a
    write-through range over the first megabyte of it. *)
Definition sample_variable (base_type base mask : Z) : mtrr_variable :=
  mk_variable base_type (Z.shiftr base 12) true (Z.shiftr mask 12).

Definition sample_mtrrs (ranges : list mtrr_variable) : mtrr_state :=
  mk_mtrr (mk_def_type 6 false true) false (fun _ => 0)
    (fun i => nth (Z.to_nat i) ranges (mk_variable 0 0 false 0)) (Z.of_nat (length ranges)).

Definition sample_ranges : list mtrr_variable :=
  [sample_variable 4 0x80000000 0xFFFFFFF00000; sample_variable 6 0x80000000 0xFFFFF8000000].

Lemma fixed_memory_type_from_msrs_witness :
  let rdmsr a := if a =? 0x2FF then 0xC06 else if a =? 0xFE then 0x50A
                 else if a =? 0x26D then 0x0606060606050506 else 0 in
  get_mtrr_memory_type_single (read_mtrrs rdmsr) 0xE9000 = 5.
Proof.
  intros rdmsr.
  destruct (fixed_memory_type_from_msrs rdmsr 0xE9000) as (_ & _ & H);
    [reflexivity | reflexivity | reflexivity | lia |]. exact H.
Defined.

Lemma mtrr_single_follows_sdm_witness :
  get_mtrr_memory_type_single (sample_mtrrs sample_ranges) 0x80001000 = 4.
Proof.
  rewrite (mtrr_single_follows_sdm (sample_mtrrs sample_ranges) 0x80001000).
  - reflexivity.
  - reflexivity.
  - reflexivity.
  - apply (bool_decide_unpack _). vm_compute. exact I.
  - apply (bool_decide_unpack _). vm_compute. exact I.
Defined.

Lemma mtrr_identical_overlap_is_uc_witness :
  let wb := sample_variable 6 0 0xFFFF80000000 in
  get_mtrr_memory_type_single (sample_mtrrs [wb; wb]) 0x1000 = MEMORY_TYPE_UNCACHEABLE.
Proof.
  intros wb. apply (mtrr_identical_overlap_is_uc (sample_mtrrs [wb; wb]) 0x1000 6).
  - reflexivity.
  - reflexivity.
  - reflexivity.
  - discriminate.
Defined.

Lemma get_mtrr_range_memory_type_spec_witness :
  get_mtrr_range_memory_type (sample_mtrrs sample_ranges) 0x800FF000 0x2000 = (4, false).
Proof.
  rewrite (get_mtrr_range_memory_type_spec (sample_mtrrs sample_ranges) 0x800FF000 0x2000);
    [reflexivity | reflexivity | reflexivity | lia | lia | lia].
Defined.

(** Three ranges over one address, two of them of the same type: the result
    depends on the order in which the ranges are numbered. *)
Example identical_overlap_depends_on_order :
  let wb := sample_variable 6 0 0xFFFF80000000 in
  let wt := sample_variable 4 0 0xFFFF80000000 in
  get_mtrr_memory_type_single (sample_mtrrs [wb; wt; wb]) 0x1000 = 4 /\
  get_mtrr_memory_type_single (sample_mtrrs [wb; wb; wt]) 0x1000 = 0.
Proof. split; reflexivity. Qed.
