(* ===== verification/Paging.v ===== *)
(** * Paging: [revhv-km/memory.cpp], [memory.h]

    The translation of guest virtual addresses by walking the guest's page
    tables through the host's window on physical memory, and the construction
    of the host's own page tables. *)
From Stdlib Require Import ZArith Lia List Bool.
From stdpp Require Import base numbers list option functions.
From S2P Require Import Prelude Ia32 Memory.

(** [utils::canonicalize]. *)
Definition canonicalize (va : Z) : Z :=
  if negb (Z.land va (Z.shiftl 1 47) =? 0) then Z.lor va 0xFFFF000000000000
  else Z.land va 0x0000FFFFFFFFFFFF.

Definition host_pml4_index : Z := 255.
Definition host_physical_base : Z := canonicalize (shl64 host_pml4_index 39).
(** The 512 GB that the page directory pointer table of the window maps. *)
Definition host_physical_size : Z := 0x8000000000.

(** [page_table_level]. *)
Inductive page_table_level := level_none | level_pte | level_pde | level_pdpte | level_pml4e.

(** [pml4_virtual_address]: the bit-fields of the union. *)
Definition offset (va : Z) : Z := bits va 0 12.
Definition pt_idx (va : Z) : Z := bits va 12 9.
Definition pd_idx (va : Z) : Z := bits va 21 9.
Definition pdpt_idx (va : Z) : Z := bits va 30 9.
Definition pml4_idx (va : Z) : Z := bits va 39 9.

(** [PAGE_SIZE]-granular frames. *)
Definition frame_address (pfn : Z) : Z := shl64 pfn 12.

(** Bits of a paging-structure entry. *)
Definition present (e : Z) : bool := Z.testbit e 0.
Definition large_page (e : Z) : bool := Z.testbit e 7.

(** A host access through the physical window; an access outside it is not one
    to physical memory. *)
Definition host_read64 (m : mem) (hva : Z) : outcome Z :=
  if (host_physical_base <=? hva) && (hva + 8 <=? host_physical_base + host_physical_size)
  then Ok (read64 m (hva - host_physical_base)) else Undefined.

Section paging.
Context {ia32 : Ia32}.

(** [page_frame_number] of [pml4e_64], [pdpte_64], [pde_64] and [pte_64], of the
    two large-page entries, and [address_of_page_directory] of [cr3]. *)
Definition page_frame_number (e : Z) : Z := bits e 12 pfn_width.
Definition page_frame_number_2mb (e : Z) : Z := bits e 21 (pfn_width - 9).
Definition page_frame_number_1gb (e : Z) : Z := bits e 30 (pfn_width - 18).
Definition address_of_page_directory (cr3 : Z) : Z := bits cr3 12 pfn_width.

(** ** Translation of guest addresses *)

(** The guest-physical address, 0 if there is none, and the value of the
    out-parameter [offset_to_next_page], whose value before the call is the last
    argument; it is not written when the translation fails. *)
Definition gva_to_gpa (m : mem) (guest_cr3 gva offset_to_next_page : Z) : outcome (Z * Z) :=
  let dtb := host_physical_base +64 frame_address (address_of_page_directory guest_cr3) in
  let! pml4e := host_read64 m (dtb +64 pml4_idx gva * 8) in
  if negb (present pml4e) then Ok (0, offset_to_next_page) else
  let pdpt := host_physical_base +64 frame_address (page_frame_number pml4e) in
  let! pdpte := host_read64 m (pdpt +64 pdpt_idx gva * 8) in
  if negb (present pdpte) then Ok (0, offset_to_next_page) else
  if large_page pdpte then
    let off := shl64 (pd_idx gva) 21 +64 shl64 (pt_idx gva) 12 +64 offset gva in
    Ok (shl64 (page_frame_number_1gb pdpte) 30 +64 off, 0x40000000 -64 off)
  else
  let pd := host_physical_base +64 frame_address (page_frame_number pdpte) in
  let! pde := host_read64 m (pd +64 pd_idx gva * 8) in
  if negb (present pde) then Ok (0, offset_to_next_page) else
  if large_page pde then
    let off := shl64 (pt_idx gva) 12 +64 offset gva in
    Ok (shl64 (page_frame_number_2mb pde) 21 +64 off, 0x200000 -64 off)
  else
  let pt := host_physical_base +64 frame_address (page_frame_number pde) in
  let! pte := host_read64 m (pt +64 pt_idx gva * 8) in
  if negb (present pte) then Ok (0, offset_to_next_page) else
  Ok (frame_address (page_frame_number pte) +64 offset gva, 0x1000 -64 offset gva).

Definition gva_to_hva (m : mem) (guest_cr3 gva offset_to_next_page : Z) : outcome (Z * Z) :=
  let! (gpa, off) := gva_to_gpa m guest_cr3 gva offset_to_next_page in
  if gpa =? 0 then Ok (0, off) else Ok (host_physical_base +64 gpa, off).

(** ** The host's page tables *)

(** The memory the tables live in, by physical address, and the pages
    [MmAllocateContiguousMemorySpecifyCache] will hand out. *)
Record map_state := mk_map_state {
  phys : mem;
  free_pages : list Z
}.

(** Where the two arrays of [host_page_tables] are, and whether
    [MmGetVirtualForPhysical] knows an address for a physical page; memory is
    accessed at the physical address that the returned pointer maps. *)
Variables pml4e_pa pdpte_pa : Z.
Variable virtual_for_physical : Z -> bool.

(** A page, cleared; [None] when the allocation fails. *)
Definition alloc_host_pt (st : map_state) : option (Z * map_state) :=
  match free_pages st with
  | [] => None
  | va :: rest => Some (va, mk_map_state (store (phys st) va (repeat 0 4096)) rest)
  end.

Definition get_system_pte_for_va (m : mem) (va system_cr3 : Z) : option (Z * page_table_level) :=
  let system_dtb := frame_address (address_of_page_directory system_cr3) in
  if negb (virtual_for_physical system_dtb) then None else
  let pml4e := read64 m (system_dtb + pml4_idx va * 8) in
  if negb (present pml4e) then None else
  let system_pdpt := frame_address (page_frame_number pml4e) in
  let pdpte := read64 m (system_pdpt + pdpt_idx va * 8) in
  if negb (virtual_for_physical system_pdpt) || negb (present pdpte) then None else
  if large_page pdpte then Some (pdpte, level_pdpte) else
  let system_pde := frame_address (page_frame_number pdpte) in
  let pde := read64 m (system_pde + pd_idx va * 8) in
  if negb (virtual_for_physical system_pde) || negb (present pde) then None else
  if large_page pde then Some (pde, level_pde) else
  let system_pte := frame_address (page_frame_number pde) in
  let pte := read64 m (system_pte + pt_idx va * 8) in
  if negb (virtual_for_physical system_pte) || negb (present pte) then None else
  Some (pte, level_pte).

(** [present = 1; write = 1; page_frame_number = pa >> 12]. *)
Definition link_entry (e pa : Z) : Z :=
  set_bits (set_bits (set_bits e 0 1 1) 1 1 1) 12 pfn_width (Z.shiftr pa 12).

(** The table an entry points to, allocated first if the entry is not present.
    The code repeats this for every level of every page size. *)
Definition ensure_table (st : map_state) (entry : Z) : map_state * option Z :=
  let linked :=
    if present (read64 (phys st) entry) then Some st
    else match alloc_host_pt st with
         | None => None
         | Some (pt, st') =>
             Some (mk_map_state (write64 (phys st') entry
                     (link_entry (read64 (phys st') entry) pt)) (free_pages st'))
         end in
  match linked with
  | None => (st, None)
  | Some st =>
      let table := frame_address (page_frame_number (read64 (phys st) entry)) in
      if virtual_for_physical table then (st, Some table) else (st, None)
  end.

Definition map_entry (st : map_state) (entry flags : Z) : map_state :=
  mk_map_state (write64 (phys st) entry flags) (free_pages st).

(** The body of the loop of [map_va_range_to_host]: the new state and the next
    address, [None] when the function returns false. *)
Definition map_va_page (st : map_state) (va flags : Z) (level : page_table_level)
    : map_state * option Z :=
  let host_pml4e := pml4e_pa + pml4_idx va * 8 in
  match level with
  | level_pdpte =>
      match ensure_table st host_pml4e with
      | (st, None) => (st, None)
      | (st, Some pdpt) =>
          (map_entry st (pdpt + pdpt_idx va * 8) flags,
           Some (Z.land va (not64 0xFFFFFFFF) +64 0x100000000))
      end
  | level_pde =>
      match ensure_table st host_pml4e with
      | (st, None) => (st, None)
      | (st, Some pdpt) =>
          match ensure_table st (pdpt + pdpt_idx va * 8) with
          | (st, None) => (st, None)
          | (st, Some pd) =>
              (map_entry st (pd + pd_idx va * 8) flags,
               Some (Z.land va (not64 0x1FFFFF) +64 0x200000))
          end
      end
  | level_pte =>
      match ensure_table st host_pml4e with
      | (st, None) => (st, None)
      | (st, Some pdpt) =>
          match ensure_table st (pdpt + pdpt_idx va * 8) with
          | (st, None) => (st, None)
          | (st, Some pd) =>
              match ensure_table st (pd + pd_idx va * 8) with
              | (st, None) => (st, None)
              | (st, Some pt) =>
                  (map_entry st (pt + pt_idx va * 8) flags,
                   Some (Z.land va (not64 0xFFF) +64 0x1000))
              end
          end
      end
  | _ => (st, None)
  end.

Fixpoint map_va_loop (fuel : nat) (st : map_state) (current_address end_address system_cr3 : Z)
    : option (map_state * bool) :=
  if negb (current_address <? end_address) then Some (st, true) else
  match fuel with
  | O => None
  | S fuel =>
      match get_system_pte_for_va (phys st) current_address system_cr3 with
      | None => Some (st, false)
      | Some (flags, level) =>
          match map_va_page st current_address flags level with
          | (st, None) => Some (st, false)
          | (st, Some next) => map_va_loop fuel st next end_address system_cr3
          end
      end
  end.

(** Every iteration starts a new 4 KB page. *)
Definition map_va_fuel (size : Z) : nat := Z.to_nat (size / 0x1000 + 2).

Definition map_va_range_to_host (st : map_state) (va size system_cr3 : Z)
    : option (map_state * bool) :=
  map_va_loop (map_va_fuel size) st va (va +64 size) system_cr3.

(** The entries of the window: [pml4e[host_pml4_index]] and the 512 large-page
    entries of [pdpte]. *)
Definition host_pml4e_flags (pdpte_physical : Z) : Z :=
  set_bits (set_bits (set_bits 0 0 1 1) 1 1 1) 12 pfn_width (Z.shiftr pdpte_physical 12).
Definition host_pdpte_flags (i : Z) : Z :=
  set_bits (set_bits (set_bits (set_bits 0 0 1 1) 1 1 1) 7 1 1) 30 (pfn_width - 18) i.

Definition map_physical_window (m : mem) : mem :=
  let m := write64 m (pml4e_pa + host_pml4_index * 8) (host_pml4e_flags pdpte_pa) in
  fold_left (fun m i => write64 m (pdpte_pa + i * 8) (host_pdpte_flags i)) (seqZ 0 512) m.

Definition map_host_page_tables (pages_1gb_available : bool) (image_base image_size : Z)
    (st : map_state) (system_cr3 : Z) : option (map_state * bool) :=
  if negb pages_1gb_available then Some (st, false) else
  let st := mk_map_state (map_physical_window (phys st)) (free_pages st) in
  map_va_range_to_host st image_base image_size system_cr3.

(** [pool] is what [ExAllocatePool2] returned, 0 if it failed. *)
Definition allocate_map_nx_pool (pool : Z) (st : map_state) (size system_cr3 : Z)
    : option (map_state * Z) :=
  if pool =? 0 then Some (st, 0) else
  match map_va_range_to_host st pool size system_cr3 with
  | None => None
  | Some (st, false) => Some (st, 0)
  | Some (st, true) => Some (st, pool)
  end.

(** ** Specification: the walk of the SDM, level by level

    [walk m level table gva] is the page that maps [gva] and its size in bits,
    starting from the table of a given level (4 for the PML4). A table outside
    the window cannot be read. *)
Fixpoint walk (m : mem) (level : nat) (table gva : Z) : outcome (option (Z * Z)) :=
  match level with
  | O => Ok None
  | S l =>
      let shift := 12 + 9 * Z.of_nat l in
      if host_physical_size <=? table then Undefined else
      let e := read64 m (table + gva / 2 ^ shift mod 512 * 8) in
      if negb (present e) then Ok None
      else if (l =? 0)%nat || ((l <=? 2)%nat && large_page e)
      then Ok (Some (Z.shiftl (bits e shift (12 + pfn_width - shift)) shift, shift))
      else walk m l (frame_address (page_frame_number e)) gva
  end.

Definition walk_from (m : mem) (cr3 gva : Z) : outcome (option (Z * Z)) :=
  walk m 4 (frame_address (address_of_page_directory cr3)) gva.

(** ** Helper lemmas *)

Context `{!Ia32Ok ia32}.

Lemma frame_address_bits e lo :
  frame_address (bits e lo pfn_width) = bits e lo pfn_width * 4096 /\
  0 <= bits e lo pfn_width * 4096 <= 2 ^ 52 - 4096.
Proof.
  pose proof pfn_width_ok as Hw. pose proof (bits_range e lo pfn_width) as Hr.
  pose proof (Z.pow_le_mono_r 2 pfn_width 40) as Hp.
  specialize (Hr ltac:(lia)). specialize (Hp ltac:(lia) ltac:(lia)).
  change (2 ^ 40) with 1099511627776 in *. change (2 ^ 52) with 4503599627370496.
  split; [| lia]. unfold frame_address, shl64. rewrite Z.shiftl_mul_pow2 by lia.
  change (2 ^ 12) with 4096. apply wrap_small. change (2 ^ 64) with 18446744073709551616. lia.
Qed.

Lemma idx_range va lo : 0 <= bits va lo 9 < 512.
Proof. apply (bits_range va lo 9). lia. Qed.

(** Reading an entry of a table through the window. *)
Lemma host_read64_entry m e lo idx :
  0 <= idx < 512 ->
  host_read64 m (host_physical_base +64 frame_address (bits e lo pfn_width) +64 idx * 8) =
  if host_physical_size <=? frame_address (bits e lo pfn_width) then Undefined
  else Ok (read64 m (frame_address (bits e lo pfn_width) + idx * 8)).
Proof.
  intros Hi. destruct (frame_address_bits e lo) as [-> Hr].
  set (n := bits e lo pfn_width) in *. clearbody n.
  change host_physical_base with 0x7F8000000000. unfold host_physical_size in *.
  change (2 ^ 52) with 4503599627370496 in *.
  assert (0x7F8000000000 +64 n * 4096 +64 idx * 8 = 0x7F8000000000 + (n * 4096 + idx * 8)) as ->.
  { unfold add64. rewrite wrap_add_l, wrap_small; [lia |].
    change (2 ^ 64) with 18446744073709551616. lia. }
  unfold host_read64. change host_physical_base with 0x7F8000000000. unfold host_physical_size.
  zcases; cbn [andb]; try done. do 2 f_equal. lia.
Qed.

Lemma mod_pow2_split x a b :
  0 <= a -> 0 <= b -> x mod 2 ^ (a + b) = x / 2 ^ a mod 2 ^ b * 2 ^ a + x mod 2 ^ a.
Proof.
  intros Ha Hb. rewrite Z.pow_add_r by lia.
  rewrite Z.rem_mul_r by (apply Z.pow_nonzero || apply Z.pow_pos_nonneg; lia). lia.
Qed.

(** The offsets computed from the index fields. *)
Lemma offset_eq va : offset va = va mod 2 ^ 12.
Proof. unfold offset. by rewrite bits_eq, Z.div_1_r by lia. Qed.

Lemma offset_2mb va : shl64 (pt_idx va) 12 +64 offset va = va mod 2 ^ 21.
Proof.
  rewrite offset_eq. unfold pt_idx, shl64, add64. rewrite bits_eq, Z.shiftl_mul_pow2 by lia.
  rewrite wrap_add_l. change 21 with (12 + 9). rewrite <- mod_pow2_split by lia.
  apply wrap_small. pose proof (Z.mod_pos_bound va (2 ^ (12 + 9)) ltac:(lia)). lia.
Qed.

Lemma offset_1gb va :
  shl64 (pd_idx va) 21 +64 shl64 (pt_idx va) 12 +64 offset va = va mod 2 ^ 30.
Proof.
  assert (shl64 (pd_idx va) 21 +64 shl64 (pt_idx va) 12 +64 offset va =
          shl64 (pd_idx va) 21 +64 (shl64 (pt_idx va) 12 +64 offset va)) as ->.
  { unfold add64. rewrite wrap_add_l, wrap_add_r. f_equal. lia. }
  rewrite offset_2mb. unfold pd_idx, shl64, add64.
  rewrite bits_eq, Z.shiftl_mul_pow2 by lia.
  rewrite wrap_add_l. change 30 with (21 + 9). rewrite <- mod_pow2_split by lia.
  apply wrap_small. pose proof (Z.mod_pos_bound va (2 ^ (21 + 9)) ltac:(lia)). lia.
Qed.

(** A page address is below the width of physical addresses. *)
Lemma page_bound e shift :
  12 <= shift <= 30 ->
  0 <= Z.shiftl (bits e shift (12 + pfn_width - shift)) shift /\
  Z.shiftl (bits e shift (12 + pfn_width - shift)) shift + 2 ^ shift <= 2 ^ 52.
Proof.
  intros Hs. pose proof pfn_width_ok.
  pose proof (bits_range e shift (12 + pfn_width - shift)) as Hn. specialize (Hn ltac:(lia)).
  set (n := bits _ _ _) in *. clearbody n. rewrite Z.shiftl_mul_pow2 by lia.
  assert ((n + 1) * 2 ^ shift <= 2 ^ 52).
  { transitivity (2 ^ (12 + pfn_width - shift) * 2 ^ shift).
    - apply Z.mul_le_mono_nonneg_r; [apply Z.pow_nonneg |]; lia.
    - rewrite <- Z.pow_add_r by lia. apply Z.pow_le_mono_r; lia. }
  split; [apply Z.mul_nonneg_nonneg; [| apply Z.pow_nonneg]; lia | lia].
Qed.

(** The page of an entry plus an offset below the page size. *)
Lemma page_plus_offset e shift va :
  12 <= shift <= 30 ->
  shl64 (bits e shift (12 + pfn_width - shift)) shift +64 (va mod 2 ^ shift) =
  Z.shiftl (bits e shift (12 + pfn_width - shift)) shift + va mod 2 ^ shift.
Proof.
  intros Hs. pose proof (page_bound e shift Hs). unfold shl64, add64. rewrite wrap_add_l.
  pose proof (Z.mod_pos_bound va (2 ^ shift) ltac:(apply Z.pow_pos_nonneg; lia)).
  apply wrap_small. change (2 ^ 52) with 4503599627370496 in *.
  change (2 ^ 64) with 18446744073709551616. lia.
Qed.

Lemma rest_of_page n va :
  0 <= n <= 30 -> 2 ^ n -64 (va mod 2 ^ n) = 2 ^ n - va mod 2 ^ n.
Proof.
  intros Hn. pose proof (Z.mod_pos_bound va (2 ^ n) ltac:(apply Z.pow_pos_nonneg; lia)).
  pose proof (Z.pow_le_mono_r 2 n 30 ltac:(lia) ltac:(lia)). apply wrap_small.
  change (2 ^ 30) with 1073741824 in *. change (2 ^ 64) with 18446744073709551616. lia.
Qed.

(** The translation computed by [gva_to_gpa] from the result of the walk. *)
Definition translate (gva offset_to_next_page : Z) (w : option (Z * Z)) : Z * Z :=
  match w with
  | None => (0, offset_to_next_page)
  | Some (page, shift) => (page + gva mod 2 ^ shift, 2 ^ shift - gva mod 2 ^ shift)
  end.

Lemma idx_eq va lo : 0 <= lo -> bits va lo 9 = va / 2 ^ lo mod 512.
Proof. intros. by rewrite bits_eq by lia. Qed.

Lemma gva_to_gpa_walk m cr3 gva off :
  gva_to_gpa m cr3 gva off = let! w := walk_from m cr3 gva in Ok (translate gva off w).
Proof.
  unfold gva_to_gpa, walk_from. cbn [walk Nat.eqb Nat.leb orb andb].
  change (12 + 9 * Z.of_nat 3) with 39. change (12 + 9 * Z.of_nat 2) with 30.
  change (12 + 9 * Z.of_nat 1) with 21. change (12 + 9 * Z.of_nat 0) with 12.
  unfold pml4_idx, pdpt_idx, address_of_page_directory, page_frame_number.
  rewrite host_read64_entry by apply idx_range. rewrite idx_eq by lia.
  destruct (_ <=? _); cbn [obind]; [done |]. set (e4 := read64 _ _).
  destruct (present e4); cbn [negb obind]; [| done].
  rewrite host_read64_entry by apply idx_range. rewrite idx_eq by lia.
  destruct (_ <=? _); cbn [obind]; [done |]. set (e3 := read64 _ _).
  destruct (present e3); cbn [negb obind]; [| done].
  destruct (large_page e3); cbn [obind translate].
  { rewrite offset_1gb. unfold page_frame_number_1gb.
    replace (pfn_width - 18) with (12 + pfn_width - 30) by lia.
    rewrite (page_plus_offset e3 30 gva) by lia.
    change 0x40000000 with (2 ^ 30). by rewrite rest_of_page by lia. }
  unfold pd_idx. rewrite host_read64_entry by apply idx_range. rewrite idx_eq by lia.
  destruct (_ <=? _); cbn [obind]; [done |]. set (e2 := read64 _ _).
  destruct (present e2); cbn [negb obind]; [| done].
  destruct (large_page e2); cbn [obind translate].
  { rewrite offset_2mb. unfold page_frame_number_2mb.
    replace (pfn_width - 9) with (12 + pfn_width - 21) by lia.
    rewrite (page_plus_offset e2 21 gva) by lia.
    change 0x200000 with (2 ^ 21). by rewrite rest_of_page by lia. }
  unfold pt_idx. rewrite host_read64_entry by apply idx_range. rewrite idx_eq by lia.
  destruct (_ <=? _); cbn [obind]; [done |]. set (e1 := read64 _ _).
  destruct (present e1); cbn [negb obind translate]; [| done].
  rewrite offset_eq. unfold frame_address.
  replace (bits e1 12 pfn_width) with (bits e1 12 (12 + pfn_width - 12)) by (f_equal; lia).
  rewrite (page_plus_offset e1 12 gva) by lia.
  change 0x1000 with (2 ^ 12). by rewrite rest_of_page by lia.
Qed.

(** Moving inside a page of [2^s] bytes does not change the indexes above it. *)
Lemma div_same_page gva d s k :
  0 <= s <= k -> 0 <= d -> gva mod 2 ^ s + d < 2 ^ s -> (gva + d) / 2 ^ k = gva / 2 ^ k.
Proof.
  intros Hs Hd Hlt. assert ((gva + d) / 2 ^ s = gva / 2 ^ s) as E.
  { pose proof (Z.div_mod gva (2 ^ s) ltac:(apply Z.pow_nonzero; lia)).
    pose proof (Z.mod_pos_bound gva (2 ^ s) ltac:(apply Z.pow_pos_nonneg; lia)).
    symmetry. apply Z.div_unique with (gva mod 2 ^ s + d); lia. }
  replace k with (s + (k - s)) by lia. rewrite Z.pow_add_r by lia.
  rewrite <- !Z.div_div by (first [apply Z.pow_nonzero | apply Z.pow_pos_nonneg]; lia).
  by rewrite E.
Qed.

Lemma mod_same_page gva d s :
  0 <= s -> 0 <= d -> gva mod 2 ^ s + d < 2 ^ s -> (gva + d) mod 2 ^ s = gva mod 2 ^ s + d.
Proof.
  intros Hs Hd Hlt. pose proof (Z.mod_pos_bound gva (2 ^ s) ltac:(apply Z.pow_pos_nonneg; lia)).
  rewrite <- Z.add_mod_idemp_l by (apply Z.pow_nonzero; lia). apply Z.mod_small. lia.
Qed.

Lemma walk_shift m level table gva page shift :
  walk m level table gva = Ok (Some (page, shift)) ->
  shift <= 12 + 9 * (Z.of_nat level - 1) /\ 12 <= shift <= 30.
Proof.
  revert table. induction level as [| l IH]; intros table; cbn [walk]; [done |].
  destruct (_ <=? table); [done |]. destruct (negb _); [done |].
  destruct (_ || _) eqn:E.
  - intros [= <- <-]. destruct l as [| [| [| l]]]; cbn in E; lia || done.
  - intros H%IH. lia.
Qed.

Lemma walk_same_page m level table gva d page shift :
  walk m level table gva = Ok (Some (page, shift)) ->
  0 <= d -> gva mod 2 ^ shift + d < 2 ^ shift ->
  walk m level table (gva + d) = Ok (Some (page, shift)).
Proof.
  intros Hw Hd Hlt. revert table Hw. induction level as [| l IH]; intros table Hw; [done |].
  pose proof (walk_shift _ _ _ _ _ _ Hw) as [Hle Hs]. revert Hw. cbn [walk].
  rewrite (div_same_page gva d shift) by lia.
  destruct (_ <=? table); [done |]. destruct (negb _); [done |].
  destruct (_ || _); [done | apply IH].
Qed.

(** A mapped page and its offsets fit in the physical address space. *)
Lemma walk_page_bound m level table gva page shift :
  walk m level table gva = Ok (Some (page, shift)) -> 0 <= page /\ page + 2 ^ shift <= 2 ^ 52.
Proof.
  revert table. induction level as [| l IH]; intros table; cbn [walk]; [done |].
  destruct (_ <=? table); [done |]. destruct (negb _); [done |].
  destruct (_ || _) eqn:E; [| apply IH]. intros [= <- <-].
  destruct l as [| [| [| l]]]; cbn in E; try done; apply page_bound; lia.
Qed.

Lemma contiguous_ok m cr3 gva off gpa rest d :
  gva_to_gpa m cr3 gva off = Ok (gpa, rest) -> gpa <> 0 -> 0 <= d < rest ->
  0 < rest <= 0x40000000 /\
  gva_to_gpa m cr3 (gva + d) off = Ok (gpa + d, rest - d).
Proof.
  rewrite !gva_to_gpa_walk. unfold walk_from. intros Hw Hne Hd.
  destruct (walk _ _ _ gva) as [[[page shift] |] | |] eqn:E; cbn in Hw; try done.
  2: { injection Hw as <- <-. done. }
  injection Hw as <- <-. destruct (walk_shift _ _ _ _ _ _ E) as [_ Hs].
  pose proof (Z.mod_pos_bound gva (2 ^ shift) ltac:(apply Z.pow_pos_nonneg; lia)).
  pose proof (Z.pow_le_mono_r 2 shift 30 ltac:(lia) ltac:(lia)).
  change (2 ^ 30) with 0x40000000 in *.
  rewrite (walk_same_page _ _ _ _ d _ _ E) by lia. cbn [obind translate].
  rewrite mod_same_page by lia. split; [lia |]. do 2 f_equal; lia.
Qed.

(** The page a translation found reaches at least to the next address. *)
Lemma rest_positive m cr3 gva off gpa rest :
  gva_to_gpa m cr3 gva off = Ok (gpa, rest) -> gpa <> 0 -> 0 < rest <= 0x40000000.
Proof.
  rewrite gva_to_gpa_walk. unfold walk_from. intros Hw Hne.
  destruct (walk _ _ _ gva) as [[[page shift] |] | |] eqn:E; cbn in Hw; try done.
  2: { by injection Hw as <- <-. }
  injection Hw as <- <-. destruct (walk_shift _ _ _ _ _ _ E) as [_ Hs].
  pose proof (Z.mod_pos_bound gva (2 ^ shift) ltac:(apply Z.pow_pos_nonneg; lia)).
  pose proof (Z.pow_le_mono_r 2 shift 30 ltac:(lia) ltac:(lia)). lia.
Qed.

(** ** Properties of the translation *)

(** (C3) The unrolled walk of [gva_to_gpa] is the SDM's walk through four levels
    with its 1 GB and 2 MB leaves: the same outcome, 0 and an untouched
    out-parameter where nothing is mapped, and otherwise the mapped page plus the
    offset in it and the distance to the end of that page. *)
Theorem gva_to_gpa_refines_walk m cr3 gva off :
  gva_to_gpa m cr3 gva off =
    match walk_from m cr3 gva with
    | Ok None => Ok (0, off)
    | Ok (Some (page, shift)) => Ok (page + gva mod 2 ^ shift, 2 ^ shift - gva mod 2 ^ shift)
    | Crash => Crash
    | Undefined => Undefined
    end.
Proof. rewrite gva_to_gpa_walk. by destruct (walk_from m cr3 gva) as [[[]|] | |]. Qed.

(** What makes copying by page correct: after a successful translation all
    the addresses up to [offset_to_next_page], at least one and at most 1 GB, are
    translated to consecutive guest-physical addresses. *)
Theorem gva_to_gpa_contiguous m cr3 gva off gpa rest d :
  gva_to_gpa m cr3 gva off = Ok (gpa, rest) -> gpa <> 0 -> 0 <= d < rest ->
  0 < rest <= 0x40000000 /\
  gva_to_gpa m cr3 (gva + d) off = Ok (gpa + d, rest - d).
Proof. apply contiguous_ok. Qed.

(** ** Properties of the host's tables *)

(** A table filled by a loop over its entries. *)
Lemma fold_write64_in (f : Z -> Z) m base n i :
  0 <= i < n -> is_u64 (f i) ->
  read64 (fold_left (fun m i => write64 m (base + i * 8) (f i)) (seqZ 0 n) m) (base + i * 8) = f i.
Proof.
  intros Hi Hf. assert (0 <= n) as Hn by lia. revert Hi. pattern n.
  apply natlike_ind; [lia | | exact Hn]. clear n Hn. intros n Hn IH Hi.
  rewrite seqZ_succ, fold_left_app by lia. cbn [fold_left]. rewrite Z.add_0_l.
  destruct (Z.eq_dec i n) as [-> |]; [by apply read64_write64_same |].
  rewrite read64_write64_other by lia. apply IH. lia.
Qed.

Lemma fold_write64_out (f : Z -> Z) m base n a :
  0 <= n -> a + 8 <= base \/ base + n * 8 <= a ->
  read64 (fold_left (fun m i => write64 m (base + i * 8) (f i)) (seqZ 0 n) m) a = read64 m a.
Proof.
  intros Hn. pattern n. apply natlike_ind; [done | | exact Hn]. clear n Hn.
  intros n Hn IH Ha. rewrite seqZ_succ, fold_left_app by lia. cbn [fold_left].
  rewrite Z.add_0_l, read64_write64_other by lia. apply IH. lia.
Qed.

Lemma host_pdpte_flags_ok i :
  0 <= i < 512 ->
  present (host_pdpte_flags i) = true /\ large_page (host_pdpte_flags i) = true /\
  page_frame_number_1gb (host_pdpte_flags i) = i /\ is_u64 (host_pdpte_flags i).
Proof.
  intros Hi. pose proof pfn_width_ok.
  unfold present, large_page, page_frame_number_1gb, host_pdpte_flags. repeat split.
  - rewrite !testbit_set_bits by lia. zcases. done.
  - rewrite !testbit_set_bits by lia. zcases. done.
  - rewrite bits_set_bits_same by lia. apply wrap_small. split; [lia |].
    apply Z.lt_le_trans with (2 ^ 9); [lia |]. apply Z.pow_le_mono_r; lia.
  - apply set_bits_u64; try lia. repeat (apply set_bits_u64; try lia). done.
  - apply set_bits_u64; try lia. repeat (apply set_bits_u64; try lia). done.
Qed.

Lemma host_pml4e_flags_ok pa :
  0 <= pa < host_physical_size -> pa mod 4096 = 0 ->
  present (host_pml4e_flags pa) = true /\
  frame_address (page_frame_number (host_pml4e_flags pa)) = pa /\
  is_u64 (host_pml4e_flags pa).
Proof.
  intros Hpa Hal. pose proof pfn_width_ok. unfold host_physical_size in *.
  assert (bits (host_pml4e_flags pa) 12 pfn_width = pa / 4096) as E.
  { unfold host_pml4e_flags. rewrite bits_set_bits_same, Z.shiftr_div_pow2 by lia.
    change (2 ^ 12) with 4096. apply wrap_small.
    split; [apply Z.div_pos; lia |]. apply Z.lt_le_trans with (2 ^ 27).
    - apply Z.div_lt_upper_bound; lia.
    - apply Z.pow_le_mono_r; lia. }
  unfold present, page_frame_number. repeat split.
  - unfold host_pml4e_flags. rewrite !testbit_set_bits by lia. zcases. done.
  - destruct (frame_address_bits (host_pml4e_flags pa) 12) as [-> _]. rewrite E.
    pose proof (Z.div_mod pa 4096). lia.
  - apply set_bits_u64; try lia. repeat (apply set_bits_u64; try lia). done.
  - apply set_bits_u64; try lia. repeat (apply set_bits_u64; try lia). done.
Qed.

Lemma read64_window_pdpte m i :
  0 <= i < 512 -> read64 (map_physical_window m) (pdpte_pa + i * 8) = host_pdpte_flags i.
Proof. intros Hi. by apply fold_write64_in; [| apply host_pdpte_flags_ok]. Qed.

(** The window on physical memory: through the entries that
    [map_host_page_tables] writes, every virtual address [host_physical_base + pa]
    with [pa] below 512 GB is mapped, by a 1 GB page, to the physical address [pa]. *)
Theorem host_window_maps_physical m pa :
  0 <= pml4e_pa < host_physical_size -> pml4e_pa mod 4096 = 0 ->
  0 <= pdpte_pa < host_physical_size -> pdpte_pa mod 4096 = 0 ->
  pml4e_pa + 4096 <= pdpte_pa \/ pdpte_pa + 4096 <= pml4e_pa ->
  0 <= pa < host_physical_size ->
  exists page shift,
    walk (map_physical_window m) 4 pml4e_pa (host_physical_base + pa) = Ok (Some (page, shift)) /\
    page + (host_physical_base + pa) mod 2 ^ shift = pa /\ shift = 30.
Proof.
  intros Hp1 Hp2 Hd1 Hd2 Hdis Hpa. exists (pa / 2 ^ 30 * 2 ^ 30), 30.
  assert (pa / 2 ^ 30 < 512) by (apply Z.div_lt_upper_bound; unfold host_physical_size in *; lia).
  assert (0 <= pa / 2 ^ 30) by (apply Z.div_pos; lia).
  assert ((host_physical_base + pa) / 2 ^ 39 mod 512 = host_pml4_index) as E4.
  { change host_physical_base with (255 * 2 ^ 39). rewrite Z.div_add_l by lia.
    unfold host_physical_size in *. rewrite (Z.div_small pa) by lia. done. }
  assert ((host_physical_base + pa) / 2 ^ 30 mod 512 = pa / 2 ^ 30) as E3.
  { change host_physical_base with (255 * 512 * 2 ^ 30). rewrite Z.div_add_l by lia.
    rewrite Z.add_comm, Z.mod_add by lia. apply Z.mod_small. lia. }
  split; [| split; [| done]].
  - cbn [walk]. change (12 + 9 * Z.of_nat 3) with 39. change (12 + 9 * Z.of_nat 2) with 30.
    rewrite E4, E3. destruct (Z.leb_spec host_physical_size pml4e_pa); [lia |].
    destruct (host_pml4e_flags_ok pdpte_pa) as (Hpr & Hfr & Hu); [done | done |].
    assert (read64 (map_physical_window m) (pml4e_pa + host_pml4_index * 8)
            = host_pml4e_flags pdpte_pa) as ->.
    { unfold map_physical_window. change host_pml4_index with 255.
      rewrite fold_write64_out by lia. by apply read64_write64_same. }
    rewrite Hpr. cbn [negb Nat.eqb Nat.leb orb andb]. rewrite Hfr.
    destruct (Z.leb_spec host_physical_size pdpte_pa); [lia |].
    rewrite read64_window_pdpte by lia.
    destruct (host_pdpte_flags_ok (pa / 2 ^ 30)) as (-> & -> & Hpf & _); [lia |].
    cbn [negb orb andb]. unfold page_frame_number_1gb in Hpf.
    replace (12 + pfn_width - 30) with (pfn_width - 18) by lia.
    by rewrite Hpf, Z.shiftl_mul_pow2 by lia.
  - change host_physical_base with (255 * 512 * 2 ^ 30).
    rewrite (Z.add_comm _ pa), Z.mod_add by lia. pose proof (Z.div_mod pa (2 ^ 30)). lia.
Qed.

(** The stride after a 1 GB page is 4 GB: a range inside one aligned 4 GB
    region whose first page is a 1 GB page gets that page only, whatever the
    system maps in the rest of the range, and the function reports success. *)
Theorem map_va_range_1gb_stride st va size system_cr3 flags :
  get_system_pte_for_va (phys st) va system_cr3 = Some (flags, level_pdpte) ->
  present (read64 (phys st) (pml4e_pa + pml4_idx va * 8)) = true ->
  let pdpt := frame_address (page_frame_number (read64 (phys st) (pml4e_pa + pml4_idx va * 8))) in
  virtual_for_physical pdpt = true ->
  0 <= va -> 0 < size -> va + size <= (va / 2 ^ 32 + 1) * 2 ^ 32 -> (va / 2 ^ 32 + 1) * 2 ^ 32 < 2 ^ 64 ->
  map_va_range_to_host st va size system_cr3 =
    Some (map_entry st (pdpt + pdpt_idx va * 8) flags, true).
Proof.
  intros Hsys Hpr pdpt Hv Hva Hsz Hend Hmax. unfold map_va_range_to_host.
  assert (va +64 size = va + size) as -> by (apply wrap_small; lia).
  assert (0 <= size / 0x1000) by (apply Z.div_pos; lia).
  unfold map_va_fuel. destruct (Z.to_nat _) as [| [| n]] eqn:En; [lia | lia |]. clear En.
  cbn [map_va_loop]. destruct (Z.ltb_spec va (va + size)); [cbn [negb] | lia].
  rewrite Hsys. cbn [map_va_page]. unfold ensure_table. rewrite Hpr. fold pdpt. rewrite Hv.
  assert (Z.land va (not64 0xFFFFFFFF) +64 0x100000000 = (va / 2 ^ 32 + 1) * 2 ^ 32) as ->.
  { change 0xFFFFFFFF with (Z.ones 32). rewrite land_not64_ones by (unfold is_u64; lia).
    unfold add64. rewrite wrap_small by lia. lia. }
  destruct (Z.ltb_spec ((va / 2 ^ 32 + 1) * 2 ^ 32) (va + size)); [lia |]. done.
Qed.
End paging.

(** ** Instances at concrete inputs *)

(** Tables that map the page at [0x1000] to [0x9000], and the gigabyte at
    [0x40000000] by one large page. *)
Definition sample_tables : mem :=
  fold_left (fun m e => write64 m (fst e) (snd e))
    [(0x1000, 0x2001); (0x2000, 0x3001); (0x2008, 0x40000083); (0x3000, 0x4001); (0x4008, 0x9001);
     (0x10000, 0x11003)]
    (fun _ => 0).

Lemma gva_to_gpa_refines_walk_witness :
  gva_to_gpa sample_tables 0x1000 0x1234 7 = Ok (0x9234, 0xDCC).
Proof. rewrite (gva_to_gpa_refines_walk sample_tables 0x1000 0x1234 7). vm_compute. reflexivity. Defined.

Lemma gva_to_gpa_contiguous_witness :
  gva_to_gpa sample_tables 0x1000 0x1234 0 = Ok (0x9234, 0xDCC) /\
  gva_to_gpa sample_tables 0x1000 (0x1234 + 0xDCB) 0 = Ok (0x9FFF, 1).
Proof.
  split; [vm_compute; reflexivity |].
  apply (gva_to_gpa_contiguous sample_tables 0x1000 0x1234 0 0x9234 0xDCC 0xDCB);
    [vm_compute; reflexivity | lia | lia].
Defined.

Lemma host_window_maps_physical_witness :
  exists page shift,
    walk (map_physical_window 0x10000 0x11000 (fun _ => 0)) 4 0x10000
      (host_physical_base + 0x12345678) = Ok (Some (page, shift)) /\
    page + (host_physical_base + 0x12345678) mod 2 ^ shift = 0x12345678 /\ shift = 30.
Proof.
  apply (host_window_maps_physical 0x10000 0x11000 (fun _ => 0) 0x12345678);
    unfold host_physical_size; (reflexivity || lia).
Defined.

Lemma map_va_range_1gb_stride_witness :
  map_va_range_to_host 0x10000 (fun _ => true) (mk_map_state sample_tables []) 0x40000000 0x80000000
    0x1000 = Some (map_entry (mk_map_state sample_tables []) 0x11008 0x40000083, true).
Proof.
  rewrite (map_va_range_1gb_stride 0x10000 (fun _ => true) (mk_map_state sample_tables [])
             0x40000000 0x80000000 0x1000 0x40000083);
    [| vm_compute; reflexivity | vm_compute; reflexivity | reflexivity | lia | lia
     | vm_compute; discriminate | vm_compute; reflexivity].
  set (a := frame_address _ + _). assert (a = 0x11008) as -> by (vm_compute; reflexivity).
  reflexivity.
Defined.
