(* ===== verification/Ept.v ===== *)
(** * Extended page tables: [revhv-km/ept.cpp], [ept.h]

    The identity map of 512 GB that every core runs its guest under, its split
    into 4 KB pages, the memory types, the page hooks and the permissions of
    automatic tracing. *)
From Stdlib Require Import ZArith Lia List Bool.
From stdpp Require Import base numbers list option functions.
From S2P Require Import Prelude Ia32 Memory Paging Mtrr.

Definition ept_pd_count : Z := 512.
Definition ept_split_pte_count : Z := 256.
Definition ept_max_hook_count : Z := 32.

(** The bit-fields of [ept_pte] and [ept_pde_2mb] that the code uses; the page
    frame number is in units of the page the entry maps. *)
Record ept_leaf := mk_leaf {
  read_access : bool;
  write_access : bool;
  execute_access : bool;
  memory_type : Z;
  ignore_pat : bool;
  accessed : bool;
  dirty : bool;
  user_mode_execute : bool;
  verify_guest_paging : bool;
  paging_write_access : bool;
  supervisor_shadow_stack : bool;
  suppress_ve : bool;
  leaf_pfn : Z
}.
#[export] Instance eta_ept_leaf : Eta ept_leaf := fun e =>
  mk_leaf (read_access e) (write_access e) (execute_access e) (memory_type e) (ignore_pat e)
    (accessed e) (dirty e) (user_mode_execute e) (verify_guest_paging e) (paging_write_access e)
    (supervisor_shadow_stack e) (suppress_ve e) (leaf_pfn e).

(** An entry that points to a table ([ept_pml4e], [ept_pdpte], [ept_pde]). *)
Record ept_table := mk_ept_table {
  table_read : bool;
  table_write : bool;
  table_execute : bool;
  table_user_mode_execute : bool;
  table_pfn : Z
}.

(** The union [pde_2mb] / [pde_split], told apart by [large_page]. *)
Inductive ept_pde := pde_large (e : ept_leaf) | pde_table (t : ept_table).

(** A pointer to an [ept_pte]: the frame of its table and the index in it. *)
Record pte_ptr := mk_ptr { ptr_pfn : Z; ptr_idx : Z }.

Record ept_hook := mk_hook {
  orig_pfn : Z;
  hook_pfn : Z;
  hook_pte : option pte_ptr
}.
#[export] Instance eta_ept_hook : Eta ept_hook :=
  fun h => mk_hook (orig_pfn h) (hook_pfn h) (hook_pte h).

(** [ept_pages]; [hooks] are the first [hook_count] elements of the array. *)
Record ept_pages := mk_ept_pages {
  pml4e : ept_table;
  pdpte : Z -> ept_table;
  pde : Z * Z -> ept_pde;
  split_pte : Z * Z -> ept_leaf;
  split_pte_pfns : Z -> Z;
  split_pte_used : Z;
  hooks : list ept_hook
}.
#[export] Instance eta_ept_pages : Eta ept_pages := fun p =>
  mk_ept_pages (pml4e p) (pdpte p) (pde p) (split_pte p) (split_pte_pfns p) (split_pte_used p)
    (hooks p).

Definition hook_count (p : ept_pages) : Z := Z.of_nat (length (hooks p)).

Definition zero_leaf : ept_leaf :=
  mk_leaf false false false 0 false false false false false false false false 0.
Definition zero_table : ept_table := mk_ept_table false false false false 0.
(** [utils::memset(&ept_pages, 0, sizeof(ept_pages))]. *)
Definition zero_pages : ept_pages :=
  mk_ept_pages zero_table (fun _ => zero_table) (fun _ => pde_table zero_table)
    (fun _ => zero_leaf) (fun _ => 0) 0 [].

Definition set_permissions (r w x : bool) (e : ept_leaf) : ept_leaf :=
  e <| read_access := r |> <| write_access := w |> <| execute_access := x |>.

Definition in_table (k : Z) : bool := (0 <=? k) && (k <? 512).

Section ept.
Context {ia32 : Ia32}.

(** Assignment to [page_frame_number] truncates to the width of the field. *)
Definition to_pfn (x : Z) : Z := wrap pfn_width x.

(** ** Permissions *)

Definition set_all_permissions (p : ept_pages) (r w x : bool) : ept_pages :=
  p <| pde := fun ij =>
         match pde p ij with
         | pde_large e =>
             if in_table (fst ij) && in_table (snd ij) then pde_large (set_permissions r w x e)
             else pde_large e
         | pde_table t => pde_table t
         end |>
    <| split_pte := fun sk =>
         if (0 <=? fst sk) && (fst sk <? ept_split_pte_count) && in_table (snd sk)
         then set_permissions r w x (split_pte p sk) else split_pte p sk |>.

(** ** Splitting *)

(** Entry [i] of the table that replaces a large page. *)
Definition inherit (e : ept_leaf) (i : Z) : ept_leaf :=
  zero_leaf <| read_access := read_access e |> <| write_access := write_access e |>
    <| execute_access := execute_access e |> <| memory_type := memory_type e |>
    <| ignore_pat := ignore_pat e |> <| accessed := accessed e |> <| dirty := dirty e |>
    <| user_mode_execute := user_mode_execute e |>
    <| verify_guest_paging := verify_guest_paging e |>
    <| paging_write_access := paging_write_access e |>
    <| supervisor_shadow_stack := supervisor_shadow_stack e |>
    <| suppress_ve := suppress_ve e |>
    <| leaf_pfn := to_pfn (shl64 (leaf_pfn e) 9 +64 i) |>.

(** The PDE is given by its indices; the result is the index of the new table,
    [None] when the function returns false. *)
Definition split_pde (p : ept_pages) (ij : Z * Z) : ept_pages * option Z :=
  match pde p ij with
  | pde_table _ => (p, None)
  | pde_large e =>
      if ept_split_pte_count <=? split_pte_used p then (p, None) else
      let s := split_pte_used p in
      let pt_pfn := split_pte_pfns p s in
      (p <| split_pte_used := s + 1 |>
         <| split_pte := fun sk => if (fst sk =? s) && in_table (snd sk) then inherit e (snd sk)
                                   else split_pte p sk |>
         <| pde := <[ij := pde_table (mk_ept_table true true true true (to_pfn pt_pfn))]> (pde p) |>,
       Some s)
  end.

(** ** Access to the 4 KB entries *)

(** The split table in a frame: what the physical window shows there. *)
Definition table_of (p : ept_pages) (pfn : Z) : option Z :=
  List.find (fun s => split_pte_pfns p s =? pfn) (seqZ 0 ept_split_pte_count).

(** Reading and writing through a pointer to an entry; a pointer to a frame that
    is not one of the split tables is a wild access. *)
Definition read_pte (p : ept_pages) (ptr : pte_ptr) : outcome ept_leaf :=
  match table_of p (ptr_pfn ptr) with
  | Some s => Ok (split_pte p (s, ptr_idx ptr))
  | None => Undefined
  end.

Definition update_pte (p : ept_pages) (ptr : pte_ptr) (f : ept_leaf -> ept_leaf)
    : outcome ept_pages :=
  match table_of p (ptr_pfn ptr) with
  | Some s => Ok (p <| split_pte := <[(s, ptr_idx ptr) := f (split_pte p (s, ptr_idx ptr))]>
                                      (split_pte p) |>)
  | None => Undefined
  end.

Definition get_ept_pte (p : ept_pages) (gpa : Z) (force_split : bool)
    : ept_pages * option pte_ptr :=
  if negb (pml4_idx gpa =? 0) then (p, None)
  else if ept_pd_count <=? pdpt_idx gpa then (p, None)
  else
    let ij := (pdpt_idx gpa, pd_idx gpa) in
    match pde p ij with
    | pde_large _ =>
        if negb force_split then (p, None) else
        match split_pde p ij with
        | (p, None) => (p, None)
        | (p, Some _) =>
            match pde p ij with
            | pde_table t => (p, Some (mk_ptr (table_pfn t) (pt_idx gpa)))
            | pde_large _ => (p, None)
            end
        end
    | pde_table t => (p, Some (mk_ptr (table_pfn t) (pt_idx gpa)))
    end.

(** ** Hooks *)

Definition add_hook (p : ept_pages) (orig hook : Z) : outcome (ept_pages * bool) :=
  if ept_max_hook_count <=? hook_count p then Ok (p, false) else
  match get_ept_pte p (shl64 orig 12) true with
  | (p, None) => Ok (p, false)
  | (p, Some pte) =>
      let p := p <| hooks := hooks p ++ [mk_hook (u32 orig) (u32 hook) (Some pte)] |> in
      let! p := update_pte p pte (fun e => e <| execute_access := false |>) in
      Ok (p, true)
  end.

Definition get_hook_by_orig_pfn (p : ept_pages) (pfn : Z) : option ept_hook :=
  List.find (fun h => orig_pfn h =? pfn) (hooks p).

Definition deactivate_hook (ph : outcome (ept_pages * list ept_hook)) (h : ept_hook)
    : outcome (ept_pages * list ept_hook) :=
  let! (p, done_hooks) := ph in
  match hook_pte h with
  | None => Ok (p, done_hooks ++ [h])
  | Some pte =>
      let! p := update_pte p pte (fun e =>
        set_permissions true true true e <| leaf_pfn := to_pfn (orig_pfn h) |>) in
      Ok (p, done_hooks ++ [h <| hook_pte := None |>])
  end.

Definition deactivate_hooks (p : ept_pages) : outcome ept_pages :=
  let! (p, hs) := fold_left deactivate_hook (hooks p) (Ok (p, [])) in
  Ok (p <| hooks := hs |>).

Definition reactivate_hook (ph : outcome (ept_pages * list ept_hook)) (h : ept_hook)
    : outcome (ept_pages * list ept_hook) :=
  let! (p, done_hooks) := ph in
  match hook_pte h with
  | Some _ => Ok (p, done_hooks ++ [h])
  | None =>
      match get_ept_pte p (shl64 (orig_pfn h) 12) false with
      | (p, None) => Ok (p, done_hooks ++ [h])
      | (p, Some pte) =>
          let! p := update_pte p pte (fun e =>
            e <| leaf_pfn := to_pfn (orig_pfn h) |> <| execute_access := false |>) in
          Ok (p, done_hooks ++ [h <| hook_pte := Some pte |>])
      end
  end.

Definition reactivate_hooks (p : ept_pages) : outcome ept_pages :=
  let! (p, hs) := fold_left reactivate_hook (hooks p) (Ok (p, [])) in
  Ok (p <| hooks := hs |>).

(** ** Automatic tracing *)

(** The loop over the pages of the target; [gva_to_gpa] is the translation under
    the system's CR3. The third component tells that the function bailed out. *)
Fixpoint auto_trace_loop (gva_to_gpa : Z -> outcome Z) (normal target : ept_pages)
    (page_va : Z) (n : nat) : outcome (ept_pages * ept_pages * bool) :=
  match n with
  | O => Ok (normal, target, true)
  | S n =>
      let! gpa := gva_to_gpa page_va in
      if gpa =? 0 then auto_trace_loop gva_to_gpa normal target (page_va +64 0x1000) n
      else
        let '(normal, pte_normal) := get_ept_pte normal gpa true in
        let '(target, pte_target) := get_ept_pte target gpa true in
        match pte_normal, pte_target with
        | Some pte_normal, Some pte_target =>
            let! normal := update_pte normal pte_normal (fun e => e <| execute_access := false |>) in
            let! target := update_pte target pte_target (fun e => e <| execute_access := true |>) in
            auto_trace_loop gva_to_gpa normal target (page_va +64 0x1000) n
        | _, _ =>
            Ok (set_all_permissions normal true true true,
                set_all_permissions target true true true, false)
        end
  end.

Definition page_aligned_va (target_va : Z) : Z := Z.land target_va (not64 0xFFF).
Definition page_aligned_end (target_va target_size : Z) : Z :=
  Z.land (target_va +64 target_size +64 0xFFF) (not64 0xFFF).
Definition trace_page_count (target_va target_size : Z) : Z :=
  (page_aligned_end target_va target_size -64 page_aligned_va target_va) / 0x1000.

Definition enable_auto_trace (gva_to_gpa : Z -> outcome Z) (normal target : ept_pages)
    (target_va target_size : Z) : outcome (ept_pages * ept_pages * bool) :=
  auto_trace_loop gva_to_gpa normal (set_all_permissions target true true false)
    (page_aligned_va target_va) (Z.to_nat (trace_page_count target_va target_size)).

Definition restore_auto_trace (normal target : ept_pages) : ept_pages * ept_pages :=
  (set_all_permissions normal true true true, set_all_permissions target true true true).

(** ** Memory types *)

(** The loop over the entries of a split table, for the given entries; the second
    component is false when the function gave up. *)
Fixpoint set_pt_memory_types (st : mtrr_state) (p : ept_pages) (s : Z) (ks : list Z)
    : ept_pages * bool :=
  match ks with
  | [] => (p, true)
  | k :: ks =>
      let e := split_pte p (s, k) in
      let '(type, uniform) := get_mtrr_range_memory_type st (shl64 (leaf_pfn e) 12) 0x1000 in
      if negb uniform then (p, false)
      else set_pt_memory_types st
             (p <| split_pte := <[(s, k) := e <| memory_type := wrap 3 type |>]> (split_pte p) |>)
             s ks
  end.

Definition set_pde_type (p : ept_pages) (ij : Z * Z) (e : ept_leaf) (type : Z) : ept_pages :=
  p <| pde := <[ij := pde_large (e <| memory_type := wrap 3 type |>)]> (pde p) |>.

(** The part both routines share: the memory type of a large page, or its split.
    The last component is the table of a successful split. *)
Definition type_large_page (st : mtrr_state) (p : ept_pages) (ij : Z * Z) (e : ept_leaf)
    : ept_pages * option Z :=
  let '(type, uniform) := get_mtrr_range_memory_type st (shl64 (leaf_pfn e) 21) 0x200000 in
  if uniform then (set_pde_type p ij e type, None)
  else match split_pde p ij with
       | (p, None) => (set_pde_type p ij e type, None)
       | (p, Some s) => (p, Some s)
       end.

(** One iteration of the inner loop of [initialize_ept]. *)
Definition initialize_pde (st : mtrr_state) (p : ept_pages) (ij : Z * Z) : ept_pages * bool :=
  let e := zero_leaf <| read_access := true |> <| write_access := true |>
             <| execute_access := true |> <| leaf_pfn := Z.shiftl (fst ij) 9 + snd ij |> in
  let p := p <| pde := <[ij := pde_large e]> (pde p) |> in
  match type_large_page st p ij e with
  | (p, None) => (p, true)
  | (p, Some s) => set_pt_memory_types st p s (seqZ 0 512)
  end.

(** A loop that a failed iteration leaves. *)
Fixpoint for_each {A S} (body : S -> A -> S * bool) (s : S) (l : list A) : S * bool :=
  match l with
  | [] => (s, true)
  | a :: l => match body s a with
              | (s, true) => for_each body s l
              | (s, false) => (s, false)
              end
  end.

(** [pfn_of_split], [pfn_of_pdpte] and [pfn_of_pd] are what
    [MmGetPhysicalAddress] gives for the arrays, shifted to frame numbers. *)
Definition initialize_pdpte (pfn_of_pd : Z -> Z) (st : mtrr_state) (p : ept_pages) (i : Z)
    : ept_pages * bool :=
  let p := p <| pdpte := <[i := mk_ept_table true true true false (to_pfn (pfn_of_pd i))]>
                           (pdpte p) |> in
  for_each (fun p j => initialize_pde st p (i, j)) p (seqZ 0 512).

Definition initialize_ept (pfn_of_split pfn_of_pd : Z -> Z) (pfn_of_pdpte : Z)
    (st : mtrr_state) : ept_pages :=
  let p := zero_pages
    <| split_pte_pfns := fun s => if (0 <=? s) && (s <? ept_split_pte_count) then pfn_of_split s else 0 |>
    <| pml4e := mk_ept_table true true true false (to_pfn pfn_of_pdpte) |> in
  fst (for_each (initialize_pdpte pfn_of_pd st) p (seqZ 0 ept_pd_count)).

(** One iteration of the outer loop of [update_ept_memory_types]. *)
Definition update_pde (st : mtrr_state) (p : ept_pages) (ij : Z * Z) : ept_pages :=
  match pde p ij with
  | pde_table _ => p
  | pde_large e => fst (type_large_page st p ij e)
  end.

Definition update_pdpte (pfn_of_pd : Z -> Z) (st : mtrr_state) (p : ept_pages) (i : Z)
    : ept_pages * bool :=
  let t := pdpte p i in
  let p := p <| pdpte := <[i := mk_ept_table true true true (table_user_mode_execute t)
                                  (to_pfn (pfn_of_pd i))]> (pdpte p) |> in
  let p := fold_left (fun p j => update_pde st p (i, j)) (seqZ 0 512) p in
  for_each (fun p s => set_pt_memory_types st p s (seqZ 0 512)) p (seqZ 0 (split_pte_used p)).

Definition update_ept_memory_types (pfn_of_pd : Z -> Z) (p : ept_pages) (st : mtrr_state)
    : ept_pages :=
  fst (for_each (update_pdpte pfn_of_pd st) p (seqZ 0 ept_pd_count)).

(** ** Abstract view: a map from guest page frames to 4 KB entries *)

Definition page_count : Z := 2 ^ 27.
Definition pd_of (n : Z) : Z * Z := (n / 2 ^ 18, n / 2 ^ 9 mod 512).

(** The entry for guest frame [n], large pages seen as 512 small ones. *)
Definition page_entry (p : ept_pages) (n : Z) : option ept_leaf :=
  match pde p (pd_of n) with
  | pde_large e => Some (e <| leaf_pfn := leaf_pfn e * 512 + n mod 512 |>)
  | pde_table t =>
      match table_of p (table_pfn t) with
      | Some s => Some (split_pte p (s, n mod 512))
      | None => None
      end
  end.

Definition is_pde (ij : Z * Z) : Prop := 0 <= fst ij < 512 /\ 0 <= snd ij < 512.

(** The pointer to the entry of guest frame [n] in table [t]. *)
Definition ptr_of (t : ept_table) (n : Z) : pte_ptr := mk_ptr (table_pfn t) (n mod 512).

(** Well-formed tables, on the page directory entries in [dom]: large pages map
    to themselves, and every other entry points to a split table of its own. *)
Record ept_wf_on (dom : Z * Z -> Prop) (p : ept_pages) : Prop := {
  wf_used : 0 <= split_pte_used p <= ept_split_pte_count;
  wf_pfn_fits : forall s, 0 <= s < ept_split_pte_count ->
    to_pfn (split_pte_pfns p s) = split_pte_pfns p s;
  wf_pfn_inj : forall s s', 0 <= s < ept_split_pte_count -> 0 <= s' < ept_split_pte_count ->
    split_pte_pfns p s = split_pte_pfns p s' -> s = s';
  wf_large : forall ij e, dom ij -> pde p ij = pde_large e ->
    leaf_pfn e = fst ij * 512 + snd ij;
  wf_table : forall ij t, dom ij -> pde p ij = pde_table t ->
    exists s, 0 <= s < split_pte_used p /\
      t = mk_ept_table true true true true (split_pte_pfns p s);
  wf_own : forall ij ij' t, dom ij -> dom ij' ->
    pde p ij = pde_table t -> pde p ij' = pde_table t -> ij = ij'
}.
Definition ept_wf : ept_pages -> Prop := ept_wf_on is_pde.

(** ** Helper lemmas *)

Lemma pd_of_range n : 0 <= n < page_count -> is_pde (pd_of n).
Proof.
  unfold page_count. intros Hn. split; cbn.
  - split; [apply Z.div_pos; lia | apply Z.div_lt_upper_bound; lia].
  - by apply Z.mod_pos_bound.
Qed.

Lemma div_18 x : x / 2 ^ 18 = x / 512 / 512.
Proof. by rewrite Z.div_div by lia. Qed.

(** A frame number from its three indices. *)
Lemma frame_split n : n = (fst (pd_of n) * 512 + snd (pd_of n)) * 512 + n mod 512.
Proof.
  unfold pd_of. cbn [fst snd].
  rewrite div_18. change (2 ^ 9) with 512.
  pose proof (Z.div_mod n 512 ltac:(lia)). pose proof (Z.div_mod (n / 512) 512 ltac:(lia)). lia.
Qed.

Lemma frame_eq n n' : pd_of n = pd_of n' -> n mod 512 = n' mod 512 -> n = n'.
Proof.
  intros E1 E2. rewrite (frame_split n), (frame_split n'). by rewrite E1, E2.
Qed.

Lemma pd_of_pde ij k : is_pde ij -> 0 <= k < 512 ->
  let n := (fst ij * 512 + snd ij) * 512 + k in
  pd_of n = ij /\ n mod 512 = k /\ 0 <= n < page_count.
Proof.
  intros [Hi Hj] Hk n. unfold n, pd_of, page_count. change (2 ^ 9) with 512.
  rewrite div_18.
  rewrite !(Z.div_add_l _ 512 k), !(Z.div_small k) by lia.
  rewrite !Z.add_0_r, Z.div_add_l, (Z.div_small (snd ij)) by lia.
  split; [| split].
  - destruct ij as [i j]; cbn in *. f_equal; [lia |]. 
    rewrite Z.add_comm, Z.mod_add by lia. by apply Z.mod_small.
  - rewrite Z.add_comm, Z.mod_add by lia. by apply Z.mod_small.
  - lia.
Qed.

(** The frame of a guest-physical address, as [get_ept_pte] sees it. *)
Definition frame_of (gpa : Z) : Z := gpa / 2 ^ 12 mod 2 ^ 36.

Lemma gpa_indices gpa :
  pml4_idx gpa = 0 ->
  0 <= frame_of gpa < page_count /\
  (pdpt_idx gpa, pd_idx gpa) = pd_of (frame_of gpa) /\ pt_idx gpa = frame_of gpa mod 512.
Proof.
  unfold pml4_idx, pdpt_idx, pd_idx, pt_idx. rewrite !bits_eq by lia.
  intros H0. unfold frame_of, pd_of, page_count.
  assert (gpa / 2 ^ 12 mod 2 ^ 36 = gpa / 2 ^ 12 mod 2 ^ 27) as ->.
  { change (2 ^ 36) with (2 ^ (27 + 9)). rewrite (mod_pow2_split _ 27 9), Z.div_div by lia.
    change (2 ^ 12 * 2 ^ 27) with (2 ^ 39). change (2 ^ 9) with 512 in *. lia. }
  pose proof (Z.mod_pos_bound (gpa / 2 ^ 12) (2 ^ 27) ltac:(lia)).
  split; [done |]. split.
  - f_equal.
    + change (2 ^ 27) with (2 ^ (18 + 9)). rewrite mod_pow2_split, Z.div_add_l by lia.
      rewrite (Z.div_small (_ mod 2 ^ 18)) by (apply Z.mod_pos_bound; lia).
      rewrite Z.div_div, Z.add_0_r by lia. done.
    + change (2 ^ 27) with (2 ^ (9 + 18)). rewrite mod_pow2_split, Z.div_add_l by lia.
      rewrite (Z.div_small (_ mod 2 ^ 9)) by (apply Z.mod_pos_bound; lia).
      rewrite Z.div_div, Z.add_0_r by lia. change (2 ^ 18) with (2 ^ (9 + 9)).
      rewrite mod_pow2_split, Z.add_comm, Z.mod_add by lia. by rewrite Z.mod_mod by lia.
  - change (2 ^ 27) with (2 ^ (9 + 18)). rewrite mod_pow2_split by lia.
    rewrite Z.add_comm. change 512 with (2 ^ 9). rewrite Z.mod_add by lia.
    by rewrite Z.mod_mod by lia.
Qed.

Lemma in_table_true k : in_table k = true <-> 0 <= k < 512.
Proof. unfold in_table. lia. Qed.

Section wf.
Variables (dom : Z * Z -> Prop) (p : ept_pages).
Hypothesis Hwf : ept_wf_on dom p.

Lemma table_of_pfn s : 0 <= s < ept_split_pte_count -> table_of p (split_pte_pfns p s) = Some s.
Proof.
  intros Hs. unfold table_of.
  destruct (List.find _ _) as [s' |] eqn:E.
  - apply List.find_some in E as [Hin E]. apply list_elem_of_In, elem_of_seqZ in Hin.
    f_equal. apply (wf_pfn_inj _ _ Hwf); [unfold ept_split_pte_count in *; lia .. | lia].
  - exfalso. pose proof (List.find_none _ _ E s) as E2.
    assert (In s (seqZ 0 ept_split_pte_count)) as Hin.
    { apply list_elem_of_In, elem_of_seqZ. lia. }
    specialize (E2 Hin). cbn in E2. lia.
Qed.

(** The split table of a page directory entry. *)
Lemma pde_split_table ij t :
  dom ij -> pde p ij = pde_table t ->
  exists s, 0 <= s < split_pte_used p /\ t = mk_ept_table true true true true (split_pte_pfns p s) /\
    table_of p (table_pfn t) = Some s.
Proof.
  intros Hd Ht. destruct (wf_table _ _ Hwf _ _ Hd Ht) as (s & Hs & ->).
  exists s. split; [done |]. split; [done |]. apply table_of_pfn.
  pose proof (wf_used _ _ Hwf). lia.
Qed.
End wf.

Context `{!Ia32Ok ia32}.

Lemma to_pfn_small x : 0 <= x < page_count -> to_pfn x = x.
Proof.
  intros Hx. pose proof pfn_width_ok. apply wrap_small. unfold page_count in Hx.
  pose proof (Z.pow_le_mono_r 2 27 pfn_width) as Hp. specialize (Hp ltac:(lia) ltac:(lia)). lia.
Qed.

Lemma to_pfn_u32 x : 0 <= x < 2 ^ 32 -> to_pfn x = x.
Proof.
  intros Hx. pose proof pfn_width_ok. apply wrap_small.
  pose proof (Z.pow_le_mono_r 2 32 pfn_width) as Hp. specialize (Hp ltac:(lia) ltac:(lia)). lia.
Qed.

(** A large page seen at frame [k] is what splitting puts there. *)
Lemma inherit_eq e i j k :
  leaf_pfn e = i * 512 + j -> 0 <= i < 512 -> 0 <= j < 512 -> 0 <= k < 512 ->
  inherit e k = e <| leaf_pfn := leaf_pfn e * 512 + k |>.
Proof.
  intros He Hi Hj Hk.
  assert (to_pfn (shl64 (leaf_pfn e) 9 +64 k) = leaf_pfn e * 512 + k) as E.
  { unfold shl64, add64. rewrite wrap_add_l, Z.shiftl_mul_pow2, wrap_small by lia.
    apply to_pfn_small. unfold page_count. lia. }
  unfold inherit. rewrite E. by destruct e.
Qed.

(** Changing the entries of split tables keeps well-formedness. *)
Lemma wf_split_pte dom p f :
  ept_wf_on dom p -> ept_wf_on dom (p <| split_pte := f |>).
Proof. intros []. by split. Qed.

Lemma wf_hooks dom p hs : ept_wf_on dom p -> ept_wf_on dom (p <| hooks := hs |>).
Proof. intros []. by split. Qed.

Lemma split_pde_ok dom p ij p' s :
  (forall ij, dom ij -> is_pde ij) -> ept_wf_on dom p -> dom ij ->
  split_pde p ij = (p', Some s) ->
  s = split_pte_used p /\ split_pte_used p' = s + 1 /\ hooks p' = hooks p /\
  split_pte_pfns p' = split_pte_pfns p /\
  pde p' = <[ij := pde_table (mk_ept_table true true true true (split_pte_pfns p s))]> (pde p) /\
  ept_wf_on dom p' /\
  (forall n, dom (pd_of n) -> page_entry p' n = page_entry p n).
Proof.
  intros Hdom Hwf Hij. unfold split_pde.
  destruct (pde p ij) as [e | t] eqn:Ee; [| done].
  destruct (Z.leb_spec ept_split_pte_count (split_pte_used p)) as [|Hlt]; [done |].
  intros [= <- <-]. pose proof (wf_used _ _ Hwf) as Hu.
  rewrite (wf_pfn_fits _ _ Hwf (split_pte_used p)) by lia.
  set (t0 := mk_ept_table true true true true (split_pte_pfns p (split_pte_used p))).
  assert (forall ij' t, dom ij' -> pde p ij' = pde_table t -> t <> t0) as Hfresh.
  { intros ij' t Hd Ht ->. destruct (wf_table _ _ Hwf _ _ Hd Ht) as (s & Hs & [= E]).
    apply (wf_pfn_inj _ _ Hwf) in E; lia. }
  do 5 (split; [done |]). split.
  - split; cbn.
    + lia.
    + apply (wf_pfn_fits _ _ Hwf).
    + apply (wf_pfn_inj _ _ Hwf).
    + intros ij' e' Hd. unfold insert, fn_insert. destruct (decide (ij = ij')) as [-> |]; [done |].
      by apply (wf_large _ _ Hwf).
    + intros ij' t Hd. unfold insert, fn_insert. destruct (decide (ij = ij')) as [-> |].
      * intros [= <-]. exists (split_pte_used p). split; [lia | done].
      * intros Ht. destruct (wf_table _ _ Hwf _ _ Hd Ht) as (s & Hs & ->). exists s.
        split; [lia | done].
    + intros ij1 ij2 t Hd1 Hd2. unfold insert, fn_insert.
      destruct (decide (ij = ij1)) as [<- |], (decide (ij = ij2)) as [<- |]; try done.
      * intros [= <-] Ht. by apply Hfresh in Ht.
      * intros Ht [= <-]. by apply Hfresh in Ht.
      * by apply (wf_own _ _ Hwf).
  - intros n Hn. unfold page_entry. cbn. unfold insert, fn_insert.
    destruct (decide (ij = pd_of n)) as [-> | Hne].
    + rewrite Ee. pose proof (table_of_pfn _ _ Hwf (split_pte_used p) ltac:(lia)) as Ht.
      unfold table_of in *. cbn. rewrite Ht, Z.eqb_refl.
      pose proof (Z.mod_pos_bound n 512 ltac:(lia)) as Hm.
      rewrite (proj2 (in_table_true _)) by done. cbn [andb].
      f_equal. pose proof (wf_large _ _ Hwf _ _ Hn Ee) as Hl.
      destruct (Hdom _ Hn). by eapply inherit_eq.
    + destruct (pde p (pd_of n)) as [e' | t] eqn:En; [done |].
      destruct (pde_split_table _ _ Hwf _ _ Hn En) as (s & Hs & _ & Ht).
      unfold table_of in *. cbn. rewrite Ht.
      destruct (Z.eqb_spec s (split_pte_used p)); [lia | done].
Qed.

Lemma split_pde_none p ij p' : split_pde p ij = (p', None) -> p' = p.
Proof. unfold split_pde. destruct (pde p ij); [| congruence]. destruct (_ <=? _); congruence. Qed.

Lemma get_ept_pte_ok p gpa force p' r :
  ept_wf p -> get_ept_pte p gpa force = (p', r) ->
  ept_wf p' /\ hooks p' = hooks p /\
  (forall n, 0 <= n < page_count -> page_entry p' n = page_entry p n) /\
  match r with
  | None => p' = p
  | Some ptr => let n := frame_of gpa in 0 <= n < page_count /\
      exists t, pde p' (pd_of n) = pde_table t /\ ptr = ptr_of t n
  end.
Proof.
  intros Hwf. unfold get_ept_pte.
  destruct (Z.eqb_spec (pml4_idx gpa) 0) as [H0 |]; cbn [negb]; [| by intros [= <- <-]].
  destruct (_ <=? _); [by intros [= <- <-] |].
  destruct (gpa_indices gpa H0) as (Hn & Hpd & Hk). rewrite Hpd, Hk.
  destruct (pde p (pd_of (frame_of gpa))) as [e | t] eqn:Ee.
  2: { intros [= <- <-]. do 4 (split; [done |]). by exists t. }
  destruct force; cbn [negb]; [| by intros [= <- <-]].
  destruct (split_pde p (pd_of (frame_of gpa))) as [p1 [s |]] eqn:Es.
  - pose proof (pd_of_range _ Hn) as Hr.
    destruct (split_pde_ok is_pde _ _ _ _ (fun _ h => h) Hwf Hr Es)
      as (-> & _ & Hh & _ & Hpde & Hwf' & Hent).
    rewrite Hpde. unfold insert at 1, fn_insert at 1. rewrite decide_True by done.
    intros [= <- <-]. do 2 (split; [done |]).
    split; [intros n Hn'; by apply Hent, pd_of_range |]. split; [done |].
    rewrite Hpde. unfold insert, fn_insert. rewrite decide_True by done. by eexists.
  - intros [= <- <-]. apply split_pde_none in Es as ->. done.
Qed.

Lemma update_pte_ok p n t f :
  ept_wf p -> 0 <= n < page_count -> pde p (pd_of n) = pde_table t ->
  exists p', update_pte p (ptr_of t n) f = Ok p' /\ ept_wf p' /\ pde p' = pde p /\ hooks p' = hooks p /\
    forall m, 0 <= m < page_count ->
      page_entry p' m = if m =? n then f <$> page_entry p n else page_entry p m.
Proof.
  intros Hwf Hn Ht. pose proof (pd_of_range _ Hn) as Hr.
  destruct (pde_split_table _ _ Hwf _ _ Hr Ht) as (s & Hs & Et & Hto).
  unfold update_pte. cbn [ptr_of ptr_pfn ptr_idx]. rewrite Hto. eexists. split; [done |].
  split; [by apply wf_split_pte |]. do 2 (split; [done |]).
  intros m Hm. unfold page_entry. cbn. unfold table_of in *. cbn.
  destruct (Z.eqb_spec m n) as [-> | Hne].
  - rewrite Ht, Hto. cbn. unfold insert, fn_insert. by rewrite decide_True.
  - destruct (pde p (pd_of m)) as [e | t'] eqn:Em; [done |].
    destruct (pde_split_table _ _ Hwf _ _ (pd_of_range _ Hm) Em) as (s' & Hs' & Et' & Hto').
    unfold table_of in Hto'. rewrite Hto'. unfold insert, fn_insert.
    destruct (decide _) as [[= <- Ek] |]; [| done]. exfalso. apply Hne.
    apply frame_eq; [| done].
    apply (wf_own _ _ Hwf _ _ t); [by apply pd_of_range | done | congruence | done].
Qed.

Lemma set_all_permissions_ok p r w x :
  ept_wf p -> let p' := set_all_permissions p r w x in
  ept_wf p' /\ hooks p' = hooks p /\
  forall n, 0 <= n < page_count -> page_entry p' n = set_permissions r w x <$> page_entry p n.
Proof.
  intros Hwf p'.
  assert (forall ij t, pde p' ij = pde_table t -> pde p ij = pde_table t) as Hback.
  { intros ij t. cbn. destruct (pde p ij); [by case_match | done]. }
  split.
  { split; try apply Hwf; cbn.
    - intros ij e Hd. destruct (pde p ij) as [e' |] eqn:Ee; [| done].
      pose proof (wf_large _ _ Hwf _ _ Hd Ee). case_match; by intros [= <-].
    - intros ij t Hd Ht%Hback. by apply (wf_table _ _ Hwf _ _ Hd).
    - intros ij ij' t Hd Hd' Ht%Hback Ht'%Hback. by apply (wf_own _ _ Hwf _ _ t). }
  split; [done |]. intros n Hn. pose proof (pd_of_range _ Hn) as Hr.
  unfold page_entry, p', set_all_permissions. cbn -[set_permissions].
  destruct (pde p (pd_of n)) as [e | t] eqn:Ee.
  - destruct Hr as [Hi Hj]. rewrite !(proj2 (in_table_true _)) by done.
    cbn. by destruct e.
  - destruct (pde_split_table _ _ Hwf _ _ Hr Ee) as (s & Hs & _ & Ht). unfold table_of in *. cbn -[set_permissions].
    rewrite Ht. cbn -[set_permissions]. pose proof (wf_used _ _ Hwf).
    rewrite (proj2 (in_table_true _)) by (apply Z.mod_pos_bound; lia).
    destruct (Z.leb_spec 0 s), (Z.ltb_spec s ept_split_pte_count); try lia. done.
Qed.

(** ** Specification of hooks and tracing *)

Definition exec_at (p : ept_pages) (n : Z) : option bool := execute_access <$> page_entry p n.
Definition pfn_at (p : ept_pages) (n : Z) : option Z := leaf_pfn <$> page_entry p n.

(** An active hook points to the entry of the frame it hooks. *)
Definition hook_ok (p : ept_pages) (h : ept_hook) : Prop :=
  0 <= orig_pfn h < 2 ^ 32 /\ forall ptr, hook_pte h = Some ptr ->
    0 <= orig_pfn h < page_count /\
    exists t, pde p (pd_of (orig_pfn h)) = pde_table t /\ ptr = ptr_of t (orig_pfn h).

Definition hooked (hs : list ept_hook) (n : Z) : Prop :=
  exists h, In h hs /\ hook_pte h <> None /\ orig_pfn h = n.

(** The frame of a hook's code, in the 32 bits of the member. *)
Definition frame_fits (h : ept_hook) : Prop := 0 <= hook_pfn h < 2 ^ 32.

(** Every frame is mapped to itself, unless an active hook redirects it. *)
Definition redirected_only_by_hooks (p : ept_pages) : Prop :=
  forall n e, 0 <= n < page_count -> page_entry p n = Some e ->
    leaf_pfn e = n \/
    exists h, In h (hooks p) /\ hook_pte h <> None /\ orig_pfn h = n /\ leaf_pfn e = hook_pfn h.

Record ept_inv (p : ept_pages) : Prop := {
  inv_wf : ept_wf p;
  inv_hooks : Forall (hook_ok p) (hooks p);
  inv_identity : redirected_only_by_hooks p;
  inv_count : hook_count p <= ept_max_hook_count;
  inv_frames : Forall frame_fits (hooks p)
}.

(** The frames behind the pages of the target range that are mapped. *)
Fixpoint target_frames (gva_to_gpa : Z -> outcome Z) (page_va : Z) (n : nat) : list Z :=
  match n with
  | O => []
  | S n =>
      match gva_to_gpa page_va with
      | Ok gpa => if gpa =? 0 then [] else [frame_of gpa]
      | _ => []
      end ++ target_frames gva_to_gpa (page_va +64 0x1000) n
  end.

Definition is_target (frames : list Z) (n : Z) : bool := existsb (Z.eqb n) frames.

Definition with_execute (x : bool) (e : ept_leaf) : ept_leaf := e <| execute_access := x |>.

Lemma page_entry_is_some p n : ept_wf p -> 0 <= n < page_count -> is_Some (page_entry p n).
Proof.
  intros Hwf Hn. unfold page_entry. destruct (pde p (pd_of n)) as [e | t] eqn:E; [done |].
  destruct (pde_split_table _ _ Hwf _ _ (pd_of_range _ Hn) E) as (s & _ & _ & ->). done.
Qed.

(** The two tables after a run of the loop that did not bail out. *)
Lemma auto_trace_loop_ok g n normal target va normal' target' ok :
  ept_wf normal -> ept_wf target ->
  auto_trace_loop g normal target va n = Ok (normal', target', ok) ->
  ept_wf normal' /\ ept_wf target' /\ hooks normal' = hooks normal /\ hooks target' = hooks target /\
  forall m, 0 <= m < page_count ->
    let frames := target_frames g va n in
    pfn_at normal' m = pfn_at normal m /\ pfn_at target' m = pfn_at target m /\
    if ok
    then page_entry normal' m =
           (if is_target frames m then with_execute false else id) <$> page_entry normal m /\
         page_entry target' m =
           (if is_target frames m then with_execute true else id) <$> page_entry target m
    else (exists e e', page_entry normal' m = Some (set_permissions true true true e) /\
                       page_entry target' m = Some (set_permissions true true true e')).
Proof.
  revert normal target va. induction n as [| n IH]; intros normal target va Hwn Hwt.
  { cbn. intros [= <- <- <-]. do 4 (split; [done |]). intros m Hm.
    do 2 (split; [done |]). by destruct (page_entry normal m), (page_entry target m). }
  cbn [auto_trace_loop target_frames].
  destruct (g va) as [gpa | |]; cbn [obind]; [| done | done].
  destruct (gpa =? 0); [by apply IH |].
  destruct (get_ept_pte normal gpa true) as [n1 [pn |]] eqn:En;
    destruct (get_ept_pte target gpa true) as [t1 [pt |]] eqn:Et;
    destruct (get_ept_pte_ok _ _ _ _ _ Hwn En) as (Hwn1 & Hhn1 & Hen1 & Hn1);
    destruct (get_ept_pte_ok _ _ _ _ _ Hwt Et) as (Hwt1 & Hht1 & Het1 & Ht1).
  { destruct Hn1 as (Hfr & tn & Hpn & ->), Ht1 as (_ & tt & Hpt & ->).
    destruct (update_pte_ok n1 _ _ (fun e => e <| execute_access := false |>) Hwn1 Hfr Hpn)
      as (n2 & -> & Hwn2 & _ & Hhn2 & Hen2).
    destruct (update_pte_ok t1 _ _ (fun e => e <| execute_access := true |>) Hwt1 Hfr Hpt)
      as (t2 & -> & Hwt2 & _ & Hht2 & Het2). cbn [obind].
    intros H. destruct (IH _ _ _ Hwn2 Hwt2 H) as (? & ? & Hh1 & Hh2 & Hall).
    do 2 (split; [done |]). do 2 (split; [congruence |]). intros m Hm.
    specialize (Hall m Hm). cbv zeta in Hall. destruct Hall as (Hp1 & Hp2 & Hok).
    unfold pfn_at in *. rewrite Hen2, !Hen1 in Hp1 by done. rewrite Het2, !Het1 in Hp2 by done.
    split; [| split].
    - rewrite Hp1. destruct (Z.eqb_spec m (frame_of gpa)) as [E |]; [rewrite E | done].
      by destruct (page_entry normal _).
    - rewrite Hp2. destruct (Z.eqb_spec m (frame_of gpa)) as [E |]; [rewrite E | done].
      by destruct (page_entry target _).
    - destruct ok; [| done]. destruct Hok as [-> ->]. rewrite Hen2, Het2, !Hen1, !Het1 by done.
      cbn [is_target existsb app].
      destruct (Z.eqb_spec m (frame_of gpa)) as [E |]; cbn [orb]; [rewrite E |].
      + fold (is_target (target_frames g (va +64 0x1000) n) (frame_of gpa)).
        destruct (is_target _ _), (page_entry normal _), (page_entry target _); done.
      + done. }
  all: intros [= <- <- <-];
    destruct (set_all_permissions_ok n1 true true true Hwn1) as (Hwn2 & Hhn2 & Hen2);
    destruct (set_all_permissions_ok t1 true true true Hwt1) as (Hwt2 & Hht2 & Het2);
    do 2 (split; [done |]); do 2 (split; [congruence |]); intros m Hm; unfold pfn_at;
    rewrite Hen2, Het2, Hen1, Het1 by done;
    destruct (page_entry_is_some _ _ Hwn Hm) as [e ->], (page_entry_is_some _ _ Hwt Hm) as [e' ->];
    do 2 (split; [done |]); by exists e, e'.
Qed.

(** The hooking state of other frames does not matter to a pointer. *)
Lemma hook_ok_mono p p' h :
  (forall ij t, is_pde ij -> pde p ij = pde_table t -> pde p' ij = pde_table t) ->
  hook_ok p h -> hook_ok p' h.
Proof.
  intros Hm [Ho Hh]. split; [done |]. intros ptr Hp. destruct (Hh ptr Hp) as (Hr & t & Ht & ->). split; [done |].
  exists t. split; [| done]. apply Hm; [by apply pd_of_range | done].
Qed.

Lemma get_ept_pte_mono p gpa force p' r :
  ept_wf p -> get_ept_pte p gpa force = (p', r) ->
  forall ij t, pde p ij = pde_table t -> pde p' ij = pde_table t.
Proof.
  intros Hwf. unfold get_ept_pte. destruct (negb _); [by intros [= <- <-] |].
  destruct (_ <=? _); [by intros [= <- <-] |]. set (ij0 := (_, _)).
  destruct (pde p ij0) as [e | t] eqn:Ee; [| by intros [= <- <-]].
  destruct (negb force); [by intros [= <- <-] |].
  unfold split_pde. rewrite Ee. destruct (_ <=? _); [by intros [= <- <-] |].
  cbn. unfold insert, fn_insert. rewrite decide_True by done. intros [= <- <-] ij t Ht. cbn.
  destruct (decide (ij0 = ij)) as [<- |]; [congruence | done].
Qed.

(** [orig_pfn << 12] and the truncation of the frame number agree. *)
Lemma frame_of_shl orig :
  0 <= orig -> 0 <= frame_of (shl64 orig 12) < page_count -> u32 orig = frame_of (shl64 orig 12).
Proof.
  intros H0. assert (frame_of (shl64 orig 12) = orig mod 2 ^ 36) as ->.
  { unfold frame_of, shl64, wrap. rewrite Z.shiftl_mul_pow2 by lia.
    change (2 ^ 64) with (2 ^ 52 * 2 ^ 12). rewrite Z.mul_mod_distr_r by lia.
    rewrite Z.div_mul by lia. change (2 ^ 52) with (2 ^ (36 + 16)).
    rewrite mod_pow2_split, Z.add_comm, Z.mod_add by lia. by rewrite Z.mod_mod by lia. }
  unfold wrap. change (2 ^ 36) with (2 ^ (32 + 4)). rewrite mod_pow2_split by lia.
  unfold page_count. pose proof (Z.mod_pos_bound orig (2 ^ 32) ltac:(lia)).
  pose proof (Z.mod_pos_bound (orig / 2 ^ 32) (2 ^ 4) ltac:(lia)). lia.
Qed.

(** No split table is given up by tracing. *)
Lemma set_all_permissions_mono p r w x ij t :
  pde p ij = pde_table t -> pde (set_all_permissions p r w x) ij = pde_table t.
Proof. intros E. cbn. by rewrite E. Qed.

Lemma auto_trace_loop_mono g n normal target va normal' target' ok :
  ept_wf normal -> ept_wf target ->
  auto_trace_loop g normal target va n = Ok (normal', target', ok) ->
  forall ij t, (pde normal ij = pde_table t -> pde normal' ij = pde_table t) /\
               (pde target ij = pde_table t -> pde target' ij = pde_table t).
Proof.
  revert normal target va. induction n as [| n IH]; intros normal target va Hwn Hwt; [by intros [= <- <- <-] |].
  cbn [auto_trace_loop]. destruct (g va) as [gpa | |]; cbn [obind]; [| done | done].
  destruct (gpa =? 0); [by apply IH |].
  destruct (get_ept_pte normal gpa true) as [n1 rn] eqn:En, (get_ept_pte target gpa true) as [t1 rt] eqn:Et.
  pose proof (get_ept_pte_mono _ _ _ _ _ Hwn En) as Mn. pose proof (get_ept_pte_mono _ _ _ _ _ Hwt Et) as Mt.
  destruct (get_ept_pte_ok _ _ _ _ _ Hwn En) as (Hwn1 & _ & _ & Hn1).
  destruct (get_ept_pte_ok _ _ _ _ _ Hwt Et) as (Hwt1 & _ & _ & Ht1).
  destruct rn as [pn |], rt as [pt |].
  2, 3, 4: intros [= <- <- <-] ij t; split; intros; apply set_all_permissions_mono; auto.
  destruct Hn1 as (Hfr & tn & Hpn & ->), Ht1 as (_ & tt & Hpt & ->).
  destruct (update_pte_ok n1 _ _ (fun e => e <| execute_access := false |>) Hwn1 Hfr Hpn)
    as (n2 & -> & Hwn2 & Pn & _).
  destruct (update_pte_ok t1 _ _ (fun e => e <| execute_access := true |>) Hwt1 Hfr Hpt)
    as (t2 & -> & Hwt2 & Pt & _). cbn [obind].
  intros H ij t. destruct (IH _ _ _ Hwn2 Hwt2 H ij t) as [I1 I2]. rewrite Pn in I1. rewrite Pt in I2. auto.
Qed.

(** *** Deactivating and reactivating *)

Definition deactivated (h : ept_hook) : ept_hook := h <| hook_pte := None |>.
Definition active_on (n : Z) (h : ept_hook) : bool :=
  match hook_pte h with Some _ => orig_pfn h =? n | None => false end.
Definition restored (n : Z) (e : ept_leaf) : ept_leaf :=
  set_permissions true true true e <| leaf_pfn := n |>.

Lemma hook_ok_pde p p' h : pde p' = pde p -> hook_ok p h -> hook_ok p' h.
Proof. intros E. apply hook_ok_mono. intros. by rewrite E. Qed.

Lemma Forall_hook_ok_pde p p' hs :
  pde p' = pde p -> Forall (hook_ok p) hs -> Forall (hook_ok p') hs.
Proof.
  intros E Hf. apply (list.Forall_impl (hook_ok p)); [done |]. intros h. by apply hook_ok_pde.
Qed.

Lemma deactivate_fold hs p acc :
  ept_wf p -> Forall (hook_ok p) hs ->
  exists p', fold_left deactivate_hook hs (Ok (p, acc)) = Ok (p', acc ++ map deactivated hs) /\
    ept_wf p' /\ pde p' = pde p /\
    forall n, 0 <= n < page_count ->
      page_entry p' n =
        (if existsb (active_on n) hs then restored n else id) <$> page_entry p n.
Proof.
  revert p acc. induction hs as [| h hs IH]; intros p acc Hwf Hhs.
  { exists p. cbn. rewrite app_nil_r. do 3 (split; [done |]). intros n _. by destruct (page_entry p n). }
  apply list.Forall_cons in Hhs as [Hh Hhs]. cbn [fold_left map existsb deactivate_hook obind].
  destruct (hook_pte h) as [ptr |] eqn:Ep.
  - destruct Hh as [_ Hh]. destruct (Hh _ Ep) as (Hr & t & Ht & ->).
    destruct (update_pte_ok p _ _ (fun e => set_permissions true true true e
      <| leaf_pfn := to_pfn (orig_pfn h) |>) Hwf Hr Ht) as (p1 & -> & Hwf1 & Hpde & _ & He1).
    cbn [obind]. change (h <| hook_pte := None |>) with (deactivated h).
    destruct (IH p1 (acc ++ [deactivated h]) Hwf1) as (p' & E & Hwf' & Hpde' & He').
    { by apply (Forall_hook_ok_pde p). }
    exists p'. rewrite E, <- app_assoc. split; [done |]. split; [done |].
    split; [congruence |]. intros n Hn. rewrite He', He1 by done. unfold active_on at 2. rewrite Ep.
    rewrite (Z.eqb_sym (orig_pfn h) n). rewrite to_pfn_small by done.
    destruct (Z.eqb_spec n (orig_pfn h)) as [En |]; cbn [orb]; [rewrite <- En | done].
    destruct (page_entry p n) as [e |], (existsb _ hs); done.
  - destruct (IH p (acc ++ [h]) Hwf Hhs) as (p' & E & Hwf' & Hpde' & He').
    exists p'. rewrite E, <- app_assoc. cbn [app].
    assert (deactivated h = h) as -> by (destruct h; cbn in *; by subst).
    do 3 (split; [done |]). intros n Hn. rewrite He' by done. unfold active_on at 2. rewrite Ep.
    done.
Qed.

Lemma get_ept_pte_no_split p gpa :
  ept_wf p -> exists r, get_ept_pte p gpa false = (p, r) /\
    (r = None -> forall n t, n = frame_of gpa -> 0 <= n < page_count -> pml4_idx gpa = 0 ->
       pde p (pd_of n) <> pde_table t).
Proof.
  intros Hwf. unfold get_ept_pte. destruct (Z.eqb_spec (pml4_idx gpa) 0) as [H0 |]; cbn [negb].
  2: { exists None. done. }
  destruct (gpa_indices gpa H0) as (Hn & Hpd & Hk).
  destruct (Z.leb_spec ept_pd_count (pdpt_idx gpa)) as [Hge |].
  { pose proof (idx_range gpa 30). unfold pdpt_idx, ept_pd_count in *. lia. }
  rewrite Hpd. destruct (pde p (pd_of (frame_of gpa))) eqn:E.
  - exists None. split; [done |]. intros _ n t -> _ _. congruence.
  - eexists. split; [done |]. done.
Qed.

(** The gpa [orig_pfn << 12] of a recorded hook. *)
Lemma frame_of_hook n :
  0 <= n < page_count -> frame_of (shl64 n 12) = n /\ pml4_idx (shl64 n 12) = 0.
Proof.
  unfold page_count. intros Hn. unfold frame_of, shl64, pml4_idx.
  rewrite bits_eq, Z.shiftl_mul_pow2 by lia. rewrite wrap_small by lia.
  rewrite Z.div_mul by lia. split; [apply Z.mod_small; lia |].
  rewrite (Z.div_small (n * 2 ^ 12)) by lia. done.
Qed.

(** Whether a hook is active after reactivation. *)
Definition can_activate (p : ept_pages) (h : ept_hook) : Prop :=
  0 <= orig_pfn h < page_count /\ exists t, pde p (pd_of (orig_pfn h)) = pde_table t.

(** A hook before and after; hook pointers are those of the tables in [p]. *)
Definition reactivated (p : ept_pages) (h h' : ept_hook) : Prop :=
  orig_pfn h' = orig_pfn h /\ hook_pfn h' = hook_pfn h /\ hook_ok p h' /\
  (hook_pte h <> None -> hook_pte h' <> None) /\ (can_activate p h -> hook_pte h' <> None).

(** A frame that maps to itself and traps on execution. *)
Definition trapped (p : ept_pages) (n : Z) : Prop :=
  exists e, page_entry p n = Some e /\ leaf_pfn e = n /\ execute_access e = false.

Lemma reactivate_fold hs p acc :
  ept_wf p -> Forall (hook_ok p) hs ->
  exists p' hs', fold_left reactivate_hook hs (Ok (p, acc)) = Ok (p', acc ++ hs') /\
    ept_wf p' /\ pde p' = pde p /\
    Forall2 (reactivated p) hs hs' /\
    Forall2 (fun h h' => hook_pte h = None -> hook_pte h' <> None -> trapped p' (orig_pfn h')) hs hs' /\
    forall n, 0 <= n < page_count ->
      page_entry p' n = page_entry p n \/ (hooked hs' n /\ trapped p' n).
Proof.
  revert p acc. induction hs as [| h hs IH]; intros p acc Hwf Hhs.
  { exists p, []. cbn. rewrite app_nil_r. do 3 (split; [done |]).
    do 2 (split; [constructor |]). intros n _. by left. }
  apply list.Forall_cons in Hhs as [Hh Hhs]. cbn [fold_left reactivate_hook obind].
  assert (forall p1 h', ept_wf p1 -> pde p1 = pde p ->
    orig_pfn h' = orig_pfn h -> hook_pfn h' = hook_pfn h -> hook_ok p h' ->
    (hook_pte h <> None -> hook_pte h' <> None) -> (can_activate p h -> hook_pte h' <> None) ->
    (hook_pte h = None -> hook_pte h' <> None -> trapped p1 (orig_pfn h')) ->
    (forall n, 0 <= n < page_count -> page_entry p1 n = page_entry p n \/
      (hook_pte h' <> None /\ orig_pfn h' = n /\ trapped p1 n)) ->
    exists p' hs', fold_left reactivate_hook hs (Ok (p1, acc ++ [h'])) = Ok (p', acc ++ hs') /\
    ept_wf p' /\ pde p' = pde p /\
    Forall2 (reactivated p) (h :: hs) hs' /\
    Forall2 (fun h h' => hook_pte h = None -> hook_pte h' <> None -> trapped p' (orig_pfn h')) (h :: hs) hs' /\
    forall n, 0 <= n < page_count ->
      page_entry p' n = page_entry p n \/ (hooked hs' n /\ trapped p' n)) as Hstep.
  { intros p1 h' Hwf1 Hpde1 Ho Hk Hok Ha Hc Htr He1.
    destruct (IH p1 (acc ++ [h']) Hwf1) as (p' & hs' & E & Hwf' & Hpde' & Hall & Htraps & He').
    { by apply (Forall_hook_ok_pde p). }
    exists p', (h' :: hs'). rewrite E, <- app_assoc. split; [done |]. split; [done |].
    split; [congruence |]. split; [| split].
    - constructor; [done |]. eapply Forall2_impl; [| exact Hall].
      intros g g' (? & ? & Hg & ? & Hcg). do 2 (split; [done |]).
      split; [by apply (hook_ok_pde p1) |]. split; [done |].
      intros [Hr [t Ht]]. apply Hcg. split; [done |]. exists t. congruence.
    - constructor; [| done]. intros Hnone Hact. specialize (Htr Hnone Hact).
      destruct (hook_pte h') as [q |] eqn:Eq; [| done]. destruct Hok as [_ Hr].
      destruct (Hr q Eq) as [Hrng _].
      destruct (He' _ Hrng) as [E1 | [_ Ht]]; [| done]. destruct Htr as (e & He). exists e. by rewrite E1.
    - intros n Hn. destruct (He' n Hn) as [E1 | [Hhk He]].
      + destruct (He1 n Hn) as [E2 | (Ha' & Ho' & e & He)]; [left; congruence |].
        right. split; [| exists e; by rewrite E1]. exists h'. split; [by left | done].
      + right. split; [| done]. destruct Hhk as (g & Hin & Hg). exists g. split; [by right | done]. }
  destruct (hook_pte h) as [ptr |] eqn:Ep.
  - apply Hstep; try done; rewrite ?Ep; try done. intros n _. by left.
  - destruct (get_ept_pte_no_split p (shl64 (orig_pfn h) 12) Hwf) as (r & Eg & Hnone). rewrite Eg.
    destruct r as [ptr |].
    + destruct (get_ept_pte_ok _ _ _ _ _ Hwf Eg) as (_ & _ & _ & Hn & t & Ht & ->).
      destruct Hh as [Ho _].
      pose proof (frame_of_shl (orig_pfn h) ltac:(lia) Hn) as Hf. rewrite wrap_small in Hf by lia.
      rewrite <- Hf in *.
      destruct (update_pte_ok p _ _ (fun e => e <| leaf_pfn := to_pfn (orig_pfn h) |>
        <| execute_access := false |>) Hwf Hn Ht) as (p1 & -> & Hwf1 & Hpde & _ & He1).
      cbn [obind].
      assert (trapped p1 (orig_pfn h)) as Htr.
      { destruct (page_entry_is_some _ _ Hwf Hn) as [e He]. eexists.
        split; [rewrite He1, Z.eqb_refl, He by done; reflexivity |].
        by rewrite to_pfn_small. }
      apply Hstep; try done.
      { split; [done |]. intros q [= <-]. split; [done |]. by exists t. }
      intros n Hnr. rewrite He1 by done. destruct (Z.eqb_spec n (orig_pfn h)) as [-> |]; [| by left].
      right. by split.
    + apply Hstep; try done.
      * intros [Hr [t Ht]]. destruct (frame_of_hook _ Hr) as [Hf Hp].
        by destruct (Hnone eq_refl (orig_pfn h) t).
      * intros n _. by left.
Qed.

(** Suspending all hooks of a table. *)
Lemma deactivate_ok p :
  ept_inv p ->
  exists p1, deactivate_hooks p = Ok p1 /\ ept_wf p1 /\ pde p1 = pde p /\
    hooks p1 = map deactivated (hooks p) /\
    forall n, 0 <= n < page_count -> pfn_at p1 n = Some n /\
      page_entry p1 n = (if existsb (active_on n) (hooks p) then restored n else id) <$> page_entry p n.
Proof.
  intros [Hwf Hhs Hid _ _]. unfold deactivate_hooks.
  destruct (deactivate_fold _ p [] Hwf Hhs) as (p1' & -> & Hwf1 & Hpde1 & He1).
  cbn [obind app]. eexists. split; [done |]. split; [by apply wf_hooks |].
  split; [done |]. split; [done |]. intros n Hn. specialize (He1 n Hn). split; [| exact He1].
  unfold pfn_at. change (leaf_pfn <$> page_entry p1' n = Some n). rewrite He1.
  destruct (page_entry_is_some _ _ Hwf Hn) as [e He]. rewrite He.
  destruct (existsb _ _) eqn:Ex; [done |]. cbn. f_equal.
  destruct (Hid n e Hn He) as [-> | (h & Hin & Ha & Ho & _)]; [done |]. exfalso.
  apply not_true_iff_false in Ex. apply Ex, existsb_exists. exists h. split; [done |].
  unfold active_on. destruct (hook_pte h); [by apply Z.eqb_eq | done].
Qed.

(** Hooks before a suspension and after the resumption. *)
Definition resumed (h h2 : ept_hook) : Prop :=
  orig_pfn h2 = orig_pfn h /\ hook_pfn h2 = hook_pfn h /\ (hook_pte h <> None -> hook_pte h2 <> None).

(** Resuming suspended hooks on a table that still has the split tables they
    pointed into and maps every frame to itself. *)
Lemma resume_ok p0 p :
  Forall (hook_ok p0) (hooks p0) -> hook_count p0 <= ept_max_hook_count -> Forall frame_fits (hooks p0) ->
  (forall ij t, pde p0 ij = pde_table t -> pde p ij = pde_table t) ->
  ept_wf p -> hooks p = map deactivated (hooks p0) ->
  (forall n, 0 <= n < page_count -> pfn_at p n = Some n) ->
  exists p', reactivate_hooks p = Ok p' /\ ept_inv p' /\
    Forall2 resumed (hooks p0) (hooks p') /\
    (forall n, hooked (hooks p') n -> trapped p' n) /\
    forall n, 0 <= n < page_count -> pfn_at p' n = Some n /\
      (page_entry p' n = page_entry p n \/ hooked (hooks p') n).
Proof.
  intros Hok0 Hcnt Hfr0 Hmono Hwf Hhs Hid.
  assert (Forall (hook_ok p) (hooks p)) as Hok.
  { rewrite Hhs. apply Forall_map. apply (list.Forall_impl (hook_ok p0)); [done |]. intros h [Ho _]. by split. }
  destruct (reactivate_fold (hooks p) p [] Hwf Hok) as (p' & hs & E & Hwf' & Hpde & Hall & Htraps & He).
  unfold reactivate_hooks. rewrite E. cbn [obind app]. eexists. split; [done |].
  pose proof (Forall2_length Hall) as Hlen. rewrite Hhs, length_map in Hlen.
  assert (forall n, 0 <= n < page_count -> pfn_at p' n = Some n) as Hid'.
  { intros n Hn. destruct (He n Hn) as [E1 | (_ & e & E1 & El & _)]; unfold pfn_at in *;
      rewrite E1; [by apply Hid | cbn; congruence]. }
  split; [split | split; [| split]].
  - by apply wf_hooks.
  - cbn. clear -Hall Hpde. induction Hall as [| h h' l l' (_ & _ & Hg & _)]; constructor; [| done].
    by apply (hook_ok_pde p).
  - intros n e Hn He'. left. specialize (Hid' n Hn). unfold pfn_at in Hid'.
    change (page_entry p' n = Some e) in He'. rewrite He' in Hid'. by injection Hid'.
  - unfold hook_count in *. cbn. by rewrite <- Hlen.
  - cbn. clear -Hall Hfr0 Hhs. assert (Forall frame_fits (hooks p)) as Hfr by (rewrite Hhs; by apply Forall_map).
    clear -Hall Hfr. induction Hall as [| h h' l l' (_ & Hk & _)]; [done |]. apply list.Forall_cons in Hfr as [H1 H2].
    constructor; [| by apply IHHall]. unfold frame_fits in *. by rewrite Hk.
  - cbn. rewrite Hhs in Hall. clear -Hall Hok0 Hmono. revert hs Hall.
    induction Hok0 as [| h l Hh _ IH]; intros hs Hall; inversion Hall as [| ? h' ? l' Hg Hrest]; subst.
    { constructor. }
    constructor; [| by apply IH]. destruct Hg as (Ho & Hk & _ & _ & Hc).
    split; [done |]. split; [done |]. intros Ha. apply Hc.
    destruct (hook_pte h) as [ptr |] eqn:Ep; [| done]. destruct Hh as [_ Hh].
    destruct (Hh _ Ep) as (Hr & t & Ht & _). split; [done |]. exists t. by apply Hmono.
  - intros n (h' & Hin & Ha & <-). cbn in Hin. rewrite Hhs in Htraps. clear -Htraps Hin Ha.
    remember (map deactivated (hooks p0)) as l eqn:El. assert (Forall (fun h => hook_pte h = None) l) as Hl.
    { subst. apply Forall_map, Forall_true. done. }
    clear El. induction Htraps as [| h h2 l l2 Hh _ IH]; [done |].
    apply list.Forall_cons in Hl as [Hn Hl]. destruct Hin as [-> | Hin]; [by apply Hh | by apply IH].
  - intros n Hn. split; [by apply Hid' |]. destruct (He n Hn) as [E1 | [Hk _]]; [by left | by right].
Qed.

(** *** Keeping the invariant *)

(** A table that maps every frame to where [p] maps it. *)
Record same_map (p p' : ept_pages) : Prop := {
  same_wf : ept_wf p';
  same_hooks : hooks p' = hooks p;
  same_tables : forall ij t, pde p ij = pde_table t -> pde p' ij = pde_table t;
  same_pfn : forall n, 0 <= n < page_count -> pfn_at p' n = pfn_at p n
}.

Lemma same_map_inv p p' : same_map p p' -> ept_inv p -> ept_inv p'.
Proof.
  intros [Hwf Hh Ht Hp] [_ Hhs Hid Hc Hfr]. split; [done | | | |]; rewrite ?Hh; try done.
  - apply (list.Forall_impl (hook_ok p)); [done |]. intros h. apply hook_ok_mono. intros ij t _. apply Ht.
  - intros n e Hn He. specialize (Hp n Hn). unfold pfn_at in Hp. rewrite He in Hp.
    destruct (page_entry p n) as [e0 |] eqn:E; [| done]. injection Hp as Hl. rewrite Hh, Hl. by apply (Hid n e0).
  - unfold hook_count in *. by rewrite Hh.
Qed.

Lemma set_all_permissions_inv p r w x : ept_inv p -> ept_inv (set_all_permissions p r w x).
Proof.
  intros Hinv. destruct (set_all_permissions_ok p r w x (inv_wf _ Hinv)) as (Hwf & Hh & He).
  apply (same_map_inv p); [| done]. split; [done | done | intros ij t; apply set_all_permissions_mono |].
  intros n Hn. unfold pfn_at. rewrite He by done. by destruct (page_entry p n).
Qed.

Lemma enable_auto_trace_inv g normal target va size normal' target' ok :
  ept_inv normal -> ept_inv target ->
  enable_auto_trace g normal target va size = Ok (normal', target', ok) -> ept_inv normal' /\ ept_inv target'.
Proof.
  intros Hn Ht H. unfold enable_auto_trace in H.
  pose proof (set_all_permissions_inv target true true false Ht) as Ht1.
  destruct (auto_trace_loop_ok _ _ _ _ _ _ _ _ (inv_wf _ Hn) (inv_wf _ Ht1) H) as (Wn & Wt & Hhn & Hht & Hp).
  pose proof (auto_trace_loop_mono _ _ _ _ _ _ _ _ (inv_wf _ Hn) (inv_wf _ Ht1) H) as Hm.
  split.
  - apply (same_map_inv normal); [| done]. split; [done | done | intros ij t; apply (Hm ij t) | intros n Hr; by apply (Hp n Hr)].
  - apply (same_map_inv (set_all_permissions target true true false)); [| done].
    split; [done | done | intros ij t; apply (Hm ij t) | intros n Hr; by apply (Hp n Hr)].
Qed.

Lemma deactivate_inv p : ept_inv p -> exists p', deactivate_hooks p = Ok p' /\ ept_inv p'.
Proof.
  intros Hinv. pose proof Hinv as [Hwf Hhs Hid Hcnt Hfr].
  destruct (deactivate_ok p Hinv) as (p1 & E1 & Hwf1 & Hpde1 & Hh1 & He1). exists p1. split; [done |].
  split; [done | | | |]; rewrite ?Hh1.
  - apply Forall_map. apply (list.Forall_impl (hook_ok p)); [done |]. intros h [Ho _]. by split.
  - intros n e Hn He. left. destruct (He1 n Hn) as [Hp _]. unfold pfn_at in Hp. rewrite He in Hp.
    by injection Hp.
  - unfold hook_count in *. by rewrite Hh1, length_map.
  - by apply Forall_map.
Qed.

Lemma reactivate_inv p : ept_inv p -> exists p', reactivate_hooks p = Ok p' /\ ept_inv p'.
Proof.
  intros [Hwf Hhs Hid Hcnt Hfr].
  destruct (reactivate_fold (hooks p) p [] Hwf Hhs) as (p' & hs & E & Hwf' & Hpde & Hall & _ & He).
  unfold reactivate_hooks. rewrite E. cbn [obind app]. eexists. split; [done |].
  split; [by apply wf_hooks | | | |]; cbn [hooks].
  - cbn. clear -Hall Hpde. induction Hall as [| h h' l l' (_ & _ & Hg & _)]; constructor; [| done].
    by apply (hook_ok_pde p).
  - intros n e Hn Hpe. change (page_entry p' n = Some e) in Hpe. change (hooks (p' <| hooks := hs |>)) with hs.
    destruct (He n Hn) as [E1 | (_ & e1 & E1 & El & _)]; [| left; congruence].
    rewrite E1 in Hpe. destruct (Hid n e Hn Hpe) as [H | (h & Hin & Ha & Ho & Hk)]; [by left | right].
    apply list_elem_of_In, list_elem_of_lookup in Hin as [i Hi].
    destruct (Forall2_lookup_l _ _ _ _ _ Hall Hi) as (h' & Hi' & Ho' & Hk' & _ & Ha' & _).
    exists h'. split; [by eapply list_elem_of_In, list_elem_of_lookup_2 |].
    split; [by apply Ha' |]. split; congruence.
  - unfold hook_count in *. cbn. rewrite <- (Forall2_length Hall). done.
  - change (Forall frame_fits hs). clear -Hall Hfr. induction Hall as [| h h' l l' (_ & Hk & _)]; [done |].
    apply list.Forall_cons in Hfr as [H1 H2]. constructor; [| by apply IHHall]. unfold frame_fits in *. by rewrite Hk.
Qed.

(** *** Memory types *)

Definition mtrr_type (st : mtrr_state) (n : Z) : Z :=
  wrap 3 (get_mtrr_memory_type_single st (n * 0x1000)).

Lemma shl_frame n k : 0 <= n < page_count -> 0 <= k <= 30 ->
  shl64 n k = n * 2 ^ k.
Proof.
  unfold page_count. intros Hn Hk. unfold shl64. rewrite Z.shiftl_mul_pow2 by lia.
  apply wrap_small. pose proof (Z.pow_le_mono_r 2 k 30 ltac:(lia) ltac:(lia)).
  pose proof (Z.pow_pos_nonneg 2 k ltac:(lia) ltac:(lia)).
  change (2 ^ 30) with 1073741824 in *. change (2 ^ 64) with 18446744073709551616. nia.
Qed.

(** The loop over a split table sets every listed entry to the type of the frame
    it maps. *)
Lemma set_pt_memory_types_ok st p s ks :
  (forall k, k ∈ ks -> 0 <= leaf_pfn (split_pte p (s, k)) < page_count) ->
  exists f, set_pt_memory_types st p s ks = (p <| split_pte := f |>, true) /\
    forall sk, f sk =
      let e := split_pte p sk in
      if bool_decide (fst sk = s /\ snd sk ∈ ks)
      then e <| memory_type := mtrr_type st (leaf_pfn e) |> else e.
Proof.
  revert p. induction ks as [| k ks IH]; intros p Hks.
  { exists (split_pte p). split; [by destruct p |]. intros sk. rewrite bool_decide_false; [done |].
    intros [_ E%not_elem_of_nil]. done. }
  cbn [set_pt_memory_types]. set (e := split_pte p (s, k)).
  assert (0 <= leaf_pfn e < page_count) as He by (apply Hks; by left).
  rewrite (shl_frame _ 12) by lia. change (2 ^ 12) with 0x1000. unfold page_count in He.
  rewrite range_single_page by (first [apply Z.mod_mul | idtac]; lia). cbn [negb].
  set (p1 := p <| split_pte := _ |>).
  assert (forall sk, split_pte p1 sk = if decide ((s, k) = sk)
    then e <| memory_type := mtrr_type st (leaf_pfn e) |> else split_pte p sk) as Hp1 by done.
  destruct (IH p1) as (f & E & Hf).
  { intros k' Hk'. rewrite Hp1. destruct (decide _); [done | apply Hks; by right]. }
  exists f. rewrite E. split; [done |]. intros sk. rewrite Hf, Hp1. cbv zeta.
  destruct (decide ((s, k) = sk)) as [<- | Hne]; cbn [fst snd].
  - rewrite (bool_decide_true (s = s /\ k ∈ k :: ks)) by (split; [done | by left]).
    fold e. destruct (bool_decide _); [by destruct e | done].
  - assert (bool_decide (fst sk = s /\ snd sk ∈ k :: ks) =
            bool_decide (fst sk = s /\ snd sk ∈ ks)) as ->; [| done].
    apply bool_decide_ext. split; intros [E1 E2]; split; try done; [| by right].
    apply elem_of_cons in E2 as [E2 |]; [| done]. exfalso. apply Hne.
    destruct sk; cbn in *. congruence.
Qed.

(** A page of the map under construction: identity, all permissions, and the
    type of the MTRRs unless the split tables ran out. *)
Definition page_ready (st : mtrr_state) (p : ept_pages) (n : Z) : Prop :=
  exists e, page_entry p n = Some e /\ leaf_pfn e = n /\
    read_access e = true /\ write_access e = true /\ execute_access e = true /\
    (memory_type e = mtrr_type st n \/ split_pte_used p = ept_split_pte_count).

Definition within (dom : Z * Z -> Prop) (ij : Z * Z) : Prop := is_pde ij /\ dom ij.

Record built (st : mtrr_state) (dom : Z * Z -> Prop) (p : ept_pages) : Prop := {
  built_wf : ept_wf_on (within dom) p;
  built_hooks : hooks p = [];
  built_pages : forall n, 0 <= n < page_count -> dom (pd_of n) -> page_ready st p n
}.

Definition add_pde (dom : Z * Z -> Prop) (ij : Z * Z) : Z * Z -> Prop :=
  fun ij' => ij' = ij \/ dom ij'.

(** [p'] is [p] with the large page [e] in a directory entry. *)
Record large_at (p : ept_pages) (ij : Z * Z) (e : ept_leaf) (p' : ept_pages) : Prop := {
  large_pde : forall ij', pde p' ij' = if decide (ij = ij') then pde_large e else pde p ij';
  large_split_pte : split_pte p' = split_pte p;
  large_pfns : split_pte_pfns p' = split_pte_pfns p;
  large_used : split_pte_used p' = split_pte_used p;
  large_hooks : hooks p' = hooks p
}.

Lemma large_at_wf dom p ij e p' :
  ept_wf_on (within dom) p -> large_at p ij e p' -> leaf_pfn e = fst ij * 512 + snd ij ->
  ept_wf_on (within (add_pde dom ij)) p'.
Proof.
  intros Hwf [Hpde Hsp Hf Hu Hh] Hl.
  assert (forall ij' t, within (add_pde dom ij) ij' -> pde p' ij' = pde_table t ->
    within dom ij' /\ pde p ij' = pde_table t) as Hback.
  { intros ij' t [Hr Hd]. rewrite Hpde. destruct (decide (ij = ij')); [done |].
    destruct Hd as [-> | Hd]; done. }
  split; rewrite ?Hf, ?Hu; try apply Hwf.
  - intros ij' e' [Hr Hd]. rewrite Hpde. destruct (decide (ij = ij')) as [<- |].
    + by intros [= <-].
    + destruct Hd as [-> | Hd]; [done |]. by apply (wf_large _ _ Hwf).
  - intros ij' t Hd Ht. destruct (Hback _ _ Hd Ht). by apply (wf_table _ _ Hwf ij').
  - intros i1 i2 t Hd1 Hd2 Ht1 Ht2. destruct (Hback _ _ Hd1 Ht1), (Hback _ _ Hd2 Ht2).
    by apply (wf_own _ _ Hwf _ _ t).
Qed.

(** The entries of the new page, and of the others. *)
Lemma large_at_entry p ij e p' n :
  large_at p ij e p' -> leaf_pfn e = fst ij * 512 + snd ij ->
  page_entry p' n = if decide (ij = pd_of n) then Some (e <| leaf_pfn := n |>) else page_entry p n.
Proof.
  intros [Hpde Hsp Hf Hu Hh] Hl. unfold page_entry, table_of. rewrite Hpde, Hsp, Hf.
  destruct (decide (ij = pd_of n)) as [-> |]; [| done].
  rewrite Hl. by rewrite <- (frame_split n).
Qed.

Lemma large_at_built st dom p ij e p' :
  built st dom p -> large_at p ij e p' -> leaf_pfn e = fst ij * 512 + snd ij ->
  read_access e = true -> write_access e = true -> execute_access e = true ->
  (forall n, 0 <= n < page_count -> pd_of n = ij -> memory_type e = mtrr_type st n \/
     split_pte_used p = ept_split_pte_count) ->
  built st (add_pde dom ij) p'.
Proof.
  intros [Hwf Hh Hp] Hla Hl Hr Hw Hx Ht. split.
  - by eapply large_at_wf.
  - by rewrite (large_hooks _ _ _ _ Hla).
  - intros n Hn Hd. unfold page_ready. rewrite (large_at_entry _ _ _ _ n Hla Hl).
    rewrite (large_used _ _ _ _ Hla).
    destruct (decide (ij = pd_of n)) as [E |]; [| destruct Hd as [E | Hd]; [congruence | by apply Hp]].
    eexists. split; [done |]. do 4 (split; [done |]). cbn. by apply Ht.
Qed.

(** Typing the entries of a fresh table. *)
Lemma built_table st dom p ij e p1 p2 s :
  built st dom p -> is_pde ij -> ~ dom ij -> large_at p ij e p1 ->
  leaf_pfn e = fst ij * 512 + snd ij ->
  read_access e = true -> write_access e = true -> execute_access e = true ->
  split_pde p1 ij = (p2, Some s) ->
  exists p', set_pt_memory_types st p2 s (seqZ 0 512) = (p', true) /\
    built st (add_pde dom ij) p' /\ pml4e p' = pml4e p2 /\ pdpte p' = pdpte p2.
Proof.
  intros [Hwf Hh Hp] Hij Hnd Hla Hl Hr Hw Hx Es.
  pose proof (large_at_wf _ _ _ _ _ Hwf Hla Hl) as Hwf1.
  destruct (split_pde_ok (within (add_pde dom ij)) p1 ij p2 s)
    as (Hs & Hu & Hh2 & Hf & Hpde & Hwf2 & He2); [by intros ? [] | done | by split; [| left] | done |].
  pose proof (wf_used _ _ Hwf1) as Hu1. pose proof (wf_used _ _ Hwf2) as Hu2.
  assert (table_of p2 (split_pte_pfns p2 s) = Some s) as Hto by (apply (table_of_pfn _ _ Hwf2); lia).
  assert (forall n, pd_of n = ij ->
    split_pte p2 (s, n mod 512) = e <| leaf_pfn := n |>) as Hent.
  { intros n Hn. assert (page_entry p2 n = Some (e <| leaf_pfn := n |>)) as E.
    { rewrite He2 by (rewrite Hn; split; [done | by left]).
      rewrite (large_at_entry _ _ _ _ n Hla Hl). by rewrite decide_True. }
    revert E. unfold page_entry. rewrite Hpde, Hn. unfold insert, fn_insert.
    rewrite decide_True by done. cbn [table_pfn]. rewrite <- Hf, Hto. by intros [= ->]. }
  destruct (set_pt_memory_types_ok st p2 s (seqZ 0 512)) as (f & E & Hfs).
  { intros k Hk%elem_of_seqZ. destruct (pd_of_pde ij k Hij ltac:(lia)) as (Hpd & Hm & Hrng).
    rewrite <- Hm, (Hent _ Hpd). done. }
  exists (p2 <| split_pte := f |>). rewrite E. split; [done |]. split; [| done]. split.
  - by apply wf_split_pte.
  - cbn. rewrite Hh2. by rewrite (large_hooks _ _ _ _ Hla).
  - intros n Hn Hd. unfold page_ready. cbn [split_pte_used]. 
    destruct (decide (ij = pd_of n)) as [En | Hne].
    + exists (e <| leaf_pfn := n |> <| memory_type := mtrr_type st n |>).
      split; [| do 4 (split; [done |]); by left].
      unfold page_entry, table_of. cbn [pde split_pte_pfns split_pte set setter].
      change (pde (p2 <| split_pte := f |>)) with (pde p2).
      rewrite Hpde, <- En. unfold insert, fn_insert. rewrite decide_True by done.
      cbn [table_pfn]. rewrite <- Hf. unfold table_of in Hto. 
      change (split_pte_pfns (p2 <| split_pte := f |>)) with (split_pte_pfns p2). rewrite Hto.
      change (split_pte (p2 <| split_pte := f |>)) with f. rewrite Hfs. cbv zeta.
      rewrite (Hent n) by done. cbn [fst snd]. rewrite bool_decide_true; [done |].
      split; [done |]. apply elem_of_seqZ. pose proof (Z.mod_pos_bound n 512). lia.
    + destruct Hd as [Hd | Hd]; [congruence |].
      destruct (Hp n Hn Hd) as (e' & He' & Hl' & Hr' & Hw' & Hx' & Ht').
      assert (page_entry p2 n = Some e') as He2'.
      { rewrite He2 by (split; [by apply pd_of_range | by right]).
        rewrite (large_at_entry _ _ _ _ n Hla Hl). by rewrite decide_False. }
      exists e'. split; [| do 4 (split; [done |])].
      * revert He2'. unfold page_entry, table_of.
        change (pde (p2 <| split_pte := f |>)) with (pde p2).
        change (split_pte_pfns (p2 <| split_pte := f |>)) with (split_pte_pfns p2).
        change (split_pte (p2 <| split_pte := f |>)) with f.
        destruct (pde p2 (pd_of n)) as [| t] eqn:Epn; [done |].
        assert (within (add_pde dom ij) (pd_of n)) as Hwi by (split; [by apply pd_of_range | by right]).
        destruct (pde_split_table _ _ Hwf2 _ _ Hwi Epn) as (s' & _ & Et & Hto').
        unfold table_of in Hto'. rewrite Hto', Hfs. cbv zeta.
        rewrite bool_decide_false; [done |]. cbn [fst]. intros [-> _]. apply Hne.
        apply (wf_own _ _ Hwf2 _ _ t); [by split; [| left] | done | | done].
        rewrite Hpde. unfold insert, fn_insert. rewrite decide_True by done. by rewrite Et, Hf.
      * destruct Ht' as [|Hused]; [by left |]. right. cbn.
        pose proof (large_used _ _ _ _ Hla). lia.
Qed.

Lemma initialize_pde_ok st dom p ij :
  built st dom p -> is_pde ij -> ~ dom ij ->
  exists p', initialize_pde st p ij = (p', true) /\ built st (add_pde dom ij) p' /\
    pml4e p' = pml4e p /\ pdpte p' = pdpte p.
Proof.
  intros Hb Hij Hnd. unfold initialize_pde. set (e := zero_leaf <| read_access := true |>
    <| write_access := true |> <| execute_access := true |>
    <| leaf_pfn := Z.shiftl (fst ij) 9 + snd ij |>).
  assert (leaf_pfn e = fst ij * 512 + snd ij) as Hl.
  { cbn. rewrite Z.shiftl_mul_pow2 by lia. done. }
  assert (0 <= leaf_pfn e < 2 ^ 18) as Hlr by (destruct Hij; lia).
  set (p1 := p <| pde := <[ij := pde_large e]> (pde p) |>).
  assert (large_at p ij e p1) as Hla1 by done.
  unfold type_large_page. rewrite shl_frame by (unfold page_count; lia).
  replace (leaf_pfn e * 2 ^ 21) with (leaf_pfn e * 512 * 0x1000) by lia.
  change 0x200000 with (512 * 0x1000).
  destruct (get_mtrr_range_memory_type _ _ _) as [type uniform] eqn:Er.
  assert (forall type', (forall n, 0 <= n < page_count -> pd_of n = ij ->
      wrap 3 type' = mtrr_type st n \/ split_pte_used p = ept_split_pte_count) ->
    built st (add_pde dom ij) (set_pde_type p1 ij e type')) as Hset.
  { intros type' Ht. apply (large_at_built st dom p ij (e <| memory_type := wrap 3 type' |>));
      try done. split; try done. intros ij'. cbn. unfold insert, fn_insert. by case_decide. }
  destruct uniform.
  - eexists. split; [done |]. split; [| done]. apply Hset. intros n Hn Hpd. left. unfold mtrr_type.
    f_equal. symmetry. pose proof (frame_split n) as Hs. rewrite Hpd, <- Hl in Hs.
    pose proof (Z.mod_pos_bound n 512).
    rewrite <- (range_uniform st (leaf_pfn e * 512 * 0x1000) 512 type) with (k := n mod 512);
      [f_equal; lia | apply Z.mod_mul; lia | lia | lia | lia | done | lia].
  - destruct (split_pde p1 ij) as [p2 [s |]] eqn:Es.
    + destruct (built_table st dom p ij e p1 p2 s) as (p' & -> & Hb' & H1 & H2); try done.
      exists p'. split; [done |]. split; [done |].
      revert Es. unfold split_pde. cbn [pde]. destruct (pde p1 ij); [| done].
      destruct (_ <=? _); [done |]. intros [= <- _]. by rewrite H1, H2.
    + apply split_pde_none in Es as E2. subst p2. eexists. split; [done |]. split; [| done].
      apply Hset. intros n _ _. right. pose proof (wf_used _ _ (built_wf _ _ _ Hb)).
      revert Es. unfold split_pde.
      assert (pde p1 ij = pde_large e) as ->
        by (cbn; unfold insert, fn_insert; by rewrite decide_True).
      destruct (Z.leb_spec ept_split_pte_count (split_pte_used p1)) as [Hle |]; [| done].
      intros _. change (split_pte_used p1) with (split_pte_used p) in Hle. lia.
Qed.

Lemma built_dom st dom dom' p :
  (forall ij, is_pde ij -> dom' ij -> dom ij) -> built st dom p -> built st dom' p.
Proof.
  intros Hd [Hwf Hh Hp].
  assert (forall ij, within dom' ij -> within dom ij) as Hw by (intros ij [? ?]; split; auto).
  split; [| done |].
  - split; try apply Hwf; intros *; intros.
    + apply (wf_large _ _ Hwf); auto.
    + apply (wf_table _ _ Hwf ij); auto.
    + apply (wf_own _ _ Hwf _ _ t); auto.
  - intros n Hn Hdn. apply Hp; [done |]. apply Hd; [by apply pd_of_range | done].
Qed.

Lemma built_pdpte st dom p f : built st dom p -> built st dom (p <| pdpte := f |>).
Proof. intros [[] Hh Hp]. by split. Qed.

(** Loops over all directory entries below a bound. *)
Lemma initialize_row st (i m n : Z) p :
  0 <= i < 512 -> 0 <= m -> 0 <= n -> m + n <= 512 ->
  built st (fun ij => fst ij < i \/ (fst ij = i /\ snd ij < m)) p ->
  exists p', for_each (fun p j => initialize_pde st p (i, j)) p (seqZ m n) = (p', true) /\
    built st (fun ij => fst ij < i \/ (fst ij = i /\ snd ij < m + n)) p' /\
    pml4e p' = pml4e p /\ pdpte p' = pdpte p.
Proof.
  intros Hi Hm Hn. revert m p Hm. pattern n. apply natlike_ind; [| | exact Hn].
  - intros m p Hm _ Hb. rewrite seqZ_nil, Z.add_0_r by lia. by exists p.
  - clear n Hn. intros n Hn IH m p Hm Hle Hb. rewrite seqZ_cons by lia. cbn [for_each].
    destruct (initialize_pde_ok _ _ _ (i, m) Hb) as (p1 & -> & Hb1 & E1 & E2).
    { split; cbn; lia. } { cbn. lia. }
    rewrite Z.pred_succ. destruct (IH (Z.succ m) p1) as (p' & -> & Hb' & E3 & E4); [lia | lia | |].
    { eapply built_dom; [| exact Hb1]. intros [a b] _. unfold add_pde. cbn. intros Hab.
      destruct (decide ((a, b) = (i, m))) as [|Hne]; [by left | right].
      destruct (decide (a = i)) as [-> |]; [| lia]. destruct (decide (b = m)) as [-> |]; [done | lia]. }
    exists p'. split; [done |]. split; [| split; congruence].
    eapply built_dom; [| exact Hb']. intros [a b] _. cbn. lia.
Qed.

(** The table entries of the upper levels after [n] rows. *)
Definition upper_levels (pfn_of_pd : Z -> Z) (n : Z) (p : ept_pages) : Prop :=
  forall i, 0 <= i < n -> pdpte p i = mk_ept_table true true true false (to_pfn (pfn_of_pd i)).

Lemma initialize_rows pfn_of_pd st (m n : Z) p :
  0 <= m -> 0 <= n -> m + n <= 512 ->
  built st (fun ij => fst ij < m) p -> upper_levels pfn_of_pd m p ->
  exists p', for_each (initialize_pdpte pfn_of_pd st) p (seqZ m n) = (p', true) /\
    built st (fun ij => fst ij < m + n) p' /\
    pml4e p' = pml4e p /\ upper_levels pfn_of_pd (m + n) p'.
Proof.
  intros Hm Hn. revert m p Hm. pattern n. apply natlike_ind; [| | exact Hn].
  - intros m p Hm _ Hb Hu. rewrite seqZ_nil, Z.add_0_r by lia. by exists p.
  - clear n Hn. intros n Hn IH m p Hm Hle Hb Hu. rewrite seqZ_cons by lia. cbn [for_each].
    unfold initialize_pdpte at 1. set (p1 := p <| pdpte := _ |>).
    destruct (initialize_row st m 0 512 p1) as (p2 & -> & Hb2 & E1 & E2); [lia .. | |].
    { apply built_pdpte. eapply built_dom; [| exact Hb]. intros [a b] [_ Hb0]. cbn in *. lia. }
    rewrite Z.pred_succ. destruct (IH (Z.succ m) p2) as (p' & -> & Hb' & E3 & Hu'); [lia | lia | | |].
    { eapply built_dom; [| exact Hb2]. intros [a b] [_ Hb0]. cbn in *. lia. }
    { intros i Hi. rewrite E2. cbn. unfold insert, fn_insert.
      destruct (decide (m = i)) as [-> |]; [done |]. apply Hu. lia. }
    exists p'. split; [done |]. split; [| split].
    + eapply built_dom; [| exact Hb']. intros [a b] _. cbn. lia.
    + by rewrite E3, E1.
    + by replace (m + Z.succ n) with (Z.succ m + n) by lia.
Qed.

Lemma add_hook_ok p orig hook :
  ept_inv p -> 0 <= orig ->
  exists p' ok, add_hook p orig hook = Ok (p', ok) /\ ept_inv p' /\
  if ok
  then hooks p' = hooks p ++
         [mk_hook (u32 orig) (u32 hook) (hook_pte (List.last (hooks p') (mk_hook 0 0 None)))] /\
       hooked (hooks p') (u32 orig) /\
       forall n, 0 <= n < page_count ->
         page_entry p' n = (if n =? u32 orig then with_execute false else id) <$> page_entry p n
  else hooks p' = hooks p /\ forall n, 0 <= n < page_count -> page_entry p' n = page_entry p n.
Proof.
  intros Hinv Hor. unfold add_hook.
  destruct (Z.leb_spec ept_max_hook_count (hook_count p)).
  { exists p, false. split; [done |]. split; [done |]. done. }
  destruct (get_ept_pte p (shl64 orig 12) true) as [p1 r] eqn:Eg.
  destruct (get_ept_pte_ok _ _ _ _ _ (inv_wf _ Hinv) Eg) as (Hwf1 & Hh1 & He1 & Hr).
  pose proof (get_ept_pte_mono _ _ _ _ _ (inv_wf _ Hinv) Eg) as Hmono.
  destruct r as [ptr |]; [| subst p1; exists p, false; done].
  destruct Hr as (Hn & t & Ht & ->). set (n0 := frame_of (shl64 orig 12)) in *.
  pose proof (frame_of_shl orig Hor Hn) as Hu. fold n0 in Hu. rewrite Hu.
  set (new := mk_hook n0 (u32 hook) (Some (ptr_of t n0))).
  set (p2 := p1 <| hooks := hooks p1 ++ [new] |>).
  assert (ept_wf p2) as Hwf2 by (by apply wf_hooks).
  destruct (update_pte_ok p2 n0 t (fun e => e <| execute_access := false |>) Hwf2 Hn Ht)
    as (p3 & -> & Hwf3 & Hpde & Hh3 & He3). cbn [obind].
  assert (forall n, 0 <= n < page_count -> page_entry p2 n = page_entry p n) as He2 by done.
  assert (hooks p3 = hooks p ++ [new]) as Hhooks by (rewrite Hh3; cbn; by rewrite Hh1).
  exists p3, true. split; [done |]. split.
  - split; [done | | | |].
    + rewrite Hhooks. apply Forall_app. split.
      * apply (list.Forall_impl (hook_ok p)); [apply (inv_hooks _ Hinv) |]. intros h Hh.
        eapply hook_ok_mono; [| exact Hh]. intros ij t' _ Ht'. rewrite Hpde. by apply Hmono.
      * constructor; [| constructor]. split; [cbn; unfold page_count in *; lia |].
        intros q [= <-]. split; [done |]. exists t.
        rewrite Hpde. done.
    + intros n e Hrng. rewrite He3, !He2 by done. rewrite Hhooks. intros Hpe.
      assert (exists e0, page_entry p n = Some e0 /\ leaf_pfn e0 = leaf_pfn e) as (e0 & Hpe0 & Hl).
      { destruct (Z.eqb_spec n n0) as [E |]; [| by exists e].
        rewrite <- E in Hpe. destruct (page_entry p n) as [e0 |]; [| done].
        injection Hpe as <-. by exists e0. }
      destruct (inv_identity _ Hinv n e0 Hrng Hpe0) as [E | (h & Hin & Ha & Ho & Hf)]; [left; lia |].
      right. exists h. rewrite in_app_iff. repeat split; [by left | done | done | lia].
    + unfold hook_count in *. rewrite Hhooks, length_app. cbn. lia.
    + rewrite Hhooks. apply Forall_app. split; [apply (inv_frames _ Hinv) |]. constructor; [| done]. apply wrap_range. lia.
  - split; [| split].
    + rewrite Hhooks, List.last_last. done.
    + rewrite Hhooks. exists new. rewrite in_app_iff. repeat split; [right; by left | done].
    + intros n Hrng. rewrite He3, !He2 by done. destruct (Z.eqb_spec n n0) as [-> |]; [done |].
      by destruct (page_entry p n).
Qed.

(** ** Properties *)

(** Splitting a large page is invisible to the guest: every guest frame has
    the same entry before and after (the frame it maps to, permissions, memory
    type and the other attributes), and the tables stay well formed. *)
Theorem split_pde_preserves_translation p ij p' s :
  ept_wf p -> is_pde ij -> split_pde p ij = (p', Some s) ->
  ept_wf p' /\ split_pte_used p' = split_pte_used p + 1 /\
  forall n, 0 <= n < page_count -> page_entry p' n = page_entry p n.
Proof.
  intros Hwf Hij Hs. destruct (split_pde_ok is_pde _ _ _ _ (fun _ h => h) Hwf Hij Hs)
    as (-> & Hu & _ & _ & _ & Hwf' & He).
  do 2 (split; [done |]). intros n Hn. by apply He, pd_of_range.
Qed.

(** (C4) Automatic tracing partitions execution between the two tables. On
    success the target table executes exactly the frames behind the mapped pages
    of the target range, and the normal table everything it did before except
    those; on failure both execute everything. No frame changes what it maps to. *)
Theorem enable_auto_trace_partition g normal target va size normal' target' ok :
  ept_wf normal -> ept_wf target ->
  enable_auto_trace g normal target va size = Ok (normal', target', ok) ->
  ept_wf normal' /\ ept_wf target' /\
  forall n, 0 <= n < page_count ->
    pfn_at normal' n = pfn_at normal n /\ pfn_at target' n = pfn_at target n /\
    let in_target := is_target (target_frames g (page_aligned_va va)
                                  (Z.to_nat (trace_page_count va size))) n in
    if ok
    then exec_at target' n = Some in_target /\
         exec_at normal' n = if in_target then Some false else exec_at normal n
    else exec_at normal' n = Some true /\ exec_at target' n = Some true.
Proof.
  intros Hwn Hwt H. unfold enable_auto_trace in H.
  destruct (set_all_permissions_ok target true true false Hwt) as (Hwt1 & _ & Het1).
  destruct (auto_trace_loop_ok _ _ _ _ _ _ _ _ Hwn Hwt1 H) as (Hwn' & Hwt' & _ & _ & Hall).
  do 2 (split; [done |]). intros n Hn. specialize (Hall n Hn). cbv zeta in Hall.
  destruct Hall as (-> & Hp & Hok). unfold pfn_at, exec_at in *. rewrite Het1 in * by done.
  destruct (page_entry_is_some _ _ Hwn Hn) as [e He], (page_entry_is_some _ _ Hwt Hn) as [e' He'].
  rewrite He, He' in *. do 2 (split; [done |]). cbv zeta. destruct ok.
  - destruct Hok as [-> ->]. by destruct (is_target _ n).
  - destruct Hok as (e1 & e1' & -> & ->). done.
Qed.

(** Adding a hook never fails half-way on one table: it makes exactly the
    hooked frame non-executable and records the hook as active on it, or it
    changes no frame; either way the hooks keep pointing to the entries they
    hook and every other frame keeps mapping to itself. *)
Theorem add_hook_spec p orig hook :
  ept_inv p -> 0 <= orig ->
  exists p' ok, add_hook p orig hook = Ok (p', ok) /\ ept_inv p' /\
  if ok
  then hooks p' = hooks p ++
         [mk_hook (u32 orig) (u32 hook) (hook_pte (List.last (hooks p') (mk_hook 0 0 None)))] /\
       hooked (hooks p') (u32 orig) /\
       forall n, 0 <= n < page_count ->
         page_entry p' n = (if n =? u32 orig then with_execute false else id) <$> page_entry p n
  else hooks p' = hooks p /\ forall n, 0 <= n < page_count -> page_entry p' n = page_entry p n.
Proof. apply add_hook_ok. Qed.

(** Suspending the hooks restores every frame to itself with full
    permissions on the hooked ones and leaves no hook active; resuming then
    reactivates every hook that was active. Neither can go wrong. *)
Theorem deactivate_reactivate p :
  ept_inv p ->
  exists p1 p2, deactivate_hooks p = Ok p1 /\ reactivate_hooks p1 = Ok p2 /\
    ept_inv p1 /\ ept_inv p2 /\
    hooks p1 = map deactivated (hooks p) /\
    (forall n, 0 <= n < page_count -> pfn_at p1 n = Some n /\
       exec_at p1 n = if existsb (active_on n) (hooks p) then Some true else exec_at p n) /\
    Forall2 resumed (hooks p) (hooks p2).
Proof.
  intros Hinv. pose proof Hinv as [Hwf Hhs Hid Hcnt Hfr].
  destruct (deactivate_ok p Hinv) as (p1 & E1 & Hwf1 & Hpde1 & Hh1 & He1).
  destruct (resume_ok p p1 Hhs Hcnt Hfr) as (p2 & E2 & Hinv2 & Hres & _);
    [by rewrite Hpde1 | done | done | intros n Hn; by apply He1 |].
  destruct (deactivate_inv p Hinv) as (p1' & E1' & Hinv1). rewrite E1 in E1'. injection E1' as <-.
  exists p1, p2. do 5 (split; [done |]). split; [| done].
  - intros n Hn. destruct (He1 n Hn) as [Hp He]. split; [done |]. unfold exec_at. rewrite He.
    destruct (page_entry_is_some _ _ Hwf Hn) as [e ->]. by destruct (existsb _ _).
Qed.

Lemma initialize_ept_ok pfn_of_split pfn_of_pd pfn_of_pdpte st :
  (forall s, 0 <= s < ept_split_pte_count -> to_pfn (pfn_of_split s) = pfn_of_split s) ->
  (forall s s', 0 <= s < ept_split_pte_count -> 0 <= s' < ept_split_pte_count ->
     pfn_of_split s = pfn_of_split s' -> s = s') ->
  let p := initialize_ept pfn_of_split pfn_of_pd pfn_of_pdpte st in
  ept_inv p /\ hooks p = [] /\
  pml4e p = mk_ept_table true true true false (to_pfn pfn_of_pdpte) /\
  upper_levels pfn_of_pd ept_pd_count p /\
  forall n, 0 <= n < page_count -> page_ready st p n.
Proof.
  intros Hfit Hinj p. unfold p, initialize_ept. set (p0 := zero_pages <| split_pte_pfns := _ |>
    <| pml4e := _ |>).
  assert (forall s, 0 <= s < ept_split_pte_count -> split_pte_pfns p0 s = pfn_of_split s) as Hp0.
  { intros s Hs. cbn. zcases. done. }
  destruct (initialize_rows pfn_of_pd st 0 512 p0) as (p' & E & [Hwf Hh Hp] & Hm & Hu); [lia .. | | |].
  { split; [| done |].
    - split; try (intros *; unfold within, is_pde; lia).
      + cbn. unfold ept_split_pte_count. lia.
      + intros s Hs. rewrite Hp0 by done. by apply Hfit.
      + intros s s' Hs Hs'. rewrite !Hp0 by done. by apply Hinj.
    - intros n Hn Hd. pose proof (pd_of_range n Hn) as [? ?]. lia. }
  { intros i Hi. lia. }
  unfold ept_pd_count in *. rewrite E. cbn [fst].
  assert (forall n, 0 <= n < page_count -> page_ready st p' n) as Hready.
  { intros n Hn. apply Hp; [done |]. destruct (pd_of_range n Hn). lia. }
  assert (ept_wf p') as Hwf'.
  { destruct Hwf. unfold within in *. split; try done.
    - intros ij e Hd. apply wf_large0. split; [done |]. destruct Hd. lia.
    - intros ij t Hd. apply wf_table0. split; [done |]. destruct Hd. lia.
    - intros ij ij' t Hd Hd'. apply wf_own0; (split; [done |]); destruct Hd, Hd'; lia. }
  split; [| done]. split; [done | by rewrite Hh | | |].
  - intros n e Hn He. left. destruct (Hready n Hn) as (e' & He' & Hl & _). congruence.
  - unfold hook_count. rewrite Hh. cbn. unfold ept_max_hook_count. lia.
  - by rewrite Hh.
Qed.

(** The initial map: the loops run to the end, the two upper levels are fully
    permissive and point to the directories, and every frame of the 512 GB maps
    to itself with all permissions and the memory type the MTRRs give it; only
    when all 256 split tables are in use can a frame have the conservative type of
    its 2 MB page instead. No hook is installed. *)
Theorem initialize_ept_spec pfn_of_split pfn_of_pd pfn_of_pdpte st :
  (forall s, 0 <= s < ept_split_pte_count -> to_pfn (pfn_of_split s) = pfn_of_split s) ->
  (forall s s', 0 <= s < ept_split_pte_count -> 0 <= s' < ept_split_pte_count ->
     pfn_of_split s = pfn_of_split s' -> s = s') ->
  let p := initialize_ept pfn_of_split pfn_of_pd pfn_of_pdpte st in
  ept_inv p /\ hooks p = [] /\
  pml4e p = mk_ept_table true true true false (to_pfn pfn_of_pdpte) /\
  upper_levels pfn_of_pd ept_pd_count p /\
  forall n, 0 <= n < page_count -> page_ready st p n.
Proof. apply initialize_ept_ok. Qed.
End ept.

(** ** Instances at concrete inputs *)

Definition identity_leaf (n : Z) : ept_leaf :=
  mk_leaf true true true 6 false false false false false false false false n.
(** The identity map of large write-back pages. *)
Definition identity_pages : ept_pages :=
  mk_ept_pages zero_table (fun _ => zero_table)
    (fun ij => pde_large (identity_leaf (fst ij * 512 + snd ij))) (fun _ => zero_leaf)
    (fun s => 0x1000 + s) 0 [].

Lemma to_pfn_sample s : 0 <= s < ept_split_pte_count -> to_pfn (0x1000 + s) = 0x1000 + s.
Proof. intros Hs. apply to_pfn_small. unfold page_count, ept_split_pte_count in *. lia. Qed.

Lemma identity_inv : ept_inv identity_pages.
Proof.
  split; [split | constructor | | | constructor]; try done.
  - apply to_pfn_sample.
  - intros s s' _ _. cbn. lia.
  - intros ij e _. cbn. by intros [= <-].
  - intros n e _. unfold page_entry. cbn [pde identity_pages]. intros [= <-]. left.
    cbn [leaf_pfn identity_leaf set setter]. symmetry. apply frame_split.
Qed.

Lemma split_pde_preserves_translation_witness :
  let p' := fst (split_pde identity_pages (1, 2)) in
  ept_wf p' /\ page_entry p' 0x40407 = Some (identity_leaf 0x40407).
Proof.
  destruct (split_pde_preserves_translation identity_pages (1, 2)
    (fst (split_pde identity_pages (1, 2))) 0) as (Hwf & _ & He);
    [apply identity_inv | split; cbn; lia | reflexivity |].
  split; [exact Hwf |]. rewrite He by (unfold page_count; lia). vm_compute. reflexivity.
Defined.

Lemma add_hook_spec_witness :
  exists p', add_hook identity_pages 0x123 0x456 = Ok (p', true) /\ ept_inv p' /\
    exec_at p' 0x123 = Some false /\ exec_at p' 0x124 = Some true.
Proof.
  destruct (add_hook_spec identity_pages 0x123 0x456) as (p' & ok & E & Hinv & H);
    [apply identity_inv | lia |].
  destruct ok.
  - exists p'. destruct H as (_ & _ & H). unfold exec_at.
    rewrite !H by (unfold page_count; lia). done.
  - exfalso. apply (f_equal (fun r => match r with Ok (_, b) => b | _ => true end)) in E.
    vm_compute in E. discriminate.
Defined.

Lemma deactivate_reactivate_witness :
  exists p p1 p2, add_hook identity_pages 0x123 0x456 = Ok (p, true) /\
    deactivate_hooks p = Ok p1 /\ reactivate_hooks p1 = Ok p2 /\
    exec_at p 0x123 = Some false /\ exec_at p1 0x123 = Some true /\ hooked (hooks p2) 0x123.
Proof.
  destruct (add_hook_ok identity_pages 0x123 0x456) as (p & ok & E & Hinv & H);
    [apply identity_inv | lia |].
  destruct ok.
  2: { exfalso. apply (f_equal (fun r => match r with Ok (_, b) => b | _ => true end)) in E.
       vm_compute in E. discriminate. }
  destruct H as (Hh & (h & Hin & Ha & Ho) & H).
  destruct (deactivate_reactivate p Hinv) as (p1 & p2 & E1 & E2 & _ & _ & _ & H1 & H2).
  exists p, p1, p2. do 3 (split; [done |]). split; [| split].
  - unfold exec_at. rewrite H by (unfold page_count; lia). done.
  - destruct (H1 0x123) as [_ ->]; [unfold page_count; lia |].
    replace (existsb _ _) with true; [done |]. symmetry. apply existsb_exists. exists h.
    split; [done |]. unfold active_on. destruct (hook_pte h); [by apply Z.eqb_eq | done].
  - apply list_elem_of_In, list_elem_of_lookup in Hin as [i Hi].
    destruct (Forall2_lookup_l _ _ _ _ _ H2 Hi) as (h2 & Hi2 & Ho2 & _ & Ha2).
    exists h2. split; [by eapply list_elem_of_In, list_elem_of_lookup_2 |].
    split; [by apply Ha2 | by rewrite Ho2].
Defined.

Lemma enable_auto_trace_partition_witness :
  exists n' t', enable_auto_trace (fun va => Ok va) identity_pages identity_pages 0x200800 0x1000
      = Ok (n', t', true) /\
    exec_at t' 0x201 = Some true /\ exec_at n' 0x201 = Some false /\
    exec_at t' 0x202 = Some false /\ exec_at n' 0x202 = Some true.
Proof.
  destruct (enable_auto_trace (fun va => Ok va) identity_pages identity_pages 0x200800 0x1000)
    as [[[n' t'] ok] | |] eqn:E.
  2, 3: exfalso; apply (f_equal is_ok_b) in E; vm_compute in E; discriminate.
  assert (ok = true) as ->.
  { apply (f_equal (fun r => match r with Ok (_, b) => b | _ => true end)) in E.
    vm_compute in E. destruct ok; [reflexivity | discriminate]. }
  destruct (enable_auto_trace_partition (fun va => Ok va) identity_pages identity_pages 0x200800
    0x1000 n' t' true (inv_wf _ identity_inv) (inv_wf _ identity_inv) E) as (_ & _ & H).
  exists n', t'. split; [done |].
  destruct (H 0x201) as (_ & _ & H1); [unfold page_count; lia |].
  destruct (H 0x202) as (_ & _ & H2); [unfold page_count; lia |].
  vm_compute in H1, H2. destruct H1, H2. done.
Defined.

Lemma initialize_ept_spec_witness :
  page_ready (sample_mtrrs sample_ranges)
    (initialize_ept (fun s => 0x1000 + s) (fun i => i) 7 (sample_mtrrs sample_ranges)) 0x80001.
Proof.
  destruct (initialize_ept_spec (fun s => 0x1000 + s) (fun i => i) 7 (sample_mtrrs sample_ranges))
    as (_ & _ & _ & _ & H).
  - apply to_pfn_sample.
  - intros s s' _ _. cbn. lia.
  - apply H. unfold page_count. lia.
Defined.
