(* ===== verification/EptUpdate.v ===== *)
(** * Refreshing the memory types: [update_ept_memory_types] of [revhv-km/ept.cpp]

    When the guest writes an MTRR, every large page and every entry of a split table
    gets the type of the new ranges, and large pages that are not uniform any more are
    split. Nothing but memory types changes for the guest. *)
From Stdlib Require Import ZArith Lia List Bool.
From stdpp Require Import base numbers list option functions.
From S2P Require Import Prelude Ia32 Memory Paging Mtrr Ept.

Section update.
Context {ia32 : Ia32} {mtrr_layout : MtrrLayout} `{!Ia32Ok ia32}.

(** ** Tables that differ in memory types *)

Definition with_type (t : Z) (e : ept_leaf) : ept_leaf := e <| memory_type := t |>.

(** [p'] is [p] with other memory types, and perhaps more split tables. *)
Record retyped (p p' : ept_pages) : Prop := {
  retyped_wf : ept_wf p';
  retyped_hooks : hooks p' = hooks p;
  retyped_tables : forall ij t, pde p ij = pde_table t -> pde p' ij = pde_table t;
  retyped_used : split_pte_used p <= split_pte_used p';
  retyped_pages : forall n, 0 <= n < page_count -> exists t, page_entry p' n = with_type t <$> page_entry p n
}.

Lemma with_type_twice t t' e : with_type t (with_type t' e) = with_type t e.
Proof. by destruct e. Qed.
Lemma with_type_same e : with_type (memory_type e) e = e.
Proof. by destruct e. Qed.

Lemma retyped_refl p : ept_wf p -> retyped p p.
Proof.
  intros Hwf. split; try done. intros n Hn. destruct (page_entry p n) as [e |] eqn:E.
  - exists (memory_type e). cbn. by rewrite with_type_same.
  - by exists 0.
Qed.

Lemma retyped_trans p1 p2 p3 : retyped p1 p2 -> retyped p2 p3 -> retyped p1 p3.
Proof.
  intros [W1 H1 T1 U1 P1] [W2 H2 T2 U2 P2]. split; [done | congruence | auto | lia |].
  intros n Hn. destruct (P1 n Hn) as [t1 E1], (P2 n Hn) as [t2 E2]. exists t2. rewrite E2, E1.
  destruct (page_entry p1 n); cbn; [by rewrite with_type_twice | done].
Qed.

(** What the invariant says of a table does not depend on the memory types. *)
Lemma retyped_inv p p' : retyped p p' -> ept_inv p -> ept_inv p'.
Proof.
  intros [Hwf Hh Ht Hu Hp]. apply same_map_inv. split; [done | done | done |].
  intros n Hn. destruct (Hp n Hn) as [t E]. unfold pfn_at. rewrite E. by destruct (page_entry p n).
Qed.

(** ** One step of the loops *)

Lemma set_pde_type_ok p ij e type :
  ept_wf p -> is_pde ij -> pde p ij = pde_large e -> retyped p (set_pde_type p ij e type).
Proof.
  intros Hwf Hij He. pose proof (wf_large _ _ Hwf _ _ Hij He) as Hl.
  assert (forall ij', pde (set_pde_type p ij e type) ij' = if decide (ij = ij') then pde_large (with_type (wrap 3 type) e) else pde p ij') as Hpde.
  { intros ij'. cbn. unfold insert, fn_insert. by case_decide. }
  assert (forall ij' t, pde (set_pde_type p ij e type) ij' = pde_table t <-> pde p ij' = pde_table t) as Htab.
  { intros ij' t. rewrite Hpde. case_decide as E; [subst ij'; rewrite He; done | done]. }
  split; [split; cbn [split_pte_used set_pde_type split_pte_pfns set] |..]; try (apply Hwf || done).
  - intros ij' e' Hd. rewrite Hpde. case_decide as E; [subst ij' | by apply (wf_large _ _ Hwf)]. by intros [= <-].
  - intros ij' t Hd Ht%Htab. by apply (wf_table _ _ Hwf ij').
  - intros i1 i2 t H1 H2 E1%Htab E2%Htab. by apply (wf_own _ _ Hwf _ _ t).
  - intros ij' t. by apply Htab.
  - intros n Hn. unfold page_entry. rewrite Hpde. change (table_of (set_pde_type p ij e type)) with (table_of p).
    change (split_pte (set_pde_type p ij e type)) with (split_pte p). case_decide as E.
    + exists (wrap 3 type). rewrite <- E, He. cbn. by destruct e.
    + destruct (retyped_refl p Hwf) as [_ _ _ _ H]. by apply (H n).
Qed.

Lemma type_large_page_ok st p ij e :
  ept_wf p -> is_pde ij -> pde p ij = pde_large e -> retyped p (fst (type_large_page st p ij e)).
Proof.
  intros Hwf Hij He. unfold type_large_page. destruct (get_mtrr_range_memory_type _ _ _) as [type uniform].
  destruct uniform; [by apply set_pde_type_ok |]. destruct (split_pde p ij) as [p1 [s |]] eqn:E.
  - destruct (split_pde_ok is_pde _ _ _ _ (fun _ h => h) Hwf Hij E) as (Hs & Hu & Hh & _ & Hpde & Hwf1 & Hent).
    split; cbn [fst]; [done | done | | lia |].
    + intros ij' t Ht. rewrite Hpde. unfold insert, fn_insert. case_decide as Ei; [congruence | done].
    + intros n Hn. rewrite Hent by (by apply pd_of_range). destruct (retyped_refl p Hwf) as [_ _ _ _ H]. by apply (H n).
  - apply split_pde_none in E as ->. by apply set_pde_type_ok.
Qed.

Lemma update_pde_ok st p ij : ept_wf p -> is_pde ij -> retyped p (update_pde st p ij).
Proof.
  intros Hwf Hij. unfold update_pde. destruct (pde p ij) as [e | t] eqn:E; [by apply type_large_page_ok | by apply retyped_refl].
Qed.

(** An entry of a split table that gets another type. *)
Lemma retype_pte p s k t :
  ept_wf p -> retyped p (p <| split_pte := <[(s, k) := with_type t (split_pte p (s, k))]> (split_pte p) |>).
Proof.
  intros Hwf. split; try done; [by apply wf_split_pte |]. intros n Hn. unfold page_entry, table_of.
  cbn [pde split_pte split_pte_pfns set setter].
  change (pde (p <| split_pte := _ |>)) with (pde p). change (split_pte_pfns (p <| split_pte := _ |>)) with (split_pte_pfns p).
  destruct (pde p (pd_of n)) as [e | tab]; [eexists; cbn; by rewrite with_type_same with (e := e <| leaf_pfn := _ |>) |].
  destruct (List.find _ _) as [s' |]; [| by exists 0]. cbn. unfold insert, fn_insert.
  destruct (decide ((s, k) = (s', n mod 512))) as [[= <- <-] |]; [by exists t |].
  exists (memory_type (split_pte p (s', n mod 512))). by rewrite with_type_same.
Qed.

Lemma set_pt_types_retyped st s ks p : ept_wf p -> retyped p (fst (set_pt_memory_types st p s ks)).
Proof.
  revert p. induction ks as [| k ks IH]; intros p Hwf; [by apply retyped_refl |]. cbn [set_pt_memory_types].
  destruct (get_mtrr_range_memory_type _ _ _) as [type uniform]. destruct uniform; cbn [negb]; [| by apply retyped_refl].
  pose proof (retype_pte p s k (wrap 3 type) Hwf) as H1. eapply retyped_trans; [exact H1 |]. apply IH, (retyped_wf _ _ H1).
Qed.

(** ** The loops *)

Lemma for_each_retyped {A} (body : ept_pages -> A -> ept_pages * bool) l p :
  (forall p a, In a l -> ept_wf p -> retyped p (fst (body p a))) -> ept_wf p -> retyped p (fst (for_each body p l)).
Proof.
  revert p. induction l as [| a l IH]; intros p Hb Hwf; [by apply retyped_refl |]. cbn [for_each].
  pose proof (Hb p a (or_introl eq_refl) Hwf) as H1. destruct (body p a) as [p1 [|]]; [| exact H1]. cbn [fst] in H1.
  eapply retyped_trans; [exact H1 |]. apply IH; [| apply (retyped_wf _ _ H1)]. intros p' a' Hin. apply Hb. by right.
Qed.

Lemma fold_retyped {A} (body : ept_pages -> A -> ept_pages) l p :
  (forall p a, In a l -> ept_wf p -> retyped p (body p a)) -> ept_wf p -> retyped p (fold_left body l p).
Proof.
  revert p. induction l as [| a l IH]; intros p Hb Hwf; [by apply retyped_refl |]. cbn [fold_left].
  pose proof (Hb p a (or_introl eq_refl) Hwf) as H1.
  eapply retyped_trans; [exact H1 |]. apply IH; [| apply (retyped_wf _ _ H1)]. intros p' a' Hin. apply Hb. by right.
Qed.

Lemma retyped_pdpte p f : ept_wf p -> retyped p (p <| pdpte := f |>).
Proof.
  intros Hwf. destruct (retyped_refl p Hwf) as [_ _ _ _ H]. split; try done. by destruct Hwf.
Qed.

Lemma update_pdpte_retyped pfn_of_pd st p i : 0 <= i < 512 -> ept_wf p -> retyped p (fst (update_pdpte pfn_of_pd st p i)).
Proof.
  intros Hi Hwf. unfold update_pdpte. set (p1 := p <| pdpte := _ |>).
  pose proof (retyped_pdpte p (<[i := mk_ept_table true true true (table_user_mode_execute (pdpte p i)) (to_pfn (pfn_of_pd i))]> (pdpte p)) Hwf) as H1. fold p1 in H1.
  eapply retyped_trans; [exact H1 |].
  assert (retyped p1 (fold_left (fun p j => update_pde st p (i, j)) (seqZ 0 512) p1)) as H2.
  { apply fold_retyped; [| apply (retyped_wf _ _ H1)]. intros p' j Hj. apply list_elem_of_In, elem_of_seqZ in Hj.
    intros Hwf'. apply update_pde_ok; [done |]. split; cbn; lia. }
  eapply retyped_trans; [exact H2 |]. apply for_each_retyped; [| apply (retyped_wf _ _ H2)].
  intros p' s _. apply set_pt_types_retyped.
Qed.

(** The refresh changes memory types only. *)
Lemma update_retyped pfn_of_pd st p : ept_wf p -> retyped p (update_ept_memory_types pfn_of_pd p st).
Proof.
  intros Hwf. apply for_each_retyped; [| done]. intros p' i Hi. apply list_elem_of_In, elem_of_seqZ in Hi.
  apply update_pdpte_retyped. unfold ept_pd_count in *. lia.
Qed.

(** ** Every memory type is refreshed *)

Section loops.
Context {A B S : Type} (I : S -> Prop) (D : B -> S -> Prop) (part : A -> B).

(** A loop whose every step does its part and undoes no other. *)
Lemma for_each_does (body : S -> A -> S * bool) l s :
  (forall s a, In a l -> I s -> exists s', body s a = (s', true) /\ I s' /\ D (part a) s' /\ forall b, D b s -> D b s') -> I s ->
  exists s', for_each body s l = (s', true) /\ I s' /\ (forall a, In a l -> D (part a) s') /\ forall b, D b s -> D b s'.
Proof.
  revert s. induction l as [| a l IH]; intros s Hb Hs; [by exists s |]. cbn [for_each].
  destruct (Hb s a (or_introl eq_refl) Hs) as (s1 & -> & H1 & D1 & K1).
  destruct (IH s1) as (s2 & -> & H2 & D2 & K2); [intros s' a' Hin; apply Hb; by right | done |].
  exists s2. split; [done |]. split; [done |]. split; [| auto]. intros a' [<- | Hin]; auto.
Qed.

Lemma fold_does (f : S -> A -> S) l s :
  (forall s a, In a l -> I s -> I (f s a) /\ D (part a) (f s a) /\ forall b, D b s -> D b (f s a)) -> I s ->
  I (fold_left f l s) /\ (forall a, In a l -> D (part a) (fold_left f l s)) /\ forall b, D b s -> D b (fold_left f l s).
Proof.
  revert s. induction l as [| a l IH]; intros s Hb Hs; [done |]. cbn [fold_left].
  destruct (Hb s a (or_introl eq_refl) Hs) as (H1 & D1 & K1).
  destruct (IH (f s a)) as (H2 & D2 & K2); [intros s' b Hin; apply Hb; by right | done |].
  split; [done |]. split; [| auto]. intros a' [<- | Hin]; auto.
Qed.
End loops.

(** The entries of the split tables map frames of the 512 GB: no hook leads out of them. *)
Definition ptes_in_range (p : ept_pages) : Prop :=
  forall s k, 0 <= s < split_pte_used p -> 0 <= k < 512 -> 0 <= leaf_pfn (split_pte p (s, k)) < page_count.

(** A directory entry, and a split table, with the types of [st]; a large page has
    the conservative type once there is no split table left. *)
Definition pde_typed (st : mtrr_state) (ij : Z * Z) (p : ept_pages) : Prop :=
  forall e, pde p ij = pde_large e ->
    (forall n, 0 <= n < page_count -> pd_of n = ij -> memory_type e = mtrr_type st n) \/ split_pte_used p = ept_split_pte_count.
Definition table_typed (st : mtrr_state) (s : Z) (p : ept_pages) : Prop :=
  forall k, 0 <= k < 512 -> memory_type (split_pte p (s, k)) = mtrr_type st (leaf_pfn (split_pte p (s, k))).

Definition sound (p : ept_pages) : Prop := ept_wf p /\ ptes_in_range p.

Lemma pde_typed_kept st ij p p' :
  ept_wf p -> retyped p p' -> pde p' ij = pde p ij -> pde_typed st ij p -> pde_typed st ij p'.
Proof.
  intros Hwf Hr E H e He. rewrite E in He. destruct (H e He) as [Ht | Hu]; [by left |]. right.
  pose proof (retyped_used _ _ Hr). pose proof (wf_used _ _ (retyped_wf _ _ Hr)). lia.
Qed.

Lemma typed_large st p ij e type :
  ept_wf p -> is_pde ij -> pde p ij = pde_large e ->
  (forall n, 0 <= n < page_count -> pd_of n = ij -> wrap 3 type = mtrr_type st n) \/ split_pte_used p = ept_split_pte_count ->
  pde_typed st ij (set_pde_type p ij e type).
Proof.
  intros Hwf Hij He Ht e' He'. cbn in He'. unfold insert, fn_insert in He'. rewrite decide_True in He' by done.
  by injection He' as <-.
Qed.

Lemma set_pde_other p ij e type ij' : ij' <> ij -> pde (set_pde_type p ij e type) ij' = pde p ij'.
Proof. intros Hne. cbn. unfold insert, fn_insert. by rewrite decide_False. Qed.

(** The step for a directory entry. *)
Lemma update_pde_types st p ij :
  sound p -> is_pde ij ->
  let p' := update_pde st p ij in
  sound p' /\ pde_typed st ij p' /\ forall ij', pde_typed st ij' p -> pde_typed st ij' p'.
Proof.
  intros [Hwf Hr] Hij. pose proof (update_pde_ok st p ij Hwf Hij) as Hret. cbv zeta.
  assert (forall ij', pde_typed st ij' p -> ij' = ij \/ pde (update_pde st p ij) ij' = pde p ij' -> pde_typed st ij (update_pde st p ij) ->
    pde_typed st ij' (update_pde st p ij)) as Hkeep.
  { intros ij' H [-> | E] Hd; [done |]. by apply (pde_typed_kept st ij' p). }
  revert Hret Hkeep. unfold update_pde. destruct (pde p ij) as [e | t] eqn:E.
  2: { intros _ _. split; [done |]. split; [| done]. intros e He. congruence. }
  unfold type_large_page. pose proof (wf_large _ _ Hwf _ _ Hij E) as Hl.
  assert (0 <= leaf_pfn e < 2 ^ 18) as Hlr by (destruct Hij; lia).
  rewrite shl_frame by (unfold page_count; lia).
  replace (leaf_pfn e * 2 ^ 21) with (leaf_pfn e * 512 * 0x1000) by lia. change 0x200000 with (512 * 0x1000).
  destruct (get_mtrr_range_memory_type _ _ _) as [type uniform] eqn:Er.
  assert (forall p', p' = set_pde_type p ij e type -> pde_typed st ij p' -> retyped p p' ->
    (forall ij', pde_typed st ij' p -> ij' = ij \/ pde p' ij' = pde p ij' -> pde_typed st ij p' -> pde_typed st ij' p') ->
    sound p' /\ pde_typed st ij p' /\ forall ij', pde_typed st ij' p -> pde_typed st ij' p') as Hset.
  { intros p' -> Ht Hret Hkeep. split; [split; [apply (retyped_wf _ _ Hret) | exact Hr] |]. split; [done |].
    intros ij' H. apply Hkeep; [done | | done]. destruct (decide (ij' = ij)); [by left | right; by apply set_pde_other]. }
  destruct uniform; cbn [fst].
  - intros Hret Hkeep. apply Hset; try done. apply typed_large; try done. left. intros n Hn Hpd.
    unfold mtrr_type. f_equal. symmetry. pose proof (frame_split n) as Hs. rewrite Hpd, <- Hl in Hs.
    pose proof (Z.mod_pos_bound n 512).
    rewrite <- (range_uniform st (leaf_pfn e * 512 * 0x1000) 512 type) with (k := n mod 512);
      [f_equal; lia | apply Z.mod_mul; lia | lia | lia | lia | done | lia].
  - destruct (split_pde p ij) as [p1 [s |]] eqn:Es; cbn [fst]; intros Hret Hkeep.
    + destruct (split_pde_ok is_pde _ _ _ _ (fun _ h => h) Hwf Hij Es) as (Hs & Hu & Hh & Hf & Hpde & Hwf1 & Hent).
      assert (forall ij', ij' <> ij -> pde p1 ij' = pde p ij') as Hother.
      { intros ij' Hne. rewrite Hpde. unfold insert, fn_insert. by rewrite decide_False. }
      assert (pde_typed st ij p1) as Hd.
      { intros e' He'. rewrite Hpde in He'. unfold insert, fn_insert in He'. by rewrite decide_True in He'. }
      split; [split; [done |] | split; [done |]].
      * intros s' k Hs' Hk. rewrite Hu in Hs'. revert Es. unfold split_pde. rewrite E. destruct (_ <=? _); [done |].
        intros [= <- _]. cbn. destruct (Z.eqb_spec s' (split_pte_used p)) as [-> |]; cbn [andb].
        -- rewrite (proj2 (in_table_true k)) by done. destruct (pd_of_pde ij k Hij Hk) as (_ & _ & Hrng).
           rewrite (inherit_eq e (fst ij) (snd ij) k) by (done || apply Hij). cbn. rewrite Hl. done.
        -- apply Hr; [lia | done].
      * intros ij' H. apply Hkeep; [done | | done]. destruct (decide (ij' = ij)); [by left | right; by apply Hother].
    + apply split_pde_none in Es as E1. subst p1. apply Hset; try done. apply typed_large; try done. right.
      revert Es. unfold split_pde. rewrite E. destruct (Z.leb_spec ept_split_pte_count (split_pte_used p)); [| done].
      intros _. pose proof (wf_used _ _ Hwf). lia.
Qed.

(** The step for a split table: all its entries get their type, and the loop goes on. *)
Lemma set_pt_types st p s :
  sound p -> 0 <= s < split_pte_used p -> exists p', set_pt_memory_types st p s (seqZ 0 512) = (p', true) /\
    sound p' /\ split_pte_used p' = split_pte_used p /\ pde p' = pde p /\ table_typed st s p' /\
    forall s', table_typed st s' p -> table_typed st s' p'.
Proof.
  intros [Hwf Hr] Hs. destruct (set_pt_memory_types_ok st p s (seqZ 0 512)) as (f & E & Hf).
  { intros k Hk%elem_of_seqZ. apply Hr; [done | lia]. }
  exists (p <| split_pte := f |>). split; [done |].
  assert (forall sk, leaf_pfn (f sk) = leaf_pfn (split_pte p sk)) as Hl by (intros sk; rewrite Hf; cbv zeta; by case_bool_decide).
  split; [split; [by apply wf_split_pte |] |].
  { intros s' k Hs' Hk. cbn. rewrite Hl. by apply Hr. }
  do 2 (split; [done |]). split.
  - intros k Hk. cbn. rewrite Hl, Hf. cbv zeta. rewrite bool_decide_true; [done |]. split; [done |]. apply elem_of_seqZ. cbn. lia.
  - intros s' H k Hk. cbn. rewrite Hl, Hf. cbv zeta. case_bool_decide; [done |]. by apply H.
Qed.

Lemma sound_pdpte p f : sound p -> sound (p <| pdpte := f |>).
Proof. intros [[] Hr]. split; [by split | exact Hr]. Qed.

(** The step for a row of the directory. *)
Lemma update_pdpte_types pfn_of_pd st p i :
  sound p -> 0 <= i < 512 -> exists p', update_pdpte pfn_of_pd st p i = (p', true) /\ sound p' /\
    (forall j, 0 <= j < 512 -> pde_typed st (i, j) p') /\ (forall ij, pde_typed st ij p -> pde_typed st ij p') /\
    forall s, 0 <= s < split_pte_used p' -> table_typed st s p'.
Proof.
  intros Hp Hi. unfold update_pdpte. set (p1 := p <| pdpte := _ |>).
  assert (sound p1) as Hp1 by (by apply sound_pdpte).
  destruct (fold_does sound (pde_typed st) (fun j => (i, j)) (fun p j => update_pde st p (i, j)) (seqZ 0 512) p1)
    as (Hp2 & Hd2 & Hk2); [| done |].
  { intros p' j Hj Hp'. apply list_elem_of_In, elem_of_seqZ in Hj. apply update_pde_types; [done | split; cbn; lia]. }
  set (p2 := fold_left _ _ p1) in *.
  destruct (for_each_does (fun p => sound p /\ split_pte_used p = split_pte_used p2 /\ pde p = pde p2) (table_typed st) id
    (fun p s => set_pt_memory_types st p s (seqZ 0 512)) (seqZ 0 (split_pte_used p2)) p2) as (p3 & E & (Hp3 & Hu3 & Hpde3) & Hd3 & _); [| done |].
  { intros p' s Hs (Hp' & Hu' & Hpde'). apply list_elem_of_In, elem_of_seqZ in Hs.
    destruct (set_pt_types st p' s Hp') as (p'' & E & H1 & H2 & H3 & H4 & H5); [lia |].
    exists p''. split; [exact E |]. split; [split; [done | split; congruence] |]. by split. }
  assert (forall ij, pde_typed st ij p2 -> pde_typed st ij p3) as Hk3.
  { intros ij H e He. rewrite Hpde3 in He. rewrite Hu3. by apply H. }
  exists p3. split; [exact E |]. split; [done |]. split; [| split].
  - intros j Hj. apply Hk3, Hd2, list_elem_of_In, elem_of_seqZ. lia.
  - intros ij H. apply Hk3, Hk2. exact H.
  - intros s Hs. apply (Hd3 s), list_elem_of_In, elem_of_seqZ. lia.
Qed.

Lemma update_rows pfn_of_pd st l p :
  (forall i, In i l -> 0 <= i < 512) -> sound p -> exists p', for_each (update_pdpte pfn_of_pd st) p l = (p', true) /\ sound p' /\
    (forall i j, In i l -> 0 <= j < 512 -> pde_typed st (i, j) p') /\ (forall ij, pde_typed st ij p -> pde_typed st ij p') /\
    (l = [] \/ forall s, 0 <= s < split_pte_used p' -> table_typed st s p').
Proof.
  revert p. induction l as [| i l IH]; intros p Hl Hp.
  { exists p. do 2 (split; [done |]). split; [intros i j [] |]. split; [done | by left]. }
  cbn [for_each]. destruct (update_pdpte_types pfn_of_pd st p i Hp) as (p1 & -> & Hp1 & Hd1 & Hk1 & Ht1); [apply Hl; by left |].
  destruct (IH p1) as (p2 & H & Hp2 & Hd2 & Hk2 & Ht2); [intros i' Hin; apply Hl; by right | done |].
  exists p2. do 2 (split; [done |]). split; [| split; [auto |]].
  - intros i' j [<- | Hin] Hj; [by apply Hk2, Hd1 | by apply Hd2].
  - right. destruct Ht2 as [-> | Ht2]; [| done]. by injection H as <-.
Qed.

Lemma update_types_ok pfn_of_pd p st :
  ept_inv p -> ptes_in_range p ->
  let p' := update_ept_memory_types pfn_of_pd p st in
  ept_inv p' /\ hooks p' = hooks p /\ ptes_in_range p' /\
  forall n, 0 <= n < page_count -> exists e t, page_entry p n = Some e /\ page_entry p' n = Some (with_type t e) /\
    (t = mtrr_type st (leaf_pfn e) \/ split_pte_used p' = ept_split_pte_count).
Proof.
  intros Hinv Hr p'. pose proof (inv_wf _ Hinv) as Hwf. pose proof (update_retyped pfn_of_pd st p Hwf) as Hret. fold p' in Hret.
  split; [by apply (retyped_inv p) |]. split; [apply Hret |].
  destruct (update_rows pfn_of_pd st (seqZ 0 512) p) as (p1 & E & [Hwf1 Hr1] & Hd & _ & Ht); [| done |].
  { intros i Hi. apply list_elem_of_In, elem_of_seqZ in Hi. lia. }
  assert (p' = p1) as Ep by (unfold p', update_ept_memory_types, ept_pd_count; by rewrite E).
  clearbody p'. subst p1. split; [done |]. intros n Hn. destruct (retyped_pages _ _ Hret n Hn) as [t Et].
  destruct (page_entry_is_some _ _ Hwf Hn) as [e He]. rewrite He in Et. exists e, t. do 2 (split; [done |]).
  pose proof (pd_of_range n Hn) as [Hi Hj]. revert Et. unfold page_entry.
  destruct (pde p' (pd_of n)) as [e' | tab] eqn:Epde.
  - intros [= _ _ _ <- _ _ _ _ _ _ _ _ <-].
    destruct (Hd (fst (pd_of n)) (snd (pd_of n))) with (e := e') as [H | H];
      [apply list_elem_of_In, elem_of_seqZ; lia | done | by destruct (pd_of n) | | by right].
    left. rewrite (H n Hn) by (by destruct (pd_of n)). f_equal.
    rewrite (wf_large _ _ Hwf1 _ _ (conj Hi Hj) Epde). apply frame_split.
  - destruct (pde_split_table _ _ Hwf1 _ _ (conj Hi Hj) Epde) as (s & Hs & _ & ->). intros [= Ee].
    destruct Ht as [Ht | Ht]; [apply (f_equal length) in Ht; by rewrite length_seqZ in Ht |].
    left. specialize (Ht s Hs (n mod 512) (Z.mod_pos_bound n 512 ltac:(lia))). rewrite Ee in Ht. by destruct e.
Qed.

(** ** Property *)

End update.

