(* ===== verification/Vmcs.v ===== *)
(** * The VMCS: [revhv-km/vmx.h], [vmx.cpp], [vmcs.cpp]

    The virtual-machine control structure of a core as a map from fields to
    values, the wrappers of [vmx.h] over it, and the routines that fill it in
    before the guest is launched. *)
From Stdlib Require Import ZArith Lia List Bool.
From stdpp Require Import base numbers list option functions.
From S2P Require Import Prelude Ia32 Memory.

(** ** Fields *)

(** The fields the code uses; their encodings are those of [ia32-doc]. *)
Inductive vmcs_field :=
  | VMCS_GUEST_CR0 | VMCS_GUEST_CR3 | VMCS_GUEST_CR4 | VMCS_GUEST_DR7 | VMCS_GUEST_RSP
  | VMCS_GUEST_RIP | VMCS_GUEST_RFLAGS | VMCS_GUEST_CS_SELECTOR | VMCS_GUEST_SS_SELECTOR
  | VMCS_GUEST_DS_SELECTOR | VMCS_GUEST_ES_SELECTOR | VMCS_GUEST_FS_SELECTOR
  | VMCS_GUEST_GS_SELECTOR | VMCS_GUEST_LDTR_SELECTOR | VMCS_GUEST_TR_SELECTOR
  | VMCS_GUEST_CS_BASE | VMCS_GUEST_SS_BASE | VMCS_GUEST_DS_BASE | VMCS_GUEST_ES_BASE
  | VMCS_GUEST_FS_BASE | VMCS_GUEST_GS_BASE | VMCS_GUEST_LDTR_BASE | VMCS_GUEST_TR_BASE
  | VMCS_GUEST_CS_LIMIT | VMCS_GUEST_SS_LIMIT | VMCS_GUEST_DS_LIMIT | VMCS_GUEST_ES_LIMIT
  | VMCS_GUEST_FS_LIMIT | VMCS_GUEST_GS_LIMIT | VMCS_GUEST_LDTR_LIMIT | VMCS_GUEST_TR_LIMIT
  | VMCS_GUEST_CS_ACCESS_RIGHTS | VMCS_GUEST_SS_ACCESS_RIGHTS | VMCS_GUEST_DS_ACCESS_RIGHTS
  | VMCS_GUEST_ES_ACCESS_RIGHTS | VMCS_GUEST_FS_ACCESS_RIGHTS | VMCS_GUEST_GS_ACCESS_RIGHTS
  | VMCS_GUEST_LDTR_ACCESS_RIGHTS | VMCS_GUEST_TR_ACCESS_RIGHTS | VMCS_GUEST_GDTR_BASE
  | VMCS_GUEST_GDTR_LIMIT | VMCS_GUEST_IDTR_BASE | VMCS_GUEST_IDTR_LIMIT | VMCS_GUEST_DEBUGCTL
  | VMCS_GUEST_SYSENTER_CS | VMCS_GUEST_SYSENTER_ESP | VMCS_GUEST_SYSENTER_EIP
  | VMCS_GUEST_PERF_GLOBAL_CTRL | VMCS_GUEST_PAT | VMCS_GUEST_EFER | VMCS_GUEST_ACTIVITY_STATE
  | VMCS_GUEST_INTERRUPTIBILITY_STATE | VMCS_GUEST_PENDING_DEBUG_EXCEPTIONS
  | VMCS_GUEST_VMCS_LINK_POINTER | VMCS_GUEST_VMX_PREEMPTION_TIMER_VALUE
  | VMCS_GUEST_PHYSICAL_ADDRESS | VMCS_HOST_CR0 | VMCS_HOST_CR3 | VMCS_HOST_CR4 | VMCS_HOST_RSP
  | VMCS_HOST_RIP | VMCS_HOST_CS_SELECTOR | VMCS_HOST_SS_SELECTOR | VMCS_HOST_DS_SELECTOR
  | VMCS_HOST_ES_SELECTOR | VMCS_HOST_FS_SELECTOR | VMCS_HOST_GS_SELECTOR | VMCS_HOST_TR_SELECTOR
  | VMCS_HOST_FS_BASE | VMCS_HOST_GS_BASE | VMCS_HOST_TR_BASE | VMCS_HOST_GDTR_BASE
  | VMCS_HOST_IDTR_BASE | VMCS_HOST_SYSENTER_CS | VMCS_HOST_SYSENTER_ESP | VMCS_HOST_SYSENTER_EIP
  | VMCS_HOST_PERF_GLOBAL_CTRL | VMCS_HOST_EFER | VMCS_HOST_PAT
  | VMCS_CTRL_PIN_BASED_VM_EXECUTION_CONTROLS | VMCS_CTRL_PROCESSOR_BASED_VM_EXECUTION_CONTROLS
  | VMCS_CTRL_SECONDARY_PROCESSOR_BASED_VM_EXECUTION_CONTROLS | VMCS_CTRL_PRIMARY_VMEXIT_CONTROLS
  | VMCS_CTRL_VMENTRY_CONTROLS | VMCS_CTRL_VMEXIT_MSR_STORE_COUNT
  | VMCS_CTRL_VMEXIT_MSR_STORE_ADDRESS | VMCS_CTRL_VMEXIT_MSR_LOAD_COUNT
  | VMCS_CTRL_VMEXIT_MSR_LOAD_ADDRESS | VMCS_CTRL_VMENTRY_MSR_LOAD_COUNT
  | VMCS_CTRL_VMENTRY_MSR_LOAD_ADDRESS | VMCS_CTRL_EXCEPTION_BITMAP
  | VMCS_CTRL_PAGEFAULT_ERROR_CODE_MASK | VMCS_CTRL_PAGEFAULT_ERROR_CODE_MATCH
  | VMCS_CTRL_TSC_OFFSET | VMCS_CTRL_CR4_GUEST_HOST_MASK | VMCS_CTRL_CR0_GUEST_HOST_MASK
  | VMCS_CTRL_CR4_READ_SHADOW | VMCS_CTRL_CR0_READ_SHADOW | VMCS_CTRL_CR3_TARGET_COUNT
  | VMCS_CTRL_CR3_TARGET_VALUE_0 | VMCS_CTRL_MSR_BITMAP_ADDRESS
  | VMCS_CTRL_VIRTUAL_PROCESSOR_IDENTIFIER | VMCS_CTRL_XSS_EXITING_BITMAP
  | VMCS_CTRL_VMENTRY_INTERRUPTION_INFORMATION_FIELD | VMCS_CTRL_VMENTRY_EXCEPTION_ERROR_CODE
  | VMCS_CTRL_VMENTRY_INSTRUCTION_LENGTH | VMCS_CTRL_EPT_POINTER | VMCS_EXIT_QUALIFICATION
  | VMCS_EXIT_REASON | VMCS_EXIT_GUEST_LINEAR_ADDRESS | VMCS_VMEXIT_INSTRUCTION_LENGTH
  | VMCS_VM_INSTRUCTION_ERROR.

(** An enumeration of the fields, for equality decision only. *)
Definition field_number (f : vmcs_field) : nat :=
  (match f with
    | VMCS_GUEST_CR0 => 0 | VMCS_GUEST_CR3 => 1 | VMCS_GUEST_CR4 => 2 | VMCS_GUEST_DR7 => 3
    | VMCS_GUEST_RSP => 4 | VMCS_GUEST_RIP => 5 | VMCS_GUEST_RFLAGS => 6
    | VMCS_GUEST_CS_SELECTOR => 7 | VMCS_GUEST_SS_SELECTOR => 8 | VMCS_GUEST_DS_SELECTOR => 9
    | VMCS_GUEST_ES_SELECTOR => 10 | VMCS_GUEST_FS_SELECTOR => 11 | VMCS_GUEST_GS_SELECTOR => 12
    | VMCS_GUEST_LDTR_SELECTOR => 13 | VMCS_GUEST_TR_SELECTOR => 14 | VMCS_GUEST_CS_BASE => 15
    | VMCS_GUEST_SS_BASE => 16 | VMCS_GUEST_DS_BASE => 17 | VMCS_GUEST_ES_BASE => 18
    | VMCS_GUEST_FS_BASE => 19 | VMCS_GUEST_GS_BASE => 20 | VMCS_GUEST_LDTR_BASE => 21
    | VMCS_GUEST_TR_BASE => 22 | VMCS_GUEST_CS_LIMIT => 23 | VMCS_GUEST_SS_LIMIT => 24
    | VMCS_GUEST_DS_LIMIT => 25 | VMCS_GUEST_ES_LIMIT => 26 | VMCS_GUEST_FS_LIMIT => 27
    | VMCS_GUEST_GS_LIMIT => 28 | VMCS_GUEST_LDTR_LIMIT => 29 | VMCS_GUEST_TR_LIMIT => 30
    | VMCS_GUEST_CS_ACCESS_RIGHTS => 31 | VMCS_GUEST_SS_ACCESS_RIGHTS => 32
    | VMCS_GUEST_DS_ACCESS_RIGHTS => 33 | VMCS_GUEST_ES_ACCESS_RIGHTS => 34
    | VMCS_GUEST_FS_ACCESS_RIGHTS => 35 | VMCS_GUEST_GS_ACCESS_RIGHTS => 36
    | VMCS_GUEST_LDTR_ACCESS_RIGHTS => 37 | VMCS_GUEST_TR_ACCESS_RIGHTS => 38
    | VMCS_GUEST_GDTR_BASE => 39 | VMCS_GUEST_GDTR_LIMIT => 40 | VMCS_GUEST_IDTR_BASE => 41
    | VMCS_GUEST_IDTR_LIMIT => 42 | VMCS_GUEST_DEBUGCTL => 43 | VMCS_GUEST_SYSENTER_CS => 44
    | VMCS_GUEST_SYSENTER_ESP => 45 | VMCS_GUEST_SYSENTER_EIP => 46
    | VMCS_GUEST_PERF_GLOBAL_CTRL => 47 | VMCS_GUEST_PAT => 48 | VMCS_GUEST_EFER => 49
    | VMCS_GUEST_ACTIVITY_STATE => 50 | VMCS_GUEST_INTERRUPTIBILITY_STATE => 51
    | VMCS_GUEST_PENDING_DEBUG_EXCEPTIONS => 52 | VMCS_GUEST_VMCS_LINK_POINTER => 53
    | VMCS_GUEST_VMX_PREEMPTION_TIMER_VALUE => 54 | VMCS_GUEST_PHYSICAL_ADDRESS => 55
    | VMCS_HOST_CR0 => 56 | VMCS_HOST_CR3 => 57 | VMCS_HOST_CR4 => 58 | VMCS_HOST_RSP => 59
    | VMCS_HOST_RIP => 60 | VMCS_HOST_CS_SELECTOR => 61 | VMCS_HOST_SS_SELECTOR => 62
    | VMCS_HOST_DS_SELECTOR => 63 | VMCS_HOST_ES_SELECTOR => 64 | VMCS_HOST_FS_SELECTOR => 65
    | VMCS_HOST_GS_SELECTOR => 66 | VMCS_HOST_TR_SELECTOR => 67 | VMCS_HOST_FS_BASE => 68
    | VMCS_HOST_GS_BASE => 69 | VMCS_HOST_TR_BASE => 70 | VMCS_HOST_GDTR_BASE => 71
    | VMCS_HOST_IDTR_BASE => 72 | VMCS_HOST_SYSENTER_CS => 73 | VMCS_HOST_SYSENTER_ESP => 74
    | VMCS_HOST_SYSENTER_EIP => 75 | VMCS_HOST_PERF_GLOBAL_CTRL => 76 | VMCS_HOST_EFER => 77
    | VMCS_HOST_PAT => 78 | VMCS_CTRL_PIN_BASED_VM_EXECUTION_CONTROLS => 79
    | VMCS_CTRL_PROCESSOR_BASED_VM_EXECUTION_CONTROLS => 80
    | VMCS_CTRL_SECONDARY_PROCESSOR_BASED_VM_EXECUTION_CONTROLS => 81
    | VMCS_CTRL_PRIMARY_VMEXIT_CONTROLS => 82 | VMCS_CTRL_VMENTRY_CONTROLS => 83
    | VMCS_CTRL_VMEXIT_MSR_STORE_COUNT => 84 | VMCS_CTRL_VMEXIT_MSR_STORE_ADDRESS => 85
    | VMCS_CTRL_VMEXIT_MSR_LOAD_COUNT => 86 | VMCS_CTRL_VMEXIT_MSR_LOAD_ADDRESS => 87
    | VMCS_CTRL_VMENTRY_MSR_LOAD_COUNT => 88 | VMCS_CTRL_VMENTRY_MSR_LOAD_ADDRESS => 89
    | VMCS_CTRL_EXCEPTION_BITMAP => 90 | VMCS_CTRL_PAGEFAULT_ERROR_CODE_MASK => 91
    | VMCS_CTRL_PAGEFAULT_ERROR_CODE_MATCH => 92 | VMCS_CTRL_TSC_OFFSET => 93
    | VMCS_CTRL_CR4_GUEST_HOST_MASK => 94 | VMCS_CTRL_CR0_GUEST_HOST_MASK => 95
    | VMCS_CTRL_CR4_READ_SHADOW => 96 | VMCS_CTRL_CR0_READ_SHADOW => 97
    | VMCS_CTRL_CR3_TARGET_COUNT => 98 | VMCS_CTRL_CR3_TARGET_VALUE_0 => 99
    | VMCS_CTRL_MSR_BITMAP_ADDRESS => 100 | VMCS_CTRL_VIRTUAL_PROCESSOR_IDENTIFIER => 101
    | VMCS_CTRL_XSS_EXITING_BITMAP => 102
    | VMCS_CTRL_VMENTRY_INTERRUPTION_INFORMATION_FIELD => 103
    | VMCS_CTRL_VMENTRY_EXCEPTION_ERROR_CODE => 104 | VMCS_CTRL_VMENTRY_INSTRUCTION_LENGTH => 105
    | VMCS_CTRL_EPT_POINTER => 106 | VMCS_EXIT_QUALIFICATION => 107 | VMCS_EXIT_REASON => 108
    | VMCS_EXIT_GUEST_LINEAR_ADDRESS => 109 | VMCS_VMEXIT_INSTRUCTION_LENGTH => 110
    | VMCS_VM_INSTRUCTION_ERROR => 111
  end)%nat.

Definition all_fields : list vmcs_field :=
  [VMCS_GUEST_CR0; VMCS_GUEST_CR3; VMCS_GUEST_CR4; VMCS_GUEST_DR7; VMCS_GUEST_RSP;
   VMCS_GUEST_RIP; VMCS_GUEST_RFLAGS; VMCS_GUEST_CS_SELECTOR; VMCS_GUEST_SS_SELECTOR;
   VMCS_GUEST_DS_SELECTOR; VMCS_GUEST_ES_SELECTOR; VMCS_GUEST_FS_SELECTOR;
   VMCS_GUEST_GS_SELECTOR; VMCS_GUEST_LDTR_SELECTOR; VMCS_GUEST_TR_SELECTOR; VMCS_GUEST_CS_BASE;
   VMCS_GUEST_SS_BASE; VMCS_GUEST_DS_BASE; VMCS_GUEST_ES_BASE; VMCS_GUEST_FS_BASE;
   VMCS_GUEST_GS_BASE; VMCS_GUEST_LDTR_BASE; VMCS_GUEST_TR_BASE; VMCS_GUEST_CS_LIMIT;
   VMCS_GUEST_SS_LIMIT; VMCS_GUEST_DS_LIMIT; VMCS_GUEST_ES_LIMIT; VMCS_GUEST_FS_LIMIT;
   VMCS_GUEST_GS_LIMIT; VMCS_GUEST_LDTR_LIMIT; VMCS_GUEST_TR_LIMIT; VMCS_GUEST_CS_ACCESS_RIGHTS;
   VMCS_GUEST_SS_ACCESS_RIGHTS; VMCS_GUEST_DS_ACCESS_RIGHTS; VMCS_GUEST_ES_ACCESS_RIGHTS;
   VMCS_GUEST_FS_ACCESS_RIGHTS; VMCS_GUEST_GS_ACCESS_RIGHTS; VMCS_GUEST_LDTR_ACCESS_RIGHTS;
   VMCS_GUEST_TR_ACCESS_RIGHTS; VMCS_GUEST_GDTR_BASE; VMCS_GUEST_GDTR_LIMIT;
   VMCS_GUEST_IDTR_BASE; VMCS_GUEST_IDTR_LIMIT; VMCS_GUEST_DEBUGCTL; VMCS_GUEST_SYSENTER_CS;
   VMCS_GUEST_SYSENTER_ESP; VMCS_GUEST_SYSENTER_EIP; VMCS_GUEST_PERF_GLOBAL_CTRL; VMCS_GUEST_PAT;
   VMCS_GUEST_EFER; VMCS_GUEST_ACTIVITY_STATE; VMCS_GUEST_INTERRUPTIBILITY_STATE;
   VMCS_GUEST_PENDING_DEBUG_EXCEPTIONS; VMCS_GUEST_VMCS_LINK_POINTER;
   VMCS_GUEST_VMX_PREEMPTION_TIMER_VALUE; VMCS_GUEST_PHYSICAL_ADDRESS; VMCS_HOST_CR0;
   VMCS_HOST_CR3; VMCS_HOST_CR4; VMCS_HOST_RSP; VMCS_HOST_RIP; VMCS_HOST_CS_SELECTOR;
   VMCS_HOST_SS_SELECTOR; VMCS_HOST_DS_SELECTOR; VMCS_HOST_ES_SELECTOR; VMCS_HOST_FS_SELECTOR;
   VMCS_HOST_GS_SELECTOR; VMCS_HOST_TR_SELECTOR; VMCS_HOST_FS_BASE; VMCS_HOST_GS_BASE;
   VMCS_HOST_TR_BASE; VMCS_HOST_GDTR_BASE; VMCS_HOST_IDTR_BASE; VMCS_HOST_SYSENTER_CS;
   VMCS_HOST_SYSENTER_ESP; VMCS_HOST_SYSENTER_EIP; VMCS_HOST_PERF_GLOBAL_CTRL; VMCS_HOST_EFER;
   VMCS_HOST_PAT; VMCS_CTRL_PIN_BASED_VM_EXECUTION_CONTROLS;
   VMCS_CTRL_PROCESSOR_BASED_VM_EXECUTION_CONTROLS;
   VMCS_CTRL_SECONDARY_PROCESSOR_BASED_VM_EXECUTION_CONTROLS; VMCS_CTRL_PRIMARY_VMEXIT_CONTROLS;
   VMCS_CTRL_VMENTRY_CONTROLS; VMCS_CTRL_VMEXIT_MSR_STORE_COUNT;
   VMCS_CTRL_VMEXIT_MSR_STORE_ADDRESS; VMCS_CTRL_VMEXIT_MSR_LOAD_COUNT;
   VMCS_CTRL_VMEXIT_MSR_LOAD_ADDRESS; VMCS_CTRL_VMENTRY_MSR_LOAD_COUNT;
   VMCS_CTRL_VMENTRY_MSR_LOAD_ADDRESS; VMCS_CTRL_EXCEPTION_BITMAP;
   VMCS_CTRL_PAGEFAULT_ERROR_CODE_MASK; VMCS_CTRL_PAGEFAULT_ERROR_CODE_MATCH;
   VMCS_CTRL_TSC_OFFSET; VMCS_CTRL_CR4_GUEST_HOST_MASK; VMCS_CTRL_CR0_GUEST_HOST_MASK;
   VMCS_CTRL_CR4_READ_SHADOW; VMCS_CTRL_CR0_READ_SHADOW; VMCS_CTRL_CR3_TARGET_COUNT;
   VMCS_CTRL_CR3_TARGET_VALUE_0; VMCS_CTRL_MSR_BITMAP_ADDRESS;
   VMCS_CTRL_VIRTUAL_PROCESSOR_IDENTIFIER; VMCS_CTRL_XSS_EXITING_BITMAP;
   VMCS_CTRL_VMENTRY_INTERRUPTION_INFORMATION_FIELD; VMCS_CTRL_VMENTRY_EXCEPTION_ERROR_CODE;
   VMCS_CTRL_VMENTRY_INSTRUCTION_LENGTH; VMCS_CTRL_EPT_POINTER; VMCS_EXIT_QUALIFICATION;
   VMCS_EXIT_REASON; VMCS_EXIT_GUEST_LINEAR_ADDRESS; VMCS_VMEXIT_INSTRUCTION_LENGTH;
   VMCS_VM_INSTRUCTION_ERROR].

Lemma field_number_inj f g : field_number f = field_number g -> f = g.
Proof.
  assert (forall f, nth (field_number f) all_fields VMCS_GUEST_CR0 = f) as H
    by (intros []; reflexivity).
  intros E. by rewrite <- (H f), <- (H g), E.
Qed.

#[export] Instance vmcs_field_eq_dec : EqDecision vmcs_field.
Proof.
  intros f g. destruct (decide (field_number f = field_number g)) as [E | E].
  - left. by apply field_number_inj.
  - right. by intros ->.
Defined.

Definition vmcs : Type := vmcs_field -> Z.

(** A word with the listed bits set: assignments of 1 to one-bit fields. *)
Definition bits_of (l : list Z) : Z := fold_left (fun w b => Z.lor w (Z.shiftl 1 b)) l 0.

(** One-bit fields of VMCS words. *)
Definition get_bit (w i : Z) : bool := Z.testbit w i.
Definition set_bit (w i : Z) (b : bool) : Z := set_bits w i 1 (b2z b).

Definition nmi_window_exiting_bit : Z := 22.

(** [vmentry_interrupt_information] with its four members. *)
Definition non_maskable_interrupt : Z := 2.
Definition hardware_exception : Z := 3.
Definition interrupt_information (vector type : Z) (deliver_error_code : bool) : Z :=
  set_bits (set_bits (set_bits (set_bits 0 0 8 vector) 8 3 type) 11 1 (b2z deliver_error_code))
    31 1 1.

Definition MAXULONG : Z := 0xFFFFFFFF.
Definition MAXULONG_PTR : Z := 0xFFFFFFFFFFFFFFFF.

Section vmx.
Context {ia32 : Ia32}.

(** The fields the processor supports, and the host's view of its MSRs. *)
Variable supported : vmcs_field -> bool.
Variable rdmsr : Z -> Z.

(** ** Wrappers of [vmx.h] *)

Definition vmx_vmwrite (m : vmcs) (f : vmcs_field) (v : Z) : vmcs * bool :=
  if supported f then (<[f := u64 v]> m, true) else (m, false).

(** A write whose result the code ignores. *)
Definition vmwrite (m : vmcs) (f : vmcs_field) (v : Z) : vmcs := fst (vmx_vmwrite m f v).

Definition vmx_vmread (m : vmcs) (f : vmcs_field) : Z := if supported f then m f else 0.

(** A sequence of writes that stops at the first failure. *)
Fixpoint vmwrites (m : vmcs) (l : list (vmcs_field * Z)) : vmcs * bool :=
  match l with
  | [] => (m, true)
  | (f, v) :: l =>
      match vmx_vmwrite m f v with
      | (m, true) => vmwrites m l
      | (m, false) => (m, false)
      end
  end.

Definition clear_vmentry_interrupt_info (m : vmcs) : vmcs :=
  vmwrite m VMCS_CTRL_VMENTRY_INTERRUPTION_INFORMATION_FIELD 0.

Definition get_guest_cpl (m : vmcs) : Z := bits (vmx_vmread m VMCS_GUEST_SS_ACCESS_RIGHTS) 5 2.

Definition get_guest_cr3 (m : vmcs) : Z := vmx_vmread m VMCS_GUEST_CR3.

(** The two overloads of [inject_hw_exception]. *)
Definition inject_hw_exception_code (m : vmcs) (vector error_code : Z) : vmcs :=
  let m := vmwrite m VMCS_CTRL_VMENTRY_EXCEPTION_ERROR_CODE (u16 error_code) in
  vmwrite m VMCS_CTRL_VMENTRY_INTERRUPTION_INFORMATION_FIELD
    (interrupt_information (u16 vector) hardware_exception true).
Definition inject_hw_exception (m : vmcs) (vector : Z) : vmcs :=
  vmwrite m VMCS_CTRL_VMENTRY_INTERRUPTION_INFORMATION_FIELD
    (interrupt_information (u16 vector) hardware_exception false).

Definition inject_nmi (m : vmcs) : vmcs :=
  vmwrite m VMCS_CTRL_VMENTRY_INTERRUPTION_INFORMATION_FIELD
    (interrupt_information nmi non_maskable_interrupt false).

Definition enable_preemption_timer (m : vmcs) (relation tsc_ticks : Z) : vmcs :=
  vmwrite m VMCS_GUEST_VMX_PREEMPTION_TIMER_VALUE (Z.max (u32 (Z.shiftr tsc_ticks relation)) 1).

Definition disable_preemption_timer (m : vmcs) : vmcs :=
  vmwrite m VMCS_GUEST_VMX_PREEMPTION_TIMER_VALUE MAXULONG.

Definition change_eptp (m : vmcs) (new_eptp : Z) : vmcs := vmwrite m VMCS_CTRL_EPT_POINTER new_eptp.

(** [(shadow & mask) | (guest & ~mask)]. *)
Definition effective_cr (mask shadow guest : Z) : Z :=
  Z.lor (Z.land shadow mask) (Z.land guest (not64 mask)).
Definition get_effective_guest_cr0 (m : vmcs) : Z :=
  effective_cr (vmx_vmread m VMCS_CTRL_CR0_GUEST_HOST_MASK) (vmx_vmread m VMCS_CTRL_CR0_READ_SHADOW)
    (vmx_vmread m VMCS_GUEST_CR0).
Definition get_effective_guest_cr4 (m : vmcs) : Z :=
  effective_cr (vmx_vmread m VMCS_CTRL_CR4_GUEST_HOST_MASK) (vmx_vmread m VMCS_CTRL_CR4_READ_SHADOW)
    (vmx_vmread m VMCS_GUEST_CR4).

(** ** Control fields of [vmcs.cpp] *)

(** [vmx_controls] of [IA32_VMX_BASIC]; the settings a capability MSR allows. *)
Definition vmx_controls (basic : Z) : bool := get_bit basic 55.
Definition allowed_0_settings (cap : Z) : Z := bits cap 0 32.
Definition allowed_1_settings (cap : Z) : Z := bits cap 32 32.

Definition constrain (value cap : Z) : Z :=
  Z.land (Z.lor value (allowed_0_settings cap)) (allowed_1_settings cap).

Definition write_control_field (m : vmcs) (value : Z) (field : vmcs_field) (cap_msr true_cap_msr : Z)
    : vmcs * bool :=
  let value :=
    if vmx_controls (rdmsr IA32_VMX_BASIC) then constrain value (rdmsr true_cap_msr)
    else constrain value (rdmsr cap_msr) in
  vmx_vmwrite m field value.

Definition set_nmi_window_exiting (m : vmcs) (b : bool) : vmcs :=
  let proc_based := vmx_vmread m VMCS_CTRL_PROCESSOR_BASED_VM_EXECUTION_CONTROLS in
  fst (write_control_field m (set_bit proc_based nmi_window_exiting_bit b)
         VMCS_CTRL_PROCESSOR_BASED_VM_EXECUTION_CONTROLS
         IA32_VMX_PROCBASED_CTLS IA32_VMX_TRUE_PROCBASED_CTLS).
Definition enable_nmi_window_exiting (m : vmcs) : vmcs := set_nmi_window_exiting m true.
Definition disable_nmi_window_exiting (m : vmcs) : vmcs := set_nmi_window_exiting m false.

Definition nmi_window_exiting (m : vmcs) : bool :=
  get_bit (vmx_vmread m VMCS_CTRL_PROCESSOR_BASED_VM_EXECUTION_CONTROLS) nmi_window_exiting_bit.

(** ** Lemmas *)

Lemma vmread_vmwrite_same m f v : supported f = true -> vmx_vmread (vmwrite m f v) f = u64 v.
Proof.
  intros Hs. unfold vmwrite, vmx_vmwrite, vmx_vmread. rewrite Hs. cbn.
  unfold insert, fn_insert. by rewrite decide_True.
Qed.

Lemma vmread_vmwrite_other m f g v : f <> g -> vmx_vmread (vmwrite m f v) g = vmx_vmread m g.
Proof.
  intros Hne. unfold vmwrite, vmx_vmwrite, vmx_vmread.
  destruct (supported f), (supported g); cbn; try done.
  unfold insert, fn_insert. by rewrite decide_False.
Qed.

Lemma vmx_vmwrite_ok m f v : supported f = true -> vmx_vmwrite m f v = (vmwrite m f v, true).
Proof. intros Hs. unfold vmwrite, vmx_vmwrite. by rewrite Hs. Qed.

(** With every field supported a sequence of writes runs to the end, and a field
    holds the last value written to it. *)
Lemma vmwrites_ok m l :
  (forall f, In f (map fst l) -> supported f = true) ->
  vmwrites m l = (fold_left (fun m fv => vmwrite m (fst fv) (snd fv)) l m, true).
Proof.
  revert m. induction l as [| [f v] l IH]; intros m Hs; [done |]. cbn [vmwrites fold_left fst snd].
  rewrite vmx_vmwrite_ok by (apply Hs; by left). apply IH. intros g Hg. apply Hs. by right.
Qed.

Lemma fold_vmwrite_other l m f :
  ~ In f (map fst l) ->
  vmx_vmread (fold_left (fun m fv => vmwrite m (fst fv) (snd fv)) l m) f = vmx_vmread m f.
Proof using Type.
  revert m. induction l as [| [g v] l IH]; intros m Hn; [done |]. cbn [fold_left fst snd].
  rewrite IH by (intros ?; apply Hn; by right).
  apply vmread_vmwrite_other. intros ->. apply Hn. by left.
Qed.

Lemma fold_vmwrite_in l m f v l1 l2 :
  supported f = true -> l = l1 ++ (f, v) :: l2 -> ~ In f (map fst l2) ->
  vmx_vmread (fold_left (fun m fv => vmwrite m (fst fv) (snd fv)) l m) f = u64 v.
Proof using Type.
  intros Hs -> Hn. rewrite fold_left_app. cbn [fold_left fst snd].
  rewrite fold_vmwrite_other by done. by apply vmread_vmwrite_same.
Qed.

(** A bit of a constrained control word. *)
Lemma testbit_constrain value cap i :
  0 <= i < 32 ->
  Z.testbit (constrain value cap) i =
    (Z.testbit value i || Z.testbit cap i) && Z.testbit cap (i + 32).
Proof.
  intros Hi. unfold constrain, allowed_0_settings, allowed_1_settings.
  rewrite Z.land_spec, Z.lor_spec, !testbit_bits by lia.
  destruct (Z.ltb_spec i 32); [| lia]. by rewrite Z.add_0_r.
Qed.

Lemma constrain_u64 value cap : is_u64 (constrain value cap).
Proof.
  unfold constrain. pose proof (bits_range cap 32 32 ltac:(lia)) as Hb. fold (allowed_1_settings cap) in Hb.
  set (a := allowed_1_settings cap) in *. set (v := Z.lor _ _). clearbody a v.
  assert (0 <= Z.land v a) by (apply Z.land_nonneg; lia).
  split; [done |]. apply bounded_of_testbit; [lia | done |].
  intros i Hi. rewrite Z.land_spec, (testbit_above 32 a i), andb_false_r by lia. done.
Qed.

(** ** Properties *)

(** The value a control field gets: independent of what it held before. *)
Definition control_value (value cap_msr true_cap_msr : Z) : Z :=
  constrain value (rdmsr (if vmx_controls (rdmsr IA32_VMX_BASIC) then true_cap_msr else cap_msr)).

Lemma write_control_field_eq m value field cap_msr true_cap_msr :
  write_control_field m value field cap_msr true_cap_msr =
  vmx_vmwrite m field (control_value value cap_msr true_cap_msr).
Proof. unfold write_control_field, control_value. by destruct (vmx_controls _). Qed.

(** (C40) Whatever is asked for, the control word written is one the processor
    accepts: every bit that must be 1 is set and every bit that must be 0 is
    clear, by the "true" capability MSR when the processor has it; and a bit
    that may take both values has the value asked for. *)
Theorem write_control_field_allowed m value field cap_msr true_cap_msr :
  supported field = true ->
  let cap := rdmsr (if vmx_controls (rdmsr IA32_VMX_BASIC) then true_cap_msr else cap_msr) in
  (forall i, 0 <= i < 32 -> Z.testbit cap i = true -> Z.testbit cap (i + 32) = true) ->
  exists m' v, write_control_field m value field cap_msr true_cap_msr = (m', true) /\
    vmx_vmread m' field = v /\
    forall i, 0 <= i < 32 ->
      (Z.testbit cap i = true -> Z.testbit v i = true) /\
      (Z.testbit cap (i + 32) = false -> Z.testbit v i = false) /\
      (Z.testbit cap i = false -> Z.testbit cap (i + 32) = true ->
         Z.testbit v i = Z.testbit value i).
Proof.
  intros Hs cap Hcap. rewrite write_control_field_eq. unfold control_value. fold cap.
  rewrite vmx_vmwrite_ok by done. eexists _, (constrain value cap). split; [done |].
  rewrite vmread_vmwrite_same by done.
  split; [apply wrap_small, constrain_u64 |].
  intros i Hi. rewrite testbit_constrain by done. specialize (Hcap i Hi).
  destruct (Z.testbit cap i), (Z.testbit cap (i + 32)), (Z.testbit value i); cbn; try tauto.
  all: repeat split; intros; try done; tauto.
Qed.
End vmx.

(** ** An instance at a concrete input *)

(** A processor with "true" controls whose pin-based capability word requires
    bits 1, 2 and 4 and allows 0, 3, 5 and 6 as well. *)
Lemma write_control_field_allowed_witness :
  let rdmsr a := if a =? 0x480 then Z.shiftl 1 55
                 else if a =? 0x48D then Z.shiftl 0x7F 32 + 0x16 else 0 in
  exists m, write_control_field (fun _ => true) rdmsr (fun _ => 0) 0x168
      VMCS_CTRL_PIN_BASED_VM_EXECUTION_CONTROLS 0x481 0x48D = (m, true) /\
    Z.testbit (vmx_vmread (fun _ => true) m VMCS_CTRL_PIN_BASED_VM_EXECUTION_CONTROLS) 6 = true /\
    Z.testbit (vmx_vmread (fun _ => true) m VMCS_CTRL_PIN_BASED_VM_EXECUTION_CONTROLS) 8 = false.
Proof.
  intros rdmsr.
  destruct (write_control_field_allowed (fun _ => true) rdmsr (fun _ => 0) 0x168
    VMCS_CTRL_PIN_BASED_VM_EXECUTION_CONTROLS 0x481 0x48D) as (m & v & E & Hv & Hb).
  - reflexivity.
  - change (rdmsr _) with (Z.shiftl 0x7F 32 + 0x16). intros i Hi.
    assert (Forall (fun i => Z.testbit (Z.shiftl 0x7F 32 + 0x16) i = true ->
      Z.testbit (Z.shiftl 0x7F 32 + 0x16) (i + 32) = true) (seqZ 0 32)) as H.
    { apply (bool_decide_unpack _). vm_compute. exact I. }
    rewrite list.Forall_forall in H. apply H. apply elem_of_seqZ. lia.
  - exists m. split; [exact E |]. rewrite Hv.
    split; [destruct (Hb 6) as (_ & _ & H); [lia |] | destruct (Hb 8) as (_ & H & _); [lia |]].
    + rewrite H; reflexivity.
    + apply H. reflexivity.
Defined.
