(* ===== verification/Segments.v ===== *)
(** * Descriptor tables: [revhv-km/gdt.cpp], [gdt.h], [idt.cpp], [utils.inl]

    The host's global descriptor table, task state segment and interrupt
    descriptor table, and the decoding of segment descriptors that fills in the
    guest's segment state. *)
From Stdlib Require Import ZArith Lia List Bool.
From stdpp Require Import base numbers list option functions.
From S2P Require Import Prelude Ia32 Memory.

(** ** Encodings of the architecture *)

Definition SEGMENT_DESCRIPTOR_TYPE_SYSTEM : Z := 0.
Definition SEGMENT_DESCRIPTOR_TYPE_CODE_OR_DATA : Z := 1.
Definition SEGMENT_DESCRIPTOR_TYPE_CODE_EXECUTE_READ_ACCESSED : Z := 11.
Definition SEGMENT_DESCRIPTOR_TYPE_DATA_READ_WRITE : Z := 2.
Definition SEGMENT_DESCRIPTOR_TYPE_TSS_AVAILABLE : Z := 9.
Definition SEGMENT_DESCRIPTOR_TYPE_INTERRUPT_GATE : Z := 14.
Definition SEGMENT_DESCRIPTOR_TYPE_TRAP_GATE : Z := 15.
Definition sizeof_task_state_segment_64 : Z := 104.

(** Fields of a selector and of the two words of a descriptor. *)
Definition selector_index (sel : Z) : Z := bits sel 3 13.
Definition selector_of_index (i : Z) : Z := set_bits 0 3 13 i.

Definition descriptor_base_low (d : Z) : Z := bits d 16 16.
Definition descriptor_base_middle (d : Z) : Z := bits d 32 8.
Definition descriptor_segment_type (d : Z) : Z := bits d 40 4.
Definition descriptor_type (d : Z) : Z := bits d 44 1.
Definition descriptor_dpl (d : Z) : Z := bits d 45 2.
Definition descriptor_present (d : Z) : Z := bits d 47 1.
Definition descriptor_system (d : Z) : Z := bits d 52 1.
Definition descriptor_long_mode (d : Z) : Z := bits d 53 1.
Definition descriptor_default_big (d : Z) : Z := bits d 54 1.
Definition descriptor_granularity (d : Z) : Z := bits d 55 1.
Definition descriptor_base_high (d : Z) : Z := bits d 56 8.
Definition descriptor_base_upper (d' : Z) : Z := bits d' 0 32.

(** ** Decoding: [utils::segment] *)

(** [gdt_base] is the base address in the GDT register. *)
Definition base_address (m : mem) (gdt_base selector : Z) : Z :=
  if selector_index selector =? 0 then 0 else
  let descriptor := gdt_base +64 selector_index selector * 8 in
  let d := read64 m descriptor in
  let low := Z.lor (Z.lor (Z.shiftl (descriptor_base_high d) 24)
                          (Z.shiftl (descriptor_base_middle d) 16)) (descriptor_base_low d) in
  if descriptor_type d =? SEGMENT_DESCRIPTOR_TYPE_SYSTEM
  then Z.lor (Z.shiftl (descriptor_base_upper (read64 m (descriptor +64 8))) 32) low
  else low.

(** The flags of the returned [vmx_segment_access_rights]. *)
Definition access_rights (m : mem) (gdt_base selector : Z) : Z :=
  let d := read64 m (gdt_base +64 selector_index selector * 8) in
  let r := set_bits 0 0 4 (descriptor_segment_type d) in
  let r := set_bits r 4 1 (descriptor_type d) in
  let r := set_bits r 5 2 (descriptor_dpl d) in
  let r := set_bits r 7 1 (descriptor_present d) in
  let r := set_bits r 12 1 (descriptor_system d) in
  let r := set_bits r 13 1 (descriptor_long_mode d) in
  let r := set_bits r 14 1 (descriptor_default_big d) in
  let r := set_bits r 15 1 (descriptor_granularity d) in
  set_bits r 16 1 (b2z (selector_index selector =? 0)).

(** ** The host's GDT and TSS *)

Definition host_cs : Z := selector_of_index 1.
Definition host_ss : Z := selector_of_index 2.
Definition host_tr : Z := selector_of_index 3.
Definition host_descriptor_count : Z := 5.

Record task_state_segment := mk_tss {
  ist1 : Z; ist2 : Z; ist3 : Z;
  io_map_base : Z
}.

(** The members not listed are cleared. *)
Definition initialize_tss (stack1 stack2 stack3 ist_size : Z) : task_state_segment :=
  mk_tss (stack1 +64 ist_size) (stack2 +64 ist_size) (stack3 +64 ist_size) 0xFFFF.

(** [descriptor->long_mode = 1; present = 1; ...] on the cleared entries. *)
Definition host_cs_descriptor : Z :=
  set_bits (set_bits (set_bits (set_bits 0 53 1 1) 47 1 1)
    44 1 SEGMENT_DESCRIPTOR_TYPE_CODE_OR_DATA)
    40 4 SEGMENT_DESCRIPTOR_TYPE_CODE_EXECUTE_READ_ACCESSED.
Definition host_ss_descriptor : Z :=
  set_bits (set_bits (set_bits 0 47 1 1) 44 1 SEGMENT_DESCRIPTOR_TYPE_CODE_OR_DATA)
    40 4 SEGMENT_DESCRIPTOR_TYPE_DATA_READ_WRITE.
(** The first word of the TSS descriptor; the second holds the upper base. *)
Definition host_tr_descriptor (tss : Z) : Z :=
  let d := set_bits 0 47 1 1 in
  let d := set_bits d 44 1 SEGMENT_DESCRIPTOR_TYPE_SYSTEM in
  let d := set_bits d 40 4 SEGMENT_DESCRIPTOR_TYPE_TSS_AVAILABLE in
  let d := set_bits d 16 16 (Z.land tss 0xFFFF) in
  let d := set_bits d 32 8 (Z.land (Z.shiftr tss 16) 0xFF) in
  let d := set_bits d 56 8 (Z.land (Z.shiftr tss 24) 0xFF) in
  let tss_limit := u16 (sizeof_task_state_segment_64 - 1) in
  let d := set_bits d 0 16 (Z.land tss_limit 0xFFFF) in
  set_bits d 48 4 (Z.land (Z.shiftr tss_limit 16) 0xF).
Definition host_tr_descriptor_upper (tss : Z) : Z := set_bits 0 0 32 (Z.shiftr tss 32).

Definition initialize_gdt (m : mem) (gdt tss : Z) : mem :=
  let m := store m gdt (repeat 0 (Z.to_nat (host_descriptor_count * 8))) in
  let m := write64 m (gdt + selector_index host_cs * 8) host_cs_descriptor in
  let m := write64 m (gdt + selector_index host_ss * 8) host_ss_descriptor in
  let m := write64 m (gdt + selector_index host_tr * 8) (host_tr_descriptor tss) in
  write64 m (gdt + selector_index host_tr * 8 + 8) (host_tr_descriptor_upper tss).

(** ** The host's IDT *)

Definition idt_gate_count : Z := 256.

Record interrupt_gate := mk_gate {
  offset_low : Z; offset_middle : Z; offset_high : Z;
  interrupt_stack_table : Z;
  gate_type : Z;
  gate_present : bool;
  gate_selector : Z;
  gate_dpl : Z
}.
Definition zero_gate : interrupt_gate := mk_gate 0 0 0 0 0 false 0 0.

Definition ist_index_nmi : Z := 1.
Definition ist_index_df : Z := 2.
Definition ist_index_mc : Z := 3.

Definition define_gate (idt : Z -> interrupt_gate) (interrupt_number handler ist_index : Z)
    (trap_gate : bool) : Z -> interrupt_gate :=
  <[interrupt_number := mk_gate
      (Z.land handler 0xFFFF) (Z.land (Z.shiftr handler 16) 0xFFFF) (u32 (Z.shiftr handler 32))
      (wrap 3 ist_index)
      (if trap_gate then SEGMENT_DESCRIPTOR_TYPE_TRAP_GATE
       else SEGMENT_DESCRIPTOR_TYPE_INTERRUPT_GATE)
      true host_cs 0]> idt.

(** The arguments of the calls of [define_gate]: vector, stack, trap gate. *)
Definition gates : list (Z * Z * bool) :=
  [(divide_error, 0, false); (debug, 0, true); (nmi, ist_index_nmi, false); (breakpoint, 0, true);
   (overflow, 0, false); (bound_range_exceeded, 0, false); (invalid_opcode, 0, false);
   (device_not_available, 0, false); (double_fault, ist_index_df, false); (invalid_tss, 0, false);
   (segment_not_present, 0, false); (stack_segment_fault, 0, false);
   (general_protection, 0, false); (page_fault, 0, false);
   (x87_floating_point_error, 0, false); (alignment_check, 0, false);
   (machine_check, ist_index_mc, false); (simd_floating_point_error, 0, false);
   (virtualization_exception, 0, false); (control_protection, 0, false)].

(** [isr v] is the address of the stub [isr_v]. *)
Definition initialize_idt (isr : Z -> Z) : Z -> interrupt_gate :=
  fold_left (fun idt '(v, ist, trap) => define_gate idt v (isr v) ist trap) gates
    (fun _ => zero_gate).

(** ** Specification *)

(** Where the processor continues on an interrupt through a gate. *)
Definition gate_offset (g : interrupt_gate) : Z :=
  Z.lor (Z.lor (offset_low g) (Z.shiftl (offset_middle g) 16)) (Z.shiftl (offset_high g) 32).

(** The stack switch the architecture asks for: a stack of its own for the
    exceptions that can hit anywhere. *)
Definition expected_ist (v : Z) : Z :=
  if v =? nmi then 1 else if v =? double_fault then 2 else if v =? machine_check then 3 else 0.

(** The exceptions below 22 that exist. *)
Definition has_gate (v : Z) : bool :=
  (0 <=? v) && (v <? 22) && negb (v =? 9) && negb (v =? 15).

(** ** Lemmas *)

Lemma gate_offset_split h :
  is_u64 h ->
  Z.lor (Z.lor (Z.land h 0xFFFF) (Z.shiftl (Z.land (Z.shiftr h 16) 0xFFFF) 16))
    (Z.shiftl (u32 (Z.shiftr h 32)) 32) = h.
Proof.
  intros Hh. change 0xFFFF with (Z.ones 16). apply Z.bits_inj'. intros i Hi.
  rewrite !Z.lor_spec, !Z.shiftl_spec, !Z.land_spec, testbit_ones_nonneg by lia.
  destruct (Z.ltb_spec i 16).
  - rewrite !(Z.testbit_neg_r _ (i - _)) by lia. by rewrite andb_true_r, !orb_false_r.
  - rewrite andb_false_r, orb_false_l, testbit_ones_nonneg, Z.shiftr_spec by lia.
    replace (i - 16 + 16) with i by lia.
    destruct (Z.ltb_spec (i - 16) 16).
    + rewrite (Z.testbit_neg_r _ (i - 32)) by lia. by rewrite andb_true_r, orb_false_r.
    + rewrite andb_false_r, orb_false_l, testbit_wrap, Z.shiftr_spec by lia.
      replace (i - 32 + 32) with i by lia. destruct (Z.ltb_spec (i - 32) 32); [done |].
      cbn [andb]. symmetry. by apply (testbit_above 64 h); [| lia].
Qed.

(** The four pieces of a base address. *)
Lemma base_split b :
  is_u64 b ->
  Z.lor (Z.shiftl (bits b 32 32) 32)
    (Z.lor (Z.lor (Z.shiftl (bits b 24 8) 24) (Z.shiftl (bits b 16 8) 16)) (bits b 0 16)) = b.
Proof.
  intros Hb. apply Z.bits_inj'. intros i Hi.
  rewrite !Z.lor_spec, !Z.shiftl_spec, (testbit_bits b 0 16 i) by lia. rewrite Z.add_0_r.
  destruct (Z.ltb_spec i 16).
  { rewrite !(Z.testbit_neg_r _ (i - _)) by lia. done. }
  destruct (Z.ltb_spec i 24).
  { rewrite !(Z.testbit_neg_r _ (i - 32)), (Z.testbit_neg_r _ (i - 24)) by lia.
    rewrite testbit_bits by lia. replace (i - 16 + 16) with i by lia. zcases. cbn.
    by rewrite orb_false_r. }
  rewrite (testbit_bits b 16) by lia.
  destruct (Z.ltb_spec (i - 16) 8); [lia |]. destruct (Z.ltb_spec i 32).
  { rewrite (Z.testbit_neg_r _ (i - 32)) by lia. rewrite testbit_bits by lia.
    replace (i - 24 + 24) with i by lia. zcases. cbn. by rewrite !orb_false_r. }
  rewrite !testbit_bits by lia. replace (i - 32 + 32) with i by lia.
  destruct (Z.ltb_spec (i - 24) 8); [lia |]. destruct (Z.ltb_spec (i - 32) 32); cbn.
  - by rewrite !orb_false_r.
  - symmetry. by apply (testbit_above 64 b); [| lia].
Qed.

Lemma land_shiftr_bits x n k : 0 <= n -> Z.land (Z.shiftr x n) (Z.ones k) = bits x n k.
Proof. done. Qed.

(** ** Properties *)

(** Every exception the host can take goes to its handler through a present
    gate of the host's code segment, on its own stack exactly for NMI, double
    fault and machine check; no other vector has a gate. *)
Theorem initialize_idt_spec isr v :
  (forall v, is_u64 (isr v)) -> 0 <= v < idt_gate_count ->
  let g := initialize_idt isr v in
  gate_present g = has_gate v /\
  (has_gate v = true ->
     gate_offset g = isr v /\ interrupt_stack_table g = expected_ist v /\ gate_selector g = host_cs).
Proof.
  intros Hisr Hv g. unfold idt_gate_count in Hv.
  destruct (has_gate v) eqn:E.
  - assert (In v [0; 1; 2; 3; 4; 5; 6; 7; 8; 10; 11; 12; 13; 14; 16; 17; 18; 19; 20; 21]) as Hin.
    { unfold has_gate in E. cbn. lia. }
    cbn in Hin. repeat (destruct Hin as [<- | Hin]; [split; [reflexivity |]; intros _;
      (split; [apply gate_offset_split, Hisr | split; reflexivity]) |]). done.
  - split; [| done]. unfold g, initialize_idt, gates. cbn [fold_left]. unfold define_gate, insert, fn_insert.
    unfold has_gate in E.
    repeat match goal with
    | |- context [decide (?a = v)] => destruct (decide (a = v)) as [<- |]; [discriminate E |]
    end. done.
Qed.

(** The TSS descriptor the host writes decodes, by the routine that also
    decodes the guest's segments, to the address of the TSS. *)
Theorem host_tss_base_roundtrip m gdt tss :
  is_u64 tss -> 0 <= gdt -> gdt + 40 <= 2 ^ 64 ->
  base_address (initialize_gdt m gdt tss) gdt host_tr = tss.
Proof.
  intros Ht Hg Hg'. unfold base_address. change (selector_index host_tr) with 3.
  cbn [Z.eqb]. unfold initialize_gdt. change (selector_index host_tr) with 3.
  set (m1 := write64 (write64 _ _ host_cs_descriptor) _ _).
  assert (gdt +64 3 * 8 = gdt + 3 * 8) as -> by (apply wrap_small; lia).
  assert (gdt + 3 * 8 +64 8 = gdt + 3 * 8 + 8) as -> by (apply wrap_small; lia).
  assert (is_u64 (host_tr_descriptor tss)) as Hd.
  { unfold host_tr_descriptor. repeat (apply set_bits_u64; [| lia | lia | lia]). done. }
  rewrite read64_write64_other, read64_write64_same by (done || lia).
  rewrite read64_write64_same by (apply set_bits_u64; done).
  assert (descriptor_type (host_tr_descriptor tss) = 0) as ->.
  { unfold descriptor_type, host_tr_descriptor. rewrite !bits_set_bits_other by lia.
    by rewrite bits_set_bits_same by lia. }
  cbn [Z.eqb]. change (0 =? SEGMENT_DESCRIPTOR_TYPE_SYSTEM) with true. cbv iota.
  assert (descriptor_base_upper (host_tr_descriptor_upper tss) = bits tss 32 32) as ->.
  { unfold descriptor_base_upper, host_tr_descriptor_upper. rewrite bits_set_bits_same by lia.
    unfold wrap. by rewrite bits_eq, Z.shiftr_div_pow2 by lia. }
  assert (descriptor_base_high (host_tr_descriptor tss) = bits tss 24 8) as ->.
  { unfold descriptor_base_high, host_tr_descriptor. rewrite !(bits_set_bits_other _ _ _ _ 56 8) by lia.
    rewrite bits_set_bits_same by lia. change 0xFF with (Z.ones 8).
    rewrite land_shiftr_bits by lia. apply wrap_small, bits_range. lia. }
  assert (descriptor_base_middle (host_tr_descriptor tss) = bits tss 16 8) as ->.
  { unfold descriptor_base_middle, host_tr_descriptor. rewrite !(bits_set_bits_other _ _ _ _ 32 8) by lia.
    rewrite bits_set_bits_same by lia. change 0xFF with (Z.ones 8).
    rewrite land_shiftr_bits by lia. apply wrap_small, bits_range. lia. }
  assert (descriptor_base_low (host_tr_descriptor tss) = bits tss 0 16) as ->.
  { unfold descriptor_base_low, host_tr_descriptor. rewrite !(bits_set_bits_other _ _ _ _ 16 16) by lia.
    rewrite bits_set_bits_same by lia. change (Z.land tss 0xFFFF) with (bits (tss) 0 16).
    apply wrap_small, bits_range. lia. }
  by apply base_split.
Qed.

Lemma initialize_idt_spec_witness :
  let isr := fun v => u64 (0xFFFFF80012345000 + v * 16) in
  gate_offset (initialize_idt isr 14) = 0xFFFFF800123450E0.
Proof.
  intros isr. destruct (initialize_idt_spec isr 14) as [_ H];
    [intros v; apply wrap_range; lia | unfold idt_gate_count; lia |].
  destruct H as [E _]; [reflexivity |]. rewrite E. reflexivity.
Defined.

Lemma host_tss_base_roundtrip_witness :
  base_address (initialize_gdt (fun _ => 0) 0x9000 0xFFFFF80012345678) 0x9000 host_tr
    = 0xFFFFF80012345678.
Proof. apply host_tss_base_roundtrip; unfold is_u64; lia. Defined.
