(* ===== verification/Vcpu.v ===== *)
(** * The virtual processor: [revhv-km/vcpu.h], [exception.h], [stealth.h]

    The per-core state that the VM-exit handlers, the hypercalls and the host's
    exception handlers share. *)
From Stdlib Require Import ZArith Lia List Bool.
From stdpp Require Import base numbers list option functions.
From S2P Require Import Prelude Ia32 Memory Mtrr Trace TransitionCfg Ept Vmcs.

(** The general-purpose registers of [guest_context] and [trap_frame]; [rsp] is
    not among them. *)
Inductive gpr := rax | rcx | rdx | rbx | rbp | rsi | rdi | r8 | r9 | r10 | r11 | r12 | r13 | r14 | r15.
#[export] Instance gpr_eq_dec : EqDecision gpr.
Proof. solve_decision. Defined.

Definition gprs : Type := gpr -> Z.
(** [ctx->eax], and an assignment to it: the upper half of the union member is
    left alone. *)
Definition read32 (ctx : gprs) (r : gpr) : Z := u32 (ctx r).
Definition write32 (ctx : gprs) (r : gpr) (v : Z) : gprs := <[r := set_bits (ctx r) 0 32 v]> ctx.

(** [exception::exception_info]. *)
Record exception_info := mk_exception_info {
  exception_vector : Z;
  error_code : Z;
  additional_info1 : Z;
  exception_occurred : bool
}.
Definition no_exception : exception_info := mk_exception_info 0 0 0 false.

(** [stealth::tsc_data] and [stealth_data]. *)
Record tsc_data := mk_tsc_data {
  tsc_offset : Z;
  stored_tsc : Z;
  vmexit_to_store_overhead : Z;
  instruction_overhead : Z;
  vmentry_overhead : Z
}.
#[export] Instance eta_tsc_data : Eta tsc_data := fun d =>
  mk_tsc_data (tsc_offset d) (stored_tsc d) (vmexit_to_store_overhead d) (instruction_overhead d)
    (vmentry_overhead d).

Record vmx_msr_entry := mk_msr_entry { msr_index : Z; msr_data : Z }.

Record stealth_data := mk_stealth {
  msr_entries : list vmx_msr_entry;
  msr_store_count : Z;
  msr_load_count : Z;
  stealth_tsc : tsc_data;
  bench_completed : bool
}.
#[export] Instance eta_stealth_data : Eta stealth_data := fun d =>
  mk_stealth (msr_entries d) (msr_store_count d) (msr_load_count d) (stealth_tsc d)
    (bench_completed d).

(** The write part of the MSR bitmap, by byte index. *)
Record msr_bitmap := mk_msr_bitmap { wrmsr_low : Z -> Z; wrmsr_high : Z -> Z }.
#[export] Instance eta_msr_bitmap : Eta msr_bitmap :=
  fun b => mk_msr_bitmap (wrmsr_low b) (wrmsr_high b).

(** [vcpu::vcpu], with the VMCS that is current on the core. The members for the
    data fields of trace entries form the table of [TransitionCfg]. *)
Record vcpu := mk_vcpu {
  vcpu_vmcs : vmcs;
  guest_context : gprs;
  bitmap : msr_bitmap;
  ept_pages_normal : ept_pages;
  ept_pages_target : ept_pages;
  hypercall_local_buffer : list Z;
  stealth : stealth_data;
  in_normal_execution : bool;
  eptp_normal_execution : Z;
  eptp_target_execution : Z;
  vcpu_core_id : Z;
  exn_info : exception_info;
  vcpu_mtrr : mtrr_state;
  queued_nmi_count : Z;
  trace_buffer : ring_buffer;
  transitions : transition_table;
  tsc_preemption_relation_bit : Z;
  preemption_timer_enabled : bool
}.
#[export] Instance eta_vcpu : Eta vcpu := fun v =>
  mk_vcpu (vcpu_vmcs v) (guest_context v) (bitmap v) (ept_pages_normal v) (ept_pages_target v)
    (hypercall_local_buffer v) (stealth v) (in_normal_execution v) (eptp_normal_execution v)
    (eptp_target_execution v) (vcpu_core_id v) (exn_info v) (vcpu_mtrr v) (queued_nmi_count v)
    (trace_buffer v) (transitions v) (tsc_preemption_relation_bit v) (preemption_timer_enabled v).

(** [vcpu::clear_exception_info]. *)
Definition clear_exception_info (v : vcpu) : vcpu := v <| exn_info := no_exception |>.

(** Changing the VMCS of the core. *)
Definition with_vmcs (v : vcpu) (f : vmcs -> vmcs) : vcpu := v <| vcpu_vmcs := f (vcpu_vmcs v) |>.

(** [vcpu->stealth_data.tsc_data.instruction_overhead = n]. *)
Definition set_overhead (v : vcpu) (n : Z) : vcpu :=
  v <| stealth := (stealth v) <| stealth_tsc :=
         (stealth_tsc (stealth v)) <| instruction_overhead := n |> |> |>.

Definition set_gpr (v : vcpu) (r : gpr) (x : Z) : vcpu :=
  v <| guest_context := <[r := u64 x]> (guest_context v) |>.

(** The bytes of a fresh [vcpu] are zero. *)
Definition zero_mtrr : mtrr_state := zero_mtrr_state.
Definition zero_stealth : stealth_data :=
  mk_stealth (replicate 3 (mk_msr_entry 0 0)) 0 0 (mk_tsc_data 0 0 0 0 0) false.
Definition zero_ring : ring_buffer := mk_ring 0 0 0 (fun _ => zero_entry).
Definition zero_vcpu : vcpu :=
  mk_vcpu (fun _ => 0) (fun _ => 0) (mk_msr_bitmap (fun _ => 0) (fun _ => 0)) zero_pages zero_pages
    (repeat 0 4096) zero_stealth false 0 0 0 no_exception zero_mtrr 0 zero_ring empty_table 0 false.

(** Compute the members of updated [vcpu]s down to those of the original. *)
Ltac reduce_vcpu :=
  cbv beta iota delta [set vcpu_vmcs guest_context bitmap ept_pages_normal ept_pages_target
    hypercall_local_buffer stealth in_normal_execution eptp_normal_execution eptp_target_execution
    vcpu_core_id exn_info vcpu_mtrr queued_nmi_count trace_buffer transitions
    tsc_preemption_relation_bit preemption_timer_enabled].
