(* ===== verification/Asm.v ===== *)
(** * Assembly: the machine the stubs run on

    The subset of x86-64 that the assembly files of the driver use: instructions with
    labels, the registers of a core, a stack in memory, and the ways a stub ends: it
    returns, enters the guest, exits to the host, raises an exception or leaves one.
    What the processor answers to VMLAUNCH, RDMSR and the like is an argument. *)
From Stdlib Require Import ZArith Lia List Bool.
From stdpp Require Import base numbers list option functions.
From S2P Require Import Prelude Ia32 Memory Vmcs Vcpu.

(** ** Instructions *)

(** The general-purpose registers with RSP. *)
Inductive reg := R (r : gpr) | SP.
Coercion R : gpr >-> reg.

(** The control and debug registers a stub moves. *)
Inductive creg := cr2 | cr8 | dr0 | dr1 | dr2 | dr3 | dr6.
#[export] Instance creg_eq_dec : EqDecision creg.
Proof. solve_decision. Defined.

Inductive label :=
  | normal_path | normal_path_no_restore | update_tsc_offset | successful_launch
  | exception_instruction | exception_handler | next_rip | cs_done | hang_loop.
#[export] Instance label_eq_dec : EqDecision label.
Proof. solve_decision. Defined.

(** A source operand: a register, an immediate, or a quadword in memory. *)
Inductive operand := reg_op (r : reg) | imm (v : Z) | at_mem (base : reg) (off : Z).
Coercion reg_op : reg >-> operand.

Inductive alu := ADD | SUB | AND | OR | XOR.

Inductive instr :=
  | MOV (d : reg) (s : operand)
  | MOV_mem (base : reg) (off : Z) (s : gpr)
  | MOV_from_cr (d : gpr) (c : creg)
  | MOV_to_cr (c : creg) (s : gpr)
  | MOVAPS_mem (base : reg) (off : Z) (x : nat)
  | MOVAPS (x : nat) (base : reg) (off : Z)
  | STMXCSR (base : reg) (off : Z)
  | LDMXCSR (base : reg) (off : Z)
  | MOV32 (d s : gpr)
  | PUSH (s : operand)
  | POP (d : gpr)
  | PUSHFQ
  | ALU (op : alu) (d : reg) (s : operand)
  | DEC (d : gpr)
  | SHL (d : gpr) (n : Z)
  | SHR (d : gpr) (n : Z)
  | CMP (d : gpr) (s : operand)
  | CMP32 (d : gpr) (v : Z)
  | TEST (d : gpr) (s : gpr)
  | JNE (l : label)
  | JMP (l : label)
  | LEA (d : gpr) (base : reg) (off : Z)
  | LEA_label (d : gpr) (l : label)
  | CALL
  | RET
  | IRETQ
  | LFENCE
  | PAUSE
  | RDTSC
  | RDFSBASE (d : gpr)
  | VMREAD (d f : gpr)
  | VMWRITE (f s : gpr)
  | VMRESUME
  | VMLAUNCH
  | VMCALL
  | CPUID
  | WRAPPED
  | INT3.

(** A line: the label in front of it, if any, and the instruction. *)
Record line := mk_line { line_label : option label; line_instr : instr }.
Definition plain (i : instr) : line := mk_line None i.
Coercion plain : instr >-> line.
Definition lab (l : label) (i : instr) : line := mk_line (Some l) i.

(** ** The state of a core *)

(** [tsc] is what the coming readings of the time-stamp counter give. *)
Record state := mk_state {
  regs : gprs;
  sp : Z;
  rflags : Z;
  memory : mem;
  cregs : creg -> Z;
  xmm : nat -> Z;
  mxcsr : Z;
  fsbase : Z;
  vm : vmcs;
  tsc : list Z
}.
#[export] Instance eta_state : Eta state := fun s =>
  mk_state (regs s) (sp s) (rflags s) (memory s) (cregs s) (xmm s) (mxcsr s) (fsbase s) (vm s) (tsc s).

(** A number of [k] bytes in memory. *)
Definition read_n (k : nat) (m : mem) (a : Z) : Z := le_combine (load m a (Z.of_nat k)).
Definition write_n (k : nat) (m : mem) (a v : Z) : mem := store m a (le_split k v).

Definition get (s : state) (r : reg) : Z := match r with R r => regs s r | SP => sp s end.
Definition put (s : state) (r : reg) (v : Z) : state :=
  match r with R r => s <| regs := <[r := v]> (regs s) |> | SP => s <| sp := v |> end.
Definition value (s : state) (o : operand) : Z :=
  match o with
  | reg_op r => get s r
  | imm v => v
  | at_mem base off => read_n 8 (memory s) (get s base +64 off)
  end.
Definition put_mem (s : state) (k : nat) (a v : Z) : state := s <| memory := write_n k (memory s) a v |>.

Definition push (s : state) (v : Z) : state :=
  let a := sp s -64 8 in put_mem (s <| sp := a |>) 8 a v.
Definition top (s : state) : Z := read_n 8 (memory s) (sp s).
Definition drop_top (s : state) : state := s <| sp := sp s +64 8 |>.

(** The encodings of the fields that the stubs name. *)
Definition field_of (encoding : Z) : option vmcs_field :=
  if encoding =? 0x2010 then Some VMCS_CTRL_TSC_OFFSET
  else if encoding =? 0x4402 then Some VMCS_EXIT_REASON
  else if encoding =? 0x681C then Some VMCS_GUEST_RSP
  else if encoding =? 0x681E then Some VMCS_GUEST_RIP
  else None.

Definition alu_op (op : alu) (x y : Z) : Z :=
  match op with
  | ADD => x +64 y | SUB => x -64 y
  | AND => Z.land x y | OR => Z.lor x y | XOR => Z.lxor x y
  end.

Definition ZF : Z := 6.

(** How a stub ends: a RET to an address, an IRETQ with what it takes from the
    stack, an entry into the guest, an exit from it, an exception at an instruction
    (the wrapped one, with vector and error code), or none of these: an undefined
    opcode, a misaligned operand, a call that does not return. *)
Inductive stop :=
  | returns (to : Z)
  | interrupt_returns (to cs flags rsp ss : Z)
  | enters_guest
  | exits_to_host
  | raises (vec code : Z)
  | stuck.

Inductive next := go (s : state) | jump (l : label) (s : state) | ends (w : stop) (s : state).

(** What the processor does with the wrapped instruction of [exception_wrappers.asm]:
    it completes with an effect, or raises an exception; a REP instruction may have done
    a part of its work by then. *)
Inductive wrapped_result := done_with (s : state) | fault_with (vec code : Z) (s : state).

Section machine.
Context {ia32 : Ia32}.
Variable supported : vmcs_field -> bool.
(** The flags an arithmetic instruction sets besides ZF. *)
Variable other_flags : Z -> Z -> Z.
(** The routine that is called; [None] when it does not return. *)
Variable callee : state -> option state.
Variable wrapped : state -> wrapped_result.
(** VMLAUNCH: [None] for an entry into the guest, else the flags of the failure. *)
Variable vmlaunch : vmcs -> option Z.
(** The address of the code that starts with the given lines. *)
Variable address : list line -> Z.

Definition alu_flags (s : state) (v : Z) : state :=
  s <| rflags := set_bits (other_flags (rflags s) v) ZF 1 (b2z (v =? 0)) |>.

(** [prog] from the line with a label on. *)
Fixpoint from_label (l : label) (prog : list line) : list line :=
  match prog with
  | [] => []
  | i :: prog' => if decide (line_label i = Some l) then prog else from_label l prog'
  end.

Definition aligned16 (a : Z) : bool := Z.land a 0xF =? 0.

Definition step (prog : list line) (i : instr) (s : state) : next :=
  match i with
  | MOV d o => go (put s d (value s o))
  | MOV_mem b off r => go (put_mem s 8 (get s b +64 off) (regs s r))
  | MOV_from_cr d c => go (put s d (cregs s c))
  | MOV_to_cr c r => go (s <| cregs := <[c := regs s r]> (cregs s) |>)
  | MOVAPS_mem b off x =>
      let a := get s b +64 off in if aligned16 a then go (put_mem s 16 a (xmm s x)) else ends stuck s
  | MOVAPS x b off =>
      let a := get s b +64 off in
      if aligned16 a then go (s <| xmm := <[x := read_n 16 (memory s) a]> (xmm s) |>) else ends stuck s
  | STMXCSR b off => go (put_mem s 4 (get s b +64 off) (mxcsr s))
  | LDMXCSR b off => go (s <| mxcsr := read_n 4 (memory s) (get s b +64 off) |>)
  | MOV32 d r => go (put s d (u32 (regs s r)))
  | PUSH o => go (push s (value s o))
  | POP d => go (put (drop_top s) d (top s))
  | PUSHFQ => go (push s (rflags s))
  | ALU op d o => let v := alu_op op (get s d) (value s o) in go (alu_flags (put s d v) v)
  | DEC d => let v := regs s d -64 1 in go (alu_flags (put s d v) v)
  | SHL d n => let v := shl64 (regs s d) n in go (alu_flags (put s d v) v)
  | SHR d n => let v := Z.shiftr (regs s d) n in go (alu_flags (put s d v) v)
  | CMP d o => go (alu_flags s (regs s d -64 value s o))
  | CMP32 d v => go (alu_flags s (u32 (regs s d - v)))
  | TEST d r => go (alu_flags s (Z.land (regs s d) (regs s r)))
  | JNE l => if get_bit (rflags s) ZF then go s else jump l s
  | JMP l => jump l s
  | LEA d b off => go (put s d (get s b +64 off))
  | LEA_label d l => go (put s d (address (from_label l prog)))
  | CALL => match callee s with Some s => go s | None => ends stuck s end
  | RET => ends (returns (top s)) (drop_top s)
  | IRETQ =>
      let m := memory s in let a := sp s in
      ends (interrupt_returns (read_n 8 m a) (read_n 8 m (a +64 8)) (read_n 8 m (a +64 16))
              (read_n 8 m (a +64 24)) (read_n 8 m (a +64 32))) s
  | LFENCE | PAUSE => go s
  | RDTSC =>
      match tsc s with
      | t :: later => go (put (put (s <| tsc := later |>) rax (u32 t)) rdx (Z.shiftr t 32))
      | [] => ends stuck s
      end
  | RDFSBASE d => go (put s d (fsbase s))
  | VMREAD d f =>
      match field_of (regs s f) with
      | Some f => go (put s d (vmx_vmread supported (vm s) f))
      | None => ends stuck s
      end
  | VMWRITE f r =>
      match field_of (regs s f) with
      | Some f => go (s <| vm := vmwrite supported (vm s) f (regs s r) |>)
      | None => ends stuck s
      end
  | VMRESUME => ends enters_guest s
  | VMLAUNCH => match vmlaunch (vm s) with None => ends enters_guest s | Some f => go (s <| rflags := f |>) end
  | VMCALL | CPUID => ends exits_to_host s
  | WRAPPED => match wrapped s with done_with s => go s | fault_with vec code s => ends (raises vec code) s end
  | INT3 => ends stuck s
  end.

(** Running [prog] from the line [pc] on: how it ends, in which state, and the lines
    that were left, from the one that ended it on. *)
Fixpoint run (fuel : nat) (prog pc : list line) (s : state) : option (stop * list line * state) :=
  match fuel with
  | O => None
  | S fuel =>
      match pc with
      | [] => Some (stuck, pc, s)
      | i :: pc' =>
          match step prog (line_instr i) s with
          | go s => run fuel prog pc' s
          | jump l s => run fuel prog (from_label l prog) s
          | ends w s => Some (w, pc, s)
          end
      end
  end.

(** ** Lemmas *)

Lemma add64_eq x y z : x + y = z -> is_u64 z -> x +64 y = z.
Proof. intros <- H. by apply wrap_small. Qed.
Lemma sub64_eq x y z : x - y = z -> is_u64 z -> x -64 y = z.
Proof. intros <- H. by apply wrap_small. Qed.

(** Lines that neither jump nor end, one after the other. *)
Fixpoint straight (prog lines : list line) (s : state) : option state :=
  match lines with
  | [] => Some s
  | i :: lines => match step prog (line_instr i) s with go s => straight prog lines s | _ => None end
  end.

Lemma run_straight prog lines pc fuel s s' :
  straight prog lines s = Some s' -> run (length lines + fuel) prog (lines ++ pc) s = run fuel prog pc s'.
Proof.
  revert s. induction lines as [| i lines IH]; intros s E; cbn in *; [by injection E as -> |].
  destruct (step prog (line_instr i) s); [by apply IH | done | done].
Qed.

Lemma straight_app prog l1 l2 s :
  straight prog (l1 ++ l2) s = match straight prog l1 s with Some s' => straight prog l2 s' | None => None end.
Proof.
  revert s. induction l1 as [| i l1 IH]; intros s; cbn; [done |]. by destruct (step _ _ s).
Qed.

(** More fuel changes nothing. *)
Lemma run_mono fuel fuel' prog pc s r : run fuel prog pc s = Some r -> (fuel <= fuel')%nat -> run fuel' prog pc s = Some r.
Proof.
  revert fuel' pc s. induction fuel as [| fuel IH]; intros fuel' pc s E Hf; [done |].
  destruct fuel' as [| fuel']; [lia |]. cbn [run] in *. destruct pc as [| i pc]; [done |].
  destruct (step prog (line_instr i) s); [apply IH; [done | lia] .. | done].
Qed.

(** [prog] from [pc] on ends as [r] says, given enough fuel. *)
Definition runs_to (prog pc : list line) (s : state) (r : stop * list line * state) : Prop :=
  exists fuel, run fuel prog pc s = Some r.

Lemma runs_straight prog lines pc s s' r :
  straight prog lines s = Some s' -> runs_to prog pc s' r -> runs_to prog (lines ++ pc) s r.
Proof. intros E [fuel H]. exists (length lines + fuel)%nat. by rewrite (run_straight _ _ _ _ _ _ E). Qed.

Lemma runs_go prog i pc s s' r :
  step prog (line_instr i) s = go s' -> runs_to prog pc s' r -> runs_to prog (i :: pc) s r.
Proof. intros E [fuel H]. exists (S fuel). cbn [run]. by rewrite E. Qed.

Lemma runs_jump prog i pc s l s' r :
  step prog (line_instr i) s = jump l s' -> runs_to prog (from_label l prog) s' r -> runs_to prog (i :: pc) s r.
Proof. intros E [fuel H]. exists (S fuel). cbn [run]. by rewrite E. Qed.

Lemma runs_end prog i pc s w s' :
  step prog (line_instr i) s = ends w s' -> runs_to prog (i :: pc) s (w, i :: pc, s').
Proof. intros E. exists 1%nat. cbn [run]. by rewrite E. Qed.

(** The frame of an IRETQ at the top of the stack. *)
Definition frame_at (m : mem) (a rip cs flags rsp ss : Z) : Prop :=
  read_n 8 m a = rip /\ read_n 8 m (a + 8) = cs /\ read_n 8 m (a + 16) = flags /\ read_n 8 m (a + 24) = rsp /\
  read_n 8 m (a + 32) = ss.

Lemma iretq_ends prog i pc s rip cs flags rsp ss :
  line_instr i = IRETQ -> 0 <= sp s -> sp s + 40 <= 2 ^ 64 -> frame_at (memory s) (sp s) rip cs flags rsp ss ->
  runs_to prog (i :: pc) s (interrupt_returns rip cs flags rsp ss, i :: pc, s).
Proof.
  intros Hi H0 H1 (E1 & E2 & E3 & E4 & E5). apply runs_end. rewrite Hi. cbn [step].
  rewrite !(add64_eq (sp s) _ _ eq_refl) by (unfold is_u64; lia). by rewrite E1, E2, E3, E4, E5.
Qed.

(** A run has one end. *)
Lemma runs_to_unique prog pc s r r' : runs_to prog pc s r -> runs_to prog pc s r' -> r = r'.
Proof.
  intros [f E] [f' E']. apply (run_mono _ (Nat.max f f')) in E, E'; [congruence | lia ..].
Qed.
End machine.

(** *** Fields of a block in memory *)

Lemma read_n_same k m a v : 0 <= v < 2 ^ (8 * Z.of_nat k) -> read_n k (write_n k m a v) a = v.
Proof.
  intros Hv. unfold read_n, write_n. rewrite load_store_same by (by rewrite le_split_length).
  apply le_combine_split. by rewrite <- (Z.pow_mul_r 2 8) by lia.
Qed.

Lemma read_n_other k j m a b v :
  b + Z.of_nat j <= a \/ a + Z.of_nat k <= b -> read_n j (write_n k m a v) b = read_n j m b.
Proof. intros Hd. unfold read_n, write_n. f_equal. apply load_store_other. rewrite le_split_length. lia. Qed.

Lemma write_n_out k m a v x : x < a \/ a + Z.of_nat k <= x -> write_n k m a v x = m x.
Proof. intros Hx. apply store_out. rewrite le_split_length. lia. Qed.

(** A block written field by field: offset, size and value. *)
Definition write_fields (base : Z) (l : list (Z * nat * Z)) (m : mem) : mem :=
  fold_left (fun m '(off, k, v) => write_n k m (base + off) v) l m.

(** The fields do not overlap. *)
Fixpoint apart_from (off : Z) (k : nat) (l : list (Z * nat)) : bool :=
  match l with
  | [] => true
  | (o, j) :: l => ((off + Z.of_nat k <=? o) || (o + Z.of_nat j <=? off)) && apart_from off k l
  end.
Fixpoint disjoint_fields (l : list (Z * nat)) : bool :=
  match l with [] => true | (o, k) :: l => apart_from o k l && disjoint_fields l end.
Definition inside_fields (n : Z) (l : list (Z * nat)) : bool :=
  forallb (fun '(o, k) => (0 <=? o) && (o + Z.of_nat k <=? n)) l.

Lemma write_fields_apart base l m off k :
  apart_from off k (map fst l) = true -> read_n k (write_fields base l m) (base + off) = read_n k m (base + off).
Proof.
  revert m. induction l as [| [[o j] v] l IH]; intros m H; [done |]. cbn [map fst apart_from] in H.
  apply andb_prop in H as [H1 H2]. cbn [write_fields fold_left]. fold (write_fields base l (write_n j m (base + o) v)).
  rewrite IH by done. apply read_n_other. apply orb_prop in H1 as [H1%Z.leb_le | H1%Z.leb_le]; lia.
Qed.

Lemma read_write_fields base l m off k v :
  disjoint_fields (map fst l) = true -> In (off, k, v) l -> 0 <= v < 2 ^ (8 * Z.of_nat k) ->
  read_n k (write_fields base l m) (base + off) = v.
Proof.
  revert m. induction l as [| [[o j] w] l IH]; intros m Hd Hin Hv; [destruct Hin |].
  cbn [map fst disjoint_fields] in Hd. apply andb_prop in Hd as [H1 H2].
  cbn [write_fields fold_left]. fold (write_fields base l (write_n j m (base + o) w)).
  destruct Hin as [E | Hin]; [| by apply IH]. injection E as -> -> ->.
  rewrite write_fields_apart by done. by apply read_n_same.
Qed.

Lemma write_fields_out base n l m x :
  inside_fields n (map fst l) = true -> x < base \/ base + n <= x -> write_fields base l m x = m x.
Proof.
  intros Hi Hx. revert m. induction l as [| [[o j] v] l IH]; intros m; [done |].
  cbn [map fst inside_fields forallb] in Hi. apply andb_prop in Hi as [H1 H2]. apply andb_prop in H1 as [H0%Z.leb_le H1%Z.leb_le].
  cbn [write_fields fold_left]. fold (write_fields base l (write_n j m (base + o) v)).
  rewrite IH by done. apply write_n_out. lia.
Qed.
