(* ===== verification/Stubs.v ===== *)
(** * The assembly stubs: [vmexit_stub.asm], [isr.asm], [exception_wrappers.asm],
    [vmlaunch_stub.asm], [stealth_util.asm], [utils.asm], [vmx_intrin.asm]

    The stubs line by line. [ExitStub], [FaultStub] and [LaunchStub] say what they do
    around the C++ they call. *)
From Stdlib Require Import ZArith Lia List Bool.
From stdpp Require Import base numbers list option functions.
From S2P Require Import Prelude Ia32 Memory Vmcs Vcpu Asm.

(** ** The exit stub *)

(** The offsets in [guest_context]. *)
Definition ctx_gpr (r : gpr) : Z :=
  match r with
  | rax => 0 | rcx => 8 | rdx => 16 | rbx => 24 | rbp => 32 | rsi => 40 | rdi => 48 | r8 => 56 | r9 => 64
  | r10 => 72 | r11 => 80 | r12 => 88 | r13 => 96 | r14 => 104 | r15 => 112
  end.
Definition ctx_creg (c : creg) : Z :=
  match c with cr2 => 120 | cr8 => 128 | dr0 => 136 | dr1 => 144 | dr2 => 152 | dr3 => 160 | dr6 => 168 end.
Definition ctx_xmm (x : nat) : Z := 176 + 16 * Z.of_nat x.
Definition ctx_mxcsr : Z := 432.
Definition sizeof_guest_context : Z := 448.

(** The offsets in [tsc_data]. *)
Definition tsc_tsc_offset : Z := 0.
Definition tsc_stored_tsc : Z := 8.
Definition tsc_vmexit_to_store_overhead : Z := 16.
Definition tsc_instruction_overhead : Z := 24.
Definition tsc_vmentry_overhead : Z := 32.

(** [RVHVBNCH], and its lower half. *)
Definition RVHVBNCH : Z := 0x52564856424E4348.
Definition BNCH : Z := 0x424E4348.

(** The fast path of the benchmark. *)
Definition fast_path : list line :=
  [ plain (CMP32 rcx BNCH);
    plain (JNE normal_path_no_restore);
    plain (PUSH r10);
    plain (PUSH r11);
    plain (MOV r10 (imm 0x4402));
    plain (VMREAD r10 r10);
    plain (CMP r10 (imm 0x0A));
    plain (JNE normal_path);
    plain (MOV r10 (imm RVHVBNCH));
    plain (CMP rcx r10);
    plain (JNE normal_path);
    plain (MOV r11 (imm 0x681E));
    plain (VMWRITE r11 r8);
    plain (POP r11);
    plain (POP r10);
    plain (PUSH rdx);
    plain LFENCE;
    plain RDTSC;
    plain LFENCE;
    plain (SHL rdx 32);
    plain (ALU OR rax rdx);
    plain (MOV r9 rax);
    plain (MOV rax (imm 0x2010));
    plain (ALU XOR rdx rdx);
    plain (DEC rdx);
    plain (VMWRITE rax rdx);
    plain (POP rdx);
    plain VMRESUME;
    plain INT3 ].

Definition restore_r10_r11 : list line := [ lab normal_path (POP r11); plain (POP r10) ].

Definition save_gprs : list line :=
  map (fun r => plain (MOV_mem SP (ctx_gpr r) r))
    [rax; rcx; rdx; rbx; rbp; rsi; rdi; r8; r9; r10; r11; r12; r13; r14; r15].
Definition save_cregs : list line :=
  flat_map (fun c => [plain (MOV_from_cr rax c); plain (MOV_mem SP (ctx_creg c) rax)])
    [cr2; cr8; dr0; dr1; dr2; dr3; dr6].
Definition save_xmms : list line := map (fun x => plain (MOVAPS_mem SP (ctx_xmm x) x)) (seq 0 16).

Definition save_context : list line :=
  [lab normal_path_no_restore (ALU SUB SP (imm sizeof_guest_context))] ++
  save_gprs ++ save_cregs ++ save_xmms ++ [plain (STMXCSR SP ctx_mxcsr)].

Definition call_handler_lines : list line :=
  [ plain (MOV rcx SP);
    plain (RDFSBASE rdx);
    plain (ALU SUB SP (imm 0x20));
    plain CALL;
    plain (ALU ADD SP (imm 0x20));
    plain (MOV rcx rax) ].

Definition load_xmms : list line := map (fun x => plain (MOVAPS x SP (ctx_xmm x))) (seq 0 16).
Definition load_cregs : list line :=
  flat_map (fun c => [plain (MOV rax (at_mem SP (ctx_creg c))); plain (MOV_to_cr c rax)])
    [dr0; dr1; dr2; dr3; dr6; cr2; cr8].
Definition load_gprs : list gpr -> list line := map (fun r => plain (MOV (R r) (at_mem SP (ctx_gpr r)))).

Definition load_context : list line :=
  [plain (LDMXCSR SP ctx_mxcsr)] ++ load_xmms ++ load_cregs ++
  load_gprs [rbp; rsi; rdi; r8; r9; r10; r11; r12; r13; r14; r15].

(** The registers that are loaded last. *)
Definition load_rest : list line :=
  load_gprs [rax; rcx; rdx; rbx] ++ [plain (ALU ADD SP (imm sizeof_guest_context))].

Definition leave_offset : list line :=
  [plain (TEST rcx rcx); plain (JNE update_tsc_offset)] ++ load_rest ++ [plain VMRESUME; plain INT3].

Definition update_offset : list line :=
  [ lab update_tsc_offset (MOV rbx (at_mem rcx tsc_stored_tsc));
    plain (ALU ADD rbx (at_mem rcx tsc_instruction_overhead));
    plain (ALU SUB rbx (at_mem rcx tsc_vmentry_overhead));
    plain (ALU SUB rbx (at_mem rcx tsc_vmexit_to_store_overhead));
    plain LFENCE;
    plain RDTSC;
    plain LFENCE;
    plain (SHL rdx 32);
    plain (ALU OR rax rdx);
    plain (ALU SUB rax rbx);
    plain (MOV rbx (at_mem rcx tsc_tsc_offset));
    plain (ALU SUB rbx rax);
    plain (MOV_mem rcx tsc_tsc_offset rbx);
    plain (MOV rax (imm 0x2010));
    plain (VMWRITE rax rbx) ].

Definition vmexit_stub : list line :=
  fast_path ++ restore_r10_r11 ++ save_context ++ call_handler_lines ++ load_context ++ leave_offset ++
  update_offset ++ load_rest ++ [plain VMRESUME; plain INT3].

(** ** The interrupt stubs *)

Definition pushed_gprs : list gpr := [r15; r14; r13; r12; r11; r10; r9; r8; rdi; rsi; rbp; rbx; rdx; rcx; rax].

Definition generic_isr : list line :=
  map (fun r => plain (PUSH (reg_op (R r)))) pushed_gprs ++
  [ plain (MOV rcx SP);
    plain (RDFSBASE rdx);
    plain (ALU SUB SP (imm 0x20));
    plain CALL;
    plain (ALU ADD SP (imm 0x20)) ] ++
  map (fun r => plain (POP r)) (rev pushed_gprs) ++
  [ plain (ALU ADD SP (imm 8));
    plain (ALU ADD SP (imm 8));
    plain IRETQ ].

(** [isr_<vec>], with the jump to [generic_isr]: [ISR_ERR] for the vectors whose error
    code the processor pushes, [ISR_NOERR] for the others. *)
Definition ISR_ERR (vec : Z) : list line := plain (PUSH (imm vec)) :: generic_isr.
Definition ISR_NOERR (vec : Z) : list line := plain (PUSH (imm 0)) :: plain (PUSH (imm vec)) :: generic_isr.
Definition isr_table : list (Z * list line) :=
  [(0, ISR_NOERR 0); (1, ISR_NOERR 1); (2, ISR_NOERR 2); (3, ISR_NOERR 3); (4, ISR_NOERR 4); (5, ISR_NOERR 5);
   (6, ISR_NOERR 6); (7, ISR_NOERR 7); (8, ISR_ERR 8); (10, ISR_ERR 10); (11, ISR_ERR 11); (12, ISR_ERR 12);
   (13, ISR_ERR 13); (14, ISR_ERR 14); (16, ISR_NOERR 16); (17, ISR_ERR 17); (18, ISR_NOERR 18);
   (19, ISR_NOERR 19); (20, ISR_NOERR 20); (21, ISR_ERR 21)].
Definition isr (vec : Z) : option (list line) :=
  match find (fun e => fst e =? vec) isr_table with Some e => Some (snd e) | None => None end.

(** ** The wrappers *)

(** Instructions before the wrapped one, and after it. *)
Definition wrapper (before after : list line) : list line :=
  [ plain (PUSH r15);
    plain (PUSH r14);
    plain (LEA_label r14 exception_instruction);
    plain (LEA_label r15 exception_handler) ] ++ before ++
  [ lab exception_instruction WRAPPED ] ++ after.

Definition rdmsr_wrapper : list line :=
  wrapper []
    [ plain (SHL rdx 32);
      plain (ALU OR rax rdx);
      lab exception_handler (POP r14);
      plain (POP r15);
      plain RET ].
Definition edx_eax_arguments : list line := [ plain (MOV32 rax rdx); plain (SHR rdx 32) ].
Definition pop_and_return : list line := [ lab exception_handler (POP r14); plain (POP r15); plain RET ].
Definition wrmsr_wrapper : list line := wrapper edx_eax_arguments pop_and_return.
Definition invd_wrapper : list line := wrapper [] pop_and_return.
Definition xsetbv_wrapper : list line := wrapper edx_eax_arguments pop_and_return.
Definition memcpy_wrapper : list line :=
  wrapper
    [ plain (PUSH rdi);
      plain (PUSH rsi);
      plain (MOV rdi rcx);
      plain (MOV rsi rdx);
      plain (MOV rcx r8) ]
    [ lab exception_handler (POP rsi);
      plain (POP rdi);
      plain (POP r14);
      plain (POP r15);
      plain RET ].

(** ** The launch, the benchmark, the way out *)

Definition vmx_vmlaunch_stub : list line :=
  [ plain (MOV rdx (imm 0x681E));
    plain (LEA_label rax successful_launch);
    plain (VMWRITE rdx rax);
    plain (MOV rdx (imm 0x681C));
    plain (MOV rax SP);
    plain (VMWRITE rdx rax);
    plain VMLAUNCH;
    plain PUSHFQ;
    plain (POP rax);
    plain (MOV_mem rcx 0 rax);
    plain (ALU XOR rax rax);
    plain RET;
    lab successful_launch (MOV rax (imm 1));
    plain RET ].

Definition stealth_vmexit_bench_one : list line :=
  [ plain (PUSH rbx);
    plain (PUSH rcx);
    plain (LEA_label r8 next_rip);
    plain (MOV rcx (imm RVHVBNCH));
    plain LFENCE;
    plain RDTSC;
    plain LFENCE;
    plain (SHL rdx 32);
    plain (ALU OR rax rdx);
    plain (MOV r10 rax);
    plain LFENCE;
    plain CPUID;
    lab next_rip LFENCE;
    plain RDTSC;
    plain LFENCE;
    plain (SHL rdx 32);
    plain (ALU OR rax rdx);
    plain (MOV rbx rax);
    plain (ALU SUB rbx r9);
    plain (POP rcx);
    plain (MOV_mem rcx 0 rbx);
    plain (MOV rax r10);
    plain (POP rbx);
    plain RET ].

Definition switch_host_cs : list line :=
  [ plain PUSHFQ;
    plain (POP rax);
    plain (PUSH (imm 0));
    plain (LEA r8 SP 8);
    plain (PUSH r8);
    plain (PUSH rax);
    plain (ALU AND rcx (imm 0xFFFF));
    plain (PUSH rcx);
    plain (LEA_label rax cs_done);
    plain (PUSH rax);
    plain IRETQ;
    lab cs_done RET ].

Definition cpu_hang_unblock_nmi : list line :=
  [ plain (PUSH (imm 0));
    plain (LEA r8 SP 8);
    plain (PUSH r8);
    plain PUSHFQ;
    plain (POP rax);
    plain (ALU OR rax (imm 0x200));
    plain (PUSH rax);
    plain (ALU AND rcx (imm 0xFFFF));
    plain (PUSH rcx);
    plain (LEA_label rax hang_loop);
    plain (PUSH rax);
    plain IRETQ;
    lab hang_loop PAUSE;
    plain (JMP hang_loop) ].

(** [__vmcall] of the driver, with its fifth argument on the stack. *)
Definition vmcall_stub : list line := [ plain (MOV rax (at_mem SP 0x28)); plain VMCALL; plain RET ].
