(* ===== verification/Exception.v ===== *)
(** * Host exceptions: [revhv-km/exception.cpp], [isr.h], [exception_wrappers.asm]

    The host's exception handlers, and the wrappers that execute one instruction
    which may fault: they put the address of the instruction in R14 and the
    address to resume at in R15. A handler that ends in
    [error::unrecoverable_host_error] never returns ([Crash]). *)
From Stdlib Require Import ZArith Lia List Bool.
From stdpp Require Import base numbers list option functions.
From S2P Require Import Prelude Ia32 Memory Vmcs Vcpu.

(** [machine_frame] and [trap_frame]. *)
Record trap_frame := mk_trap_frame {
  trap_gprs : gprs;
  vector : Z;
  trap_error_code : Z;
  trap_rip : Z;
  trap_cs : Z;
  trap_rflags : Z;
  trap_rsp : Z;
  trap_ss : Z
}.
#[export] Instance eta_trap_frame : Eta trap_frame := fun f =>
  mk_trap_frame (trap_gprs f) (vector f) (trap_error_code f) (trap_rip f) (trap_cs f)
    (trap_rflags f) (trap_rsp f) (trap_ss f).

(** [isr::vector_has_error_code]. *)
Definition vector_has_error_code (vector : Z) : bool :=
  (vector =? 8) || (vector =? 10) || (vector =? 11) || (vector =? 12) || (vector =? 13) ||
  (vector =? 14) || (vector =? 17) || (vector =? 21).

Section exception.
Context {ia32 : Ia32}.
Variable supported : vmcs_field -> bool.
Variable rdmsr : Z -> Z.

(** The value of the shared [crash_in_progress] when it is read. *)
Variable crash_in_progress : Z.

(** [error::give_control_on_unrecoverable_error]: does not return while a crash
    is in progress. *)
Definition give_control_on_unrecoverable_error (v : vcpu) : outcome vcpu :=
  if negb (crash_in_progress =? 0) then Crash else Ok v.

Definition handle_generic (f : trap_frame) (v : vcpu) (expected_exception : bool)
    : outcome (trap_frame * vcpu) :=
  if negb expected_exception then Crash else Crash.

(** [handle_gp] and [handle_ud] have the same body. *)
Definition handle_gp (f : trap_frame) (v : vcpu) (expected_exception : bool)
    : outcome (trap_frame * vcpu) :=
  if negb expected_exception then Crash else
  Ok (f <| trap_rip := trap_gprs f r15 |>,
      v <| exn_info := mk_exception_info (vector f) (trap_error_code f)
                         (additional_info1 (exn_info v)) true |>).
Definition handle_ud (f : trap_frame) (v : vcpu) (expected_exception : bool)
    : outcome (trap_frame * vcpu) :=
  if negb expected_exception then Crash else
  Ok (f <| trap_rip := trap_gprs f r15 |>,
      v <| exn_info := mk_exception_info (vector f) (trap_error_code f)
                         (additional_info1 (exn_info v)) true |>).

Definition handle_df (f : trap_frame) (v : vcpu) : outcome (trap_frame * vcpu) := Crash.
Definition handle_mc (f : trap_frame) (v : vcpu) : outcome (trap_frame * vcpu) := Crash.

(** The body shared with the VM-exit handler for NMIs: the NMI is queued for the
    guest and an exit requested for when it can take it. *)
Definition enqueue_nmi (v : vcpu) : vcpu :=
  with_vmcs (v <| queued_nmi_count := u64 (queued_nmi_count v + 1) |>)
    (enable_nmi_window_exiting supported rdmsr).

Definition handle_host_nmi (f : trap_frame) (v : vcpu) : outcome (trap_frame * vcpu) :=
  let! v := give_control_on_unrecoverable_error v in
  Ok (f, enqueue_nmi v).

Definition is_generic_vector (vector : Z) : bool :=
  existsb (Z.eqb vector)
    [divide_error; debug; breakpoint; overflow; bound_range_exceeded; device_not_available;
     invalid_tss; segment_not_present; stack_segment_fault; page_fault;
     x87_floating_point_error; alignment_check; simd_floating_point_error;
     virtualization_exception; control_protection].

Definition handle_exception (f : trap_frame) (v : vcpu) : outcome (trap_frame * vcpu) :=
  let expected_exception := trap_gprs f r14 =? trap_rip f in
  if vector f =? double_fault then handle_df f v
  else if vector f =? general_protection then handle_gp f v expected_exception
  else if vector f =? invalid_opcode then handle_ud f v expected_exception
  else if vector f =? machine_check then handle_mc f v
  else if vector f =? nmi then handle_host_nmi f v
  else if is_generic_vector (vector f) then handle_generic f v expected_exception
  else Crash.

(** ** The wrapped instructions *)

(** What the processor does when it gets to the instruction: it completes, or it
    raises an exception with an error code. *)
Inductive instruction_result := completes | faults (vector error_code : Z).

(** The frame a fault in a wrapper pushes: the wrapper's instruction is at
    [at_rip] and its exit at [resume]; [frame] gives everything else. *)
Definition wrapper_frame (frame : trap_frame) (at_rip resume : Z) (vec code : Z) : trap_frame :=
  mk_trap_frame (<[r15 := resume]> (<[r14 := at_rip]> (trap_gprs frame))) vec code at_rip
    (trap_cs frame) (trap_rflags frame) (trap_rsp frame) (trap_ss frame).

Definition sample_frame : trap_frame := mk_trap_frame (fun _ => 0) 0 0 0 0 0 0 0.

(** A wrapped instruction: after a fault the code runs on at the wrapper's exit
    if the handler set it as the address to return to. *)
Definition run_wrapped (r : instruction_result) (v : vcpu) : outcome vcpu :=
  let at_rip := 1 in
  let resume := 2 in
  match r with
  | completes => Ok v
  | faults vec code =>
      let! (f, v) := handle_exception (wrapper_frame sample_frame at_rip resume vec code) v in
      if trap_rip f =? resume then Ok v else Undefined
  end.

(** ** Lemmas *)

(** Exceptions the wrappers survive. *)
Definition survivable (vec : Z) : bool := (vec =? general_protection) || (vec =? invalid_opcode).

Definition record_exception (v : vcpu) (vec code : Z) : vcpu :=
  v <| exn_info := mk_exception_info vec code (additional_info1 (exn_info v)) true |>.

Lemma handle_exception_cases f v :
  vector f <> nmi ->
  handle_exception f v =
    if survivable (vector f) && (trap_gprs f r14 =? trap_rip f)
    then Ok (f <| trap_rip := trap_gprs f r15 |>,
             record_exception v (vector f) (trap_error_code f))
    else Crash.
Proof.
  intros Hn. unfold handle_exception, handle_df, handle_mc, handle_gp, handle_ud, handle_generic,
    survivable, record_exception.
  destruct (Z.eqb_spec (vector f) double_fault) as [-> |]; [done |].
  destruct (Z.eqb_spec (vector f) general_protection) as [-> |].
  { by destruct (_ =? _). }
  destruct (Z.eqb_spec (vector f) invalid_opcode) as [-> |].
  { by destruct (_ =? _). }
  cbn [orb andb]. destruct (_ =? machine_check); [done |].
  destruct (Z.eqb_spec (vector f) nmi); [done |].
  destruct (is_generic_vector _); [by destruct (_ =? _) | done].
Qed.

Lemma run_wrapped_cases r v :
  (forall vec code, r = faults vec code -> vec <> nmi) ->
  run_wrapped r v =
    match r with
    | completes => Ok v
    | faults vec code => if survivable vec then Ok (record_exception v vec code) else Crash
    end.
Proof.
  intros Hn. destruct r as [| vec code]; [done |]. unfold run_wrapped.
  rewrite handle_exception_cases by (by apply (Hn vec code)).
  assert (trap_gprs (wrapper_frame sample_frame 1 2 vec code) r14 = 1) as -> by reflexivity.
  cbn [vector wrapper_frame trap_rip trap_error_code]. rewrite andb_true_r.
  by destruct (survivable vec).
Qed.

(** ** Properties *)

(** (C31) The host survives an exception only where it expects one: a #GP or #UD
    raised by the instruction of a wrapper is recorded in [exception_info] and
    execution goes on at the wrapper's exit; every other exception but an NMI
    ends in the crash protocol, even one the wrapper announced. *)
Theorem handle_exception_recovers_only_expected f v :
  vector f <> nmi ->
  match handle_exception f v with
  | Ok (f', v') =>
      survivable (vector f) = true /\ trap_gprs f r14 = trap_rip f /\
      trap_rip f' = trap_gprs f r15 /\ trap_gprs f' = trap_gprs f /\
      exception_occurred (exn_info v') = true /\ exception_vector (exn_info v') = vector f /\
      error_code (exn_info v') = trap_error_code f /\ vcpu_vmcs v' = vcpu_vmcs v
  | Crash => survivable (vector f) = false \/ trap_gprs f r14 <> trap_rip f
  | Undefined => False
  end.
Proof.
  intros Hn. rewrite handle_exception_cases by done.
  destruct (survivable (vector f)); cbn [andb]; [| by left].
  destruct (Z.eqb_spec (trap_gprs f r14) (trap_rip f)); [done | by right].
Qed.
End exception.

Lemma handle_exception_recovers_only_expected_witness :
  let f := wrapper_frame sample_frame 0x1000 0x1003 13 0 in
  survivable 13 = true /\
  match handle_exception (fun _ => true) (fun _ => 0) 0 f zero_vcpu with
  | Ok (f', _) => trap_rip f' = 0x1003
  | _ => False
  end.
Proof.
  intros f. split; [reflexivity |].
  pose proof (handle_exception_recovers_only_expected (fun _ => true) (fun _ => 0) 0 f zero_vcpu) as H.
  destruct (handle_exception _ _ _ _ _) as [[f' v'] | |].
  - destruct H as (_ & _ & E & _); [discriminate |]. exact E.
  - destruct H as [E | E]; [discriminate | discriminate E | apply E; reflexivity].
  - destruct H. discriminate.
Defined.
