(* ===== verification/Introspection.v ===== *)
(** * Access to guest memory: [revhv-km/introspection.cpp]

    Reading and writing guest-virtual memory from the host, page by page, through
    the window on physical memory. *)
From Stdlib Require Import ZArith Lia List Bool.
From stdpp Require Import base numbers list option functions.
From S2P Require Import Prelude Ia32 Memory Paging Vmcs Vcpu Exception.

Section introspection.
Context {ia32 : Ia32}.
Variable supported : vmcs_field -> bool.
Variable rdmsr : Z -> Z.
Variable crash_in_progress : Z.

(** Whether a copy of [n] bytes at a host address faults: after how many bytes,
    with which vector and error code. *)
Variable copy_fault : Z -> Z -> option (Z * Z * Z).

Definition in_window (hva n : Z) : bool :=
  (host_physical_base <=? hva) && (hva + n <=? host_physical_base + host_physical_size).

(** [memcpy_wrapper(buffer + off, hva, n)] and [memcpy_wrapper(hva, buffer + off, n)];
    a copy that leaves the window is a wild access. *)
Definition copy_from (m : mem) (v : vcpu) (buf : list Z) (off hva n : Z)
    : outcome (list Z * vcpu) :=
  if negb (in_window hva n) then Undefined else
  let pa := hva - host_physical_base in
  match copy_fault hva n with
  | None => Ok (overlay buf off (load m pa n), v)
  | Some (k, vec, code) =>
      let! v := run_wrapped supported rdmsr crash_in_progress (faults vec code) v in
      Ok (overlay buf off (load m pa k), v)
  end.

Definition copy_to (m : mem) (v : vcpu) (hva : Z) (buf : list Z) (off n : Z)
    : outcome (mem * vcpu) :=
  if negb (in_window hva n) then Undefined else
  let pa := hva - host_physical_base in
  match copy_fault hva n with
  | None => Ok (store m pa (slice buf off n), v)
  | Some (k, vec, code) =>
      let! v := run_wrapped supported rdmsr crash_in_progress (faults vec code) v in
      Ok (store m pa (slice buf off k), v)
  end.

(** ** Reading *)

(** The loop from [total_read]; the result is the core, the buffer and the
    returned count. *)
Fixpoint read_loop (fuel : nat) (m : mem) (v : vcpu) (guest_cr3 gva : Z) (buf : list Z)
    (size total_read : Z) : outcome (vcpu * list Z * Z) :=
  if negb (total_read <? size) then Ok (v, buf, total_read) else
  match fuel with
  | O => Undefined
  | S fuel =>
      let! (hva, offset_to_next_page) := gva_to_hva m guest_cr3 (gva +64 total_read) 0 in
      if hva =? 0 then Ok (v, buf, total_read) else
      let to_read := Z.min (size - total_read) offset_to_next_page in
      let! (buf, v) := copy_from m v buf total_read hva to_read in
      if exception_occurred (exn_info v) then Ok (clear_exception_info v, buf, total_read)
      else read_loop fuel m v guest_cr3 gva buf size (total_read + to_read)
  end.

(** Every iteration copies a byte, so [size] iterations are enough. *)
Definition read_guest_virtual (m : mem) (v : vcpu) (guest_cr3 gva : Z) (buf : list Z) (size : Z)
    : outcome (vcpu * list Z * Z) :=
  if (gva =? 0) || (size =? 0) then Ok (v, buf, 0)
  else read_loop (Z.to_nat size) m v guest_cr3 gva buf size 0.

(** The overload under the guest's current CR3. *)
Definition read_guest_virtual_current (m : mem) (v : vcpu) (gva : Z) (buf : list Z) (size : Z)
    : outcome (vcpu * list Z * Z) :=
  if (gva =? 0) || (size =? 0) then Ok (v, buf, 0)
  else read_guest_virtual m v (get_guest_cr3 supported (vcpu_vmcs v)) gva buf size.

(** ** Writing *)

Fixpoint write_loop (fuel : nat) (m : mem) (v : vcpu) (guest_cr3 gva : Z) (buf : list Z)
    (size total_written : Z) : outcome (mem * vcpu * Z) :=
  if negb (total_written <? size) then Ok (m, v, total_written) else
  match fuel with
  | O => Undefined
  | S fuel =>
      let! (hva, offset_to_next_page) := gva_to_hva m guest_cr3 (gva +64 total_written) 0 in
      if hva =? 0 then Ok (m, v, total_written) else
      let to_write := Z.min (size - total_written) offset_to_next_page in
      let! (m, v) := copy_to m v hva buf total_written to_write in
      if exception_occurred (exn_info v) then Ok (m, clear_exception_info v, total_written)
      else write_loop fuel m v guest_cr3 gva buf size (total_written + to_write)
  end.

Definition write_guest_virtual (m : mem) (v : vcpu) (guest_cr3 gva : Z) (buf : list Z) (size : Z)
    : outcome (mem * vcpu * Z) :=
  if (gva =? 0) || (size =? 0) then Ok (m, v, 0)
  else write_loop (Z.to_nat size) m v guest_cr3 gva buf size 0.

Definition write_guest_virtual_current (m : mem) (v : vcpu) (gva : Z) (buf : list Z) (size : Z)
    : outcome (mem * vcpu * Z) :=
  if (gva =? 0) || (size =? 0) then Ok (m, v, 0)
  else write_guest_virtual m v (get_guest_cr3 supported (vcpu_vmcs v)) gva buf size.

(** ** Specification: guest memory byte by byte *)

(** The byte at a guest-virtual address: [None] if nothing is mapped there. *)
Definition guest_byte (m : mem) (guest_cr3 va : Z) : outcome (option Z) :=
  let! (gpa, _) := gva_to_gpa m guest_cr3 va 0 in
  if gpa =? 0 then Ok None
  else if gpa <? host_physical_size then Ok (Some (m gpa)) else Undefined.

(** The bytes from [va] up to the first that is not mapped, at most [n]. *)
Fixpoint guest_bytes (m : mem) (guest_cr3 va : Z) (n : nat) : outcome (list Z) :=
  match n with
  | O => Ok []
  | S n =>
      let! b := guest_byte m guest_cr3 va in
      match b with
      | None => Ok []
      | Some b => let! bs := guest_bytes m guest_cr3 (va + 1) n in Ok (b :: bs)
      end
  end.

(** ** Helper lemmas *)

Context `{!Ia32Ok ia32}.

Lemma gpa_range m cr3 va off gpa rest :
  gva_to_gpa m cr3 va off = Ok (gpa, rest) -> 0 <= gpa < 2 ^ 63.
Proof.
  rewrite gva_to_gpa_walk. destruct (walk_from m cr3 va) as [[[page shift] |] | |] eqn:E; cbn;
    [| by intros [= <- <-] | done | done].
  intros [= <- <-]. unfold walk_from in E. pose proof (walk_page_bound _ _ _ _ _ _ E).
  pose proof (walk_shift _ _ _ _ _ _ E) as [_ Hs].
  pose proof (Z.mod_pos_bound va (2 ^ shift) ltac:(apply Z.pow_pos_nonneg; lia)).
  pose proof (Z.pow_le_mono_r 2 shift 30 ltac:(lia) ltac:(lia)). lia.
Qed.

(** [gva_to_hva] in terms of [gva_to_gpa]. *)
Lemma gva_to_hva_eq m cr3 va off :
  gva_to_hva m cr3 va off =
    let! (gpa, rest) := gva_to_gpa m cr3 va off in
    Ok (if gpa =? 0 then 0 else host_physical_base + gpa, rest).
Proof.
  unfold gva_to_hva. destruct (gva_to_gpa m cr3 va off) as [[gpa rest] | |] eqn:E; cbn; [| done | done].
  apply gpa_range in E. destruct (gpa =? 0); [done |]. do 2 f_equal. apply wrap_small.
  change host_physical_base with 0x7F8000000000. lia.
Qed.

(** The bytes of one page. *)
Lemma guest_bytes_page m cr3 va gpa rest (n k : nat) :
  gva_to_gpa m cr3 va 0 = Ok (gpa, rest) -> gpa <> 0 -> Z.of_nat n <= rest ->
  (0 < n <= k)%nat ->
  guest_bytes m cr3 va k =
    if gpa + Z.of_nat n <=? host_physical_size
    then let! bs := guest_bytes m cr3 (va + Z.of_nat n) (k - n) in Ok (load m gpa (Z.of_nat n) ++ bs)
    else Undefined.
Proof.
  revert va gpa rest k. induction n as [| n IH]; intros va gpa rest k Ht Hne Hn Hk; [lia |].
  destruct k as [| k]; [lia |]. pose proof (gpa_range _ _ _ _ _ _ Ht) as Hg.
  cbn [guest_bytes]. unfold guest_byte at 1. rewrite Ht. cbn [obind].
  destruct (Z.eqb_spec gpa 0); [done |].
  destruct (Z.ltb_spec gpa host_physical_size) as [Hlt | Hge]; cbn [obind].
  2: { destruct (Z.leb_spec (gpa + Z.of_nat (S n)) host_physical_size); [lia | done]. }
  rewrite (load_cons m gpa (Z.of_nat (S n))) by lia.
  replace (Z.of_nat (S n) - 1) with (Z.of_nat n) by lia.
  destruct n as [| n].
  - destruct (Z.leb_spec (gpa + Z.of_nat 1) host_physical_size); [| lia].
    rewrite (load_nil _ _ (Z.of_nat 0)) by lia. cbn [Nat.sub]. rewrite Nat.sub_0_r.
    change (Z.of_nat 1) with 1. by destruct (guest_bytes m cr3 (va + 1) k).
  - destruct (contiguous_ok m cr3 va 0 gpa rest 1 Ht Hne ltac:(lia)) as [_ Ht1].
    rewrite (IH (va + 1) (gpa + 1) (rest - 1) k Ht1) by lia.
    replace (gpa + 1 + Z.of_nat (S n)) with (gpa + Z.of_nat (S (S n))) by lia.
    destruct (_ <=? _); [| done].
    replace (va + 1 + Z.of_nat (S n)) with (va + Z.of_nat (S (S n))) by lia.
    cbn [Nat.sub]. by destruct (guest_bytes m cr3 _ _).
Qed.

Lemma in_window_eq gpa n :
  0 <= gpa -> in_window (host_physical_base + gpa) n = (gpa + n <=? host_physical_size).
Proof. intros. unfold in_window. zcases; cbn [andb]; done. Qed.

(** Without faults, a run of the loop reads the bytes up to the first that is not
    mapped. *)
Lemma read_loop_ok fuel m v cr3 gva buf size total :
  (forall a n, copy_fault a n = None) -> exception_occurred (exn_info v) = false ->
  0 <= gva -> 0 <= total <= size -> gva + size <= 2 ^ 64 -> size <= Z.of_nat (length buf) ->
  (Z.to_nat (size - total) <= fuel)%nat ->
  read_loop fuel m v cr3 gva buf size total =
    let! bs := guest_bytes m cr3 (gva + total) (Z.to_nat (size - total)) in
    Ok (v, overlay buf total bs, total + Z.of_nat (length bs)).
Proof.
  intros Hnf Hne. revert buf total. induction fuel as [| fuel IH]; intros buf total Hg Ht Hw Hb Hf.
  - cbn [read_loop]. destruct (Z.ltb_spec total size); [lia |]. cbn [negb].
    replace (Z.to_nat (size - total)) with 0%nat by lia. cbn. unfold overlay. cbn.
    by rewrite Nat.add_0_r, take_drop, Z.add_0_r.
  - cbn [read_loop]. destruct (Z.ltb_spec total size) as [Hlt | Hge]; cbn [negb].
    2: { replace (Z.to_nat (size - total)) with 0%nat by lia. cbn. unfold overlay. cbn.
         by rewrite Nat.add_0_r, take_drop, Z.add_0_r. }
    assert (gva +64 total = gva + total) as -> by (apply wrap_small; lia).
    rewrite gva_to_hva_eq. set (k := Z.to_nat (size - total)).
    destruct (gva_to_gpa m cr3 (gva + total) 0) as [[gpa rest] | |] eqn:E; cbn [obind].
    2, 3: destruct k eqn:Ek; [lia |]; cbn [guest_bytes]; unfold guest_byte; by rewrite E.
    pose proof (gpa_range _ _ _ _ _ _ E) as Hr.
    destruct (Z.eqb_spec gpa 0) as [-> | Hnz].
    { cbn [Z.eqb]. destruct k eqn:Ek; [lia |]. cbn [guest_bytes]. unfold guest_byte. rewrite E. cbn.
      unfold overlay. cbn. by rewrite Nat.add_0_r, take_drop, Z.add_0_r. }
    destruct (Z.eqb_spec (host_physical_base + gpa) 0) as [Hz | _].
    { change host_physical_base with 0x7F8000000000 in Hz. lia. }
    pose proof (rest_positive _ _ _ _ _ _ E Hnz) as Hrest.
    set (n := Z.min (size - total) rest).
    assert (0 < n <= size - total) as Hn by lia.
    rewrite (guest_bytes_page m cr3 _ gpa rest (Z.to_nat n) k) by (done || lia).
    rewrite Z2Nat.id by lia. unfold copy_from. rewrite in_window_eq, Hnf by lia.
    destruct (gpa + n <=? host_physical_size); cbn [negb obind]; [| done].
    rewrite Hne, Z.add_simpl_l.
    assert (Z.of_nat (length (load m gpa n)) = n) as Hl by (rewrite load_length; lia).
    rewrite IH; [| lia | lia | lia | rewrite overlay_length; lia | lia].
    replace (Z.to_nat (size - (total + n))) with (k - Z.to_nat n)%nat by lia.
    rewrite Z.add_assoc. destruct (guest_bytes m cr3 _ _) as [bs | |]; cbn [obind]; [| done | done].
    do 2 f_equal; [f_equal |].
    + pose proof (overlay_overlay buf total (load m gpa n) bs) as Ho. rewrite Hl in Ho. apply Ho; lia.
    + rewrite length_app. lia.
Qed.

(** ** Writing to mapped memory *)

(** [size] bytes from [gva] are mapped to the physical addresses [g i]. *)
Definition mapped_range (m : mem) (cr3 gva size : Z) (g : Z -> Z) : Prop :=
  forall i, 0 <= i < size ->
    g i <> 0 /\ g i < host_physical_size /\
    exists rest, gva_to_gpa m cr3 (gva + i) 0 = Ok (g i, rest).

Definition outside (size : Z) (g : Z -> Z) (a : Z) : Prop := forall i, 0 <= i < size -> g i <> a.

(** The tables that translate the range are not part of it: overwriting the range
    does not change its translation. *)
Definition tables_apart (m : mem) (cr3 gva size : Z) (g : Z -> Z) : Prop :=
  forall m', (forall a, outside size g a -> m' a = m a) ->
  forall i, 0 <= i < size -> gva_to_gpa m' cr3 (gva + i) 0 = gva_to_gpa m cr3 (gva + i) 0.

Definition no_aliases (size : Z) (g : Z -> Z) : Prop :=
  forall i j, 0 <= i < size -> 0 <= j < size -> g i = g j -> i = j.

(** The first [n] bytes of the range hold those of [buf], the rest of memory is
    that of [m]. *)
Record written (m : mem) (g : Z -> Z) (size : Z) (buf : list Z) (n : Z) (m' : mem) : Prop := {
  written_bytes : forall i, 0 <= i < n -> m' (g i) = nth (Z.to_nat i) buf 0;
  written_frame : forall a, outside size g a -> m' a = m a
}.

Section write.
Variables (m : mem) (cr3 gva size : Z) (g : Z -> Z) (buf : list Z).
Hypothesis Hmap : mapped_range m cr3 gva size g.
Hypothesis Hapart : tables_apart m cr3 gva size g.
Hypothesis Halias : no_aliases size g.
Hypothesis Hgva : 0 <= gva.
Hypothesis Hwrap : gva + size <= 2 ^ 64.
Hypothesis Hbuf : size <= Z.of_nat (length buf).

(** The addresses of one chunk are consecutive. *)
Lemma chunk_addresses total rest d :
  0 <= total < size -> gva_to_gpa m cr3 (gva + total) 0 = Ok (g total, rest) ->
  0 <= d < Z.min (size - total) rest -> g (total + d) = g total + d.
Proof.
  intros Ht E Hd. destruct (Hmap total Ht) as (Hnz & _ & _).
  destruct (contiguous_ok m cr3 (gva + total) 0 (g total) rest d E Hnz ltac:(lia)) as [_ E2].
  destruct (Hmap (total + d) ltac:(lia)) as (_ & _ & rest' & E3).
  rewrite Z.add_assoc, E2 in E3. by injection E3.
Qed.

Lemma write_chunk m' total rest n :
  written m g size buf total m' -> 0 <= total < size ->
  gva_to_gpa m cr3 (gva + total) 0 = Ok (g total, rest) -> n = Z.min (size - total) rest -> 0 < n ->
  written m g size buf (total + n) (store m' (g total) (slice buf total n)).
Proof.
  intros [Hb Hf] Ht E -> Hn. set (n := Z.min _ _) in *.
  pose proof (slice_length buf total n ltac:(lia) ltac:(lia) ltac:(lia)) as Hl.
  pose proof (fun d => chunk_addresses total rest d Ht E) as Hg. fold n in Hg.
  split.
  - intros i Hi. destruct (Z.lt_ge_cases i total).
    + rewrite store_out; [apply Hb; lia |]. rewrite Hl.
      destruct (Z.lt_ge_cases (g i) (g total)); [by left |]. right.
      destruct (Z.le_gt_cases (g total + n) (g i)); [done |]. exfalso.
      assert (g (total + (g i - g total)) = g i) as E2 by (rewrite Hg; lia).
      apply Halias in E2; lia.
    + assert (g i = g total + (i - total)) as E2 by (rewrite <- Hg by lia; f_equal; lia).
      rewrite store_in by (rewrite Hl; lia). rewrite E2.
      replace (g total + (i - total) - g total) with (i - total) by lia.
      rewrite nth_slice by lia. f_equal. lia.
  - intros a Ha. rewrite store_out; [by apply Hf |]. rewrite Hl.
    destruct (Z.lt_ge_cases a (g total)); [by left |]. right.
    destruct (Z.le_gt_cases (g total + n) a); [done |]. exfalso.
    apply (Ha (total + (a - g total))); [lia |]. rewrite Hg; lia.
Qed.

Lemma write_loop_ok fuel v m' total :
  (forall a n, copy_fault a n = None) -> exception_occurred (exn_info v) = false ->
  written m g size buf total m' -> 0 <= total <= size ->
  (Z.to_nat (size - total) <= fuel)%nat ->
  exists m2, write_loop fuel m' v cr3 gva buf size total = Ok (m2, v, size) /\
    written m g size buf size m2.
Proof.
  intros Hnf Hne. revert m' total. induction fuel as [| fuel IH]; intros m' total Hw Ht Hf.
  - cbn [write_loop]. destruct (Z.ltb_spec total size); [lia |].
    exists m'. assert (total = size) as -> by lia. done.
  - cbn [write_loop]. destruct (Z.ltb_spec total size) as [Hlt | Hge]; cbn [negb].
    2: { exists m'. assert (total = size) as -> by lia. done. }
    assert (gva +64 total = gva + total) as -> by (apply wrap_small; lia).
    destruct (Hmap total ltac:(lia)) as (Hnz & _ & rest & E).
    rewrite gva_to_hva_eq, (Hapart m' (written_frame _ _ _ _ _ _ Hw)), E by lia. cbn [obind].
    destruct (Z.eqb_spec (g total) 0) as [|_]; [done |].
    pose proof (gpa_range _ _ _ _ _ _ E) as Hr.
    destruct (Z.eqb_spec (host_physical_base + g total) 0) as [Hz | _].
    { change host_physical_base with 0x7F8000000000 in Hz. lia. }
    pose proof (rest_positive _ _ _ _ _ _ E Hnz) as Hrest.
    set (n := Z.min (size - total) rest). unfold copy_to.
    rewrite in_window_eq, Hnf by lia.
    destruct (Hmap (total + (n - 1)) ltac:(lia)) as (_ & Hwin & _).
    rewrite (chunk_addresses total rest) in Hwin by (done || lia).
    destruct (Z.leb_spec (g total + n) host_physical_size); [| lia]. cbn [negb obind].
    rewrite Hne, Z.add_simpl_l. apply IH; [| lia | lia].
    apply (write_chunk m' total rest n Hw); done || lia.
Qed.

(** Reading the range back. *)
Lemma guest_bytes_written m' (k : nat) off :
  written m g size buf size m' -> 0 <= off -> off + Z.of_nat k = size ->
  guest_bytes m' cr3 (gva + off) k = Ok (slice buf off (Z.of_nat k)).
Proof.
  intros Hw. revert off. induction k as [| k IH]; intros off Ho Hk.
  { cbn [guest_bytes]. unfold slice. by rewrite take_0. }
  cbn [guest_bytes]. unfold guest_byte.
  destruct (Hmap off ltac:(lia)) as (Hnz & Hwin & rest & E).
  rewrite (Hapart m' (written_frame _ _ _ _ _ _ Hw)), E by lia. cbn [obind].
  destruct (Z.eqb_spec (g off) 0); [done |].
  destruct (Z.ltb_spec (g off) host_physical_size); [| lia]. cbn [obind].
  rewrite <- Z.add_assoc, IH by lia. cbn [obind]. f_equal.
  rewrite (written_bytes _ _ _ _ _ _ Hw) by lia. unfold slice.
  destruct (drop (Z.to_nat off) buf) as [| b l] eqn:Ed.
  { apply (f_equal length) in Ed. rewrite length_drop in Ed. cbn in Ed. lia. }
  replace (Z.to_nat (Z.of_nat (S k))) with (S k) by lia. cbn [firstn].
  assert (drop (Z.to_nat (off + 1)) buf = l) as ->.
  { replace (Z.to_nat (off + 1)) with (Z.to_nat off + 1)%nat by lia.
    by rewrite <- drop_drop, Ed. }
  rewrite Nat2Z.id. f_equal. rewrite nth_lookup.
  replace (Z.to_nat off) with (Z.to_nat off + 0)%nat by lia.
  by rewrite <- lookup_drop, Ed.
Qed.
End write.

Section piece.
Variables (m : mem) (cr3 gva size : Z) (g : Z -> Z) (buf : list Z).
Hypothesis Hmap : mapped_range m cr3 gva size g.
Hypothesis Hapart : tables_apart m cr3 gva size g.
Hypothesis Halias : no_aliases size g.
Hypothesis Hgva : 0 < gva.
Hypothesis Hwrap : gva + size <= 2 ^ 64.
Hypothesis Hbuf : size <= Z.of_nat (length buf).

(** Writing the next piece of the buffer, from the front of another, to its place
    in the range. *)
Lemma write_piece_ok v m' off n b :
  (forall a n, copy_fault a n = None) -> exception_occurred (exn_info v) = false ->
  written m g size buf off m' -> 0 <= off -> 0 < n -> off + n <= size ->
  n <= Z.of_nat (length b) -> slice b 0 n = slice buf off n ->
  exists m2, write_guest_virtual m' v cr3 (gva + off) b n = Ok (m2, v, n) /\
    written m g size buf (off + n) m2.
Proof.
  intros Hnf Hne Hw Ho Hn Hle Hbl Hbs. unfold write_guest_virtual.
  destruct (Z.eqb_spec (gva + off) 0); [lia |]. destruct (Z.eqb_spec n 0); [lia |]. cbn [orb].
  assert (forall a, outside n (fun i => g (off + i)) a \/ exists i, 0 <= i < n /\ g (off + i) = a) as Hcase.
  { intros a. destruct (existsb (fun i => g (off + i) =? a) (seqZ 0 n)) eqn:E.
    - right. apply existsb_exists in E as (i & Hi & E). exists i.
      apply list_elem_of_In, elem_of_seqZ in Hi. lia.
    - left. intros i Hi E2. apply not_true_iff_false in E. apply E, existsb_exists. exists i.
      split; [apply list_elem_of_In, elem_of_seqZ; lia | lia]. }
  assert (mapped_range m' cr3 (gva + off) n (fun i => g (off + i))) as Hmap'.
  { intros i Hi. destruct (Hmap (off + i) ltac:(lia)) as (H1 & H2 & rest & E). split; [done |].
    split; [done |]. exists rest. rewrite <- Z.add_assoc.
    by rewrite (Hapart m' (written_frame _ _ _ _ _ _ Hw)) by lia. }
  assert (tables_apart m' cr3 (gva + off) n (fun i => g (off + i))) as Hap'.
  { intros m2 Hm2 i Hi. rewrite <- Z.add_assoc. rewrite (Hapart m2) by
      (lia || (intros a Ha; rewrite Hm2; [by apply (written_frame _ _ _ _ _ _ Hw) |];
               intros j Hj; apply Ha; lia)).
    by rewrite (Hapart m' (written_frame _ _ _ _ _ _ Hw)) by lia. }
  destruct (write_loop_ok m' cr3 (gva + off) n (fun i => g (off + i)) b Hmap' Hap'
    ltac:(intros i j Hi Hj E; apply Halias in E; lia) ltac:(lia) ltac:(lia) ltac:(lia)
    (Z.to_nat n) v m' 0 Hnf Hne) as (m2 & E & Hb & Hf); [by split; [lia |] | lia | lia |].
  exists m2. split; [exact E |]. split.
  - intros i Hi. destruct (Z.lt_ge_cases i off).
    + rewrite Hf; [apply (written_bytes _ _ _ _ _ _ Hw); lia |].
      intros j Hj E2. apply Halias in E2; lia.
    + replace i with (off + (i - off)) by lia. rewrite Hb by lia.
      rewrite <- (nth_slice buf off n) by lia. rewrite <- Hbs. symmetry. apply (nth_slice b 0); lia.
  - intros a Ha. rewrite Hf; [by apply (written_frame _ _ _ _ _ _ Hw) |].
    intros j Hj. apply Ha. lia.
Qed.
End piece.

Lemma read_virtual_ok m v cr3 gva buf size :
  (forall a n, copy_fault a n = None) -> exception_occurred (exn_info v) = false ->
  0 < gva -> 0 < size <= Z.of_nat (length buf) -> gva + size <= 2 ^ 64 ->
  read_guest_virtual m v cr3 gva buf size =
    match guest_bytes m cr3 gva (Z.to_nat size) with
    | Ok bs => Ok (v, overlay buf 0 bs, Z.of_nat (length bs))
    | Crash => Crash
    | Undefined => Undefined
    end.
Proof.
  intros Hnf Hne Hg Hs Hw. unfold read_guest_virtual.
  destruct (Z.eqb_spec gva 0); [lia |]. destruct (Z.eqb_spec size 0); [lia |]. cbn [orb].
  rewrite read_loop_ok by (done || lia). rewrite Z.add_0_r, Z.sub_0_r.
  by destruct (guest_bytes _ _ _ _).
Qed.

Lemma guest_bytes_length m cr3 va n bs : guest_bytes m cr3 va n = Ok bs -> (length bs <= n)%nat.
Proof.
  revert va bs. induction n as [| n IH]; intros va bs; cbn [guest_bytes]; [by intros [= <-]; cbn |].
  destruct (guest_byte m cr3 va) as [[b |] | |]; cbn [obind]; try done; [| intros [= <-]; cbn; lia].
  destruct (guest_bytes m cr3 (va + 1) n) as [bs' | |] eqn:E; cbn [obind]; try done.
  intros [= <-]. apply IH in E. cbn. lia.
Qed.

(** Writing a mapped range, from the front of a buffer. *)
Lemma write_virtual_ok m v cr3 gva size g buf :
  (forall a n, copy_fault a n = None) -> exception_occurred (exn_info v) = false ->
  0 < gva -> 0 < size <= Z.of_nat (length buf) -> gva + size <= 2 ^ 64 ->
  mapped_range m cr3 gva size g -> tables_apart m cr3 gva size g -> no_aliases size g ->
  exists m', write_guest_virtual m v cr3 gva buf size = Ok (m', v, size) /\ written m g size buf size m'.
Proof.
  intros Hnf Hne Hg Hs Hw Hmap Hap Hal. unfold write_guest_virtual.
  destruct (Z.eqb_spec gva 0); [lia |]. destruct (Z.eqb_spec size 0); [lia |]. cbn [orb].
  apply write_loop_ok; try done; try lia. by split; [lia |].
Qed.

(** Without faults, an access to guest memory leaves the core alone, whatever is
    mapped. *)
Lemma read_loop_core fuel m v cr3 gva buf size total :
  (forall a n, copy_fault a n = None) -> exception_occurred (exn_info v) = false ->
  ensures (fun r => r.1.1 = v) (read_loop fuel m v cr3 gva buf size total).
Proof.
  intros Hnf Hne. revert buf total.
  induction fuel as [| fuel IH]; intros buf total; cbn [read_loop]; destruct (total <? size); cbn [negb].
  - exact I.
  - reflexivity.
  - destruct (gva_to_hva m cr3 _ 0) as [[hva n] | |]; cbn [obind]; [| exact I | exact I].
    destruct (hva =? 0); [reflexivity |].
    unfold copy_from. destruct (in_window _ _); cbn [negb]; [| exact I]. rewrite Hnf. cbn [obind].
    rewrite Hne. apply IH.
  - reflexivity.
Qed.

Lemma read_virtual_core m v cr3 gva buf size :
  (forall a n, copy_fault a n = None) -> exception_occurred (exn_info v) = false ->
  ensures (fun r => r.1.1 = v) (read_guest_virtual m v cr3 gva buf size).
Proof.
  intros Hnf Hne. unfold read_guest_virtual. destruct ((gva =? 0) || (size =? 0)); [reflexivity |].
  apply read_loop_core; assumption.
Qed.

Lemma write_loop_core fuel m v cr3 gva buf size total :
  (forall a n, copy_fault a n = None) -> exception_occurred (exn_info v) = false ->
  ensures (fun r => r.1.2 = v) (write_loop fuel m v cr3 gva buf size total).
Proof.
  intros Hnf Hne. revert m total.
  induction fuel as [| fuel IH]; intros m total; cbn [write_loop]; destruct (total <? size); cbn [negb].
  - exact I.
  - reflexivity.
  - destruct (gva_to_hva m cr3 _ 0) as [[hva n] | |]; cbn [obind]; [| exact I | exact I].
    destruct (hva =? 0); [reflexivity |].
    unfold copy_to. destruct (in_window _ _); cbn [negb]; [| exact I]. rewrite Hnf. cbn [obind].
    rewrite Hne. apply IH.
  - reflexivity.
Qed.

Lemma write_virtual_core m v cr3 gva buf size :
  (forall a n, copy_fault a n = None) -> exception_occurred (exn_info v) = false ->
  ensures (fun r => r.1.2 = v) (write_guest_virtual m v cr3 gva buf size).
Proof.
  intros Hnf Hne. unfold write_guest_virtual. destruct ((gva =? 0) || (size =? 0)); [reflexivity |].
  apply write_loop_core; assumption.
Qed.

(** The entries a walk reads; memory that agrees on them translates alike. *)
Fixpoint walk_entries (m : mem) (level : nat) (table gva : Z) : list Z :=
  match level with
  | O => []
  | S l =>
      let shift := 12 + 9 * Z.of_nat l in
      let a := table + gva / 2 ^ shift mod 512 * 8 in
      let e := read64 m a in
      if (host_physical_size <=? table) then [] else
      a :: (if negb (present e) || (l =? 0)%nat || ((l <=? 2)%nat && large_page e) then []
            else walk_entries m l (frame_address (page_frame_number e)) gva)
  end.

Lemma walk_agree m m' level table gva :
  (forall a, In a (walk_entries m level table gva) -> read64 m' a = read64 m a) ->
  walk m' level table gva = walk m level table gva.
Proof.
  revert table. induction level as [| l IH]; intros table Ha; [done |].
  cbn [walk walk_entries] in *. destruct (_ <=? table); [done |].
  rewrite (Ha (table + gva / 2 ^ (12 + 9 * Z.of_nat l) mod 512 * 8)) by (by left).
  set (e := read64 m _) in *. destruct (present e); cbn [negb orb] in *; [| done].
  destruct (_ || _); [done |]. apply IH. intros a Hin. apply Ha. by right.
Qed.

Lemma tables_apart_of_entries m cr3 gva size g :
  (forall i j, 0 <= i < size -> 0 <= j < size ->
     Forall (fun a => g j < a \/ a + 8 <= g j)
       (walk_entries m 4 (frame_address (address_of_page_directory cr3)) (gva + i))) ->
  tables_apart m cr3 gva size g.
Proof.
  intros He m' Hm' i Hi. rewrite !gva_to_gpa_walk. unfold walk_from. rewrite (walk_agree m m'); [done |].
  intros a Ha. unfold read64. f_equal. apply load_ext. intros k Hk. apply Hm'.
  intros j Hj E. specialize (He i j Hi Hj). rewrite List.Forall_forall in He.
  specialize (He a Ha). lia.
Qed.

(** ** Properties *)

(** Reading guest memory returns exactly the bytes up to the first one that
    is not mapped, at most [size], whatever pages they span, and their number;
    the rest of the buffer and the core's state are untouched. The loop always
    ends. (No copy faults.) *)
Theorem read_guest_virtual_spec m v cr3 gva buf size :
  (forall a n, copy_fault a n = None) -> exception_occurred (exn_info v) = false ->
  0 < gva -> 0 < size <= Z.of_nat (length buf) -> gva + size <= 2 ^ 64 ->
  read_guest_virtual m v cr3 gva buf size =
    match guest_bytes m cr3 gva (Z.to_nat size) with
    | Ok bs => Ok (v, overlay buf 0 bs, Z.of_nat (length bs))
    | Crash => Crash
    | Undefined => Undefined
    end.
Proof. apply read_virtual_ok. Qed.

(** Round trip: writing a buffer to a mapped range whose pages do not alias
    each other or the page tables succeeds completely, changes no other byte of
    physical memory, and reading the range back gives the buffer. *)
Theorem write_read_guest_virtual m v cr3 gva size g buf buf' :
  (forall a n, copy_fault a n = None) -> exception_occurred (exn_info v) = false ->
  0 < gva -> 0 < size -> gva + size <= 2 ^ 64 ->
  Z.of_nat (length buf) = size -> Z.of_nat (length buf') = size ->
  mapped_range m cr3 gva size g -> tables_apart m cr3 gva size g -> no_aliases size g ->
  exists m', write_guest_virtual m v cr3 gva buf size = Ok (m', v, size) /\
    (forall a, outside size g a -> m' a = m a) /\
    read_guest_virtual m' v cr3 gva buf' size = Ok (v, buf, size).
Proof.
  intros Hnf Hne Hg Hs Hw Hb Hb' Hmap Hap Hal.
  destruct (write_loop_ok m cr3 gva size g buf Hmap Hap Hal ltac:(lia) Hw ltac:(lia)
    (Z.to_nat size) v m 0) as (m' & E & Hwr); [done | done | | lia | lia |].
  { split; [lia | done]. }
  exists m'. unfold write_guest_virtual, read_guest_virtual.
  destruct (Z.eqb_spec gva 0); [lia |]. destruct (Z.eqb_spec size 0); [lia |]. cbn [orb].
  split; [done |]. split; [apply (written_frame _ _ _ _ _ _ Hwr) |].
  rewrite read_loop_ok by (done || lia). rewrite Z.sub_0_r.
  rewrite (guest_bytes_written m cr3 gva size g buf Hmap Hap ltac:(lia) m' (Z.to_nat size) 0 Hwr)
    by lia.
  cbn [obind]. rewrite Z2Nat.id by lia.
  assert (slice buf 0 size = buf) as ->.
  { unfold slice. change (Z.to_nat 0) with 0%nat. rewrite drop_0. apply take_ge. lia. }
  do 2 f_equal; [f_equal |]; [| lia].
  unfold overlay. change (Z.to_nat 0) with 0%nat. rewrite take_0, drop_ge by lia.
  by rewrite app_nil_r.
Qed.
End introspection.

(** ** Instances at concrete inputs *)

(** The page at 1000H of the sample address space is the frame at 9000H. *)
Lemma sample_walk_entries o :
  0 <= o < 4096 -> walk_entries sample_tables 4 (frame_address (address_of_page_directory 0x1000)) (0x1000 + o) =
    [0x1000; 0x2000; 0x3000; 0x4008].
Proof.
  intros Ho. apply (bool_decide_unpack _).
  assert (forallb (fun o => bool_decide (walk_entries sample_tables 4
    (frame_address (address_of_page_directory 0x1000)) (0x1000 + o) = [0x1000; 0x2000; 0x3000; 0x4008]))
    (seqZ 0 4096) = true) as H by (vm_compute; reflexivity).
  rewrite List.forallb_forall in H. apply Is_true_true, H, list_elem_of_In, elem_of_seqZ. lia.
Qed.

Lemma sample_page m off n :
  (forall a, a < 0x9000 \/ 0xA000 <= a -> m a = sample_tables a) ->
  0 <= off -> 0 <= n -> off + n <= 4096 ->
  let g i := 0x9000 + off + i in
  mapped_range m 0x1000 (0x1000 + off) n g /\
  tables_apart m 0x1000 (0x1000 + off) n g /\ no_aliases n g.
Proof.
  intros Hm Ho Hn Hle g.
  assert (tables_apart sample_tables 0x1000 0x1000 4096 (fun i => 0x9000 + i)) as Hap.
  { apply tables_apart_of_entries. intros i j Hi Hj. rewrite sample_walk_entries by lia.
    repeat constructor; lia. }
  assert (forall m', (forall a, a < 0x9000 \/ 0xA000 <= a -> m' a = sample_tables a) -> forall i, 0 <= i < n ->
    gva_to_gpa m' 0x1000 (0x1000 + off + i) 0 = Ok (0x9000 + off + i, 0x1000 - (off + i))) as Ht.
  { intros m' Hm' i Hi. rewrite <- Z.add_assoc, (Hap m').
    - assert (gva_to_gpa sample_tables 0x1000 0x1000 0 = Ok (0x9000, 0x1000)) as E by (vm_compute; reflexivity).
      destruct (contiguous_ok _ _ _ _ _ _ (off + i) E ltac:(lia) ltac:(lia)) as [_ E2]. rewrite E2.
      by rewrite Z.add_assoc.
    - intros a Ha. apply Hm'. destruct (Z.lt_ge_cases a 0x9000); [by left |].
      destruct (Z.lt_ge_cases a 0xA000); [| by right]. exfalso. apply (Ha (a - 0x9000)); lia.
    - lia. }
  split; [| split].
  - intros i Hi. unfold g. change host_physical_size with 0x8000000000. split; [lia |]. split; [lia |].
    eexists. by apply Ht.
  - intros m' Hm' i Hi. rewrite !Ht; [done | done | done | | done]. intros a Ha. rewrite Hm'; [by apply Hm |].
    intros j Hj. unfold g. lia.
  - intros i j _ _. unfold g. lia.
Qed.

Lemma read_guest_virtual_spec_witness :
  exists buf, read_guest_virtual (fun _ => true) (fun _ => 0) 0 (fun _ _ => None) sample_tables
    zero_vcpu 0x1000 0x1FF0 (repeat 7 32) 32 = Ok (zero_vcpu, buf, 16).
Proof.
  pose proof (read_guest_virtual_spec (fun _ => true) (fun _ => 0) 0 (fun _ _ => None) sample_tables
    zero_vcpu 0x1000 0x1FF0 (repeat 7 32) 32) as H.
  specialize (H ltac:(reflexivity) ltac:(reflexivity) ltac:(lia) ltac:(cbn; lia) ltac:(lia)).
  assert (guest_bytes sample_tables 0x1000 0x1FF0 (Z.to_nat 32) = Ok (repeat 0 16)) as E
    by (vm_compute; reflexivity).
  rewrite E in H. exists (overlay (repeat 7 32) 0 (repeat 0 16)). exact H.
Defined.

Lemma write_read_guest_virtual_witness :
  exists m', write_guest_virtual (fun _ => true) (fun _ => 0) 0 (fun _ _ => None) sample_tables
      zero_vcpu 0x1000 0x1FFE [0xAA; 0xBB] 2 = Ok (m', zero_vcpu, 2) /\
    read_guest_virtual (fun _ => true) (fun _ => 0) 0 (fun _ _ => None) m'
      zero_vcpu 0x1000 0x1FFE [0; 0] 2 = Ok (zero_vcpu, [0xAA; 0xBB], 2).
Proof.
  destruct (write_read_guest_virtual (fun _ => true) (fun _ => 0) 0 (fun _ _ => None) sample_tables
    zero_vcpu 0x1000 0x1FFE 2 (fun i => 0x9FFE + i) [0xAA; 0xBB] [0; 0]) as (m' & Hw & _ & Hr).
  1, 2: reflexivity.
  1, 2, 3: lia.
  1, 2: reflexivity.
  - intros i Hi. split; [lia |]. split; [unfold host_physical_size; lia |].
    assert (i = 0 \/ i = 1) as [-> | ->] by lia; eexists; vm_compute; reflexivity.
  - apply tables_apart_of_entries. intros i j Hi Hj.
    set (l := walk_entries _ _ _ _).
    assert (l = [0x1000; 0x2000; 0x3000; 0x4008]) as ->.
    { unfold l. assert (i = 0 \/ i = 1) as [-> | ->] by lia; vm_compute; reflexivity. }
    repeat constructor; lia.
  - intros i j _ _. lia.
  - exists m'. split; assumption.
Defined.
