(* ===== verification/Format.v ===== *)
(** * Formatting of messages: [revhv-km/format.cpp]

    The formatter behind the hypervisor's log: its loop over the format string
    with the arguments, the digits of an integer, and the proof that it writes
    a prefix of the rendered text, with its terminator, and nothing else. *)
From Stdlib Require Import ZArith Lia List Bool String Ascii.
From stdpp Require Import base numbers list option functions.
From S2P Require Import Prelude Memory.

(** A variable argument: the 64-bit slot of an integer or pointer, or a
    [const char*]. *)
Inductive argument := arg_int (x : Z) | arg_str (s : list Z).

(** [buffer[i] = c]. *)
Definition put (buf : list Z) (i c : Z) : outcome (list Z) :=
  if (0 <=? i) && (i <? Z.of_nat (length buf)) then Ok (<[Z.to_nat i := c]> buf) else Undefined.

(** The loop that appends characters while the position is below a limit: the
    buffer and the next position. *)
Fixpoint copy_chars (buf : list Z) (pos limit : Z) (src : list Z) : outcome (list Z * Z) :=
  match src with
  | [] => Ok (buf, pos)
  | c :: src =>
      if pos <? limit then
        let! buf := put buf pos c in copy_chars buf (pos + 1) limit src
      else Ok (buf, pos)
  end.

(** [digits[d]]. *)
Definition digit (d : Z) : Z := nth (Z.to_nat d) (bytes "0123456789abcdef") 0.

(** [temp[0 .. i)]: the digits, least significant first; the 32 entries of [temp]
    bound the loop. *)
Fixpoint digits_loop (room : nat) (value base : Z) : list Z :=
  match room with
  | O => []
  | S room =>
      digit (value mod base) ::
        if 0 <? value / base then digits_loop room (value / base) base else []
  end.

(** [int_to_str(buffer + off, max_size, value, base, is_negative)]: the buffer and
    the returned length. *)
Definition int_to_str (buf : list Z) (off max_size value base : Z) (is_negative : bool)
    : outcome (list Z * Z) :=
  if max_size =? 0 then Ok (buf, 0) else
  let limit := off + (max_size - 1) in
  let! (buf, pos) :=
    if is_negative && (base =? 10) && (0 <? value)
    then copy_chars buf off limit [chr "-"] else Ok (buf, off) in
  let! (buf, pos) := copy_chars buf pos limit (rev (digits_loop 32 value base)) in
  Ok (buf, pos - off).

(** [va_arg(args, int)] or [va_arg(args, intptr_t)]; and the unsigned types. *)
Definition va_signed (isLongLong : bool) (x : Z) : Z := if isLongLong then signed 64 x else signed 32 x.
Definition va_unsigned (isLongLong : bool) (x : Z) : Z := if isLongLong then u64 x else u32 x.

Section format.
Variables (off max_size : Z).

(** One conversion, after [%] and the length modifier: the buffer, the position
    and the arguments left. Too few arguments, an argument of the wrong kind and
    the negation of the least integer are undefined. *)
Definition convert (isLongLong : bool) (c : Z) (buf : list Z) (pos : Z) (args : list argument)
    : outcome (list Z * Z * list argument) :=
  let number buf pos value base is_negative args :=
    let! (buf, n) := int_to_str buf (off + pos) (sub64 max_size pos) value base is_negative in
    Ok (buf, pos + n, args) in
  if c =? chr "s" then
    match args with
    | arg_str s :: args =>
        let! (buf, p) := copy_chars buf (off + pos) (off + (max_size - 1)) s in
        Ok (buf, p - off, args)
    | arg_int 0 :: args =>
        let! (buf, p) := copy_chars buf (off + pos) (off + (max_size - 1)) (bytes "(null)") in
        Ok (buf, p - off, args)
    | _ => Undefined
    end
  else if (c =? chr "d") || (c =? chr "i") then
    match args with
    | arg_int x :: args =>
        let val := va_signed isLongLong x in
        if val =? - 2 ^ 63 then Undefined
        else number buf pos (if val <? 0 then - val else val) 10 (val <? 0) args
    | _ => Undefined
    end
  else if c =? chr "u" then
    match args with
    | arg_int x :: args => number buf pos (va_unsigned isLongLong x) 10 false args
    | _ => Undefined
    end
  else if c =? chr "x" then
    match args with
    | arg_int x :: args => number buf pos (va_unsigned isLongLong x) 16 false args
    | _ => Undefined
    end
  else if c =? chr "p" then
    match args with
    | arg_int x :: args =>
        let! (buf, pos) :=
          if pos <? sub64 max_size 3 then
            let! buf := put buf (off + pos) (chr "0") in
            let! buf := put buf (off + (pos + 1)) (chr "x") in
            Ok (buf, pos + 2)
          else Ok (buf, pos) in
        number buf pos (u64 x) 16 false args
    | _ => Undefined
    end
  else
    let! buf := put buf (off + pos) c in Ok (buf, pos + 1, args).

(** The loop over the format string; a format that ends inside a conversion is
    read past its terminator. *)
Fixpoint format_loop (p : list Z) (buf : list Z) (pos : Z) (args : list argument)
    : outcome (list Z * Z) :=
  match p with
  | [] => Ok (buf, pos)
  | c :: p1 =>
      if negb (pos <? max_size - 1) then Ok (buf, pos)
      else if negb (c =? chr "%") then
        let! buf := put buf (off + pos) c in format_loop p1 buf (pos + 1) args
      else
        match p1 with
        | [] => Undefined
        | c1 :: p2 =>
            if negb (c1 =? chr "l") then
              let! (buf, pos, args) := convert false c1 buf pos args in
              format_loop p2 buf pos args
            else
              match p2 with
              | [] => Undefined
              | c2 :: p3 =>
                  if negb (c2 =? chr "l") then
                    let! (buf, pos, args) := convert false c2 buf pos args in
                    format_loop p3 buf pos args
                  else
                    match p3 with
                    | [] => Undefined
                    | c3 :: p4 =>
                        let! (buf, pos, args) := convert true c3 buf pos args in
                        format_loop p4 buf pos args
                    end
              end
        end
  end.

(** [format(format, buffer + off, max_size, args)]: the buffer and the returned
    length. *)
Definition format (fmt : list Z) (buf : list Z) (args : list argument) : outcome (list Z * Z) :=
  if max_size =? 0 then Ok (buf, 0) else
  let! (buf, pos) := format_loop fmt buf 0 args in
  let! buf := put buf (off + pos) 0 in
  Ok (buf, pos).
End format.

(** ** Specification: the rendered text *)

Inductive piece := literal (c : Z) | conversion (isLongLong : bool) (c : Z).

(** The pieces of a format string; [None] if it ends inside a conversion. *)
Fixpoint pieces (fmt : list Z) : option (list piece) :=
  match fmt with
  | [] => Some []
  | c :: p1 =>
      if negb (c =? chr "%") then cons (literal c) <$> pieces p1 else
      match p1 with
      | [] => None
      | c1 :: p2 =>
          if negb (c1 =? chr "l") then cons (conversion false c1) <$> pieces p2 else
          match p2 with
          | [] => None
          | c2 :: p3 =>
              if negb (c2 =? chr "l") then cons (conversion false c2) <$> pieces p3 else
              match p3 with
              | [] => None
              | c3 :: p4 => cons (conversion true c3) <$> pieces p4
              end
          end
      end
  end.

(** The numeral of an integer. *)
Definition number_text (value base : Z) (is_negative : bool) : list Z :=
  (if is_negative && (base =? 10) && (0 <? value) then [chr "-"] else []) ++
  rev (digits_loop 32 value base).

(** The text of a conversion and the arguments left; the prefix of a pointer is
    dropped where it does not fit. *)
Definition conversion_text (isLongLong : bool) (c : Z) (prefix : bool) (args : list argument)
    : option (list Z * list argument) :=
  if c =? chr "s" then
    match args with
    | arg_str s :: args => Some (s, args)
    | arg_int 0 :: args => Some (bytes "(null)", args)
    | _ => None
    end
  else if (c =? chr "d") || (c =? chr "i") then
    match args with
    | arg_int x :: args =>
        let val := va_signed isLongLong x in
        if val =? - 2 ^ 63 then None else Some (number_text (Z.abs val) 10 (val <? 0), args)
    | _ => None
    end
  else if c =? chr "u" then
    match args with
    | arg_int x :: args => Some (number_text (va_unsigned isLongLong x) 10 false, args)
    | _ => None
    end
  else if c =? chr "x" then
    match args with
    | arg_int x :: args => Some (number_text (va_unsigned isLongLong x) 16 false, args)
    | _ => None
    end
  else if c =? chr "p" then
    match args with
    | arg_int x :: args =>
        Some ((if prefix then bytes "0x" else []) ++ number_text (u64 x) 16 false, args)
    | _ => None
    end
  else Some ([c], args).

(** The whole text, from position [pos] of a buffer of [max_size] bytes. *)
Fixpoint render (max_size pos : Z) (ps : list piece) (args : list argument) : option (list Z) :=
  match ps with
  | [] => Some []
  | literal c :: ps => cons c <$> render max_size (pos + 1) ps args
  | conversion isLongLong c :: ps =>
      match conversion_text isLongLong c (pos <? max_size - 3) args with
      | Some (x, args) => app x <$> render max_size (pos + Z.of_nat (length x)) ps args
      | None => None
      end
  end.

(** ** Proofs *)

Section spec.
Variables (off max_size : Z) (buf : list Z).
Hypothesis Hmax : 3 <= max_size < 2 ^ 64.
Hypothesis Hoff : 0 <= off.
Hypothesis Hbuf : off + max_size <= Z.of_nat (length buf).

(** The buffer and the position when the text [t] has been produced. *)
Definition shown (t : list Z) : list Z := take (Z.to_nat (max_size - 1)) t.
Abbreviation len l := (Z.of_nat (length l)).

Lemma shown_length t : len (shown t) = Z.min (max_size - 1) (len t).
Proof. unfold shown. rewrite length_take. lia. Qed.

Lemma shown_id t : len t <= max_size - 1 -> shown t = t.
Proof. intros. unfold shown. apply take_ge. lia. Qed.

Lemma shown_full t t' : max_size - 1 <= len t -> shown (t ++ t') = shown t.
Proof. intros. unfold shown. apply take_app_le. lia. Qed.

Lemma put_ok t c :
  len t < max_size -> put (overlay buf off t) (off + len t) c = Ok (overlay buf off (t ++ [c])).
Proof.
  intros Ht. unfold put. rewrite overlay_length by lia.
  destruct (Z.leb_spec 0 (off + len t)), (Z.ltb_spec (off + len t) (len buf)); try lia. cbn [andb].
  f_equal. rewrite <- overlay_overlay by (rewrite ?length_app; cbn; lia).
  rewrite insert_take_drop by (rewrite overlay_length; lia).
  unfold overlay at 3. cbn [length app]. do 3 f_equal. lia.
Qed.

Lemma copy_chars_ok t n limit src :
  len t <= n <= max_size - 1 -> limit = off + n ->
  copy_chars (overlay buf off t) (off + len t) limit src =
    let out := take (Z.to_nat n) (t ++ src) in Ok (overlay buf off out, off + len out).
Proof.
  intros Ht ->. revert t Ht. induction src as [| c src IH]; intros t Ht; cbn [copy_chars].
  - rewrite app_nil_r, take_ge by lia. done.
  - destruct (Z.ltb_spec (off + len t) (off + n)).
    + rewrite put_ok by lia. cbn [obind].
      replace (off + len t + 1) with (off + len (t ++ [c])) by (rewrite length_app; cbn; lia).
      rewrite IH by (rewrite length_app; cbn; lia). by rewrite <- app_assoc.
    + rewrite take_app_le, take_ge by lia. done.
Qed.

(** A number written after [t], below the limit of the rest of the buffer. *)
Lemma int_to_str_ok t value base is_negative :
  len t <= max_size - 1 ->
  int_to_str (overlay buf off t) (off + len t) (sub64 max_size (len t)) value base is_negative =
    let out := shown (t ++ number_text value base is_negative) in
    Ok (overlay buf off out, len out - len t).
Proof.
  intros Ht. unfold int_to_str, sub64. rewrite wrap_small by lia.
  destruct (Z.eqb_spec (max_size - len t) 0); [lia |]. cbv zeta.
  replace (off + len t + (max_size - len t - 1)) with (off + (max_size - 1)) by lia.
  unfold number_text. destruct (is_negative && _ && _).
  - rewrite (copy_chars_ok t (max_size - 1)) by lia. cbv zeta. cbn [obind].
    fold (shown (t ++ [chr "-"])). rewrite (copy_chars_ok _ (max_size - 1)); [| | done].
    2: { rewrite shown_length. lia. }
    cbv zeta. cbn [obind]. fold (shown (shown (t ++ [chr "-"]) ++ rev (digits_loop 32 value base))).
    assert (shown (shown (t ++ [chr "-"]) ++ rev (digits_loop 32 value base)) =
            shown (t ++ [chr "-"] ++ rev (digits_loop 32 value base))) as ->.
    { rewrite (app_assoc t). destruct (Z.le_gt_cases (len (t ++ [chr "-"])) (max_size - 1)).
      - by rewrite (shown_id (t ++ [chr "-"])) by lia.
      - rewrite (shown_full (shown _)), (shown_full (t ++ [chr "-"])) by (rewrite ?shown_length; lia).
        apply shown_id. rewrite shown_length. lia. }
    do 2 f_equal. lia.
  - cbn [obind app]. rewrite (copy_chars_ok t (max_size - 1)) by lia. cbv zeta. cbn [obind].
    unfold shown. do 2 f_equal. lia.
Qed.

Lemma conversion_ok isLongLong c t args x args' :
  len t < max_size - 1 ->
  conversion_text isLongLong c (len t <? max_size - 3) args = Some (x, args') ->
  convert off max_size isLongLong c (overlay buf off t) (len t) args =
    let out := shown (t ++ x) in Ok (overlay buf off out, len out, args').
Proof.
  intros Ht Hx. unfold convert. unfold conversion_text in Hx.
  assert (forall s, copy_chars (overlay buf off t) (off + len t) (off + (max_size - 1)) s =
    Ok (overlay buf off (shown (t ++ s)), off + len (shown (t ++ s)))) as Hs.
  { intros s. apply (copy_chars_ok t (max_size - 1)); [lia | done]. }
  assert (forall value base neg,
    int_to_str (overlay buf off t) (off + len t) (sub64 max_size (len t)) value base neg =
    Ok (overlay buf off (shown (t ++ number_text value base neg)),
        len (shown (t ++ number_text value base neg)) - len t)) as Hn.
  { intros. apply int_to_str_ok. lia. }
  destruct (c =? chr "s").
  { destruct args as [| [[| x0 | x0] | s] args]; try done; injection Hx as <- <-; rewrite Hs; cbn [obind];
      do 3 f_equal; lia. }
  destruct (_ || _).
  { destruct args as [| [x0 | s] args]; try done. cbv zeta in *.
    destruct (_ =? - 2 ^ 63); [done |]. injection Hx as <- <-.
    replace (if va_signed isLongLong x0 <? 0 then - va_signed isLongLong x0 else va_signed isLongLong x0)
      with (Z.abs (va_signed isLongLong x0)) by (zcases; lia).
    rewrite Hn. cbn [obind]. do 3 f_equal. lia. }
  destruct (c =? chr "u").
  { destruct args as [| [x0 | s] args]; try done. injection Hx as <- <-. rewrite Hn. cbn [obind].
    do 3 f_equal. lia. }
  destruct (c =? chr "x").
  { destruct args as [| [x0 | s] args]; try done. injection Hx as <- <-. rewrite Hn. cbn [obind].
    do 3 f_equal. lia. }
  destruct (c =? chr "p").
  { destruct args as [| [x0 | s] args]; try done. cbv zeta in *. injection Hx as <- <-.
    assert (sub64 max_size 3 = max_size - 3) as -> by (apply wrap_small; lia).
    destruct (Z.ltb_spec (len t) (max_size - 3)).
    - change (bytes "0x") with [chr "0"; chr "x"]. rewrite put_ok by lia. cbn [obind].
      replace (off + (len t + 1)) with (off + len (t ++ [chr "0"])) by (rewrite length_app; cbn; lia).
      assert (len (t ++ [chr "0"]) = len t + 1) as E1 by (rewrite length_app; cbn; lia).
      rewrite put_ok by lia. cbn [obind]. rewrite <- app_assoc. cbn [app].
      assert (len (t ++ [chr "0"; chr "x"]) = len t + 2) as E2 by (rewrite length_app; cbn; lia).
      rewrite <- E2, int_to_str_ok by lia. cbv zeta. cbn [obind].
      rewrite <- app_assoc. cbn [app]. do 3 f_equal. lia.
    - cbn [obind app]. rewrite Hn. cbn [obind]. do 3 f_equal. lia. }
  injection Hx as <- <-. rewrite put_ok by lia. cbn [obind]. cbv zeta.
  rewrite shown_id by (rewrite length_app; cbn; lia). rewrite length_app. cbn [length]. do 3 f_equal. lia.
Qed.

Lemma format_loop_full p b args : format_loop off max_size p b (max_size - 1) args = Ok (b, max_size - 1).
Proof. destruct p as [| c p]; [done |]. cbn [format_loop]. by destruct (Z.ltb_spec (max_size - 1) (max_size - 1)); [lia |]. Qed.

(** The loop, once the text [t] has been written. *)
Lemma format_loop_ok p ps t args text :
  pieces p = Some ps -> len t <= max_size - 1 -> render max_size (len t) ps args = Some text ->
  format_loop off max_size p (overlay buf off t) (len t) args =
    let out := shown (t ++ text) in Ok (overlay buf off out, len out).
Proof.
  remember (length p) as n eqn:En. assert (length p <= n)%nat as Hp by lia. clear En.
  revert p ps t args text Hp.
  induction n as [| n IH]; intros p ps t args text Hp Hps Ht Hr.
  { destruct p; [| cbn in Hp; lia]. injection Hps as <-. injection Hr as <-. cbn [format_loop].
    rewrite app_nil_r, shown_id by lia. done. }
  destruct (Z.eq_dec (len t) (max_size - 1)) as [Hfull | Hroom].
  { rewrite Hfull, format_loop_full, shown_full by lia. cbv zeta. rewrite shown_id by lia. by rewrite Hfull. }
  assert (forall isLongLong c q ps', (length q <= n)%nat -> pieces q = Some ps' ->
    render max_size (len t) (conversion isLongLong c :: ps') args = Some text ->
    (let! (buf, pos, args) := convert off max_size isLongLong c (overlay buf off t) (len t) args in
     format_loop off max_size q buf pos args) =
    Ok (overlay buf off (shown (t ++ text)), len (shown (t ++ text)))) as Hconv.
  { intros ll c q ps' Hq Hps' Hr'. cbn [render] in Hr'.
    destruct (conversion_text ll c (len t <? max_size - 3) args) as [[x args'] |] eqn:Ex; [| done].
    apply fmap_Some in Hr' as (text' & Hr' & ->).
    rewrite (conversion_ok ll c t args x args') by (done || lia). cbv zeta. cbn [obind]. rewrite app_assoc.
    destruct (Z.le_gt_cases (len (t ++ x)) (max_size - 1)).
    - rewrite (shown_id (t ++ x)) by lia. rewrite (IH q ps' (t ++ x) args' text'); try done.
      by rewrite length_app, Nat2Z.inj_add.
    - assert (len (shown (t ++ x)) = max_size - 1) as -> by (rewrite shown_length; lia).
      rewrite format_loop_full, (shown_full (t ++ x)) by lia. rewrite shown_length. do 2 f_equal. lia. }
  destruct p as [| c p1]; cbn [pieces format_loop] in *.
  { injection Hps as <-. injection Hr as <-. rewrite app_nil_r, shown_id by lia. done. }
  destruct (Z.ltb_spec (len t) (max_size - 1)); [| lia]. cbn [negb].
  destruct (c =? chr "%"); cbn [negb] in *.
  - destruct p1 as [| c1 p2]; [done |]. destruct (c1 =? chr "l"); cbn [negb] in *.
    + destruct p2 as [| c2 p3]; [done |]. destruct (c2 =? chr "l"); cbn [negb] in *.
      * destruct p3 as [| c3 p4]; [done |]. apply fmap_Some in Hps as (ps' & Hps & ->).
        eapply Hconv; [cbn in Hp; lia | done | done].
      * apply fmap_Some in Hps as (ps' & Hps & ->). eapply Hconv; [cbn in Hp; lia | done | done].
    + apply fmap_Some in Hps as (ps' & Hps & ->). eapply Hconv; [cbn in Hp; lia | done | done].
  - apply fmap_Some in Hps as (ps' & Hps & ->). cbn [render] in Hr.
    apply fmap_Some in Hr as (text' & Hr & ->). rewrite put_ok by lia. cbn [obind].
    assert (len (t ++ [c]) = len t + 1) as El by (rewrite length_app; cbn; lia).
    rewrite <- El. rewrite (IH p1 ps' (t ++ [c]) args text');
      [| cbn in Hp; lia | done | lia | by rewrite El].
    by rewrite <- app_assoc.
Qed.

Lemma format_ok fmt ps args text :
  pieces fmt = Some ps -> render max_size 0 ps args = Some text ->
  format off max_size fmt buf args = Ok (overlay buf off (shown text ++ [0]), len (shown text)).
Proof.
  intros Hps Hr. unfold format. destruct (Z.eqb_spec max_size 0); [lia |].
  assert (overlay buf off [] = buf) as Hnil.
  { unfold overlay. cbn [length app]. by rewrite Nat.add_0_r, take_drop. }
  pose proof (format_loop_ok fmt ps [] args text Hps ltac:(cbn; lia) Hr) as E.
  cbv zeta in E. cbn [length app] in E. rewrite Hnil in E. change (len []) with 0 in E.
  change (Z.of_nat 0) with 0 in E. rewrite E. cbn [obind].
  rewrite put_ok by (rewrite shown_length; lia). done.
Qed.
End spec.

(** *** Numerals *)

Definition digit_value (c : Z) : Z := if c <=? chr "9" then c - chr "0" else c - chr "a" + 10.

(** The number a numeral stands for. *)
Definition numeral (base : Z) (l : list Z) : Z :=
  fold_left (fun acc c => acc * base + digit_value c) l 0.

Lemma digit_value_digit d : 0 <= d < 16 -> digit_value (digit d) = d.
Proof.
  intros Hd. assert (In d (seqZ 0 16)) as Hin by (apply list_elem_of_In, elem_of_seqZ; lia).
  cbn in Hin. repeat destruct Hin as [<- | Hin]; try reflexivity. destruct Hin.
Qed.

Lemma digits_loop_value n base value :
  2 <= base <= 16 -> 0 <= value < base ^ Z.of_nat n ->
  fold_right (fun c acc => acc * base + digit_value c) 0 (digits_loop n value base) = value.
Proof.
  intros Hb. revert value. induction n as [| n IH]; intros value Hv; [cbn in *; lia |].
  cbn [digits_loop fold_right].
  pose proof (Z.mod_pos_bound value base ltac:(lia)). pose proof (Z.div_mod value base ltac:(lia)).
  rewrite digit_value_digit by lia.
  assert (0 <= value / base < base ^ Z.of_nat n) as Hq.
  { split; [apply Z.div_pos; lia |]. apply Z.div_lt_upper_bound; [lia |].
    rewrite Nat2Z.inj_succ, Z.pow_succ_r in Hv by lia. lia. }
  destruct (Z.ltb_spec 0 (value / base)).
  - rewrite IH by done. lia.
  - cbn [fold_right]. lia.
Qed.

Lemma digits_loop_length n value base : (length (digits_loop n value base) <= n)%nat.
Proof.
  revert value. induction n as [| n IH]; intros value; [done |]. cbn [digits_loop length].
  destruct (0 <? value / base); [specialize (IH (value / base)) |]; cbn; lia.
Qed.

(** Numerals read back: in base 10 and 16 the routine writes, from [off]
    on, at most 32 characters that stand for the value, and nothing else. *)
Theorem int_to_str_numeral buf off max_size value base :
  33 <= max_size < 2 ^ 64 -> 0 <= off -> off + max_size <= Z.of_nat (length buf) ->
  base = 10 \/ base = 16 -> is_u64 value ->
  exists text, int_to_str buf off max_size value base false =
      Ok (overlay buf off text, Z.of_nat (length text)) /\
    (0 < length text <= 32)%nat /\ numeral base text = value.
Proof.
  intros Hm Ho Hb Hbase Hv. exists (rev (digits_loop 32 value base)).
  pose proof (digits_loop_length 32 value base) as Hl.
  pose proof (int_to_str_ok off max_size buf ltac:(lia) Ho Hb [] value base false ltac:(cbn; lia)) as E.
  cbv zeta in E. unfold number_text in E. cbn [length app andb] in E.
  assert (overlay buf off [] = buf) as Hnil.
  { unfold overlay. cbn [length app]. by rewrite Nat.add_0_r, take_drop. }
  rewrite Hnil, Z.add_0_r, Z.sub_0_r in E. unfold sub64 in E. rewrite Z.sub_0_r, wrap_small in E by lia.
  unfold shown in E. rewrite take_ge in E by (rewrite length_rev; lia). split; [exact E |].
  rewrite length_rev. split; [cbn [digits_loop length]; cbn [digits_loop length] in Hl; lia |].
  unfold numeral. rewrite <- fold_left_rev_right, rev_involutive. apply digits_loop_value.
  - lia.
  - unfold is_u64 in Hv. split; [lia |]. destruct Hbase as [-> | ->]; cbn; lia.
Qed.

(** The formatter is a truncating renderer: for a complete format string with
    arguments that fit it, it writes the text the format describes, cut to
    [max_size - 1] bytes, and a terminator, returns the length of what it wrote,
    and leaves the rest of the buffer alone; it never fails. *)
Theorem format_spec off max_size buf fmt ps args text :
  3 <= max_size < 2 ^ 64 -> 0 <= off -> off + max_size <= Z.of_nat (length buf) ->
  pieces fmt = Some ps -> render max_size 0 ps args = Some text ->
  let out := take (Z.to_nat (max_size - 1)) text in
  format off max_size fmt buf args = Ok (overlay buf off (out ++ [0]), Z.of_nat (length out)).
Proof.
  intros Hm Ho Hb Hps Hr out. by apply (format_ok off max_size buf Hm Ho Hb fmt ps args text).
Qed.

(** A decimal, a string and a pointer in a buffer of 16 bytes: the text is cut. *)
Lemma format_spec_witness :
  format 0 16 (bytes "%s=%d @%p") (repeat 7 20) [arg_str (bytes "core"); arg_int 0xFFFFFFF4; arg_int 0xABCDEF] =
    Ok (bytes "core=-12 @0xabc" ++ [0; 7; 7; 7; 7], 15).
Proof.
  pose proof (format_spec 0 16 (repeat 7 20) (bytes "%s=%d @%p")
    [conversion false (chr "s"); literal (chr "="); conversion false (chr "d"); literal (chr " ");
     literal (chr "@"); conversion false (chr "p")]
    [arg_str (bytes "core"); arg_int 0xFFFFFFF4; arg_int 0xABCDEF] (bytes "core=-12 @0xabcdef")
    ltac:(lia) ltac:(lia) ltac:(cbn; lia) eq_refl eq_refl) as H.
  exact H.
Defined.

Lemma int_to_str_numeral_witness :
  exists text, int_to_str (repeat 0 40) 2 34 255 16 false =
      Ok (overlay (repeat 0 40) 2 text, Z.of_nat (length text)) /\ numeral 16 text = 255.
Proof.
  destruct (int_to_str_numeral (repeat 0 40) 2 34 255 16 ltac:(lia) ltac:(lia) ltac:(cbn; lia)
    ltac:(by right) ltac:(unfold is_u64; lia)) as (text & E & _ & Hv).
  exists text. split; [exact E | exact Hv].
Defined.

(** A pointer in a buffer of two bytes: the room left, computed without sign, is
    huge, and the prefix pushes the terminator out of the buffer. *)
Example pointer_needs_three_bytes : format 0 2 (bytes "%p") [7; 7] [arg_int 0] = Undefined.
Proof. vm_compute. reflexivity. Qed.
