(* ===== verification/Logging.v ===== *)
(** * The standard log: [revhv-km/logging.cpp], [common/logging_types.hpp]

    Messages formatted with a prefix and a newline, kept in a ring of the last
    512 of them until the guest flushes them. The functions run under the
    logger's lock; the serial port gets a copy of every message. *)
From Stdlib Require Import ZArith Lia List Bool String Ascii.
From stdpp Require Import base numbers list option functions.
From S2P Require Import Prelude Ia32 Memory Paging Vmcs Vcpu Exception Introspection Format.

Definition max_standard_message_length : Z := 256.
Definition max_standard_message_count : Z := 512.

Record standard_log_message := mk_message { message_number : Z; text : list Z }.
#[export] Instance eta_standard_log_message : Eta standard_log_message :=
  fun m => mk_message (message_number m) (text m).

Inductive log_level := log_level_verbose | log_level_info | log_level_warning | log_level_error.

(** The logger, but for its lock. *)
Record standard_logger := mk_logger {
  messages : Z -> standard_log_message;
  cursor : Z;
  message_count : Z;
  pending_count : Z
}.
#[export] Instance eta_standard_logger : Eta standard_logger :=
  fun l => mk_logger (messages l) (cursor l) (message_count l) (pending_count l).

(** The zeroed logger. *)
Definition zero_message : standard_log_message := mk_message 0 (repeat 0 256).
Definition zero_logger : standard_logger := mk_logger (fun _ => zero_message) 0 0 0.

(** ** Formatting a line *)

Definition level_str (level : log_level) : list Z :=
  match level with
  | log_level_verbose => bytes "VERBOSE"
  | log_level_info => bytes "INFO"
  | log_level_warning => bytes "WARNING"
  | log_level_error => bytes "ERROR"
  end.

(** The search for the terminator: [fuel] bounds the distance to the end. *)
Fixpoint find_end (fuel : nat) (buf : list Z) (size e : Z) : Z :=
  match fuel with
  | O => e
  | S fuel =>
      if (e <? size) && negb (nth (Z.to_nat e) buf 0 =? 0) then find_end fuel buf size (e + 1) else e
  end.

(** [log_fmt]: the buffer and [*out_size]; [None] where it returns false. *)
Definition log_fmt (buf : list Z) (size : Z) (level : log_level) (fmt : list Z) (args : list argument)
    : outcome (list Z * option Z) :=
  if size =? 0 then Ok (buf, None) else
  let! (buf, prefix_len) := format 0 size (bytes "[revhv] [%s] ") buf [arg_str (level_str level)] in
  if prefix_len <=? 0 then Ok (buf, None) else
  let offset := prefix_len in
  if size <=? offset then Ok (buf, None) else
  let! (buf, _) := format offset (size - offset) fmt buf args in
  let e := find_end (Z.to_nat (size - offset)) buf size offset in
  if e + 1 <? size then
    let! buf := put buf e 10 in
    let! buf := put buf (e + 1) 0 in
    Ok (buf, Some (e + 1))
  else Ok (buf, Some e).

(** ** The ring *)

(** [dst.text] after the copy of a message. *)
Definition copy_text (dst message : list Z) (message_size : Z) : outcome (list Z) :=
  if message_size =? 0 then put dst 0 0
  else
    let copy_size := Z.min message_size (max_standard_message_length - 1) in
    put (overlay dst 0 (take (Z.to_nat copy_size) message)) copy_size 0.

Definition write_to_standard_log (l : standard_logger) (message : list Z) (message_size : Z)
    : outcome standard_logger :=
  let c := cursor l in
  let dst := messages l c in
  let! t := copy_text (text dst) message message_size in
  Ok (l <| messages := <[c := mk_message (message_count l) t]> (messages l) |>
        <| message_count := u64 (message_count l + 1) |>
        <| cursor := (c + 1) mod max_standard_message_count |>
        <| pending_count := Z.min (pending_count l + 1) max_standard_message_count |>).

Definition error_msg : list Z := bytes "[revhv] [ERROR] Failed to format log message" ++ [10].

(** [log_fmt_print]; the write to the serial port is not part of the state. *)
Definition log_fmt_print (l : standard_logger) (level : log_level) (fmt : list Z) (args : list argument)
    : outcome standard_logger :=
  let buffer := repeat 0 256 in
  let! (buffer, formatted_size) := log_fmt buffer max_standard_message_length level fmt args in
  let '(buffer, formatted_size) :=
    match formatted_size with
    | Some n => (buffer, n)
    | None => (overlay buffer 0 (error_msg ++ [0]), Z.of_nat (length error_msg))
    end in
  write_to_standard_log l buffer formatted_size.

(** ** Flushing *)

Definition sizeof_message : Z := 8 + max_standard_message_length.

(** The bytes of a message in memory, and of [n] consecutive ones. *)
Definition message_bytes (m : standard_log_message) : list Z := le_split 8 (message_number m) ++ text m.
Definition messages_bytes (l : standard_logger) (start n : Z) : list Z :=
  concat (map (fun i => message_bytes (messages l (start + i))) (seqZ 0 n)).

Section flush.
Context {ia32 : Ia32}.
Variable supported : vmcs_field -> bool.
Variable rdmsr : Z -> Z.
Variable crash_in_progress : Z.
Variable copy_fault : Z -> Z -> option (Z * Z * Z).

(** [flush_standard_logs(out_messages, max_messages, true)]: guest memory, the
    core, the logger and the returned count. Whether the writes to the guest
    succeed is not looked at. *)
Definition flush_standard_logs (m : mem) (v : vcpu) (l : standard_logger) (out_messages max_messages : Z)
    : outcome (mem * vcpu * standard_logger * Z) :=
  if (out_messages =? 0) || (max_messages =? 0) then Ok (m, v, l, 0) else
  let available := pending_count l in
  let flush_count := Z.min available max_messages in
  if flush_count =? 0 then Ok (m, v, l, 0) else
  let start_index := (cursor l + max_standard_message_count - available) mod max_standard_message_count in
  let first_chunk := Z.min flush_count (max_standard_message_count - start_index) in
  let second_chunk := flush_count - first_chunk in
  let write m v dest start n :=
    let! (m, v, _) := write_guest_virtual_current supported rdmsr crash_in_progress copy_fault m v
      dest (messages_bytes l start n) (n * sizeof_message) in Ok (m, v) in
  let! (m, v) := write m v out_messages start_index first_chunk in
  let! (m, v) :=
    if 0 <? second_chunk then write m v (out_messages +64 (first_chunk * sizeof_message)) 0 second_chunk
    else Ok (m, v) in
  Ok (m, v, l <| pending_count := pending_count l - flush_count |>, flush_count).
End flush.

(** ** Specification: a queue of the last 512 messages *)

Record logger_ok (l : standard_logger) : Prop := {
  cursor_ok : 0 <= cursor l < max_standard_message_count;
  pending_ok : 0 <= pending_count l <= max_standard_message_count;
  texts_ok : forall i, length (text (messages l i)) = 256%nat
}.

(** The messages that wait to be flushed, oldest first. *)
Definition pending_messages (l : standard_logger) : list standard_log_message :=
  map (fun k => messages l ((cursor l - pending_count l + k) mod max_standard_message_count))
    (seqZ 0 (pending_count l)).

(** The last [n] elements of a list. *)
Definition last_n {A} (n : nat) (l : list A) : list A := drop (length l - n) l.

(** What a reader of a message sees. *)
Definition shown_message (m : standard_log_message) : Z * list Z := (message_number m, cstr (text m)).

Definition prefix (level : log_level) : list Z := bytes "[revhv] [" ++ level_str level ++ bytes "] ".

(** The line for a text: the prefix, as much of the text as fits, and a newline
    if it still fits. *)
Definition log_line (level : log_level) (t : list Z) : list Z :=
  let line := take 255 (prefix level ++ t) in
  line ++ if Z.of_nat (length line) <? 255 then [10] else [].

(** ** Lemmas *)

Abbreviation len l := (Z.of_nat (length l)).

Lemma drop_repeat {A} (x : A) n k : drop k (repeat x n) = repeat x (n - k).
Proof. revert n. induction k as [| k IH]; intros [| n]; try done. apply IH. Qed.

Lemma overlay_zeros n l :
  overlay (repeat 0 n) 0 l = l ++ repeat 0 (n - length l).
Proof. unfold overlay. cbn [firstn Z.to_nat app Nat.add]. by rewrite take_0, drop_repeat. Qed.

(** A terminator in a zeroed buffer changes nothing. *)
Lemma overlay_zeros_terminated n l :
  (length l < n)%nat -> overlay (repeat 0 n) 0 (l ++ [0]) = overlay (repeat 0 n) 0 l.
Proof.
  intros Hl. rewrite !overlay_zeros, length_app, <- app_assoc. cbn [length app].
  by replace (n - length l)%nat with (S (n - (length l + 1))) by lia.
Qed.


Lemma nonzero_app l l' : nonzero (l ++ l') <-> nonzero l /\ nonzero l'.
Proof. apply Forall_app. Qed.

Lemma nonzero_take n l : nonzero l -> nonzero (take n l).
Proof. apply Forall_take. Qed.

Lemma find_end_ok fuel size pre l rest :
  nonzero l -> (length l <= fuel)%nat -> len (pre ++ l) < size ->
  find_end fuel (pre ++ l ++ 0 :: rest) size (len pre) = len (pre ++ l).
Proof.
  intros Hl. revert pre fuel. induction Hl as [| c l Hc Hl IH]; intros pre fuel Hf Hs.
  - cbn [app] in *. rewrite app_nil_r in *. destruct fuel as [| fuel]; [done |]. cbn [find_end].
    rewrite Nat2Z.id, app_nth2, Nat.sub_diag by lia. cbn [nth Z.eqb negb]. by rewrite andb_false_r.
  - destruct fuel as [| fuel]; [cbn in Hf; lia |]. cbn [find_end].
    rewrite Nat2Z.id, app_nth2, Nat.sub_diag by lia. cbn [nth app].
    rewrite length_app in Hs. cbn in Hs.
    destruct (Z.ltb_spec (len pre) size); [| lia]. destruct (Z.eqb_spec c 0); [done |].
    cbn [negb andb].
    replace (pre ++ c :: l ++ 0 :: rest) with ((pre ++ [c]) ++ l ++ 0 :: rest) by (by rewrite <- app_assoc).
    replace (pre ++ c :: l) with ((pre ++ [c]) ++ l) by (by rewrite <- app_assoc).
    rewrite <- (IH (pre ++ [c]) fuel); [f_equal; rewrite length_app; cbn; lia | cbn in Hf; lia |].
    rewrite !length_app. cbn. lia.
Qed.

Lemma prefix_facts level : 0 < len (prefix level) <= 18 /\ nonzero (prefix level).
Proof.
  split; [destruct level; vm_compute; split; discriminate || reflexivity |].
  apply (bool_decide_unpack _). destruct level; vm_compute; exact I.
Qed.

(** [log_fmt] into a zeroed buffer of 256 bytes gives the line. *)
Lemma log_fmt_ok level fmt ps args t :
  pieces fmt = Some ps -> render (256 - len (prefix level)) 0 ps args = Some t -> nonzero t ->
  log_fmt (repeat 0 256) 256 level fmt args =
    Ok (overlay (repeat 0 256) 0 (log_line level t), Some (len (log_line level t))).
Proof.
  intros Hps Hr Ht. pose proof (prefix_facts level) as [Hp Hpn]. unfold log_fmt, log_line.
  change (256 =? 0) with false. cbn match.
  assert (format 0 256 (bytes "[revhv] [%s] ") (repeat 0 256) [arg_str (level_str level)] =
    Ok (overlay (repeat 0 256) 0 (prefix level), len (prefix level))) as ->.
  { destruct level; vm_compute; reflexivity. }
  cbn [obind]. destruct (Z.leb_spec (len (prefix level)) 0), (Z.leb_spec 256 (len (prefix level))); try lia.
  set (p := prefix level) in *. clearbody p.
  assert (len (repeat 0 256) = 256) as Hz by (by rewrite repeat_length).
  pose proof (format_ok (len p) (256 - len p) (overlay (repeat 0 256) 0 p) ltac:(lia) ltac:(lia)
    ltac:(rewrite overlay_length; lia) fmt ps args t Hps Hr) as E.
  assert (forall x, overlay (overlay (repeat 0 256) 0 p) (len p) x = overlay (repeat 0 256) 0 (p ++ x)) as Ho.
  { intros x. apply (overlay_overlay (repeat 0 256) 0 p x); lia. }
  rewrite Ho in E. rewrite E. clear E. cbn [obind]. unfold shown.
  set (s := take (Z.to_nat (256 - len p - 1)) t).
  assert (len s <= 255 - len p) as Hs by (unfold s; rewrite length_take; lia).
  assert (nonzero s) as Hsn by (by apply nonzero_take).
  rewrite app_assoc, overlay_zeros_terminated by (rewrite length_app; lia).
  assert (take 255 (p ++ t) = p ++ s) as Hline.
  { rewrite take_app, take_ge by lia. do 2 f_equal. lia. }
  rewrite Hline.
  assert (len (p ++ s) = len p + len s) as Hls by (rewrite length_app; lia).
  assert (find_end (Z.to_nat (256 - len p)) (overlay (repeat 0 256) 0 (p ++ s)) 256 (len p) = len (p ++ s)) as ->.
  { destruct (Z.lt_ge_cases (len (p ++ s)) 256); [| lia].
    rewrite overlay_zeros. destruct (256 - length (p ++ s))%nat as [| k] eqn:Ek; [lia |].
    cbn [repeat]. rewrite <- app_assoc. apply find_end_ok; done || lia. }
  destruct (Z.ltb_spec (len (p ++ s) + 1) 256), (Z.ltb_spec (len (p ++ s)) 255); try lia.
  - pose proof (put_ok 0 256 (repeat 0 256)) as Hput. cbn [Z.add] in Hput.
    rewrite Hput by lia. cbn [obind].
    assert (len (p ++ s) + 1 = len ((p ++ s) ++ [10])) as -> by (rewrite (length_app (p ++ s)); cbn; lia).
    rewrite Hput by (rewrite ?(length_app (p ++ s)); cbn [length]; lia). cbn [obind].
    by rewrite overlay_zeros_terminated by (rewrite (length_app (p ++ s)); cbn; lia).
  - by rewrite app_nil_r.
Qed.

(** *** The ring *)

Lemma nth_map_seqZ {A} (f : Z -> A) (n i : Z) d :
  0 <= i < n -> nth (Z.to_nat i) (map f (seqZ 0 n)) d = f i.
Proof.
  intros Hi. rewrite (nth_indep _ d (f 0)) by (rewrite length_map, length_seqZ; lia).
  rewrite (map_nth f). f_equal. erewrite nth_lookup, lookup_seqZ_lt by lia. cbn. lia.
Qed.

Lemma map_seqZ_length {A} (f : Z -> A) n : length (map f (seqZ 0 n)) = Z.to_nat n.
Proof. by rewrite length_map, length_seqZ. Qed.

Lemma pending_length l : length (pending_messages l) = Z.to_nat (pending_count l).
Proof. apply map_seqZ_length. Qed.

(** The ring with the message at the cursor replaced and the indices moved. *)
Definition ring_push (l : standard_logger) (m : standard_log_message) : standard_logger :=
  l <| messages := <[cursor l := m]> (messages l) |>
    <| message_count := u64 (message_count l + 1) |>
    <| cursor := (cursor l + 1) mod max_standard_message_count |>
    <| pending_count := Z.min (pending_count l + 1) max_standard_message_count |>.

Lemma ring_push_ok l m :
  logger_ok l -> length (text m) = 256%nat ->
  logger_ok (ring_push l m) /\
  pending_messages (ring_push l m) = last_n 512 (pending_messages l ++ [m]).
Proof.
  intros [Hc Hp Ht] Hm. unfold max_standard_message_count in *. split.
  { split; cbn.
    - apply Z.mod_pos_bound. reflexivity.
    - unfold max_standard_message_count. lia.
    - intros i. unfold insert, fn_insert. by case_decide. }
  set (p := pending_count l) in *. set (c := cursor l) in *.
  apply (nth_ext _ _ zero_message zero_message).
  - unfold last_n. rewrite length_drop, length_app, !pending_length. cbn [length ring_push].
    unfold ring_push. cbn [pending_count set]. unfold set. cbn [pending_count].
    fold p. unfold max_standard_message_count. lia.
  - rewrite pending_length. cbn. fold p. unfold max_standard_message_count. intros i Hi.
    unfold last_n. rewrite List.nth_skipn, length_app, pending_length. fold p. cbn [length].
    assert (i = Z.to_nat (Z.of_nat i)) as Ei by lia. rewrite Ei at 1.
    unfold pending_messages at 1. cbn. fold c p. unfold max_standard_message_count.
    rewrite nth_map_seqZ by lia.
    set (d := if p <? 512 then 0 else 1).
    replace (Z.to_nat p + 1 - 512 + i)%nat with (Z.to_nat (d + Z.of_nat i)) by (unfold d; zcases; lia).
    assert (((c + 1) mod 512 - Z.min (p + 1) 512 + Z.of_nat i) mod 512 = (c - p + (d + Z.of_nat i)) mod 512) as ->.
    { rewrite <- Z.add_opp_r, <- Z.add_assoc, Z.add_mod_idemp_l by lia. f_equal. unfold d. zcases; lia. }
    assert (d + Z.of_nat i <= p) as Hd by (unfold d; zcases; lia).
    assert (0 <= d) by (unfold d; zcases; lia).
    unfold insert, fn_insert. destruct (Z.eq_dec (d + Z.of_nat i) p) as [E | E].
    + rewrite app_nth2, pending_length by (rewrite pending_length; fold p; lia). fold p.
      replace (Z.to_nat (d + Z.of_nat i) - Z.to_nat p)%nat with 0%nat by lia. cbn [nth].
      rewrite E. replace (c - p + p) with c by lia. rewrite Z.mod_small by lia. by case_decide.
    + rewrite app_nth1 by (rewrite pending_length; fold p; lia). unfold pending_messages. fold c p.
      rewrite nth_map_seqZ by lia. unfold max_standard_message_count. case_decide as Ec; [| done].
      exfalso. revert Ec E Hd. unfold d. zcases; intros Ec E Hd; pose proof (Z.div_mod (c - p + (0 + Z.of_nat i)) 512);
        pose proof (Z.div_mod (c - p + (1 + Z.of_nat i)) 512); nia.
Qed.

(** *** Writing a message *)

Lemma log_line_facts level t :
  nonzero t -> nonzero (log_line level t) /\ 0 < len (log_line level t) <= 255.
Proof.
  intros Ht. pose proof (prefix_facts level) as [Hp Hn]. unfold log_line. split.
  - apply nonzero_app. split; [apply nonzero_take, nonzero_app; by split |].
    destruct (_ <? _); repeat constructor. discriminate.
  - rewrite length_app, length_take, length_app.
    destruct (Z.ltb_spec (Z.of_nat (255 `min` (length (prefix level) + length t))) 255); cbn [length]; lia.
Qed.

Lemma copy_text_ok dst line rest :
  length dst = 256%nat -> 0 < len line <= 255 ->
  copy_text dst (line ++ rest) (len line) = Ok (overlay dst 0 (line ++ [0])).
Proof.
  intros Hd Hl. unfold copy_text, max_standard_message_length. destruct (Z.eqb_spec (len line) 0); [lia |].
  rewrite Z.min_l, Nat2Z.id, take_app_length by lia.
  pose proof (put_ok 0 256 dst) as Hput. cbn [Z.add] in Hput. apply Hput; lia.
Qed.

Lemma write_line_ok l line rest :
  logger_ok l -> nonzero line -> 0 < len line <= 255 ->
  exists m, write_to_standard_log l (line ++ rest) (len line) = Ok (ring_push l m) /\
    length (text m) = 256%nat /\ shown_message m = (message_count l, line).
Proof.
  intros Hok Hn Hl. pose proof (texts_ok l Hok (cursor l)) as Ht.
  exists (mk_message (message_count l) (overlay (text (messages l (cursor l))) 0 (line ++ [0]))).
  unfold write_to_standard_log. rewrite copy_text_ok by done. cbn [obind]. split; [done |].
  cbn [text]. rewrite overlay_length by (rewrite ?length_app; cbn [length]; lia). split; [done |].
  unfold shown_message. cbn [message_number text]. f_equal. unfold overlay. cbn [firstn Z.to_nat app].
  rewrite take_0, <- !app_assoc. cbn [app]. by apply cstr_terminated.
Qed.

Lemma log_fmt_print_ok l level fmt ps args t :
  logger_ok l -> pieces fmt = Some ps -> render (256 - len (prefix level)) 0 ps args = Some t ->
  nonzero t ->
  exists m, log_fmt_print l level fmt args = Ok (ring_push l m) /\
    length (text m) = 256%nat /\ shown_message m = (message_count l, log_line level t).
Proof.
  intros Hok Hps Hr Ht. destruct (log_line_facts level t Ht) as [Hn Hl].
  unfold log_fmt_print, max_standard_message_length. rewrite (log_fmt_ok level fmt ps args t) by done.
  cbn [obind]. rewrite overlay_zeros. by apply write_line_ok.
Qed.

(** *** Flushing *)

Lemma message_bytes_length m : length (text m) = 256%nat -> length (message_bytes m) = 264%nat.
Proof. intros Ht. unfold message_bytes. by rewrite length_app, le_split_length, Ht. Qed.

Lemma concat_length_const {A} (ls : list (list A)) k :
  Forall (fun l => length l = k) ls -> length (concat ls) = (length ls * k)%nat.
Proof. induction 1 as [| l ls Hl Hls IH]; cbn; [done |]. by rewrite length_app, IH, Hl. Qed.

Lemma messages_bytes_length l start n :
  logger_ok l -> 0 <= n -> len (messages_bytes l start n) = n * sizeof_message.
Proof.
  intros Hok Hn. unfold messages_bytes. rewrite (concat_length_const _ 264), map_seqZ_length.
  - change sizeof_message with 264. lia.
  - apply Forall_map, Forall_true. intros i. apply message_bytes_length, texts_ok, Hok.
Qed.

(** The oldest pending messages, in at most two segments of the ring. *)
Lemma segments_ok l n :
  logger_ok l -> 0 <= n <= pending_count l ->
  let start := (cursor l + max_standard_message_count - pending_count l) mod max_standard_message_count in
  let first := Z.min n (max_standard_message_count - start) in
  concat (map message_bytes (take (Z.to_nat n) (pending_messages l))) =
    messages_bytes l start first ++ messages_bytes l 0 (n - first).
Proof.
  intros [Hc Hp _] Hn start first. unfold max_standard_message_count in *.
  set (p := pending_count l) in *. set (c := cursor l) in *.
  assert (0 <= start < 512) as Hs by by apply Z.mod_pos_bound.
  unfold messages_bytes. rewrite <- concat_app. f_equal.
  apply (nth_ext _ _ [] []).
  { rewrite length_app, length_map, length_take, pending_length, !map_seqZ_length. fold p. lia. }
  rewrite length_map, length_take, pending_length. fold p. intros i Hi.
  rewrite (nth_indep _ [] (message_bytes zero_message)) by
    (rewrite length_map, length_take, pending_length; fold p; lia).
  rewrite (map_nth message_bytes), nth_firstn. destruct (Nat.ltb_spec i (Z.to_nat n)); [| lia].
  assert (i = Z.to_nat (Z.of_nat i)) as Ei by lia. rewrite Ei at 1. unfold pending_messages. fold c p.
  unfold max_standard_message_count. rewrite nth_map_seqZ by lia.
  assert ((c - p + Z.of_nat i) mod 512 = (start + Z.of_nat i) mod 512) as ->.
  { unfold start. rewrite Z.add_mod_idemp_l by lia.
    replace (c + 512 - p + Z.of_nat i) with (c - p + Z.of_nat i + 1 * 512) by lia. by rewrite Z.mod_add by lia. }
  destruct (Z.lt_ge_cases (Z.of_nat i) first).
  - rewrite app_nth1 by (rewrite map_seqZ_length; lia). rewrite Ei at 2. rewrite nth_map_seqZ by lia.
    by rewrite Z.mod_small by lia.
  - rewrite app_nth2 by (rewrite map_seqZ_length; lia). rewrite map_seqZ_length.
    replace (i - Z.to_nat first)%nat with (Z.to_nat (Z.of_nat i - first)) by lia.
    rewrite nth_map_seqZ by lia. do 2 f_equal.
    replace (start + Z.of_nat i) with (start + Z.of_nat i - 512 + 1 * 512) by lia.
    rewrite Z.mod_add, Z.mod_small by lia. lia.
Qed.

Lemma flushed_ring_ok l n :
  logger_ok l -> 0 <= n <= pending_count l ->
  let l' := l <| pending_count := pending_count l - n |> in
  logger_ok l' /\ pending_messages l' = drop (Z.to_nat n) (pending_messages l).
Proof.
  intros [Hc Hp Ht] Hn l'. split; [by split; cbn; unfold max_standard_message_count in *; try lia |].
  apply (nth_ext _ _ zero_message zero_message).
  { rewrite length_drop, !pending_length. cbn. lia. }
  rewrite pending_length. cbn. intros i Hi. rewrite List.nth_skipn.
  assert (i = Z.to_nat (Z.of_nat i)) as Ei by lia. rewrite Ei at 1. unfold pending_messages at 1. cbn.
  rewrite nth_map_seqZ by lia. replace (Z.to_nat n + i)%nat with (Z.to_nat (n + Z.of_nat i)) by lia.
  unfold pending_messages. rewrite nth_map_seqZ by lia. do 2 f_equal. lia.
Qed.

(** ** Properties *)

(** The log keeps the last 512 messages: printing appends one message to the
    queue of pending ones, dropping the oldest when there are 512. The message
    has the lifetime count as its number, and its text is the line for the
    rendered text: prefixed, cut to 255 bytes, ending in a newline if one fits. *)
Theorem log_fmt_print_spec l level fmt ps args t :
  logger_ok l -> pieces fmt = Some ps -> render (256 - len (prefix level)) 0 ps args = Some t ->
  nonzero t ->
  exists l', log_fmt_print l level fmt args = Ok l' /\ logger_ok l' /\
    message_count l' = u64 (message_count l + 1) /\
    map shown_message (pending_messages l') =
      last_n 512 (map shown_message (pending_messages l) ++ [(message_count l, log_line level t)]).
Proof.
  intros Hok Hps Hr Ht. destruct (log_fmt_print_ok l level fmt ps args t Hok Hps Hr Ht) as (m & E & Hm & Hs).
  destruct (ring_push_ok l m Hok Hm) as [Hok' Hq]. exists (ring_push l m). split; [exact E |].
  split; [exact Hok' |]. split; [reflexivity |]. rewrite Hq. unfold last_n.
  rewrite <- Hs, <- skipn_map, map_app, !length_app, length_map. done.
Qed.

Section flush_spec.
Context {ia32 : Ia32} `{!Ia32Ok ia32}.
Variable supported : vmcs_field -> bool.
Variable rdmsr : Z -> Z.
Variable crash_in_progress : Z.
Variable copy_fault : Z -> Z -> option (Z * Z * Z).
Hypothesis no_faults : forall a n, copy_fault a n = None.

Lemma flush_ok m v l out_messages max_messages g :
  logger_ok l -> exception_occurred (exn_info v) = false ->
  0 < out_messages -> 0 < max_messages ->
  let cr3 := get_guest_cr3 supported (vcpu_vmcs v) in
  let n := Z.min (pending_count l) max_messages in
  let size := n * sizeof_message in
  let l' := l <| pending_count := pending_count l - n |> in
  0 < n -> out_messages + size <= 2 ^ 64 ->
  mapped_range m cr3 out_messages size g -> tables_apart m cr3 out_messages size g -> no_aliases size g ->
  exists m', flush_standard_logs supported rdmsr crash_in_progress copy_fault m v l out_messages max_messages =
      Ok (m', v, l', n) /\
    written m g size (concat (map message_bytes (take (Z.to_nat n) (pending_messages l)))) size m'.
Proof.
  intros Hok Hne Ho Hmax cr3 n size l' Hn Hw Hmap Hap Hal. pose proof (pending_ok l Hok) as Hp.
  pose proof (segments_ok l n Hok ltac:(lia)) as Hseg. cbv zeta in Hseg.
  unfold flush_standard_logs, write_guest_virtual_current. fold n cr3.
  destruct (Z.eqb_spec out_messages 0), (Z.eqb_spec max_messages 0), (Z.eqb_spec n 0); try lia. cbn [orb].
  set (start := (_ mod _)) in *. set (first := Z.min n _) in *.
  assert (0 <= start < 512) as Hst by by apply Z.mod_pos_bound.
  assert (0 < first <= n) as Hf by (unfold first, max_standard_message_count; lia).
  pose proof (messages_bytes_length l start first Hok ltac:(lia)) as L1.
  pose proof (messages_bytes_length l 0 (n - first) Hok ltac:(lia)) as L2.
  set (b1 := messages_bytes l start first) in *. set (b2 := messages_bytes l 0 (n - first)) in *.
  rewrite Hseg. change sizeof_message with 264 in *.
  assert (size = n * 264) as Hsize by done. clearbody size.
  assert (len (b1 ++ b2) = size) as Hlen by (rewrite length_app; lia).
  assert (slice (b1 ++ b2) 0 (first * 264) = b1) as S1.
  { unfold slice. rewrite drop_0, take_app_le, take_ge by lia. done. }
  assert (slice (b1 ++ b2) (first * 264) ((n - first) * 264) = b2) as S2.
  { unfold slice. rewrite drop_app, (drop_ge b1) by lia. cbn [app].
    replace (Z.to_nat (first * 264) - length b1)%nat with 0%nat by lia. rewrite drop_0. apply take_ge. lia. }
  destruct (write_piece_ok supported rdmsr crash_in_progress copy_fault m cr3 out_messages size g (b1 ++ b2)
    Hmap Hap Hal Ho Hw ltac:(lia) v m 0 (first * 264) b1 no_faults Hne) as (m1 & E1 & W1);
    [by split; [lia |] | lia | lia | lia | lia | |].
  { rewrite S1. unfold slice. rewrite drop_0. apply take_ge. lia. }
  rewrite Z.add_0_r in E1. rewrite Z.add_0_l in W1.
  destruct (Z.eqb_spec (first * 264) 0); [lia |]. rewrite E1. cbn [obind].
  destruct (Z.ltb_spec 0 (n - first)) as [Hs |].
  - assert (out_messages +64 (first * 264) = out_messages + first * 264) as -> by (apply wrap_small; lia).
    destruct (Z.eqb_spec (out_messages + first * 264) 0), (Z.eqb_spec ((n - first) * 264) 0); try lia.
    destruct (write_piece_ok supported rdmsr crash_in_progress copy_fault m cr3 out_messages size g (b1 ++ b2)
      Hmap Hap Hal Ho Hw ltac:(lia) v m1 (first * 264) ((n - first) * 264) b2 no_faults Hne W1)
      as (m2 & E2 & W2); [lia | lia | lia | lia | |].
    { rewrite S2. unfold slice. rewrite drop_0. apply take_ge. lia. }
    cbn [orb]. fold cr3. rewrite E2. cbn [obind]. exists m2. split; [done |].
    by replace (first * 264 + (n - first) * 264) with size in W2 by lia.
  - cbn [obind]. exists m1. split; [done |]. by replace (first * 264) with size in W1 by lia.
Qed.

Lemma flush_core m v l out_messages max_messages :
  exception_occurred (exn_info v) = false ->
  ensures (fun r => r.1.1.2 = v)
    (flush_standard_logs supported rdmsr crash_in_progress copy_fault m v l out_messages max_messages).
Proof.
  intros Hne. unfold flush_standard_logs. destruct (_ || _); [done |]. destruct (_ =? 0); [done |].
  assert (forall m v' dst buf n, v' = v -> ensures (fun r => r.2 = v)
    (let! (m, v, _) := write_guest_virtual_current supported rdmsr crash_in_progress copy_fault m v' dst buf n in
     Ok (m, v))) as Hw.
  { intros m' v' dst buf n ->. eapply ensures_bind.
    - unfold write_guest_virtual_current. instantiate (1 := fun r => r.1.2 = v). destruct (_ || _); [done |].
      by apply write_virtual_core.
    - intros [[m2 v2] k] E. exact E. }
  eapply ensures_bind; [by apply Hw |]. intros [m1 v1]. cbn [snd]. intros ->.
  eapply ensures_bind.
  - instantiate (1 := fun r => r.2 = v). destruct (_ <? _); [by apply Hw | done].
  - intros [m2 v2] E. exact E.
Qed.

(** Flushing moves messages out in order: the guest's buffer receives the
    oldest pending messages, as many as it has room for, byte for byte, and
    exactly these leave the queue; no other memory changes. *)
Theorem flush_standard_logs_spec m v l out_messages max_messages g :
  logger_ok l -> exception_occurred (exn_info v) = false ->
  0 < out_messages -> 0 < max_messages ->
  let cr3 := get_guest_cr3 supported (vcpu_vmcs v) in
  let n := Z.min (pending_count l) max_messages in
  let size := n * sizeof_message in
  0 < n -> out_messages + size <= 2 ^ 64 ->
  mapped_range m cr3 out_messages size g -> tables_apart m cr3 out_messages size g -> no_aliases size g ->
  exists m' l', flush_standard_logs supported rdmsr crash_in_progress copy_fault m v l out_messages max_messages =
      Ok (m', v, l', n) /\
    logger_ok l' /\ pending_messages l' = drop (Z.to_nat n) (pending_messages l) /\
    guest_bytes m' cr3 out_messages (Z.to_nat size) =
      Ok (concat (map message_bytes (take (Z.to_nat n) (pending_messages l)))) /\
    (forall a, outside size g a -> m' a = m a).
Proof.
  intros Hok Hne Ho Hmax cr3 n size Hn Hw Hmap Hap Hal. pose proof (pending_ok l Hok) as Hp.
  destruct (flush_ok m v l out_messages max_messages g Hok Hne Ho Hmax Hn Hw Hmap Hap Hal) as (m' & E & W).
  fold n size cr3 in W. exists m'. eexists. split; [exact E |].
  destruct (flushed_ring_ok l n Hok ltac:(lia)) as [Hok' Hq]. split; [exact Hok' |]. split; [exact Hq |].
  split; [| apply (written_frame _ _ _ _ _ _ W)].
  set (b := concat _) in *.
  assert (len b = size) as Hb.
  { unfold b. rewrite (concat_length_const _ 264), length_map, length_take, pending_length.
    - change size with (n * 264). lia.
    - apply Forall_map, Forall_take. unfold pending_messages. apply Forall_map, Forall_true. intros k.
      apply message_bytes_length, texts_ok, Hok. }
  assert (0 <= size) by (change size with (n * 264); lia).
  pose proof (guest_bytes_written m cr3 out_messages size g b Hmap Hap ltac:(lia) m' (Z.to_nat size) 0 W
    ltac:(lia) ltac:(lia)) as E2.
  rewrite Z.add_0_r in E2. rewrite E2. f_equal. unfold slice. rewrite drop_0, take_ge by lia. done.
Qed.
End flush_spec.

(** ** Instances at concrete inputs *)

Lemma zero_logger_ok : logger_ok zero_logger.
Proof. split; try (cbn; unfold max_standard_message_count; lia). Qed.

Lemma log_fmt_print_spec_witness :
  exists l', log_fmt_print zero_logger log_level_error (bytes "core %u failed") [arg_int 3] = Ok l' /\
    map shown_message (pending_messages l') = [(0, bytes "[revhv] [ERROR] core 3 failed" ++ [10])].
Proof.
  destruct (log_fmt_print_spec zero_logger log_level_error (bytes "core %u failed")
    (map literal (bytes "core ") ++ conversion false (chr "u") :: map literal (bytes " failed"))
    [arg_int 3] (bytes "core 3 failed") zero_logger_ok eq_refl eq_refl) as (l' & E & _ & _ & Hq).
  - apply (bool_decide_unpack _). vm_compute. exact I.
  - exists l'. split; [exact E |]. etransitivity; [exact Hq |]. vm_compute. reflexivity.
Defined.

(** A logger with two messages, the second at the start of the ring. *)
Definition wrapped_logger : standard_logger :=
  zero_logger <| messages := <[511 := mk_message 41 (65 :: repeat 0 255)]>
                               (<[0 := mk_message 42 (66 :: repeat 0 255)]> (messages zero_logger)) |>
    <| cursor := 1 |> <| pending_count := 2 |>.

Definition logging_vcpu : vcpu :=
  zero_vcpu <| vcpu_vmcs := vmwrite (fun _ => true) (fun _ => 0) VMCS_GUEST_CR3 0x1000 |>.

Lemma flush_standard_logs_spec_witness :
  exists m' l', flush_standard_logs (fun _ => true) (fun _ => 0) 0 (fun _ _ => None) sample_tables
      logging_vcpu wrapped_logger 0x1100 10 = Ok (m', logging_vcpu, l', 2) /\
    pending_messages l' = [] /\
    guest_bytes m' 0x1000 0x1100 528 =
      Ok (le_split 8 41 ++ 65 :: repeat 0 255 ++ le_split 8 42 ++ 66 :: repeat 0 255).
Proof.
  destruct (sample_page sample_tables 0x100 528 ltac:(done) ltac:(lia) ltac:(lia) ltac:(lia)) as (Hmap & Hap & Hal).
  destruct (flush_standard_logs_spec (fun _ => true) (fun _ => 0) 0 (fun _ _ => None) (fun _ _ => eq_refl)
    sample_tables logging_vcpu wrapped_logger 0x1100 10 (fun i => 0x9000 + 0x100 + i)) as (m' & l' & E & _ & Hq & Hb & _).
  - split; try (cbn; unfold max_standard_message_count; lia).
    intros i. cbn. unfold insert, fn_insert. by repeat case_decide.
  - reflexivity.
  - reflexivity.
  - reflexivity.
  - reflexivity.
  - vm_compute. discriminate.
  - exact Hmap.
  - exact Hap.
  - exact Hal.
  - exists m', l'. split; [exact E |]. split; [exact Hq |]. exact Hb.
Defined.
