(* ===== verification/Hv.v ===== *)
(** * The hypervisor's shared state: [revhv-km/hv.h]

    What the cores share, as one core sees it: [g_hv] and the trace buffers of the
    virtual processors of the other cores. *)
From Stdlib Require Import ZArith Lia List Bool.
From stdpp Require Import base numbers list option functions.
From S2P Require Import Prelude Trace Vcpu Format Logging.

(** [max_onload_name_length]. *)
Definition max_onload_name_length : Z := 64.

(** [onload_target_state], but for its lock. *)
Record onload_target_state := mk_onload { onload_active : bool; onload_name : list Z }.
#[export] Instance eta_onload_target_state : Eta onload_target_state :=
  fun t => mk_onload (onload_active t) (onload_name t).

(** [hypervisor]; of [vcpus] a core reaches the trace buffers. *)
Record hypervisor := mk_hypervisor {
  system_cr3 : Z;
  vcpu_count : Z;
  vcpu_trace_buffers : Z -> ring_buffer;
  logger : standard_logger;
  onload_target : onload_target_state
}.
#[export] Instance eta_hypervisor : Eta hypervisor := fun h =>
  mk_hypervisor (system_cr3 h) (vcpu_count h) (vcpu_trace_buffers h) (logger h) (onload_target h).

Definition zero_hypervisor : hypervisor :=
  mk_hypervisor 0 0 (fun _ => zero_ring) zero_logger (mk_onload false (repeat 0 64)).
