(* ===== verification/VmcsSetup.v ===== *)
(** * Filling in the VMCS: [revhv-km/vmcs.cpp], [stealth.cpp], [vmx.cpp]

    The control fields, the guest state copied from the processor being
    virtualised, the host state, and the MSR bitmap. *)
From Stdlib Require Import ZArith Lia List Bool.
From stdpp Require Import base numbers list option functions.
From S2P Require Import Prelude Ia32 Memory Mtrr Ept Vmcs Segments Vcpu.

(** What the routines read from the processor. *)
Record cpu_state := mk_cpu {
  readcr0 : Z; readcr3 : Z; readcr4 : Z; readdr7 : Z; readeflags : Z;
  read_cs : Z; read_ss : Z; read_ds : Z; read_es : Z; read_fs : Z; read_gs : Z;
  read_ldtr : Z; read_tr : Z;
  gdtr_base : Z; gdtr_limit : Z; idtr_base : Z; idtr_limit : Z;
  segmentlimit : Z -> Z;
  readmsr : Z -> Z;
  virtual_memory : mem
}.

(** Addresses the routines take of members of the vCPU and of other objects:
    [&vcpu->...], and what [MmGetPhysicalAddress] gives for them. *)
Record addresses := mk_addresses {
  pa_msr_entries : Z; pa_msr_bitmap : Z;
  pa_ept_normal_pml4e : Z; pa_ept_target_pml4e : Z; pa_host_pml4e : Z;
  pfn_of_split_pt : bool -> Z -> Z; pfn_of_pd : bool -> Z -> Z; pfn_of_pdpt : bool -> Z;
  va_vcpu : Z; va_host_stack : Z; va_host_tss : Z; va_host_gdt : Z; va_host_idt : Z;
  va_vmexit_stub : Z
}.

(** [hv::tsc_hiding_enabled], [vcpu::host_stack_size]. *)
Definition tsc_hiding_enabled : bool := true.
Definition host_stack_size : Z := 0x8000.

(** Bit-fields of the control words. *)
Definition nmi_exiting_bit : Z := 3.
Definition virtual_nmi_bit : Z := 5.
Definition activate_vmx_preemption_timer_bit : Z := 6.
Definition use_tsc_offsetting_bit : Z := 3.
Definition use_msr_bitmaps_bit : Z := 28.
Definition activate_secondary_controls_bit : Z := 31.
Definition CR4_VMX_ENABLE_FLAG : Z := Z.shiftl 1 13.

Section setup.
Context {ia32 : Ia32} {mtrr_layout : MtrrLayout}.
Variable supported : vmcs_field -> bool.
Variable cpu : cpu_state.
Variable addr : addresses.
(** [g_hv.system_cr3]. *)
Variable system_cr3 : Z.

Abbreviation write_control m value field cap true_cap :=
  (write_control_field supported (readmsr cpu) m value field cap true_cap).

Definition write_pin_based_vm_execution_controls (m : vmcs) : vmcs * bool :=
  write_control m
    (bits_of ([nmi_exiting_bit; virtual_nmi_bit] ++
       (if tsc_hiding_enabled then [activate_vmx_preemption_timer_bit] else [])))
    VMCS_CTRL_PIN_BASED_VM_EXECUTION_CONTROLS IA32_VMX_PINBASED_CTLS IA32_VMX_TRUE_PINBASED_CTLS.

Definition write_processor_based_vm_execution_controls (m : vmcs) : vmcs * bool :=
  match write_control m
    (bits_of ((if tsc_hiding_enabled then [use_tsc_offsetting_bit] else []) ++
       [use_msr_bitmaps_bit; activate_secondary_controls_bit]))
    VMCS_CTRL_PROCESSOR_BASED_VM_EXECUTION_CONTROLS
    IA32_VMX_PROCBASED_CTLS IA32_VMX_TRUE_PROCBASED_CTLS with
  | (m, false) => (m, false)
  | (m, true) =>
      (* enable_rdtscp, enable_vpid, enable_invpcid, conceal_vmx_from_pt, enable_xsaves,
         enable_user_wait_pause, enable_ept *)
      write_control m (bits_of [3; 5; 12; 19; 20; 26; 1])
        VMCS_CTRL_SECONDARY_PROCESSOR_BASED_VM_EXECUTION_CONTROLS
        IA32_VMX_PROCBASED_CTLS2 IA32_VMX_PROCBASED_CTLS2
  end.

Definition write_vmexit_controls (v : vcpu) (m : vmcs) : vmcs * bool :=
  (* save_debug_controls, host_address_space_size, save and load ia32_pat, save and load
     ia32_efer, save and load ia32_perf_global_ctrl, conceal_vmx_from_pt *)
  match write_control m (bits_of [2; 9; 18; 19; 20; 21; 30; 12; 24])
    VMCS_CTRL_PRIMARY_VMEXIT_CONTROLS IA32_VMX_EXIT_CTLS IA32_VMX_TRUE_EXIT_CTLS with
  | (m, false) => (m, false)
  | (m, true) =>
      vmwrites supported m
        [(VMCS_CTRL_VMEXIT_MSR_STORE_COUNT, msr_store_count (stealth v));
         (VMCS_CTRL_VMEXIT_MSR_STORE_ADDRESS, pa_msr_entries addr);
         (VMCS_CTRL_VMEXIT_MSR_LOAD_COUNT, 0);
         (VMCS_CTRL_VMEXIT_MSR_LOAD_ADDRESS, 0)]
  end.

Definition write_vmentry_controls (v : vcpu) (m : vmcs) : vmcs * bool :=
  (* load_debug_controls, ia32e_mode_guest, load_ia32_efer, load_ia32_pat,
     load_ia32_perf_global_ctrl, conceal_vmx_from_pt *)
  match write_control m (bits_of [2; 9; 15; 14; 13; 17])
    VMCS_CTRL_VMENTRY_CONTROLS IA32_VMX_ENTRY_CTLS IA32_VMX_TRUE_ENTRY_CTLS with
  | (m, false) => (m, false)
  | (m, true) =>
      vmwrites supported m
        [(VMCS_CTRL_VMENTRY_MSR_LOAD_COUNT, msr_load_count (stealth v));
         (VMCS_CTRL_VMENTRY_MSR_LOAD_ADDRESS, pa_msr_entries addr)]
  end.

(** ** The MSR bitmap *)

Definition update_byte (f : Z -> Z) (i bit : Z) (exit : bool) : Z -> Z :=
  <[i := if exit then u8 (Z.lor (f i) bit) else Z.land (f i) (not64 bit)]> f.

Definition set_wrmsr_exiting (b : msr_bitmap) (msr : Z) (exit : bool) : msr_bitmap :=
  let bit := Z.shiftl 1 (Z.land msr 7) in
  if msr <=? MSR_ID_LOW_MAX then b <| wrmsr_low := update_byte (wrmsr_low b) (msr / 8) bit exit |>
  else if (MSR_ID_HIGH_MIN <=? msr) && (msr <=? MSR_ID_HIGH_MAX) then
    b <| wrmsr_high := update_byte (wrmsr_high b) ((msr - MSR_ID_HIGH_MIN) / 8) bit exit |>
  else b.

(** The MSRs whose writes the guest exits for, in the order of the calls. *)
Definition mtrr_msrs : list Z :=
  [IA32_MTRR_DEF_TYPE; IA32_MTRR_FIX64K_00000; IA32_MTRR_FIX16K_80000; IA32_MTRR_FIX16K_A0000;
   IA32_MTRR_FIX4K_C0000; IA32_MTRR_FIX4K_C8000; IA32_MTRR_FIX4K_D0000; IA32_MTRR_FIX4K_D8000;
   IA32_MTRR_FIX4K_E0000; IA32_MTRR_FIX4K_E8000; IA32_MTRR_FIX4K_F0000; IA32_MTRR_FIX4K_F8000] ++
  concat (map (fun i => [IA32_MTRR_PHYSBASE0 + i * 2; IA32_MTRR_PHYSMASK0 + i * 2])
            (seqZ 0 IA32_MTRR_VARIABLE_COUNT)).

Definition configure_msr_bitmap (b : msr_bitmap) : msr_bitmap :=
  fold_left (fun b msr => set_wrmsr_exiting b msr true) mtrr_msrs b.

(** ** The other control fields *)

(** An EPT pointer: page walk length, memory type, frame of the PML4 table. *)
Definition make_eptp (pml4e_pa : Z) : Z :=
  set_bits (set_bits (set_bits 0 3 3 (4 - 1)) 0 3 MEMORY_TYPE_WRITE_BACK) 12 pfn_width
    (Z.shiftr pml4e_pa 12).

Definition cr4_guest_host_mask : Z :=
  Z.lor (Z.lor (readmsr cpu IA32_VMX_CR4_FIXED0) (not64 (readmsr cpu IA32_VMX_CR4_FIXED1)))
    CR4_VMX_ENABLE_FLAG.
Definition cr0_guest_host_mask : Z :=
  Z.lor (readmsr cpu IA32_VMX_CR0_FIXED0) (not64 (readmsr cpu IA32_VMX_CR0_FIXED1)).

Definition write_other_control_fields (v : vcpu) : vcpu * bool :=
  let exception_bitmap := Z.lor 0 (Z.shiftl 1 page_fault) in
  match vmwrites supported (vcpu_vmcs v)
    ([(VMCS_CTRL_EXCEPTION_BITMAP, exception_bitmap);
      (VMCS_CTRL_PAGEFAULT_ERROR_CODE_MASK, 0);
      (VMCS_CTRL_PAGEFAULT_ERROR_CODE_MATCH, MAXULONG_PTR)] ++
     (if tsc_hiding_enabled then [(VMCS_CTRL_TSC_OFFSET, 0)] else []) ++
     [(VMCS_CTRL_CR4_GUEST_HOST_MASK, cr4_guest_host_mask);
      (VMCS_CTRL_CR0_GUEST_HOST_MASK, cr0_guest_host_mask);
      (VMCS_CTRL_CR4_READ_SHADOW, Z.land (readcr4 cpu) (not64 CR4_VMX_ENABLE_FLAG));
      (VMCS_CTRL_CR0_READ_SHADOW, readcr0 cpu);
      (VMCS_CTRL_CR3_TARGET_COUNT, 1);
      (VMCS_CTRL_CR3_TARGET_VALUE_0, system_cr3)]) with
  | (m, false) => (v <| vcpu_vmcs := m |>, false)
  | (m, true) =>
      let v := v <| bitmap := configure_msr_bitmap (bitmap v) |> in
      match vmwrites supported m
        [(VMCS_CTRL_MSR_BITMAP_ADDRESS, pa_msr_bitmap addr);
         (VMCS_CTRL_VIRTUAL_PROCESSOR_IDENTIFIER, 1);
         (VMCS_CTRL_XSS_EXITING_BITMAP, 0);
         (VMCS_CTRL_VMENTRY_INTERRUPTION_INFORMATION_FIELD, 0);
         (VMCS_CTRL_VMENTRY_EXCEPTION_ERROR_CODE, 0);
         (VMCS_CTRL_VMENTRY_INSTRUCTION_LENGTH, 0)] with
      | (m, false) => (v <| vcpu_vmcs := m |>, false)
      | (m, true) =>
          let v := v
            <| ept_pages_normal := initialize_ept (pfn_of_split_pt addr true) (pfn_of_pd addr true)
                                     (pfn_of_pdpt addr true) (vcpu_mtrr v) |>
            <| ept_pages_target := initialize_ept (pfn_of_split_pt addr false) (pfn_of_pd addr false)
                                     (pfn_of_pdpt addr false) (vcpu_mtrr v) |>
            <| eptp_normal_execution := make_eptp (pa_ept_normal_pml4e addr) |>
            <| eptp_target_execution := make_eptp (pa_ept_target_pml4e addr) |>
            <| in_normal_execution := true |> in
          let '(m, ok) := vmx_vmwrite supported m VMCS_CTRL_EPT_POINTER (eptp_normal_execution v) in
          (v <| vcpu_vmcs := m |>, ok)
      end
  end.

(** ** Guest state *)

Definition segment_base (sel : Z) : Z := base_address (virtual_memory cpu) (gdtr_base cpu) sel.
Definition segment_rights (sel : Z) : Z := access_rights (virtual_memory cpu) (gdtr_base cpu) sel.

(** The values of the guest-state fields, in the order of the writes. RSP and RIP
    are set at VMLAUNCH. *)
Definition guest_registers : list (vmcs_field * Z) :=
  [(VMCS_GUEST_CR0, readcr0 cpu);
   (VMCS_GUEST_CR3, readcr3 cpu);
   (VMCS_GUEST_CR4, readcr4 cpu);
   (VMCS_GUEST_DR7, readdr7 cpu);
   (VMCS_GUEST_RSP, 0);
   (VMCS_GUEST_RIP, 0);
   (VMCS_GUEST_RFLAGS, readeflags cpu)].

(** Segment selectors. *)
Definition guest_selectors : list (vmcs_field * Z) :=
  [(VMCS_GUEST_CS_SELECTOR, read_cs cpu);
   (VMCS_GUEST_SS_SELECTOR, read_ss cpu);
   (VMCS_GUEST_DS_SELECTOR, read_ds cpu);
   (VMCS_GUEST_ES_SELECTOR, read_es cpu);
   (VMCS_GUEST_FS_SELECTOR, read_fs cpu);
   (VMCS_GUEST_GS_SELECTOR, read_gs cpu);
   (VMCS_GUEST_LDTR_SELECTOR, read_ldtr cpu);
   (VMCS_GUEST_TR_SELECTOR, read_tr cpu)].

(** Segment bases; those of FS and GS are in MSRs. *)
Definition guest_bases : list (vmcs_field * Z) :=
  [(VMCS_GUEST_CS_BASE, segment_base (read_cs cpu));
   (VMCS_GUEST_SS_BASE, segment_base (read_ss cpu));
   (VMCS_GUEST_DS_BASE, segment_base (read_ds cpu));
   (VMCS_GUEST_ES_BASE, segment_base (read_es cpu));
   (VMCS_GUEST_FS_BASE, readmsr cpu IA32_FS_BASE);
   (VMCS_GUEST_GS_BASE, readmsr cpu IA32_GS_BASE);
   (VMCS_GUEST_LDTR_BASE, segment_base (read_ldtr cpu));
   (VMCS_GUEST_TR_BASE, segment_base (read_tr cpu))].

(** Segment limits. *)
Definition guest_limits : list (vmcs_field * Z) :=
  [(VMCS_GUEST_CS_LIMIT, segmentlimit cpu (read_cs cpu));
   (VMCS_GUEST_SS_LIMIT, segmentlimit cpu (read_ss cpu));
   (VMCS_GUEST_DS_LIMIT, segmentlimit cpu (read_ds cpu));
   (VMCS_GUEST_ES_LIMIT, segmentlimit cpu (read_es cpu));
   (VMCS_GUEST_FS_LIMIT, segmentlimit cpu (read_fs cpu));
   (VMCS_GUEST_GS_LIMIT, segmentlimit cpu (read_gs cpu));
   (VMCS_GUEST_LDTR_LIMIT, segmentlimit cpu (read_ldtr cpu));
   (VMCS_GUEST_TR_LIMIT, segmentlimit cpu (read_tr cpu))].

(** Access rights. *)
Definition guest_rights : list (vmcs_field * Z) :=
  [(VMCS_GUEST_CS_ACCESS_RIGHTS, segment_rights (read_cs cpu));
   (VMCS_GUEST_SS_ACCESS_RIGHTS, segment_rights (read_ss cpu));
   (VMCS_GUEST_DS_ACCESS_RIGHTS, segment_rights (read_ds cpu));
   (VMCS_GUEST_ES_ACCESS_RIGHTS, segment_rights (read_es cpu));
   (VMCS_GUEST_FS_ACCESS_RIGHTS, segment_rights (read_fs cpu));
   (VMCS_GUEST_GS_ACCESS_RIGHTS, segment_rights (read_gs cpu));
   (VMCS_GUEST_LDTR_ACCESS_RIGHTS, segment_rights (read_ldtr cpu));
   (VMCS_GUEST_TR_ACCESS_RIGHTS, segment_rights (read_tr cpu))].

(** Descriptor tables. *)
Definition guest_tables : list (vmcs_field * Z) :=
  [(VMCS_GUEST_GDTR_BASE, gdtr_base cpu);
   (VMCS_GUEST_GDTR_LIMIT, gdtr_limit cpu);
   (VMCS_GUEST_IDTR_BASE, idtr_base cpu);
   (VMCS_GUEST_IDTR_LIMIT, idtr_limit cpu)].

(** MSRs. *)
Definition guest_msrs : list (vmcs_field * Z) :=
  [(VMCS_GUEST_DEBUGCTL, readmsr cpu IA32_DEBUGCTL);
   (VMCS_GUEST_SYSENTER_CS, readmsr cpu IA32_SYSENTER_CS);
   (VMCS_GUEST_SYSENTER_ESP, readmsr cpu IA32_SYSENTER_ESP);
   (VMCS_GUEST_SYSENTER_EIP, readmsr cpu IA32_SYSENTER_EIP);
   (VMCS_GUEST_PERF_GLOBAL_CTRL, readmsr cpu IA32_PERF_GLOBAL_CTRL);
   (VMCS_GUEST_PAT, readmsr cpu IA32_PAT);
   (VMCS_GUEST_EFER, readmsr cpu IA32_EFER)].

(** Non-register state: active, nothing blocked or pending, no linked VMCS. *)
Definition guest_non_register : list (vmcs_field * Z) :=
  [(VMCS_GUEST_ACTIVITY_STATE, 0);
   (VMCS_GUEST_INTERRUPTIBILITY_STATE, 0);
   (VMCS_GUEST_PENDING_DEBUG_EXCEPTIONS, 0);
   (VMCS_GUEST_VMCS_LINK_POINTER, MAXULONG_PTR)].

Definition guest_state : list (vmcs_field * Z) :=
  guest_registers ++ guest_selectors ++ guest_bases ++ guest_limits ++ guest_rights ++
  guest_tables ++ guest_msrs ++ guest_non_register.

Definition write_guest_state_fields (m : vmcs) : vmcs * bool :=
  match vmwrites supported m guest_state with
  | (m, false) => (m, false)
  | (m, true) =>
      if tsc_hiding_enabled then
        if get_bit (vmx_vmread supported m VMCS_CTRL_PIN_BASED_VM_EXECUTION_CONTROLS)
             activate_vmx_preemption_timer_bit
        then vmx_vmwrite supported m VMCS_GUEST_VMX_PREEMPTION_TIMER_VALUE MAXULONG
        else (m, false)
      else (m, true)
  end.

(** ** Host state *)

Definition host_cr3 : Z := set_bits 0 12 pfn_width (Z.shiftr (pa_host_pml4e addr) 12).
Definition host_rsp : Z := Z.land (va_host_stack addr +64 host_stack_size) (not64 0xF).
(** [ia32e_mode_enable], [ia32e_mode_active], [syscall_enable],
    [execute_disable_bit_enable]. *)
Definition host_efer : Z := bits_of [8; 10; 0; 11].
(** The entries [pa0] to [pa7]. *)
Definition host_pat : Z :=
  fold_left (fun w it => set_bits w (fst it * 8) 3 (snd it))
    [(0, MEMORY_TYPE_WRITE_BACK); (1, MEMORY_TYPE_WRITE_THROUGH);
     (2, MEMORY_TYPE_UNCACHEABLE_MINUS); (3, MEMORY_TYPE_UNCACHEABLE);
     (4, MEMORY_TYPE_WRITE_BACK); (5, MEMORY_TYPE_WRITE_THROUGH);
     (6, MEMORY_TYPE_UNCACHEABLE_MINUS); (7, MEMORY_TYPE_UNCACHEABLE)] 0.

(** Control registers, stack and entry point. *)
Definition host_registers : list (vmcs_field * Z) :=
  [(VMCS_HOST_CR0, readcr0 cpu);
   (VMCS_HOST_CR3, host_cr3);
   (VMCS_HOST_CR4, readcr4 cpu);
   (VMCS_HOST_RSP, host_rsp);
   (VMCS_HOST_RIP, va_vmexit_stub addr)].

(** Segment selectors. *)
Definition host_selectors : list (vmcs_field * Z) :=
  [(VMCS_HOST_CS_SELECTOR, host_cs);
   (VMCS_HOST_SS_SELECTOR, host_ss);
   (VMCS_HOST_DS_SELECTOR, 0);
   (VMCS_HOST_ES_SELECTOR, 0);
   (VMCS_HOST_FS_SELECTOR, 0);
   (VMCS_HOST_GS_SELECTOR, 0);
   (VMCS_HOST_TR_SELECTOR, host_tr)].

(** Bases; FS holds the address of the vCPU. *)
Definition host_bases : list (vmcs_field * Z) :=
  [(VMCS_HOST_FS_BASE, va_vcpu addr);
   (VMCS_HOST_GS_BASE, 0);
   (VMCS_HOST_TR_BASE, va_host_tss addr);
   (VMCS_HOST_GDTR_BASE, va_host_gdt addr);
   (VMCS_HOST_IDTR_BASE, va_host_idt addr)].

(** MSRs; no performance counter runs in the host. *)
Definition host_msrs : list (vmcs_field * Z) :=
  [(VMCS_HOST_SYSENTER_CS, 0);
   (VMCS_HOST_SYSENTER_ESP, 0);
   (VMCS_HOST_SYSENTER_EIP, 0);
   (VMCS_HOST_PERF_GLOBAL_CTRL, 0);
   (VMCS_HOST_EFER, host_efer);
   (VMCS_HOST_PAT, host_pat);
   (VMCS_HOST_PERF_GLOBAL_CTRL, 0)].

Definition host_state : list (vmcs_field * Z) :=
  host_registers ++ host_selectors ++ host_bases ++ host_msrs.

Definition write_host_state_fields (m : vmcs) : vmcs * bool := vmwrites supported m host_state.

(** ** The whole *)

(** A step that writes the VMCS, and what follows if it succeeds. *)
Definition on_vmcs (f : vmcs -> vmcs * bool) (k : vcpu -> vcpu * bool) (v : vcpu) : vcpu * bool :=
  let '(m, ok) := f (vcpu_vmcs v) in
  let v := v <| vcpu_vmcs := m |> in
  if ok then k v else (v, false).

Definition write_control_fields (v : vcpu) : vcpu * bool :=
  on_vmcs write_pin_based_vm_execution_controls (fun v =>
  on_vmcs write_processor_based_vm_execution_controls (fun v =>
  on_vmcs (write_vmexit_controls v) (fun v =>
  on_vmcs (write_vmentry_controls v) (fun v =>
  match write_other_control_fields v with
  | (v, false) => (v, false)
  | (v, true) =>
      on_vmcs write_guest_state_fields (fun v =>
      on_vmcs write_host_state_fields (fun v => (v, true)) v) v
  end) v) v) v) v.

(** ** The stealth data: [stealth.cpp] *)

Definition add_msr_entry (d : stealth_data) (msr : Z) (entry_idx : nat) : stealth_data :=
  d <| msr_entries := <[entry_idx := mk_msr_entry msr (readmsr cpu msr)]> (msr_entries d) |>.

Definition max_msr_entries : Z := 3.

Definition prepare_msr_entries : stealth_data :=
  let d := zero_stealth in
  let d := add_msr_entry d IA32_MPERF 0 in
  let d := add_msr_entry d IA32_APERF 1 in
  let d := add_msr_entry d IA32_TIME_STAMP_COUNTER 2 in
  d <| msr_store_count := max_msr_entries |> <| msr_load_count := max_msr_entries - 1 |>.

(** The last entry holds the time-stamp counter that the processor stored. *)
Definition on_vmexit (d : stealth_data) : stealth_data :=
  let tsc := nth 2 (map msr_data (msr_entries d)) 0 in
  d <| stealth_tsc := (stealth_tsc d) <| stored_tsc := tsc |> <| instruction_overhead := 0 |> |>.

(** ** Entering VMX operation: [vmx.cpp] *)

(** [ecx] of CPUID leaf 1. *)
Definition check_vmx_support (cpuid_1_ecx : Z) : bool :=
  get_bit cpuid_1_ecx 5 &&
  get_bit (readmsr cpu IA32_FEATURE_CONTROL) 0 && get_bit (readmsr cpu IA32_FEATURE_CONTROL) 2.

(** The new values of CR0 and CR4. *)
Definition enable_vmx : Z * Z :=
  let cr4 := set_bits (readcr4 cpu) 13 1 1 in
  (Z.land (Z.lor (readcr0 cpu) (readmsr cpu IA32_VMX_CR0_FIXED0)) (readmsr cpu IA32_VMX_CR0_FIXED1),
   Z.land (Z.lor cr4 (readmsr cpu IA32_VMX_CR4_FIXED0)) (readmsr cpu IA32_VMX_CR4_FIXED1)).

(** ** The MSR bitmap as the processor reads it *)

(** Whether the bitmap has a bit for the MSR at all, and whether a write of the
    MSR by the guest exits: always, when it has none. *)
Definition has_msr_bit (msr : Z) : bool :=
  ((0 <=? msr) && (msr <=? MSR_ID_LOW_MAX)) ||
  ((MSR_ID_HIGH_MIN <=? msr) && (msr <=? MSR_ID_HIGH_MAX)).
Definition wrmsr_exits (b : msr_bitmap) (msr : Z) : bool :=
  if msr <=? MSR_ID_LOW_MAX then Z.testbit (wrmsr_low b (msr / 8)) (msr mod 8)
  else if (MSR_ID_HIGH_MIN <=? msr) && (msr <=? MSR_ID_HIGH_MAX) then
    Z.testbit (wrmsr_high b ((msr - MSR_ID_HIGH_MIN) / 8)) ((msr - MSR_ID_HIGH_MIN) mod 8)
  else true.

Context `{!Ia32Ok ia32}.

Lemma land_7 x : Z.land x 7 = x mod 8.
Proof. apply (Z.land_ones x 3). lia. Qed.

(** One bit of a bitmap changes. *)
Lemma testbit_update_byte f i k exit j n :
  0 <= k < 8 -> 0 <= n < 8 ->
  Z.testbit (update_byte f i (Z.shiftl 1 k) exit j) n =
    if (i =? j) && (k =? n) then exit else Z.testbit (f j) n.
Proof.
  intros Hk Hn. unfold update_byte, insert, fn_insert.
  destruct (Z.eqb_spec i j) as [<- |];
    [rewrite decide_True by done | by rewrite decide_False by done]. cbn [andb].
  assert (Z.testbit (Z.shiftl 1 k) n = (k =? n)) as E.
  { rewrite Z.shiftl_spec by lia. destruct (Z.eqb_spec k n) as [-> |].
    - by rewrite Z.sub_diag.
    - destruct (Z.lt_ge_cases n k); [by rewrite Z.testbit_neg_r by lia |].
      apply (testbit_above 1); lia. }
  destruct exit.
  - rewrite testbit_wrap, Z.lor_spec, E by lia. destruct (Z.ltb_spec n 8); [| lia].
    destruct (k =? n); [apply orb_true_r | apply orb_false_r].
  - rewrite Z.land_spec, testbit_not64, E by lia. destruct (Z.ltb_spec n 64); [| lia].
    destruct (k =? n); [apply andb_false_r | apply andb_true_r].
Qed.

Lemma byte_bit_eq x y : (x / 8 =? y / 8) && (x mod 8 =? y mod 8) = (x =? y).
Proof.
  pose proof (Z.div_mod x 8 ltac:(lia)). pose proof (Z.div_mod y 8 ltac:(lia)).
  destruct (Z.eqb_spec x y) as [-> |]; [by rewrite !Z.eqb_refl |].
  destruct (Z.eqb_spec (x / 8) (y / 8)), (Z.eqb_spec (x mod 8) (y mod 8)); cbn; lia || done.
Qed.

Lemma set_wrmsr_exiting_ok b msr exit msr' :
  has_msr_bit msr' = true ->
  wrmsr_exits (set_wrmsr_exiting b msr exit) msr' =
    if msr =? msr' then exit else wrmsr_exits b msr'.
Proof.
  unfold has_msr_bit, wrmsr_exits, set_wrmsr_exiting.
  rewrite msr_low_max_ok, msr_high_min_ok, msr_high_max_ok, land_7. intros Hb.
  pose proof (Z.mod_pos_bound msr 8 ltac:(lia)). pose proof (Z.mod_pos_bound msr' 8 ltac:(lia)).
  pose proof (Z.mod_pos_bound (msr' - 0xC0000000) 8 ltac:(lia)).
  destruct (Z.leb_spec msr 0x1FFF); cbn [wrmsr_low wrmsr_high set].
  - destruct (Z.leb_spec msr' 0x1FFF); cbn [wrmsr_low wrmsr_high].
    + unfold set. cbn [wrmsr_low]. rewrite testbit_update_byte by lia. by rewrite byte_bit_eq.
    + destruct (Z.eqb_spec msr msr'); [lia | done].
  - destruct (Z.leb_spec 0xC0000000 msr), (Z.leb_spec msr 0xC0001FFF); cbn [andb];
      destruct (Z.leb_spec msr' 0x1FFF), (Z.leb_spec 0xC0000000 msr'),
        (Z.leb_spec msr' 0xC0001FFF); cbn [andb orb] in *;
      rewrite ?andb_false_r in Hb; try done;
      try (destruct (Z.eqb_spec msr msr'); [lia | done]).
    unfold set. cbn [wrmsr_high].
    assert (msr mod 8 = (msr - 0xC0000000) mod 8) as ->.
    { rewrite <- (Z.mod_add (msr - 0xC0000000) 0x18000000 8) by lia. f_equal. lia. }
    rewrite testbit_update_byte by (apply Z.mod_pos_bound || idtac; lia).
    rewrite byte_bit_eq. destruct (Z.eqb_spec (msr - 0xC0000000) (msr' - 0xC0000000)),
      (Z.eqb_spec msr msr'); lia || done.
Qed.

Lemma fold_set_wrmsr_exiting l b msr :
  has_msr_bit msr = true ->
  wrmsr_exits (fold_left (fun b msr => set_wrmsr_exiting b msr true) l b) msr =
    existsb (Z.eqb msr) l || wrmsr_exits b msr.
Proof.
  intros Hb. revert b. induction l as [| a l IH]; intros b; [done |].
  cbn [fold_left existsb]. rewrite IH, set_wrmsr_exiting_ok by done.
  rewrite (Z.eqb_sym msr a). destruct (a =? msr); cbn [orb]; [apply orb_true_r | done].
Qed.

(** The MSR bitmap set up for the guest makes exactly the writes of the
    listed MTRR registers exit, beyond those that already did: every bit of the
    two 1 KB tables that is not one of theirs keeps its value. *)
Theorem configure_msr_bitmap_spec b msr :
  has_msr_bit msr = true ->
  wrmsr_exits (configure_msr_bitmap b) msr =
    existsb (Z.eqb msr) mtrr_msrs || wrmsr_exits b msr.
Proof. apply fold_set_wrmsr_exiting. Qed.

(** ** A sequence of writes *)

Definition apply_writes (l : list (vmcs_field * Z)) (m : vmcs) : vmcs :=
  fold_left (fun m fv => vmwrite supported m (fst fv) (snd fv)) l m.

(** The last value a sequence writes to a field. *)
Definition last_write (l : list (vmcs_field * Z)) (f : vmcs_field) : option Z :=
  fold_left (fun o fv => if decide (fst fv = f) then Some (snd fv) else o) l None.

Hypothesis all_supported : forall f, supported f = true.

Lemma vmread_apply_writes_from l m f o :
  (forall x, o = Some x -> vmx_vmread supported m f = u64 x) ->
  forall x, fold_left (fun o fv => if decide (fst fv = f) then Some (snd fv) else o) l o = Some x ->
  vmx_vmread supported (apply_writes l m) f = u64 x.
Proof.
  revert m o. induction l as [| [g y] l IH]; intros m o Ho x Hx; [by apply Ho |].
  cbn [fold_left fst snd apply_writes] in *. eapply IH; [| exact Hx].
  intros z Hz. destruct (decide (g = f)) as [-> |].
  - injection Hz as ->. by apply vmread_vmwrite_same.
  - rewrite vmread_vmwrite_other by done. by apply Ho.
Qed.

Lemma vmread_apply_writes l m f x :
  last_write l f = Some x -> vmx_vmread supported (apply_writes l m) f = u64 x.
Proof. apply vmread_apply_writes_from. by intros z [=]. Qed.

Lemma vmwrites_all l m : vmwrites supported m l = (apply_writes l m, true).
Proof. apply vmwrites_ok. intros f _. apply all_supported. Qed.

Lemma apply_writes_app l l' m : apply_writes l' (apply_writes l m) = apply_writes (l ++ l') m.
Proof. unfold apply_writes. by rewrite fold_left_app. Qed.

Lemma write_control_all m value field cap true_cap :
  write_control m value field cap true_cap =
  (apply_writes [(field, control_value (readmsr cpu) value cap true_cap)] m, true).
Proof. rewrite write_control_field_eq. by apply vmx_vmwrite_ok. Qed.

(** ** What each routine writes *)

Abbreviation value_of value cap true_cap := (control_value (readmsr cpu) value cap true_cap).

Definition pin_based_controls : Z :=
  value_of (bits_of [nmi_exiting_bit; virtual_nmi_bit; activate_vmx_preemption_timer_bit])
    IA32_VMX_PINBASED_CTLS IA32_VMX_TRUE_PINBASED_CTLS.

Definition pin_writes : list (vmcs_field * Z) :=
  [(VMCS_CTRL_PIN_BASED_VM_EXECUTION_CONTROLS, pin_based_controls)].
Definition proc_writes : list (vmcs_field * Z) :=
  [(VMCS_CTRL_PROCESSOR_BASED_VM_EXECUTION_CONTROLS,
      value_of (bits_of [use_tsc_offsetting_bit; use_msr_bitmaps_bit; activate_secondary_controls_bit])
        IA32_VMX_PROCBASED_CTLS IA32_VMX_TRUE_PROCBASED_CTLS);
   (VMCS_CTRL_SECONDARY_PROCESSOR_BASED_VM_EXECUTION_CONTROLS,
      value_of (bits_of [3; 5; 12; 19; 20; 26; 1]) IA32_VMX_PROCBASED_CTLS2 IA32_VMX_PROCBASED_CTLS2)].
Definition exit_writes (v : vcpu) : list (vmcs_field * Z) :=
  [(VMCS_CTRL_PRIMARY_VMEXIT_CONTROLS,
      value_of (bits_of [2; 9; 18; 19; 20; 21; 30; 12; 24]) IA32_VMX_EXIT_CTLS IA32_VMX_TRUE_EXIT_CTLS);
   (VMCS_CTRL_VMEXIT_MSR_STORE_COUNT, msr_store_count (stealth v));
   (VMCS_CTRL_VMEXIT_MSR_STORE_ADDRESS, pa_msr_entries addr);
   (VMCS_CTRL_VMEXIT_MSR_LOAD_COUNT, 0);
   (VMCS_CTRL_VMEXIT_MSR_LOAD_ADDRESS, 0)].
Definition entry_writes (v : vcpu) : list (vmcs_field * Z) :=
  [(VMCS_CTRL_VMENTRY_CONTROLS,
      value_of (bits_of [2; 9; 15; 14; 13; 17]) IA32_VMX_ENTRY_CTLS IA32_VMX_TRUE_ENTRY_CTLS);
   (VMCS_CTRL_VMENTRY_MSR_LOAD_COUNT, msr_load_count (stealth v));
   (VMCS_CTRL_VMENTRY_MSR_LOAD_ADDRESS, pa_msr_entries addr)].
Definition other_writes : list (vmcs_field * Z) :=
  [(VMCS_CTRL_EXCEPTION_BITMAP, Z.lor 0 (Z.shiftl 1 page_fault));
   (VMCS_CTRL_PAGEFAULT_ERROR_CODE_MASK, 0);
   (VMCS_CTRL_PAGEFAULT_ERROR_CODE_MATCH, MAXULONG_PTR);
   (VMCS_CTRL_TSC_OFFSET, 0);
   (VMCS_CTRL_CR4_GUEST_HOST_MASK, cr4_guest_host_mask);
   (VMCS_CTRL_CR0_GUEST_HOST_MASK, cr0_guest_host_mask);
   (VMCS_CTRL_CR4_READ_SHADOW, Z.land (readcr4 cpu) (not64 CR4_VMX_ENABLE_FLAG));
   (VMCS_CTRL_CR0_READ_SHADOW, readcr0 cpu);
   (VMCS_CTRL_CR3_TARGET_COUNT, 1);
   (VMCS_CTRL_CR3_TARGET_VALUE_0, system_cr3);
   (VMCS_CTRL_MSR_BITMAP_ADDRESS, pa_msr_bitmap addr);
   (VMCS_CTRL_VIRTUAL_PROCESSOR_IDENTIFIER, 1);
   (VMCS_CTRL_XSS_EXITING_BITMAP, 0);
   (VMCS_CTRL_VMENTRY_INTERRUPTION_INFORMATION_FIELD, 0);
   (VMCS_CTRL_VMENTRY_EXCEPTION_ERROR_CODE, 0);
   (VMCS_CTRL_VMENTRY_INSTRUCTION_LENGTH, 0);
   (VMCS_CTRL_EPT_POINTER, make_eptp (pa_ept_normal_pml4e addr))].
Definition guest_writes : list (vmcs_field * Z) :=
  guest_state ++ [(VMCS_GUEST_VMX_PREEMPTION_TIMER_VALUE, MAXULONG)].

(** Everything [write_control_fields] writes, in order. *)
Definition all_writes (v : vcpu) : list (vmcs_field * Z) :=
  pin_writes ++ proc_writes ++ exit_writes v ++ entry_writes v ++ other_writes ++ guest_writes ++
  host_state.

(** The processor supports the VMX-preemption timer. *)
Hypothesis timer_supported : Z.testbit pin_based_controls activate_vmx_preemption_timer_bit = true.

Lemma write_guest_state_fields_ok m :
  vmx_vmread supported m VMCS_CTRL_PIN_BASED_VM_EXECUTION_CONTROLS = u64 pin_based_controls ->
  write_guest_state_fields m = (apply_writes guest_writes m, true).
Proof.
  intros Hp. unfold write_guest_state_fields. rewrite vmwrites_all.
  assert (vmx_vmread supported (apply_writes guest_state m)
    VMCS_CTRL_PIN_BASED_VM_EXECUTION_CONTROLS = u64 pin_based_controls) as ->.
  { rewrite <- Hp. apply fold_vmwrite_other. vm_compute. intuition discriminate. }
  unfold get_bit, tsc_hiding_enabled.
  rewrite testbit_wrap by (vm_compute; discriminate). cbn [andb]. rewrite timer_supported. cbn [andb].
  rewrite vmx_vmwrite_ok by done. unfold guest_writes. by rewrite <- apply_writes_app.
Qed.

(** The core after writes to its VMCS. *)
Definition writes (l : list (vmcs_field * Z)) (v : vcpu) : vcpu :=
  v <| vcpu_vmcs := apply_writes l (vcpu_vmcs v) |>.

Lemma on_vmcs_ok f l k v :
  f (vcpu_vmcs v) = (apply_writes l (vcpu_vmcs v), true) -> on_vmcs f k v = k (writes l v).
Proof. intros E. unfold on_vmcs. by rewrite E. Qed.

Lemma writes_app l l' v : writes l' (writes l v) = writes (l ++ l') v.
Proof. unfold writes at 1 2. cbn. by rewrite apply_writes_app. Qed.

(** The members [write_other_control_fields] sets beside the VMCS. *)
Definition with_ept (v : vcpu) : vcpu :=
  v <| bitmap := configure_msr_bitmap (bitmap v) |>
    <| ept_pages_normal := initialize_ept (pfn_of_split_pt addr true) (pfn_of_pd addr true)
                             (pfn_of_pdpt addr true) (vcpu_mtrr v) |>
    <| ept_pages_target := initialize_ept (pfn_of_split_pt addr false) (pfn_of_pd addr false)
                             (pfn_of_pdpt addr false) (vcpu_mtrr v) |>
    <| eptp_normal_execution := make_eptp (pa_ept_normal_pml4e addr) |>
    <| eptp_target_execution := make_eptp (pa_ept_target_pml4e addr) |>
    <| in_normal_execution := true |>.

Lemma vmwrite_apply_writes l m f x :
  vmwrite supported (apply_writes l m) f x = apply_writes (l ++ [(f, x)]) m.
Proof. by rewrite <- apply_writes_app. Qed.

Lemma writes_with_ept l v : writes l (with_ept v) = with_ept (writes l v).
Proof. destruct v. unfold writes, with_ept. reduce_vcpu. reflexivity. Qed.

Lemma write_other_control_fields_ok v :
  write_other_control_fields v = (with_ept (writes other_writes v), true).
Proof.
  unfold write_other_control_fields. cbv beta zeta. rewrite !vmwrites_all.
  rewrite vmx_vmwrite_ok by done. rewrite vmwrite_apply_writes, apply_writes_app.
  destruct v. unfold with_ept, writes. reduce_vcpu. reflexivity.
Qed.

Lemma write_pin_ok m : write_pin_based_vm_execution_controls m = (apply_writes pin_writes m, true).
Proof. apply write_control_all. Qed.

Lemma write_proc_ok m :
  write_processor_based_vm_execution_controls m = (apply_writes proc_writes m, true).
Proof. unfold write_processor_based_vm_execution_controls. by rewrite !write_control_all. Qed.

Lemma write_exit_ok v m : write_vmexit_controls v m = (apply_writes (exit_writes v) m, true).
Proof. unfold write_vmexit_controls. by rewrite write_control_all, vmwrites_all. Qed.

Lemma write_entry_ok v m : write_vmentry_controls v m = (apply_writes (entry_writes v) m, true).
Proof. unfold write_vmentry_controls. by rewrite write_control_all, vmwrites_all. Qed.

Lemma write_control_fields_ok v :
  write_control_fields v = (with_ept (writes (all_writes v) v), true).
Proof.
  unfold write_control_fields.
  rewrite (on_vmcs_ok _ _ _ _ (write_pin_ok _)), (on_vmcs_ok _ _ _ _ (write_proc_ok _)),
    (on_vmcs_ok _ _ _ _ (write_exit_ok _ _)), (on_vmcs_ok _ _ _ _ (write_entry_ok _ _)).
  rewrite write_other_control_fields_ok.
  rewrite (on_vmcs_ok _ guest_writes).
  2: { apply write_guest_state_fields_ok. cbn [vcpu_vmcs with_ept writes set].
       rewrite !apply_writes_app. apply vmread_apply_writes. reflexivity. }
  rewrite (on_vmcs_ok _ host_state) by apply vmwrites_all.
  rewrite !writes_with_ept, !writes_app. unfold all_writes. by rewrite <- !app_assoc.
Qed.

Lemma written_last l v f x :
  Forall (fun fx => last_write (all_writes v) (fst fx) = Some (snd fx)) l -> In (f, x) l ->
  last_write (all_writes v) f = Some x.
Proof. intros Hl Hin. rewrite List.Forall_forall in Hl. apply (Hl (f, x) Hin). Qed.

Lemma guest_last v :
  Forall (fun fx => last_write (all_writes v) (fst fx) = Some (snd fx)) guest_state.
Proof. repeat constructor. Qed.

Lemma host_last v :
  Forall (fun fx => last_write (all_writes v) (fst fx) = Some (snd fx)) host_state.
Proof. repeat constructor. Qed.

Lemma host_rsp_aligned : u64 host_rsp mod 16 = 0.
Proof.
  unfold host_rsp. change 0xF with (Z.ones 4).
  set (s := va_host_stack addr +64 host_stack_size).
  assert (is_u64 s) as Hs by (apply wrap_range; lia).
  rewrite land_not64_ones by (done || lia). unfold is_u64 in Hs.
  pose proof (Z.div_mod s (2 ^ 4) ltac:(lia)). pose proof (Z.mod_pos_bound s (2 ^ 4) ltac:(lia)).
  rewrite wrap_small by lia. change (2 ^ 4) with 16. apply Z.mod_mul. lia.
Qed.

Lemma land_not64_0 x : is_u64 x -> Z.land x (not64 0) = x.
Proof. intros Hx. change 0 with (Z.ones 0) at 1. rewrite land_not64_ones by (done || lia). change (2 ^ 0) with 1. by rewrite Z.div_1_r, Z.mul_1_r. Qed.

Lemma land_u64 x y : is_u64 x -> is_u64 (Z.land x y).
Proof.
  intros Hx. assert (0 <= Z.land x y) by (apply Z.land_nonneg; left; apply Hx).
  split; [done |]. apply bounded_of_testbit; [lia | done |].
  intros i Hi. by rewrite Z.land_spec, (testbit_above 64 x i).
Qed.

Lemma vmxe_masked : Z.land CR4_VMX_ENABLE_FLAG cr4_guest_host_mask = CR4_VMX_ENABLE_FLAG.
Proof.
  unfold cr4_guest_host_mask. apply Z.bits_inj'. intros i _. rewrite Z.land_spec, !Z.lor_spec.
  destruct (Z.testbit CR4_VMX_ENABLE_FLAG i); [by rewrite orb_true_r | done].
Qed.

(** A masked control register that holds what its shadow does, but for a masked
    bit [x], is seen with [x] clear. *)
Lemma effective_cr_masked mask cr x :
  is_u64 cr -> Z.land x mask = x -> 0 <= x ->
  effective_cr mask (Z.land cr (not64 x)) cr = Z.land cr (not64 x).
Proof.
  intros Hcr Hx H0. unfold effective_cr. apply Z.bits_inj'. intros i Hi.
  apply (f_equal (fun z => Z.testbit z i)) in Hx. rewrite Z.land_spec in Hx.
  rewrite Z.lor_spec, !Z.land_spec, !testbit_not64 by lia.
  destruct (Z.ltb_spec i 64); cbn [andb].
  - destruct (Z.testbit cr i), (Z.testbit mask i), (Z.testbit x i); cbn in *; done.
  - by rewrite (testbit_above 64 cr i) by (done || lia).
Qed.

Lemma write_control_fields_all v :
  is_u64 (readcr0 cpu) -> is_u64 (readcr4 cpu) ->
  is_u64 cr0_guest_host_mask -> is_u64 cr4_guest_host_mask ->
  exists v', write_control_fields v = (v', true) /\
    let get f := vmx_vmread supported (vcpu_vmcs v') f in
    (forall f x, In (f, x) guest_state -> get f = u64 x) /\
    (forall f x, In (f, x) host_state -> get f = u64 x) /\
    get VMCS_HOST_RSP mod 16 = 0 /\
    get_effective_guest_cr0 supported (vcpu_vmcs v') = readcr0 cpu /\
    get_effective_guest_cr4 supported (vcpu_vmcs v') =
      Z.land (readcr4 cpu) (not64 CR4_VMX_ENABLE_FLAG) /\
    get VMCS_CTRL_EPT_POINTER = u64 (eptp_normal_execution v') /\ in_normal_execution v' = true.
Proof.
  intros H0 H4 Hm0 Hm4. rewrite write_control_fields_ok. eexists. split; [reflexivity |]. cbv zeta.
  assert (forall f x, last_write (all_writes v) f = Some x ->
    vmx_vmread supported (vcpu_vmcs (with_ept (writes (all_writes v) v))) f = u64 x) as Hr.
  { intros f x. apply vmread_apply_writes. }
  split; [| split; [| split; [| split; [| split; [| split]]]]].
  - intros f x Hin. apply Hr. by apply (written_last guest_state v f x (guest_last v)).
  - intros f x Hin. apply Hr. by apply (written_last host_state v f x (host_last v)).
  - rewrite (Hr _ host_rsp) by reflexivity. apply host_rsp_aligned.
  - unfold get_effective_guest_cr0.
    rewrite (Hr _ cr0_guest_host_mask), (Hr VMCS_CTRL_CR0_READ_SHADOW (readcr0 cpu)),
      (Hr VMCS_GUEST_CR0 (readcr0 cpu)), !wrap_small by (done || reflexivity).
    pose proof (effective_cr_masked cr0_guest_host_mask (readcr0 cpu) 0 H0 eq_refl ltac:(lia)) as E.
    by rewrite (land_not64_0 _ H0) in E.
  - unfold get_effective_guest_cr4.
    rewrite (Hr _ cr4_guest_host_mask),
      (Hr VMCS_CTRL_CR4_READ_SHADOW (Z.land (readcr4 cpu) (not64 CR4_VMX_ENABLE_FLAG))),
      (Hr VMCS_GUEST_CR4 (readcr4 cpu)), !wrap_small by (done || reflexivity || by apply land_u64).
    apply effective_cr_masked; [done | | done]. apply vmxe_masked.
  - exact (Hr VMCS_CTRL_EPT_POINTER (make_eptp (pa_ept_normal_pml4e addr)) eq_refl).
  - done.
Qed.

(** Filling in the VMCS succeeds when the processor supports its fields and
    the preemption timer, and then: every guest-state field holds the value of
    the running processor, so the guest resumes as the system was; every
    host-state field holds the host's; the guest reads its own CR0, and its own
    CR4 with VMXE hidden; and the core starts under the normal EPT pointer. *)
Theorem write_control_fields_spec v :
  is_u64 (readcr0 cpu) -> is_u64 (readcr4 cpu) ->
  is_u64 cr0_guest_host_mask -> is_u64 cr4_guest_host_mask ->
  exists v', write_control_fields v = (v', true) /\
    let get f := vmx_vmread supported (vcpu_vmcs v') f in
    (forall f x, In (f, x) guest_state -> get f = u64 x) /\
    (forall f x, In (f, x) host_state -> get f = u64 x) /\
    get VMCS_HOST_RSP mod 16 = 0 /\
    get_effective_guest_cr0 supported (vcpu_vmcs v') = readcr0 cpu /\
    get_effective_guest_cr4 supported (vcpu_vmcs v') =
      Z.land (readcr4 cpu) (not64 CR4_VMX_ENABLE_FLAG) /\
    get VMCS_CTRL_EPT_POINTER = u64 (eptp_normal_execution v') /\ in_normal_execution v' = true.
Proof. apply write_control_fields_all. Qed.
End setup.

Lemma configure_msr_bitmap_spec_witness :
  has_msr_bit 0x20F = true /\
  wrmsr_exits (configure_msr_bitmap (mk_msr_bitmap (fun _ => 0) (fun _ => 0))) 0x20F = true /\
  wrmsr_exits (configure_msr_bitmap (mk_msr_bitmap (fun _ => 0) (fun _ => 0))) 0x1A0 = false.
Proof.
  split; [reflexivity |].
  split; rewrite configure_msr_bitmap_spec; reflexivity.
Defined.

(** A processor with CR0 = 80050033H, CR4 = 2000H + 20H (VMXE and PAE set) that
    allows the preemption timer. *)
Definition sample_cpu : cpu_state :=
  mk_cpu 0x80050033 0x1AB000 0x2020 0x400 0x2 0x10 0x18 0x2B 0x2B 0x53 0x2B 0 0x40
    0x5000 0x57 0x6000 0xFFF (fun _ => 0) (fun a => if a =? 0x481 then Z.shiftl 1 38 else 0)
    (fun _ => 0).
Definition sample_addresses : addresses :=
  mk_addresses 0x1000 0x2000 0x3000 0x4000 0x5000 (fun _ s => 0x100 + s) (fun _ i => 0x200 + i)
    (fun _ => 0x400) 0x10000 0x20008 0x30000 0x40000 0x50000 0x60000.

Lemma sample_timer :
  Z.testbit (pin_based_controls sample_cpu) activate_vmx_preemption_timer_bit = true.
Proof. vm_compute. reflexivity. Qed.

Lemma write_control_fields_spec_witness :
  exists v', write_control_fields (fun _ => true) sample_cpu sample_addresses 0x1AB000 zero_vcpu =
      (v', true) /\
    vmx_vmread (fun _ => true) (vcpu_vmcs v') VMCS_GUEST_CR3 = 0x1AB000 /\
    get_effective_guest_cr4 (fun _ => true) (vcpu_vmcs v') = 0x20 /\
    vmx_vmread (fun _ => true) (vcpu_vmcs v') VMCS_HOST_RSP = 0x28000.
Proof.
  destruct (write_control_fields_spec (fun _ => true) sample_cpu sample_addresses 0x1AB000
    (fun _ => eq_refl) sample_timer zero_vcpu) as (v' & E & Hg & Hh & _ & _ & H4 & _).
  1, 2, 3, 4: vm_compute; intuition discriminate.
  exists v'. split; [exact E |]. split; [apply (Hg VMCS_GUEST_CR3 0x1AB000); right; left; reflexivity |].
  split; [exact H4 |]. rewrite (Hh VMCS_HOST_RSP 0x28000); [reflexivity |].
  do 3 right. left. reflexivity.
Defined.
