(* ===== verification/Sync.v ===== *)
(** * Locks: [revhv-km/sync.hpp]

    The two spin locks as interleavings of the accesses their code makes. The
    spin lock is taken around critical sections that are themselves sequences of
    accesses to shared data, and makes them atomic; the reentrant lock tells its
    owner by the initial APIC id and counts the nesting. Cores are numbered; a
    step is one access of one core, and the x86 accesses used are sequentially
    consistent (locked exchanges, and plain accesses to members of the lock made
    by its owner only). *)
From Stdlib Require Import ZArith Lia List Bool.
From stdpp Require Import base numbers list option functions relations.
From S2P Require Import Prelude.

(** ** Interlocked operations on a [volatile long] *)

(** [_InterlockedCompareExchange]: the old value and the new one. *)
Definition atomic_compare_exchange (v new_value expected_value : Z) : Z * Z :=
  (v, if v =? expected_value then new_value else v).
Definition atomic_increment (v : Z) : Z := s32 (v + 1).

(** ** [sync::spin_lock] around critical sections *)

Module Spin.
Section spin.
Context {data : Type}.

(** A critical section: its accesses to the shared data, in program order. *)
Definition section := list (data -> data).
Definition run (w : section) (x : data) : data := fold_left (fun x f => f x) w x.

(** Where a core is: outside, in the loop of [lock], or inside with the rest of
    its section to do. *)
Inductive position := outside | spinning (w : section) | inside (todo : section).

(** [entered] is a ghost: the sections in the order their cores got the lock. *)
Record state := mk_state {
  m_flag : Z;
  shared : data;
  at_core : nat -> position;
  entered : list section
}.

Definition goto (s : state) (c : nat) (p : position) : state :=
  mk_state (m_flag s) (shared s) (<[c := p]> (at_core s)) (entered s).

(** One access of core [c]. *)
Definition advance (c : nat) (s : state) : state :=
  match at_core s c with
  | outside => s
  | spinning w =>
      let '(old, flag) := atomic_compare_exchange (m_flag s) 1 0 in
      if old =? 0 then mk_state flag (shared s) (<[c := inside w]> (at_core s)) (entered s ++ [w])
      else mk_state flag (shared s) (at_core s) (entered s)
  | inside (f :: w) => goto (mk_state (m_flag s) (f (shared s)) (at_core s) (entered s)) c (inside w)
  | inside [] => goto (mk_state 0 (shared s) (at_core s) (entered s)) c outside
  end.

Inductive step : state -> state -> Prop :=
  | step_request s c w : at_core s c = outside -> step s (goto s c (spinning w))
  | step_advance s c : step s (advance c s).

Definition initial (x : data) : state := mk_state 0 x (fun _ => outside) [].
Definition reachable (x : data) (s : state) : Prop := rtc step (initial x) s.

Definition holds (s : state) (c : nat) : Prop := exists w, at_core s c = inside w.

(** Nobody is inside and the data is what the sections made of it one after the
    other, or one core is inside and has done part of the last section. *)
Inductive coherent (x : data) (s : state) : Prop :=
  | coherent_free :
      m_flag s = 0 -> (forall c, ~ holds s c) ->
      shared s = run (concat (entered s)) x -> coherent x s
  | coherent_held c before did todo :
      m_flag s = 1 -> at_core s c = inside todo -> (forall d, holds s d -> d = c) ->
      entered s = before ++ [did ++ todo] ->
      shared s = run did (run (concat before) x) -> coherent x s.

Lemma run_app w1 w2 x : run (w1 ++ w2) x = run w2 (run w1 x).
Proof. apply fold_left_app. Qed.

Lemma holds_insert s c d p flag x e :
  holds (mk_state flag x (<[c := p]> (at_core s)) e) d <->
  (d = c /\ exists w, p = inside w) \/ (d <> c /\ holds s d).
Proof.
  unfold holds; cbn. destruct (decide (d = c)) as [-> | Hd].
  - rewrite fn_lookup_insert. naive_solver.
  - rewrite fn_lookup_insert_ne by congruence. naive_solver.
Qed.

Lemma coherent_step x s s' : coherent x s -> step s s' -> coherent x s'.
Proof.
  intros HC Hst. destruct Hst as [s c w Hout | s c].
  - destruct HC as [Hf Hn Hd | h before did todo Hf Hin Hu He Hd].
    + apply coherent_free; [done | | done].
      intros d [[_ [w' Hw]] | [_ Hh]]%holds_insert; [done | by eapply Hn].
    + assert (c <> h) by congruence.
      apply (coherent_held _ _ h before did todo); try done; cbn.
      * by rewrite fn_lookup_insert_ne by congruence.
      * intros d [[_ [w' Hw]] | [_ Hh]]%holds_insert; [done | by apply Hu].
  - unfold advance. destruct (at_core s c) as [| w | w] eqn:Hc; [done | |].
    + cbn. destruct HC as [Hf Hn Hd | h before did todo Hf Hin Hu He Hd]; rewrite Hf; cbn.
      * apply (coherent_held _ _ c (entered s) [] w); cbn; try done.
        -- by rewrite fn_lookup_insert.
        -- intros d [[-> _] | [_ Hh]]%holds_insert; [done | by apply Hn in Hh].
      * by apply (coherent_held _ _ h before did todo).
    + destruct HC as [Hf Hn Hd | h before did todo Hf Hin Hu He Hd].
      { exfalso. apply (Hn c). by exists w. }
      assert (c = h) as -> by (apply Hu; by exists w).
      rewrite Hin in Hc. injection Hc as <-. destruct todo as [| f todo]; unfold goto; cbn.
      * apply coherent_free; cbn; [done | |].
        -- intros d [[_ [w' Hw]] | [Hne Hh]]%holds_insert; [done | by apply Hu in Hh].
        -- rewrite He, concat_app, Hd, app_nil_r. cbn. by rewrite app_nil_r, run_app.
      * apply (coherent_held _ _ h before (did ++ [f]) todo); cbn; try done.
        -- by rewrite fn_lookup_insert.
        -- intros d [[-> _] | [_ Hh]]%holds_insert; [done | by apply Hu].
        -- by rewrite He, <- app_assoc.
        -- by rewrite run_app, Hd.
Qed.

Lemma coherent_reachable x s : reachable x s -> coherent x s.
Proof.
  apply rtc_invariant; [by apply coherent_step |].
  apply coherent_free; [done | intros c [w Hw]; done | done].
Qed.

(** (C27) The lock makes critical sections atomic: in every interleaving at most one
    core is inside, the flag tells whether one is, and the shared data is that
    of a sequential run of the sections in the order in which their cores got
    the lock, the last of them up to the access its core has reached. *)
Theorem spin_lock_sections_atomic x s (Hreach : reachable x s) :
  (forall c d, holds s c -> holds s d -> c = d) /\
  ((forall c, ~ holds s c) -> m_flag s = 0 /\ shared s = run (concat (entered s)) x) /\
  (forall c todo, at_core s c = inside todo ->
     m_flag s = 1 /\
     exists before did, entered s = before ++ [did ++ todo] /\
                        shared s = run did (run (concat before) x)).
Proof.
  destruct (coherent_reachable x s Hreach) as [Hf Hn Hd | h before did todo Hf Hin Hu He Hd].
  - split; [| split]; [intros c d Hc; by apply Hn in Hc | done |].
    intros c todo Hc. exfalso. apply (Hn c). by exists todo.
  - split; [intros c d Hc Hd'; by rewrite (Hu c Hc), (Hu d Hd') | split].
    + intros Hn. exfalso. apply (Hn h). by exists todo.
    + intros c todo' Hc. assert (c = h) as -> by (apply Hu; by exists todo').
      rewrite Hin in Hc. injection Hc as <-. eauto.
Qed.

(** The holder, left to run, leaves. *)
Lemma holder_leaves s c todo :
  at_core s c = inside todo ->
  exists s', rtc step s s' /\ m_flag s' = 0 /\ forall d, d <> c -> at_core s' d = at_core s d.
Proof.
  revert s. induction todo as [| f todo IH]; intros s Hc.
  - exists (advance c s). split; [apply rtc_once, step_advance |].
    unfold advance. rewrite Hc. cbn. split; [done |].
    intros d Hd. by rewrite fn_lookup_insert_ne by congruence.
  - destruct (IH (advance c s)) as (s' & Hs & Hf & Ho).
    { unfold advance. rewrite Hc. cbn. by rewrite fn_lookup_insert. }
    exists s'. split; [eapply rtc_l; [apply step_advance | exact Hs] |]. split; [done |].
    intros d Hd. rewrite Ho by done. unfold advance. rewrite Hc. cbn.
    by rewrite fn_lookup_insert_ne by congruence.
Qed.

(** The lock does not deadlock: from every reachable state a core that waits for
    it can still get it, once the holder has done its section. *)
Theorem spin_lock_deadlock_free x s c w
    (Hreach : reachable x s) (Hwait : at_core s c = spinning w) :
  exists s', rtc step s s' /\ at_core s' c = inside w.
Proof.
  assert (exists s1, rtc step s s1 /\ m_flag s1 = 0 /\ at_core s1 c = spinning w)
    as (s1 & Hs1 & Hf & Hc).
  { destruct (coherent_reachable x s Hreach) as [Hf _ _ | h before did todo _ Hin _ _ _].
    - exists s. split; [apply rtc_refl | done].
    - destruct (holder_leaves s h todo Hin) as (s1 & Hs & Hf & Ho).
      exists s1. split; [done |]. split; [done |]. rewrite Ho; congruence. }
  exists (advance c s1). split.
  - eapply rtc_r; [exact Hs1 | apply step_advance].
  - unfold advance. rewrite Hc. cbn. rewrite Hf. cbn. by rewrite fn_lookup_insert.
Qed.
End spin.

(** Core 1 waits while core 0 is in its section. *)
Definition example_sections : state :=
  advance 1 (advance 0 (goto (goto (initial 5) 0 (spinning [Z.add 1])) 1 (spinning [Z.mul 2; Z.sub 1]))).

Lemma example_sections_reachable : reachable 5 example_sections.
Proof.
  unfold example_sections. do 2 (eapply rtc_r; [| apply step_advance]).
  eapply rtc_r; [eapply rtc_r; [apply rtc_refl |] |]; by apply step_request.
Qed.

Lemma spin_lock_sections_atomic_witness :
  let s := advance 1 (advance 1 (advance 0 (advance 0 example_sections))) in
  shared s = 12 /\ m_flag s = 1 /\
  exists before did, entered s = before ++ [did ++ [Z.sub 1]] /\ shared s = run did (run (concat before) 5).
Proof.
  intros s. split; [reflexivity |].
  refine (proj2 (proj2 (spin_lock_sections_atomic 5 s _)) 1%nat [Z.sub 1] eq_refl).
  do 4 (eapply rtc_r; [| apply step_advance]). exact example_sections_reachable.
Defined.

Lemma spin_lock_deadlock_free_witness :
  exists s', rtc step example_sections s' /\ at_core s' 1%nat = inside [Z.mul 2; Z.sub 1].
Proof. exact (spin_lock_deadlock_free 5 _ 1 _ example_sections_reachable eq_refl). Defined.
End Spin.

(** ** [sync::reentrant_spin_lock] *)

Module Reentrant.

Definition UNLOCKED : Z := 0.

(** [get_owner_id]: [ebx] is what CPUID leaf 1 returns in EBX. *)
Definition get_owner_id (ebx : Z) : Z := Z.land (Z.shiftr (s32 ebx) 24) 0xFF + 1.
(** The SDM's field: EBX[31:24] is the initial APIC id. *)
Definition initial_apic_id (ebx : Z) : Z := bits ebx 24 8.

Lemma get_owner_id_ok ebx : get_owner_id ebx = initial_apic_id ebx + 1.
Proof.
  unfold get_owner_id, initial_apic_id, bits. f_equal.
  change 0xFF with (Z.ones 8). rewrite !Z.land_ones, !Z.shiftr_div_pow2 by lia.
  assert (exists k, s32 ebx = ebx + k * 2 ^ 32) as [k ->].
  { unfold signed, wrap. pose proof (Z.div_mod ebx (2 ^ 32) ltac:(lia)).
    destruct (_ <? _); [exists (- (ebx / 2 ^ 32)) | exists (- (ebx / 2 ^ 32) - 1)]; lia. }
  replace (ebx + k * 2 ^ 32) with (ebx + (k * 2 ^ 8) * 2 ^ 24) by lia.
  rewrite Z.div_add, Z.mod_add; lia.
Qed.

Section reentrant.
(** EBX of CPUID leaf 1 on each of the cores, and a bound on the nesting. *)
Variable cpuid1_ebx : nat -> Z.
Variable cores max_nest : nat.

Definition token (c : nat) : Z := get_owner_id (cpuid1_ebx c).

(** Where a core is inside [lock], [try_lock] or [unlock]. *)
Inductive position :=
  | out
  | at_owner_test (try : bool)
  | at_inc_read
  | at_inc_write (d : Z)
  | at_exchange (try : bool)
  | at_set_depth
  | at_dec_read
  | at_dec_write (d : Z)
  | at_release.

(** A core: its position, how many times it holds the lock (a ghost), and the
    result of its last [try_lock]. *)
Record core := mk_core { pos : position; nest : nat; result : bool }.

Record state := mk_state {
  m_owner : Z;
  m_depth : Z;
  at_core : nat -> core
}.

Inductive request := do_lock | do_try_lock | do_unlock.

(** A call of the lock; only a holder unlocks. *)
Definition request_ok (q : request) (k : core) : bool :=
  match q with
  | do_unlock => (0 <? nest k)%nat
  | _ => (nest k <? max_nest)%nat
  end.
Definition call (q : request) (c : nat) (s : state) : state :=
  let k := at_core s c in
  let p := match q with
           | do_lock => at_owner_test false
           | do_try_lock => at_owner_test true
           | do_unlock => at_dec_read
           end in
  mk_state (m_owner s) (m_depth s) (<[c := mk_core p (nest k) (result k)]> (at_core s)).

(** One access of a core whose token is [tok]: [m_owner], [m_depth] and the core
    after it. *)
Definition access (tok : Z) (x : Z * Z * core) : Z * Z * core :=
  let '(owner, depth, k) := x in
  let go p n r := mk_core p n r in
  match pos k with
  | out => x
  | at_owner_test try =>
      (owner, depth, go (if owner =? tok then at_inc_read else at_exchange try) (nest k) (result k))
  | at_inc_read => (owner, depth, go (at_inc_write depth) (nest k) (result k))
  | at_inc_write d => (owner, s32 (d + 1), go out (S (nest k)) true)
  | at_exchange try =>
      let '(old, owner) := atomic_compare_exchange owner tok UNLOCKED in
      if old =? UNLOCKED then (owner, depth, go at_set_depth (nest k) (result k))
      else (owner, depth, go (if try then out else at_exchange try) (nest k) false)
  | at_set_depth => (owner, 1, go out 1%nat true)
  | at_dec_read => (owner, depth, go (at_dec_write depth) (nest k) (result k))
  | at_dec_write d =>
      let d := s32 (d - 1) in
      (owner, d, if d =? 0 then go at_release (nest k) (result k) else go out (pred (nest k)) (result k))
  | at_release => (UNLOCKED, depth, go out 0%nat (result k))
  end.

Definition view (c : nat) (s : state) : Z * Z * core := (m_owner s, m_depth s, at_core s c).
Definition advance (c : nat) (s : state) : state :=
  let '(owner, depth, k) := access (token c) (view c s) in
  mk_state owner depth (<[c := k]> (at_core s)).

Inductive step : state -> state -> Prop :=
  | step_call s c q :
      (c < cores)%nat -> pos (at_core s c) = out -> request_ok q (at_core s c) = true ->
      step s (call q c s)
  | step_advance s c : (c < cores)%nat -> step s (advance c s).

Definition initial : state := mk_state UNLOCKED 0 (fun _ => mk_core out 0 false).
Definition reachable (s : state) : Prop := rtc step initial s.

(** The core has the lock or is taking or releasing it. *)
Definition owns (k : core) : bool :=
  (0 <? nest k)%nat || match pos k with at_set_depth => true | _ => false end.

(** What holds of the owner of the lock, by its position. *)
Definition owner_ok (depth : Z) (k : core) : Prop :=
  let n := Z.of_nat (nest k) in
  match pos k with
  | out | at_dec_read => 0 < n /\ depth = n
  | at_owner_test _ | at_inc_read => 0 < n < Z.of_nat max_nest /\ depth = n
  | at_inc_write d => 0 < n < Z.of_nat max_nest /\ depth = n /\ d = n
  | at_exchange _ => False
  | at_set_depth => n = 0
  | at_dec_write d => 0 < n /\ depth = n /\ d = n
  | at_release => n = 1 /\ depth = 0
  end.

(** And of the others. *)
Definition other_ok (k : core) : Prop :=
  nest k = 0%nat /\
  match pos k with out | at_owner_test _ | at_exchange _ => True | _ => False end.

Inductive locked_by (s : state) : option nat -> Prop :=
  | locked_none : m_owner s = UNLOCKED -> (forall c, other_ok (at_core s c)) -> locked_by s None
  | locked_some c :
      (c < cores)%nat -> m_owner s = token c -> owner_ok (m_depth s) (at_core s c) ->
      (Z.of_nat (nest (at_core s c)) <= Z.of_nat max_nest) ->
      (forall d, d <> c -> other_ok (at_core s d)) -> locked_by s (Some c).

(** A schedule: the calls and accesses of the cores, in order. *)
Definition perform (s : state) (e : nat * option request) : option state :=
  let '(c, q) := e in
  if negb (c <? cores)%nat then None else
  match q with
  | None => Some (advance c s)
  | Some q =>
      match pos (at_core s c) with
      | out => if request_ok q (at_core s c) then Some (call q c s) else None
      | _ => None
      end
  end.
Definition run_schedule : state -> list (nat * option request) -> option state := replay perform.

Lemma run_schedule_steps s es s' : run_schedule s es = Some s' -> rtc step s s'.
Proof.
  apply replay_rtc. clear. intros s [c q] s' E. unfold perform in E.
  destruct (Nat.ltb_spec c cores) as [Hc |]; cbn [negb] in E; [| done].
  destruct q as [q |]; [| injection E as <-; by apply step_advance].
  destruct (pos (at_core s c)) eqn:Hp; try done.
  destruct (request_ok q (at_core s c)) eqn:Hq; [| done]. injection E as <-. by apply step_call.
Qed.

(** Each core has its own APIC id, and the nesting fits a [long]. *)
Hypothesis distinct_ids : forall c d, (c < cores)%nat -> (d < cores)%nat ->
  initial_apic_id (cpuid1_ebx c) = initial_apic_id (cpuid1_ebx d) -> c = d.
Hypothesis nest_bound : 0 < Z.of_nat max_nest < 2 ^ 31.

Lemma token_inj c d : (c < cores)%nat -> (d < cores)%nat -> token c = token d -> c = d.
Proof.
  intros Hc Hd E. apply distinct_ids; [done..|].
  unfold token in E. rewrite !get_owner_id_ok in E. lia.
Qed.

Lemma token_nonzero c : token c <> UNLOCKED.
Proof.
  unfold token, UNLOCKED. rewrite get_owner_id_ok.
  unfold initial_apic_id, bits. rewrite Z.land_ones by lia.
  pose proof (Z.mod_pos_bound (Z.shiftr (cpuid1_ebx c) 24) (2 ^ 8) ltac:(lia)). lia.
Qed.

Lemma other_insert s c k :
  (forall d, d <> c -> other_ok (at_core s d)) ->
  forall d, d <> c -> other_ok ((<[c := k]> (at_core s)) d).
Proof. intros H d Hd. rewrite fn_lookup_insert_ne by congruence. by apply H. Qed.

Lemma other_insert_all s c k :
  (forall d, d <> c -> other_ok (at_core s d)) -> other_ok k ->
  forall d, other_ok ((<[c := k]> (at_core s)) d).
Proof.
  intros H Hk d. destruct (decide (d = c)) as [-> | Hd]; [by rewrite fn_lookup_insert |].
  rewrite fn_lookup_insert_ne by congruence. by apply H.
Qed.

(** A step of a core that does not own the lock. *)
Lemma other_advance s c :
  (c < cores)%nat -> other_ok (at_core s c) ->
  (m_owner s = UNLOCKED \/ m_owner s <> token c) ->
  (exists k, advance c s = mk_state (m_owner s) (m_depth s) (<[c := k]> (at_core s)) /\ other_ok k)
  \/ (m_owner s = UNLOCKED /\ exists r,
      advance c s = mk_state (token c) (m_depth s) (<[c := mk_core at_set_depth 0 r]> (at_core s))).
Proof.
  intros Hc [Hn Hp] Ho. pose proof (token_nonzero c) as Ht.
  unfold advance, view, access. destruct (at_core s c) as [p n r] eqn:Ek. cbn in *. subst n.
  destruct p as [| try | | | try | | | |]; try done.
  - left. by eexists.
  - left. eexists. split; [reflexivity |].
    destruct (Z.eqb_spec (m_owner s) (token c)); [| done]. unfold UNLOCKED in *. lia.
  - destruct (Z.eqb_spec (m_owner s) UNLOCKED) as [E | E].
    + right. split; [done |]. by exists r.
    + left. cbn. eexists. split; [reflexivity |]. by destruct try.
Qed.

(** An access of the owner: it stays the owner, or has released the lock. *)
Lemma owner_access tok d k :
  owner_ok d k -> Z.of_nat (nest k) <= Z.of_nat max_nest ->
  exists o' d' k', access tok (tok, d, k) = (o', d', k') /\
    ((o' = tok /\ owner_ok d' k' /\ Z.of_nat (nest k') <= Z.of_nat max_nest) \/
     (o' = UNLOCKED /\ other_ok k')).
Proof.
  intros HI Hm. destruct (access tok (tok, d, k)) as [[o' d'] k'] eqn:E.
  exists o', d', k'. split; [done |].
  unfold access, owner_ok in *. destruct k as [p n r]. cbn in *.
  destruct p as [| try | | x | try | | | x |]; try done;
    try (injection E as <- <- <-; cbn; left; lia).
  - rewrite Z.eqb_refl in E. injection E as <- <- <-. left. cbn. lia.
  - destruct HI as (? & ? & ->). rewrite signed_small in E by lia.
    injection E as <- <- <-. left. cbn. lia.
  - destruct HI as (? & ? & ->). rewrite signed_small in E by lia.
    injection E as <- <- <-. left. destruct (Z.eqb_spec (Z.of_nat n - 1) 0); cbn; lia.
  - injection E as <- <- <-. by right.
Qed.

Lemma locked_by_step s s' h : locked_by s h -> step s s' -> exists h', locked_by s' h'.
Proof.
  intros HL Hst. destruct Hst as [s c q Hc Hout Hok | s c Hc].
  - exists h. destruct (at_core s c) as [p n r] eqn:Ek. cbn [pos] in Hout. subst p.
    destruct HL as [Ho Hall | c' Hc' Ho HI Hm Hall].
    + apply locked_none; [done |]. apply other_insert_all; [by auto |].
      pose proof (Hall c) as [Hn _]. rewrite Ek in Hn |- *. cbn [nest] in Hn. subst n.
      by destruct q.
    + destruct (decide (c = c')) as [<- | Hne].
      * rewrite Ek in HI, Hm. apply locked_some; [done | done | | | by apply other_insert].
        -- cbn. rewrite fn_lookup_insert, Ek. unfold owner_ok, request_ok in *.
           destruct q; cbn [pos nest m_depth call] in *; apply Nat.ltb_lt in Hok; lia.
        -- cbn. rewrite fn_lookup_insert, Ek. exact Hm.
      * pose proof (Hall c Hne) as [Hn _]. rewrite Ek in Hn. cbn in Hn. subst n.
        apply locked_some; [done | done | | |].
        -- unfold owner_ok in *. cbn. by rewrite fn_lookup_insert_ne by congruence.
        -- cbn. by rewrite fn_lookup_insert_ne by congruence.
        -- intros d Hd. cbn. destruct (decide (d = c)) as [-> | Hdc].
           ++ rewrite fn_lookup_insert, Ek. by destruct q.
           ++ rewrite fn_lookup_insert_ne by congruence. by apply Hall.
  - destruct HL as [Ho Hall | c' Hc' Ho HI Hm Hall].
    + destruct (other_advance s c Hc (Hall c) (or_introl Ho)) as [(k & E & Hk) | (_ & r & E)]; rewrite E.
      * exists None. apply locked_none; [done |]. apply other_insert_all; by auto.
      * exists (Some c). apply locked_some; cbn; rewrite ?fn_lookup_insert; cbn; [done | done | done | lia |].
        apply other_insert; by auto.
    + destruct (decide (c = c')) as [<- | Hne].
      * destruct (owner_access (token c) _ _ HI Hm) as (o & d & k & E & Hcase).
        unfold advance, view. rewrite Ho, E.
        destruct Hcase as [(-> & HI' & Hm') | (-> & Hk)].
        -- exists (Some c). apply locked_some; cbn; rewrite ?fn_lookup_insert; try done.
           by apply other_insert.
        -- exists None. apply locked_none; [done |]. by apply other_insert_all.
      * exists (Some c').
        assert (m_owner s <> token c) as Hnt by (rewrite Ho; intros E; by apply token_inj in E).
        pose proof (token_nonzero c').
        destruct (other_advance s c Hc (Hall c Hne) (or_intror Hnt)) as [(k & E & Hk) | (E & _)]; [| lia].
        rewrite E. apply locked_some; cbn; rewrite ?fn_lookup_insert_ne by congruence; try done.
        intros d Hd. destruct (decide (d = c)) as [-> | Hdc]; [by rewrite fn_lookup_insert |].
        rewrite fn_lookup_insert_ne by congruence. by apply Hall.
Qed.

Lemma locked_by_reachable s : reachable s -> exists h, locked_by s h.
Proof.
  apply (rtc_invariant step (fun s => exists h, locked_by s h)).
  - intros a b [h HL]. by apply locked_by_step with h.
  - exists None. by apply locked_none.
Qed.

Lemma other_owns k : other_ok k -> owns k = false.
Proof. intros [Hn Hp]. unfold owns. rewrite Hn. cbn. by destruct (pos k). Qed.

Lemma owner_owns d k : owner_ok d k -> owns k = true.
Proof.
  intros HI. unfold owner_ok, owns in *. destruct (Nat.ltb_spec 0 (nest k)); [done |].
  destruct (pos k); try done; lia.
Qed.


Lemma view_advance c s : view c (advance c s) = access (token c) (view c s).
Proof.
  unfold advance. destruct (access (token c) (view c s)) as [[o d] k].
  unfold view. cbn. by rewrite fn_lookup_insert.
Qed.

(** The result of a call that ran undisturbed. *)
Definition completed (k k' : core) : Prop :=
  pos k' = out /\
  match pos k with
  | at_owner_test _ | at_exchange _ => nest k' = S (nest k) /\ result k' = true
  | at_dec_read => S (nest k') = nest k
  | _ => True
  end.

Lemma free_completes tok d k :
  tok <> UNLOCKED -> other_ok k ->
  completed k (snd (access tok (access tok (access tok (UNLOCKED, d, k))))).
Proof.
  intros Ht [Hn Hp]. destruct k as [p n r]. unfold completed. cbn in Hn, Hp. subst n. cbn [pos nest].
  destruct p as [| try | | | try | | | |]; try done.
  unfold access. cbn [pos nest result]. destruct (Z.eqb_spec UNLOCKED tok); [done | by repeat split].
Qed.

Lemma owner_completes tok d k :
  owner_ok d k -> Z.of_nat (nest k) <= Z.of_nat max_nest ->
  completed k (snd (access tok (access tok (access tok (tok, d, k))))).
Proof.
  intros HI Hm. destruct k as [p n r]. unfold owner_ok, completed in *. cbn [pos nest] in *.
  destruct p as [| try | | x | try | | | x |]; try done.
  - unfold access. cbn [pos nest result]. by rewrite Z.eqb_refl.
  - destruct HI as [Hn ->]. unfold access. cbn [pos nest result]. rewrite signed_small by lia.
    destruct (Z.eqb_spec (Z.of_nat n - 1) 0); cbn; (split; [done | lia]).
  - destruct HI as (Hn & _ & ->). unfold access. cbn [pos nest result].
    rewrite signed_small by lia. by destruct (Z.eqb_spec (Z.of_nat n - 1) 0).
Qed.

End reentrant.

(** Two cores with APIC ids 0 and 1: core 0 has the lock twice, core 1 waits. *)
Definition two_cores (c : nat) : Z := Z.of_nat c * 2 ^ 24.
Definition locked_twice : list (nat * option request) :=
  [(0, Some do_lock); (0, None); (0, None); (0, None);
   (1, Some do_lock); (1, None); (1, None);
   (0, Some do_lock); (0, None); (0, None); (0, None)]%nat.

Lemma two_cores_distinct c d : (c < 2)%nat -> (d < 2)%nat ->
  initial_apic_id (two_cores c) = initial_apic_id (two_cores d) -> c = d.
Proof.
  intros Hc Hd. destruct c as [| [| c]]; destruct d as [| [| d]]; try lia; done.
Qed.



(** The id in EBX[31:24] is 8 bits wide: on a system with more than 256 logical
    processors two of them have the same, and both have the lock. *)
Theorem colliding_ids_share_the_lock :
  exists s, reachable (fun _ => 0) 2 8 s /\
    owns (at_core s 0) = true /\ owns (at_core s 1) = true /\ m_owner s = get_owner_id 0.
Proof.
  set (es := [(0, Some do_lock); (0, None); (0, None); (0, None);
              (1, Some do_lock); (1, None); (1, None); (1, None)]%nat).
  destruct (run_schedule (fun _ => 0) 2 8 initial es) as [s |] eqn:E; [| done].
  exists s. split; [by eapply run_schedule_steps |]. injection E as <-. by vm_compute.
Qed.
End Reentrant.
