(* ===== verification/Crash.v ===== *)
(** * The crash protocol: [revhv-km/error.cpp], [sync.hpp], [exception.cpp]

    When a core meets an error it cannot recover from, it devirtualizes, sends an
    NMI to all others, waits until each has devirtualized and said so, and has the
    guest's Windows report the crash. The file models
    [error::raise_host_crash], [unrecoverable_host_error] and
    [give_control_on_unrecoverable_error] as interleaved steps of the cores.

    Of [devirtualize] the steps are those the protocol depends on: VMXOFF, which
    is an invalid opcode outside VMX operation, and LIDT, up to which an NMI comes
    to the hypervisor's handler and after which it goes to Windows; Lifecycle
    models the rest. The NMIs are those of the protocol. A core that spins in
    [while (atomic_load(crash_ack_core_count) < expected_ack_count)] makes no step
    until the condition fails. *)
From Stdlib Require Import ZArith Lia List Bool.
From stdpp Require Import base numbers list option functions relations.
From S2P Require Import Prelude Sync.

(** Where a core is; [in_nmi] says that it came there from an NMI, so that NMIs
    are blocked until its IRETQ. *)
Inductive position :=
  | running
  | at_compare_exchange
  | raise_vmxoff | raise_lidt | raise_acknowledge | raise_send | raise_wait
  | bugchecked
  | give_load (in_nmi : bool) | give_vmxoff (in_nmi : bool) | give_lidt (in_nmi : bool)
  | give_acknowledge
  | hung
  | faulting.

Record core := mk_core { pos : position; vmx_on : bool; nmi_pending : bool }.
#[export] Instance eta_core : Eta core := fun k => mk_core (pos k) (vmx_on k) (nmi_pending k).

Record state := mk_state {
  crash_in_progress : Z;
  crash_ack_core_count : Z;
  at_core : nat -> core
}.
#[export] Instance eta_state : Eta state :=
  fun s => mk_state (crash_in_progress s) (crash_ack_core_count s) (at_core s).

Definition set_core (c : nat) (k : core) (s : state) : state :=
  s <| at_core := <[c := k]> (at_core s) |>.

Section crash.
(** The number of cores, [vcpu_count]; which of them meet an error of their own;
    and whether the local APIC can be reached from the devirtualized core: it is
    in x2APIC mode, or its registers can be mapped. *)
Variable vcpu_count : nat.
Variable fails : nat -> bool.
Variable apic_reachable : bool.

(** One step of core [c] inside the protocol; [None] when it has none. *)
Definition advance (c : nat) (s : state) : option state :=
  let k := at_core s c in
  let go p s := Some (set_core c (k <| pos := p |>) s) in
  let vmxoff p := Some (set_core c (if vmx_on k then mk_core p false (nmi_pending k)
                                    else k <| pos := faulting |>) s) in
  let acknowledge s :=
    s <| crash_ack_core_count := atomic_increment (crash_ack_core_count s) |> in
  match pos k with
  | at_compare_exchange =>
      let '(old, flag) := atomic_compare_exchange (crash_in_progress s) 1 0 in
      go (if old =? 1 then give_load false else raise_vmxoff) (s <| crash_in_progress := flag |>)
  | raise_vmxoff => vmxoff raise_lidt
  | raise_lidt => go raise_acknowledge s
  | raise_acknowledge => go raise_send (acknowledge s)
  | raise_send =>
      if apic_reachable then
        go raise_wait (s <| at_core := fun d =>
          if decide (d = c) then at_core s d else (at_core s d) <| nmi_pending := true |> |>)
      else go bugchecked s
  | raise_wait => if crash_ack_core_count s <? Z.of_nat vcpu_count then None else go bugchecked s
  | give_load n => go (if crash_in_progress s =? 0 then running else give_vmxoff n) s
  | give_vmxoff n => vmxoff (give_lidt n)
  | give_lidt _ => go give_acknowledge s
  | give_acknowledge => go hung (acknowledge s)
  | running | bugchecked | hung | faulting => None
  end.

(** A pending NMI reaches core [c]: the handler of the hypervisor, on top of
    whatever the core was doing, or the one of Windows once the IDT is restored.
    [None] while NMIs are blocked. *)
Definition take_nmi (c : nat) (s : state) : option state :=
  let k := at_core s c in
  if negb (nmi_pending k) then None else
  match pos k with
  | running | at_compare_exchange | raise_vmxoff | raise_lidt
  | give_load false | give_vmxoff false | give_lidt false =>
      Some (set_core c (mk_core (give_load true) (vmx_on k) false) s)
  | give_load true | give_vmxoff true | give_lidt true | give_acknowledge | faulting => None
  | raise_acknowledge | raise_send | raise_wait | bugchecked | hung =>
      Some (set_core c (k <| nmi_pending := false |>) s)
  end.

(** A core meets an error of its own: [unrecoverable_host_error]. *)
Definition fail (c : nat) (s : state) : option state :=
  match pos (at_core s c) with
  | running => if fails c then Some (set_core c ((at_core s c) <| pos := at_compare_exchange |>) s) else None
  | _ => None
  end.

Inductive event := ev_fail | ev_advance | ev_nmi.
Definition perform (s : state) (e : nat * event) : option state :=
  if negb (fst e <? vcpu_count)%nat then None else
  match snd e with
  | ev_fail => fail (fst e) s
  | ev_advance => advance (fst e) s
  | ev_nmi => take_nmi (fst e) s
  end.
Definition step (s s' : state) : Prop := exists e, perform s e = Some s'.

Definition initial : state := mk_state 0 0 (fun _ => mk_core running true false).
Definition reachable (s : state) : Prop := rtc step initial s.

(** ** The invariant *)

Definition raising (p : position) : bool :=
  match p with
  | raise_vmxoff | raise_lidt | raise_acknowledge | raise_send | raise_wait | bugchecked => true
  | _ => false
  end.
Definition acked (p : position) : bool :=
  match p with raise_send | raise_wait | bugchecked | hung => true | _ => false end.
Definition sent (p : position) : bool :=
  match p with raise_wait | bugchecked => true | _ => false end.

(** The cores that have acknowledged. *)
Definition acks (f : nat -> core) : nat := total vcpu_count (fun d => Nat.b2n (acked (pos (f d)))).

(** A core before the crash, the initiator, and another core during the crash. *)
Definition quiet (k : core) : Prop :=
  (pos k = running \/ pos k = at_compare_exchange) /\ vmx_on k = true /\ nmi_pending k = false.
Definition initiator_ok (k : core) : Prop :=
  raising (pos k) = true /\ nmi_pending k = false /\ (pos k = raise_vmxoff -> vmx_on k = true).
Definition other_ok (i k : core) : Prop :=
  raising (pos k) = false /\ (nmi_pending k = true -> sent (pos i) = true).

Inductive phase (s : state) : option nat -> Prop :=
  | before_crash :
      crash_in_progress s = 0 -> (forall c, quiet (at_core s c)) -> phase s None
  | in_crash i :
      crash_in_progress s = 1 -> (i < vcpu_count)%nat -> initiator_ok (at_core s i) ->
      (forall d, d <> i -> other_ok (at_core s i) (at_core s d)) ->
      (pos (at_core s i) = bugchecked -> apic_reachable = true ->
       (vcpu_count <= acks (at_core s))%nat) ->
      phase s (Some i).

Definition invariant (s : state) : Prop :=
  crash_ack_core_count s = Z.of_nat (acks (at_core s)) /\ exists i, phase s i.

Hypothesis count_bound : Z.of_nat vcpu_count < 2 ^ 31.

Lemma acks_update f f' c :
  (c < vcpu_count)%nat -> (forall d, d <> c -> pos (f' d) = pos (f d)) ->
  (acks f' + Nat.b2n (acked (pos (f c))) = acks f + Nat.b2n (acked (pos (f' c))))%nat.
Proof.
  intros Hc H. apply (total_update vcpu_count (fun d => Nat.b2n (acked (pos (f d)))) 
    (fun d => Nat.b2n (acked (pos (f' d))))); [done |]. intros d Hd. by rewrite H.
Qed.

Lemma acks_bound f : (acks f <= vcpu_count)%nat.
Proof.
  unfold acks. etransitivity; [apply (total_bound _ _ 1) |].
  - intros d _. destruct (acked _); cbn; lia.
  - lia.
Qed.

(** The counter follows a core that acknowledges. *)
Lemma acks_increment f f' c :
  (c < vcpu_count)%nat -> (forall d, d <> c -> pos (f' d) = pos (f d)) ->
  acked (pos (f c)) = false -> acked (pos (f' c)) = true ->
  atomic_increment (Z.of_nat (acks f)) = Z.of_nat (acks f').
Proof.
  intros Hc H H0 H1. pose proof (acks_update f f' c Hc H) as E. rewrite H0, H1 in E. cbn in E.
  pose proof (acks_bound f'). unfold atomic_increment. rewrite signed_small; lia.
Qed.

Lemma acks_same f f' c :
  (c < vcpu_count)%nat -> (forall d, d <> c -> pos (f' d) = pos (f d)) ->
  acked (pos (f' c)) = acked (pos (f c)) -> acks f' = acks f.
Proof. intros Hc H E. pose proof (acks_update f f' c Hc H) as E'. rewrite E in E'. lia. Qed.

Lemma insert_other c k s d : d <> c -> at_core (set_core c k s) d = at_core s d.
Proof. intros Hd. unfold set_core. cbn. by rewrite fn_lookup_insert_ne by congruence. Qed.
Lemma insert_here c k s : at_core (set_core c k s) c = k.
Proof. unfold set_core. cbn. by rewrite fn_lookup_insert. Qed.
Lemma insert_other_pos c k s d : d <> c -> pos (at_core (set_core c k s) d) = pos (at_core s d).
Proof. intros Hd. by rewrite insert_other. Qed.

Lemma acks_set c k s :
  (c < vcpu_count)%nat -> acked (pos k) = acked (pos (at_core s c)) ->
  acks (at_core (set_core c k s)) = acks (at_core s).
Proof.
  intros Hc E. apply (acks_same _ _ c); [done | by apply insert_other_pos |]. by rewrite insert_here.
Qed.

(** A core acknowledges. *)
Lemma acks_acknowledge c k s :
  (c < vcpu_count)%nat -> acked (pos (at_core s c)) = false -> acked (pos k) = true ->
  atomic_increment (Z.of_nat (acks (at_core s))) = Z.of_nat (acks (at_core (set_core c k s))).
Proof.
  intros Hc H0 H1. apply (acks_increment _ _ c); [done | by apply insert_other_pos | done |].
  by rewrite insert_here.
Qed.

Ltac split_event H e c :=
  unfold perform in H; cbn [fst snd] in H;
  destruct (Nat.ltb_spec c vcpu_count) as [?Hc |]; cbn [negb] in H; [| done];
  destruct e; [unfold fail in H | unfold advance in H | unfold take_nmi in H].

(** Before the crash a core fails, or wins the exchange. *)
Lemma quiet_step s c e s' :
  crash_ack_core_count s = Z.of_nat (acks (at_core s)) -> phase s None ->
  perform s (c, e) = Some s' -> invariant s'.
Proof.
  intros Ha HP Hs. inversion HP as [Hf Hq |]; subst.
  destruct (Hq c) as (Hp & Hv & Hn). split_event Hs e c.
  - destruct (pos (at_core s c)) eqn:Ep; try done. destruct (fails c); [| done].
    injection Hs as <-. split; [rewrite acks_set by (done || by rewrite Ep); done |].
    exists None. apply before_crash; [done |]. intros d.
    destruct (decide (d = c)) as [-> | Hd]; [| rewrite insert_other by done; apply Hq].
    rewrite insert_here. split; [by right | done].
  - destruct Hp as [Hp | Hp]; rewrite Hp in Hs; [done |].
    unfold atomic_compare_exchange in Hs. rewrite Hf in Hs. cbn [Z.eqb] in Hs. injection Hs as <-.
    split; [rewrite acks_set by (done || by cbn; rewrite Hp); done |].
    exists (Some c). apply in_crash; [done | done | | |].
    + rewrite insert_here. by split.
    + intros d Hd. rewrite (insert_other c _ _ d) by done. destruct (Hq d) as (Hd' & _ & Hn').
      split; cbn; [by destruct Hd' as [-> | ->] | by rewrite Hn'].
    + by rewrite insert_here.
  - by rewrite Hn in Hs.
Qed.

(** A step of the initiator that sends no NMI. *)
Lemma initiator_local s c k :
  phase s (Some c) -> initiator_ok k ->
  (sent (pos (at_core s c)) = true -> sent (pos k) = true) ->
  crash_ack_core_count s = Z.of_nat (acks (at_core (set_core c k s))) ->
  (pos k = bugchecked -> apic_reachable = true -> (vcpu_count <= acks (at_core (set_core c k s)))%nat) ->
  invariant (set_core c k s).
Proof.
  intros HP Hk Hsent Ha Hb. inversion HP as [| i Hf Hi _ Hother _]; subst.
  split; [done |]. exists (Some c). apply in_crash; rewrite ?insert_here; try done.
  intros d Hd. rewrite (insert_other c _ _ d) by done. destruct (Hother d Hd) as [H1 H2]. split; auto.
Qed.

Lemma phase_ack s x i : phase s i -> phase (s <| crash_ack_core_count := x |>) i.
Proof. intros HP. inversion HP; [by apply before_crash | by apply in_crash]. Qed.

(** The initiator goes on, alone to do so. *)
Lemma initiator_step s c e s' :
  crash_ack_core_count s = Z.of_nat (acks (at_core s)) -> phase s (Some c) ->
  perform s (c, e) = Some s' -> invariant s'.
Proof.
  intros Ha HP Hs. inversion HP as [| i Hf Hi (Hr & Hn & Hv) Hother Hb]; subst.
  split_event Hs e c; [by destruct (pos (at_core s c)) | | by rewrite Hn in Hs].
  destruct (pos (at_core s c)) eqn:Ep; try done; cbn [set pos] in Hs.
  - rewrite Hv in Hs by done. injection Hs as <-.
    apply initiator_local; rewrite ?Ep; try done; by rewrite acks_set by (done || by rewrite Ep).
  - injection Hs as <-.
    apply initiator_local; rewrite ?Ep; try done; by rewrite acks_set by (done || by rewrite Ep).
  - injection Hs as <-. apply initiator_local; [by apply phase_ack | by split | by cbn; rewrite Ep | | done].
    cbn. rewrite Ha. by apply acks_acknowledge; [| rewrite Ep |].
  - destruct apic_reachable eqn:Eapic; injection Hs as <-.
    + split.
      * cbn. rewrite Ha. f_equal. symmetry. apply (acks_same _ _ c); [done | |].
        -- intros d Hd. rewrite fn_lookup_insert_ne by congruence. by case_decide.
        -- by rewrite fn_lookup_insert, Ep.
      * exists (Some c). apply in_crash; rewrite ?insert_here; try done.
        intros d Hd. rewrite (insert_other c _ _ d) by done. destruct (Hother d Hd) as [H1 H2].
        cbn. by case_decide.
    + apply initiator_local; rewrite ?Ep; try done; [| intros _ E; congruence].
      by rewrite acks_set by (done || by rewrite Ep).
  - destruct (Z.ltb_spec (crash_ack_core_count s) (Z.of_nat vcpu_count)); [done |]. injection Hs as <-.
    apply initiator_local; try done.
    + by rewrite acks_set by (done || by rewrite Ep).
    + intros _ _. rewrite acks_set by (done || by rewrite Ep). lia.
Qed.

(** What a core that is not raising the crash does while one is in progress. *)
Lemma other_local s c e s' :
  crash_in_progress s = 1 -> raising (pos (at_core s c)) = false ->
  perform s (c, e) = Some s' ->
  (c < vcpu_count)%nat /\ exists k,
    at_core s' = <[c := k]> (at_core s) /\ crash_in_progress s' = 1 /\
    crash_ack_core_count s' =
      (if negb (acked (pos (at_core s c))) && acked (pos k)
       then atomic_increment (crash_ack_core_count s) else crash_ack_core_count s) /\
    raising (pos k) = false /\ (nmi_pending k = true -> nmi_pending (at_core s c) = true) /\
    (acked (pos (at_core s c)) = true -> acked (pos k) = true).
Proof.
  intros Hf Hr Hs. split_event Hs e c; (split; [done |]).
  - destruct (pos (at_core s c)) eqn:Ep; try done. destruct (fails c); [| done]. injection Hs as <-.
    eexists. split; [reflexivity |]. by cbn.
  - destruct (pos (at_core s c)) eqn:Ep; try done; unfold atomic_compare_exchange in *; rewrite ?Hf in Hs;
      cbn [Z.eqb Pos.eqb] in Hs; try destruct (vmx_on (at_core s c)) eqn:Ev; injection Hs as <-;
      (eexists; split; [reflexivity |]); by cbn.
  - destruct (nmi_pending (at_core s c)) eqn:En; [cbn [negb] in Hs | done].
    destruct (pos (at_core s c)) as [| | | | | | | | [] | [] | [] | | |] eqn:Ep; try done; injection Hs as <-;
      (eexists; split; [reflexivity |]); cbn; by rewrite ?Ep.
Qed.

Lemma other_step s c i e s' :
  crash_ack_core_count s = Z.of_nat (acks (at_core s)) -> phase s (Some i) -> c <> i ->
  perform s (c, e) = Some s' -> invariant s'.
Proof.
  intros Ha HP Hc Hs. inversion HP as [| j Hf Hi Hk Hother Hb]; subst.
  destruct (Hother c Hc) as [Hr Hn].
  destruct (other_local s c e s' Hf Hr Hs) as (Hlt & k & Hcore & Hf' & Ha' & Hr' & Hn' & Hmono).
  assert (acks (at_core s') = acks (at_core (set_core c k s))) as Eacks by (by rewrite Hcore).
  assert (crash_ack_core_count s' = Z.of_nat (acks (at_core s')) /\
          (acks (at_core s) <= acks (at_core s'))%nat) as [Hcount Hle].
  { rewrite Ha', Eacks. destruct (acked (pos (at_core s c))) eqn:E0; cbn [negb andb].
    - rewrite acks_set by (done || by rewrite E0, Hmono). auto.
    - destruct (acked (pos k)) eqn:E1.
      + rewrite Ha. split; [by apply acks_acknowledge |].
        pose proof (acks_update (at_core s) (at_core (set_core c k s)) c Hlt
          (insert_other_pos c k s)) as E. rewrite insert_here, E0, E1 in E. cbn [Nat.b2n] in E. lia.
      + rewrite acks_set by (done || by rewrite E0). auto. }
  split; [done |]. exists (Some i). apply in_crash; rewrite ?Hcore; try done.
  - by rewrite fn_lookup_insert_ne.
  - intros d Hd. rewrite (fn_lookup_insert_ne _ c i) by done.
    destruct (decide (d = c)) as [-> | Hdc].
    + rewrite fn_lookup_insert. split; [done |]. auto.
    + rewrite fn_lookup_insert_ne by congruence. by apply Hother.
  - rewrite fn_lookup_insert_ne by done. intros E1 E2. specialize (Hb E1 E2). rewrite <- Hcore. lia.
Qed.

Lemma invariant_step s s' : invariant s -> step s s' -> invariant s'.
Proof.
  intros [Ha [h HP]] [[c e] Hs]. destruct h as [i |].
  - destruct (decide (c = i)) as [-> | Hc]; [by eapply initiator_step | by eapply other_step].
  - by eapply quiet_step.
Qed.

Lemma invariant_reachable s : reachable s -> invariant s.
Proof.
  apply (rtc_invariant step invariant); [by apply invariant_step |].
  split.
  - pose proof (total_bound vcpu_count (fun d => Nat.b2n (acked (pos (at_core initial d)))) 0 ltac:(done)).
    unfold acks. cbn [crash_ack_core_count initial]. lia.
  - exists None. apply before_crash; [done |]. intros c. split; [by left | done].
Qed.


(** ** Progress *)

(** How many more steps a core can make; the initiator's include the NMIs it
    has still to send. *)
Definition weight (c : nat) (k : core) : nat :=
  let rest := (6 * vcpu_count)%nat in
  match pos k with
  | running => if fails c then rest + 12 else 0
  | at_compare_exchange => rest + 11
  | raise_vmxoff => rest + 10
  | raise_lidt => rest + 9
  | raise_acknowledge => rest + 8
  | raise_send => rest + 7
  | raise_wait => 1
  | give_load _ => 5
  | give_vmxoff _ => 4
  | give_lidt _ => 3
  | give_acknowledge => 2
  | bugchecked | hung | faulting => 0
  end + (if nmi_pending k then 6 else 0).

Definition measure (s : state) : nat := total vcpu_count (fun c => weight c (at_core s c)).

Lemma measure_update s s' c k :
  (c < vcpu_count)%nat -> at_core s' = <[c := k]> (at_core s) ->
  (weight c k < weight c (at_core s c))%nat -> (measure s' < measure s)%nat.
Proof.
  intros Hc Hs Hw. unfold measure. rewrite Hs.
  pose proof (total_update vcpu_count (fun d => weight d (at_core s d))
    (fun d => weight d (<[c := k]> (at_core s) d)) c Hc) as E. cbv beta in E.
  rewrite fn_lookup_insert in E. specialize (E ltac:(intros d Hd; by rewrite fn_lookup_insert_ne by congruence)).
  lia.
Qed.

Lemma total_add n w k : total n (fun d => (w d + k)%nat) = (total n w + n * k)%nat.
Proof. induction n as [| n IH]; [done |]. cbn [total]. lia. Qed.

(** The initiator sends its NMIs. *)
Lemma measure_send s s' c k :
  (c < vcpu_count)%nat -> at_core s' c = k ->
  (weight c k + 6 * vcpu_count < weight c (at_core s c) + 6)%nat ->
  (forall d, d <> c -> at_core s' d = (at_core s d) <| nmi_pending := true |>) ->
  (measure s' < measure s)%nat.
Proof.
  intros Hc Hk Hw Hd. unfold measure.
  set (w d := weight d (at_core s d)). set (w' d := weight d (at_core s' d)).
  pose proof (total_update vcpu_count (fun d => w d + 6)%nat
    (fun d => if decide (d = c) then w' c else w d + 6)%nat c Hc) as E. cbv beta in E.
  rewrite decide_True in E by done.
  specialize (E ltac:(intros d Hne; by rewrite decide_False)). rewrite total_add in E.
  assert (total vcpu_count w' <= total vcpu_count (fun d => if decide (d = c) then w' c else w d + 6))%nat as Hle.
  { apply total_le. intros d _. case_decide as Hdc; [by rewrite Hdc |].
    unfold w', w, weight. rewrite Hd by done. cbn [set pos nmi_pending].
    destruct (nmi_pending (at_core s d)); lia. }
  unfold w' in *. rewrite Hk in *. unfold w in *. lia.
Qed.

Lemma step_decreases s s' : invariant s -> step s s' -> (measure s' < measure s)%nat.
Proof.
  intros HI [[c e] Hs]. destruct HI as [_ [h HP]].
  assert (crash_in_progress s = 0 -> quiet (at_core s c)) as Hq.
  { intros Hf. inversion HP; [done | lia]. }
  split_event Hs e c.
  - destruct (pos (at_core s c)) eqn:Ep; try done. destruct (fails c) eqn:Ef; [| done].
    injection Hs as <-. eapply measure_update; [done | reflexivity |].
    unfold weight. rewrite Ep, Ef. cbn [set pos nmi_pending]. destruct (nmi_pending (at_core s c)); lia.
  - destruct (pos (at_core s c)) eqn:Ep; try done; unfold atomic_compare_exchange in Hs;
      try destruct (Z.eqb_spec (crash_in_progress s) 0) as [Hz |];
      try (destruct (Hq Hz) as [[E | E] _]; congruence);
      try destruct (crash_ack_core_count s <? _); try done;
      try destruct (crash_in_progress s =? 1);
      try destruct (vmx_on (at_core s c));
      try destruct apic_reachable;
      injection Hs as <-;
      try (eapply measure_update; [done | reflexivity |];
           unfold weight; rewrite Ep; cbn [set pos nmi_pending]; destruct (fails c), (nmi_pending (at_core s c)); lia).
    all: eapply (measure_send _ _ c); [done | apply insert_here | |];
      [unfold weight; rewrite Ep; cbn [set pos nmi_pending]; destruct (fails c), (nmi_pending (at_core s c)); lia |].
    all: intros d Hd; rewrite insert_other by done; cbn; by rewrite decide_False.
  - destruct (nmi_pending (at_core s c)) eqn:En; [cbn [negb] in Hs | done].
    destruct (pos (at_core s c)) as [| | | | | | | | [] | [] | [] | | |] eqn:Ep; try done;
      injection Hs as <-; (eapply measure_update; [done | reflexivity |]);
      unfold weight; rewrite Ep, En; cbn [set pos nmi_pending]; rewrite ?Ep; destruct (fails c); lia.
Qed.

(** Runs end. *)
Lemma run_bound n s s' : invariant s -> nsteps step n s s' -> (n + measure s' <= measure s)%nat.
Proof.
  intros HI H. induction H as [s | n s1 s2 s3 Hst _ IH]; [lia |].
  pose proof (step_decreases s1 s2 HI Hst). specialize (IH (invariant_step _ _ HI Hst)). lia.
Qed.

(** Where no step is left. *)
Definition stuck (s : state) : Prop := forall s', ~ step s s'.

(** A test for it. *)
Definition no_step (s : state) : bool :=
  forallb (fun c => forallb (fun e => match perform s (c, e) with Some _ => false | None => true end)
                      [ev_fail; ev_advance; ev_nmi]) (seq 0 vcpu_count).

Lemma no_step_stuck s : no_step s = true -> stuck s.
Proof.
  clear. unfold no_step. rewrite forallb_forall. intros H s' [[c e] Hs].
  destruct (Nat.ltb_spec c vcpu_count) as [Hc |].
  - specialize (H c ltac:(apply in_seq; lia)). rewrite forallb_forall in H.
    specialize (H e ltac:(destruct e; cbn; auto)). by rewrite Hs in H.
  - unfold perform in Hs. cbn [fst] in Hs. by destruct (Nat.ltb_spec c vcpu_count); [lia |].
Qed.

(** *** One core fails *)

Section one.
Variable c0 : nat.
Hypothesis c0_core : (c0 < vcpu_count)%nat.
Hypothesis only_c0 : forall c, fails c = true <-> c = c0.
Hypothesis apic_ok : apic_reachable = true.

(** The core that fails; the others, which are in the protocol only because of an
    NMI, and which have one coming once they have been sent. *)
Definition failing_ok (k : core) : Prop :=
  pos k = running \/ pos k = at_compare_exchange \/ raising (pos k) = true.
Definition notified_ok (i k : core) : Prop :=
  match pos k with
  | running => vmx_on k = true /\ (sent (pos i) = true -> nmi_pending k = true)
  | give_load true | give_vmxoff true => vmx_on k = true
  | give_lidt true | give_acknowledge | hung => True
  | _ => False
  end.
Definition single (s : state) : Prop :=
  invariant s /\ failing_ok (at_core s c0) /\
  forall d, d <> c0 -> notified_ok (at_core s c0) (at_core s d).

Lemma single_raising s : single s -> crash_in_progress s = 1 -> phase s (Some c0).
Proof.
  intros ([_ [h HP]] & _ & Hn) Hf. inversion HP as [Hf' | i _ _ (Hr & _) Hother Hb]; subst; [lia |].
  destruct (decide (i = c0)) as [-> | Hne]; [done |].
  specialize (Hn i Hne). unfold notified_ok in Hn.
  by destruct (pos (at_core s i)) as [| | | | | | | | [] | [] | [] | | |].
Qed.

Lemma notified_mono i i' k :
  (sent (pos i') = true -> sent (pos i) = true \/ nmi_pending k = true) -> notified_ok i k -> notified_ok i' k.
Proof. intros H Hn. unfold notified_ok in *. destruct (pos k) as [| | | | | | | | [] | [] | [] | | |]; tauto. Qed.

(** The failing core raises the crash. *)
Lemma failing_step s e s' :
  single s -> perform s (c0, e) = Some s' ->
  failing_ok (at_core s' c0) /\ forall d, d <> c0 -> notified_ok (at_core s' c0) (at_core s' d).
Proof.
  intros HS Hs. pose proof (single_raising s HS) as Hraise. destruct HS as ([_ [h HP]] & Hc0 & Hn).
  assert (nmi_pending (at_core s c0) = false /\ (pos (at_core s c0) = raise_vmxoff -> vmx_on (at_core s c0) = true) /\
    (pos (at_core s c0) = at_compare_exchange -> crash_in_progress s = 0)) as (Hp & Hv & Hz).
  { assert (crash_in_progress s = 0 \/ crash_in_progress s = 1) as [E | E]
      by (inversion HP; auto).
    - inversion HP as [_ Hq |]; [| lia]. by destruct (Hq c0) as (_ & ? & ?).
    - specialize (Hraise E). inversion Hraise as [| ? _ _ (Hr & ? & ?)]; subst.
      split; [done |]. split; [done |]. intros E'. by rewrite E' in Hr. }
  assert (forall k f, (forall d, d <> c0 -> f d = at_core s d) -> failing_ok k -> f c0 = k ->
    (sent (pos k) = true -> sent (pos (at_core s c0)) = true) ->
    failing_ok (f c0) /\ forall d, d <> c0 -> notified_ok (f c0) (f d)) as Hlocal.
  { intros k f Hf Hk <- Hsent. split; [done |]. intros d Hd. rewrite (Hf d) by done.
    eapply notified_mono; [| by apply Hn]. auto. }
  split_event Hs e c0; [| | by rewrite Hp in Hs].
  - destruct (pos (at_core s c0)) eqn:Ep; try done. destruct (fails c0); [| done]. injection Hs as <-.
    eapply Hlocal; [intros d Hd; cbn; by rewrite fn_lookup_insert_ne by congruence | | apply insert_here | done]. right. by left.
  - unfold failing_ok in Hc0.
    destruct (pos (at_core s c0)) eqn:Ep; try done; try (exfalso; by destruct Hc0 as [? | [? | ?]]);
      rewrite ?apic_ok in Hs; try rewrite Hv in Hs by done;
      try (unfold atomic_compare_exchange in Hs; rewrite Hz in Hs by done; cbn [Z.eqb] in Hs);
      try destruct (crash_ack_core_count s <? _); try done; injection Hs as <-;
      try (eapply Hlocal; [intros d Hd; cbn; by rewrite fn_lookup_insert_ne by congruence | | apply insert_here | done]; right; by right).
    split; [rewrite insert_here; right; by right |]. intros d Hd. rewrite insert_here.
    rewrite (insert_other c0 _ _ d) by done. cbn. rewrite decide_False by done.
    eapply notified_mono with (i := at_core s c0); [by right |].
    specialize (Hn d Hd). unfold notified_ok in *. cbn.
    destruct (pos (at_core s d)) as [| | | | | | | | [] | [] | [] | | |]; tauto.
Qed.

Lemma single_step s s' : single s -> step s s' -> single s'.
Proof.
  intros HS Hst. pose proof (failing_step s) as Hfail. specialize (Hfail) as Hf.
  destruct HS as (HI & Hc0 & Hn). split; [by eapply invariant_step |].
  destruct Hst as [[c e] Hs]. destruct (decide (c = c0)) as [-> | Hc]; [by eapply Hf |].
  specialize (Hn c Hc) as Hnc. unfold notified_ok in Hnc.
  assert (exists k, at_core s' = <[c := k]> (at_core s) /\ notified_ok (at_core s c0) k) as (k & Hcore & Hk).
  { split_event Hs e c.
    - assert (fails c = false) as Ef by (destruct (fails c) eqn:E; [by apply only_c0 in E | done]).
      rewrite Ef in Hs. by destruct (pos (at_core s c)).
    - assert (crash_in_progress s = 0 -> quiet (at_core s c)) as Hq.
      { destruct HI as [_ [h HP]]. inversion HP; [done | lia]. }
      destruct (pos (at_core s c)) as [| | | | | | | | [] | [] | [] | | |] eqn:Ep; try done;
        rewrite ?Hnc in Hs; try destruct (Z.eqb_spec (crash_in_progress s) 0) as [Ez |];
        try (destruct (Hq Ez) as [[? | ?] _]; congruence); injection Hs as <-;
        (eexists; split; [reflexivity |]); done.
    - destruct (nmi_pending (at_core s c)) eqn:En; [cbn [negb] in Hs | done].
      destruct (pos (at_core s c)) as [| | | | | | | | [] | [] | [] | | |] eqn:Ep; try done;
        injection Hs as <-; (eexists; split; [reflexivity |]); unfold notified_ok; cbn; rewrite ?Ep; tauto. }
  rewrite Hcore. rewrite fn_lookup_insert_ne by done. split; [done |]. intros d Hd.
  destruct (decide (d = c)) as [-> | Hdc]; [by rewrite fn_lookup_insert |].
  rewrite fn_lookup_insert_ne by congruence. by apply Hn.
Qed.

Lemma stuck_none s c e : stuck s -> (c < vcpu_count)%nat ->
  match e with ev_fail => fail c s | ev_advance => advance c s | ev_nmi => take_nmi c s end = None.
Proof.
  intros Hstuck Hc. destruct (perform s (c, e)) as [s' |] eqn:E.
  - exfalso. apply (Hstuck s'). by exists (c, e).
  - unfold perform in E. cbn [fst snd] in E.
    destruct (Nat.ltb_spec c vcpu_count); [by destruct e | lia].
Qed.

(** A notified core is not stuck before it hangs. *)
Lemma stuck_hung s d :
  single s -> stuck s -> sent (pos (at_core s c0)) = true -> (d < vcpu_count)%nat -> d <> c0 ->
  pos (at_core s d) = hung.
Proof.
  intros HS Hstuck Hsent Hd Hne. destruct HS as (_ & _ & Hn). specialize (Hn d Hne).
  pose proof (stuck_none s d ev_advance Hstuck Hd) as H1.
  pose proof (stuck_none s d ev_nmi Hstuck Hd) as H2.
  unfold advance, take_nmi, notified_ok in *.
  destruct (pos (at_core s d)) as [| | | | | | | | [] | [] | [] | | |]; try done.
  destruct Hn as [_ Hp]. by rewrite Hp in H2.
Qed.

Lemma stuck_sent s : single s -> stuck s -> crash_in_progress s = 1 /\ sent (pos (at_core s c0)) = true.
Proof.
  intros HS Hstuck. pose proof (single_raising s HS) as Hraise. destruct HS as ([_ [h HP]] & Hc0 & _).
  pose proof (stuck_none s c0 ev_advance Hstuck c0_core) as H1.
  pose proof (stuck_none s c0 ev_fail Hstuck c0_core) as H2.
  unfold advance, fail in *.
  assert (crash_in_progress s = 0 \/ crash_in_progress s = 1) as [E | E] by (inversion HP; auto).
  - inversion HP as [_ Hq |]; [| lia]. destruct (Hq c0) as ([E' | E'] & _); rewrite E' in *; [| done].
    by rewrite (proj2 (only_c0 c0) eq_refl) in H2.
  - split; [done |]. specialize (Hraise E). inversion Hraise as [| i _ _ (Hr & _) _ _]; subst.
    destruct (pos (at_core s c0)); try done. by rewrite apic_ok in H1.
Qed.

(** Where no step is left, the crash has been reported. *)
Lemma single_stuck s :
  single s -> stuck s ->
  pos (at_core s c0) = bugchecked /\ forall d, (d < vcpu_count)%nat -> d <> c0 -> pos (at_core s d) = hung.
Proof.
  intros HS Hstuck. destruct (stuck_sent s HS Hstuck) as [Hf Hsent].
  assert (forall d, (d < vcpu_count)%nat -> d <> c0 -> pos (at_core s d) = hung) as Hh
    by (intros d Hd Hne; by apply stuck_hung).
  split; [| done]. destruct HS as ([Ha _] & _).
  pose proof (stuck_none s c0 ev_advance Hstuck c0_core) as H1. unfold advance in H1.
  destruct (pos (at_core s c0)) eqn:Ep; try done. exfalso.
  destruct (Z.ltb_spec (crash_ack_core_count s) (Z.of_nat vcpu_count)) as [Hlt |]; [| done].
  assert (acks (at_core s) = vcpu_count) as Eacks; [| rewrite Ha, Eacks in Hlt; lia].
  unfold acks. rewrite (total_ext _ _ (fun _ => 1%nat)).
  - clear. induction vcpu_count as [| n IH]; [done |]. cbn [total]. lia.
  - intros d Hd. destruct (decide (d = c0)) as [-> | Hne]; [by rewrite Ep | by rewrite (Hh d)].
Qed.

Lemma single_reachable s : reachable s -> single s.
Proof.
  apply (rtc_invariant step single); [by apply single_step |].
  split; [by apply invariant_reachable, rtc_refl |]. split; [by left |]. by intros d Hd.
Qed.
End one.

End crash.

(** Two cores; core 0 fails. *)
Definition crash_run : list (nat * event) :=
  [(0, ev_fail); (0, ev_advance); (0, ev_advance); (0, ev_advance); (0, ev_advance); (0, ev_advance);
   (1, ev_nmi); (1, ev_advance); (1, ev_advance); (1, ev_advance); (1, ev_advance); (0, ev_advance)]%nat.
Definition run_events (n : nat) (fails : nat -> bool) (es : list (nat * event)) : option state :=
  replay (perform n fails true) initial es.

Lemma run_events_reachable n fails es s : run_events n fails es = Some s -> reachable n fails true s.
Proof. apply replay_rtc. intros a e b E. by exists e. Qed.



Definition simultaneous : list (nat * event) :=
  [(0, ev_fail); (1, ev_fail); (0, ev_advance); (1, ev_advance); (1, ev_advance); (1, ev_advance);
   (0, ev_advance); (0, ev_advance); (0, ev_advance); (0, ev_advance);
   (1, ev_nmi); (1, ev_advance); (1, ev_advance)]%nat.

(** Two cores fail at the same time: the NMI of the first can reach the second
    between its VMXOFF and its LIDT; the handler of the hypervisor executes VMXOFF
    again, which is an invalid opcode by then, and its handler comes back to the
    same instruction. The second core never acknowledges and the first waits for
    ever. *)
Theorem nmi_during_devirtualization_hangs :
  exists s, reachable 2 (fun _ => true) true s /\ stuck 2 (fun _ => true) true s /\
    pos (at_core s 0) = raise_wait /\ pos (at_core s 1) = faulting.
Proof.
  assert (match run_events 2 (fun _ => true) simultaneous with
          | Some s => no_step 2 (fun _ => true) true s = true /\
                      pos (at_core s 0) = raise_wait /\ pos (at_core s 1) = faulting
          | None => False
          end) as H by (vm_compute; auto).
  destruct (run_events 2 (fun _ => true) simultaneous) as [s |] eqn:E; [| contradiction H].
  destruct H as (H & Hpos). exists s. split; [by eapply run_events_reachable |].
  split; [by apply no_step_stuck | exact Hpos].
Qed.
