(* ===== verification/Lifecycle.v ===== *)
(** * Starting and leaving: [revhv-km/main.cpp], [hv.cpp], [vcpu.cpp], [vmx.cpp], [stealth.cpp]

    A core on its way into VMX non-root operation: the state captured for the way
    back, the steps of [virtualize] in their order with every exit, the launch, the
    measurement of the exit overhead; [start] on all cores and the status the driver
    reports; and [devirtualize], which gives a core in VMX root operation back to the
    operating system after a crash. *)
From Stdlib Require Import ZArith Lia List Bool.
From stdpp Require Import base numbers list option gmap functions.
From S2P Require Import Prelude Ia32 Memory Mtrr Trace TransitionCfg Ept Vmcs Segments Vcpu VmcsSetup.

#[export] Instance eta_cpu_state : Eta cpu_state := fun c =>
  mk_cpu (readcr0 c) (readcr3 c) (readcr4 c) (readdr7 c) (readeflags c)
    (read_cs c) (read_ss c) (read_ds c) (read_es c) (read_fs c) (read_gs c) (read_ldtr c) (read_tr c)
    (gdtr_base c) (gdtr_limit c) (idtr_base c) (idtr_limit c) (segmentlimit c) (readmsr c) (virtual_memory c).

Definition writemsr (msr v : Z) (c : cpu_state) : cpu_state := c <| readmsr := <[msr := v]> (readmsr c) |>.
Definition lgdt (base limit : Z) (c : cpu_state) : cpu_state := c <| gdtr_base := base |> <| gdtr_limit := limit |>.
Definition lidt (base limit : Z) (c : cpu_state) : cpu_state := c <| idtr_base := base |> <| idtr_limit := limit |>.

(** ** The restore context *)

(** [restore_context], but for the copy of the GDT. *)
Record restore_context := mk_restore {
  rc_gdtr_base : Z; rc_gdtr_limit : Z; rc_idtr_base : Z; rc_idtr_limit : Z;
  rc_cr3 : Z; rc_cr4 : Z; rc_cr0 : Z;
  rc_cs : Z; rc_ss : Z; rc_ds : Z; rc_es : Z; rc_fs : Z; rc_gs : Z; rc_tr : Z; rc_ldtr : Z;
  rc_fs_base : Z; rc_gs_base : Z; rc_kernel_gs_base : Z;
  rc_efer : Z; rc_pat : Z; rc_sysenter_cs : Z; rc_sysenter_esp : Z; rc_sysenter_eip : Z
}.

(** [sizeof(restore_context::dummy_gdt)]. *)
Definition sizeof_dummy_gdt : Z := 0xFFFF.
(** The type LTR gives the descriptor it loads. *)
Definition SEGMENT_DESCRIPTOR_TYPE_TSS_BUSY : Z := 11.

Section restore.
Context {ia32 : Ia32}.

(** The first part of [virtualize]. *)
Definition capture (c : cpu_state) : restore_context :=
  mk_restore (gdtr_base c) (gdtr_limit c) (idtr_base c) (idtr_limit c)
    (readcr3 c) (readcr4 c) (readcr0 c)
    (read_cs c) (read_ss c) (read_ds c) (read_es c) (read_fs c) (read_gs c) (read_tr c) (read_ldtr c)
    (readmsr c IA32_FS_BASE) (readmsr c IA32_GS_BASE) (readmsr c IA32_KERNEL_GS_BASE)
    (readmsr c IA32_EFER) (readmsr c IA32_PAT)
    (readmsr c IA32_SYSENTER_CS) (readmsr c IA32_SYSENTER_ESP) (readmsr c IA32_SYSENTER_EIP).

(** What the processor does on MOV to a segment register: whether it faults, and
    the base it loads for FS and GS. *)
Variable segment_faults : cpu_state -> Z -> bool.
Variable loaded_base : cpu_state -> Z -> Z.

Definition write_ds (sel : Z) (c : cpu_state) : outcome cpu_state :=
  if segment_faults c sel then Crash else Ok (c <| read_ds := sel |>).
Definition write_es (sel : Z) (c : cpu_state) : outcome cpu_state :=
  if segment_faults c sel then Crash else Ok (c <| read_es := sel |>).
Definition write_fs (sel : Z) (c : cpu_state) : outcome cpu_state :=
  if segment_faults c sel then Crash
  else Ok (writemsr IA32_FS_BASE (loaded_base c sel) (c <| read_fs := sel |>)).
Definition write_gs (sel : Z) (c : cpu_state) : outcome cpu_state :=
  if segment_faults c sel then Crash
  else Ok (writemsr IA32_GS_BASE (loaded_base c sel) (c <| read_gs := sel |>)).

(** LTR: a general-protection fault for a null selector, a descriptor outside the
    table, or one that is not an available TSS; else the descriptor becomes busy. *)
Definition write_tr (sel : Z) (c : cpu_state) : outcome cpu_state :=
  let off := selector_index sel * 8 in
  let d := read64 (virtual_memory c) (gdtr_base c + off) in
  if (selector_index sel =? 0) || (gdtr_limit c <? off + 15) ||
     negb (descriptor_type d =? SEGMENT_DESCRIPTOR_TYPE_SYSTEM) ||
     negb (descriptor_segment_type d =? SEGMENT_DESCRIPTOR_TYPE_TSS_AVAILABLE) ||
     (descriptor_present d =? 0)
  then Crash
  else Ok (c <| read_tr := sel |>
             <| virtual_memory := write64 (virtual_memory c) (gdtr_base c + off)
                                    (set_bits d 40 4 SEGMENT_DESCRIPTOR_TYPE_TSS_BUSY) |>).

(** The copy of the GDT at [dummy_gdt], with an available TSS descriptor. *)
Definition copy_gdt (dummy_gdt : Z) (rc : restore_context) (m : mem) : mem * Z :=
  let limit := rc_gdtr_limit rc in
  let gdt_copy_size := if limit + 1 <? sizeof_dummy_gdt then limit + 1 else sizeof_dummy_gdt in
  let m := store m dummy_gdt (load m (rc_gdtr_base rc) gdt_copy_size) in
  let tr_offset := u16 (selector_index (rc_tr rc) * 8) in
  (if tr_offset + 16 <=? gdt_copy_size then
     write64 m (dummy_gdt + tr_offset)
       (set_bits (read64 m (dummy_gdt + tr_offset)) 40 4 SEGMENT_DESCRIPTOR_TYPE_TSS_AVAILABLE)
   else m, gdt_copy_size).

(** Switching PGE off and on again flushes the TLB. *)
Definition flush_tlb (c : cpu_state) : cpu_state :=
  let cr4 := readcr4 c in
  let c := c <| readcr4 := Z.land cr4 (not64 (Z.shiftl 1 7)) |> in
  c <| readcr4 := cr4 |>.

(** [devirtualize], after VMXOFF. *)
Definition devirtualize (dummy_gdt : Z) (rc : restore_context) (c : cpu_state) : outcome cpu_state :=
  let c := writemsr IA32_PAT (rc_pat rc) (c <| readcr3 := rc_cr3 rc |>) in
  let c := flush_tlb c in
  let c := writemsr IA32_EFER (rc_efer rc) c in
  let c := writemsr IA32_SYSENTER_CS (rc_sysenter_cs rc) c in
  let c := writemsr IA32_SYSENTER_ESP (rc_sysenter_esp rc) c in
  let c := writemsr IA32_SYSENTER_EIP (rc_sysenter_eip rc) c in
  let c := lidt (rc_idtr_base rc) (rc_idtr_limit rc) c in
  let '(m, gdt_copy_size) := copy_gdt dummy_gdt rc (virtual_memory c) in
  let c := lgdt dummy_gdt (u16 (gdt_copy_size - 1)) (c <| virtual_memory := m |>) in
  let! c := write_tr (rc_tr rc) c in
  let c := lgdt (rc_gdtr_base rc) (rc_gdtr_limit rc) c in
  let! c := write_ds (rc_ds rc) c in
  let! c := write_es (rc_es rc) c in
  let! c := write_fs (rc_fs rc) c in
  let! c := write_gs (rc_gs rc) c in
  let c := writemsr IA32_FS_BASE (rc_fs_base rc) c in
  let c := writemsr IA32_GS_BASE (rc_gs_base rc) c in
  Ok (writemsr IA32_KERNEL_GS_BASE (rc_kernel_gs_base rc) c).

(** ** Giving a core back *)

(** The registers [devirtualize] writes. *)
Definition restored_msrs : list Z :=
  [IA32_PAT; IA32_EFER; IA32_SYSENTER_CS; IA32_SYSENTER_ESP; IA32_SYSENTER_EIP; IA32_FS_BASE; IA32_GS_BASE;
   IA32_KERNEL_GS_BASE].
Hypothesis msrs_distinct : NoDup restored_msrs.

(** A GDT that LTR can use through the copy: the descriptor of TR is a present TSS
    in the part that is copied. *)
Record usable_gdt (m : mem) (base limit tr : Z) : Prop := {
  gdt_limit : 0 <= limit < 2 ^ 16;
  gdt_tr : 0 < selector_index tr;
  gdt_inside : selector_index tr * 8 + 16 <= Z.min (limit + 1) sizeof_dummy_gdt;
  gdt_system : descriptor_type (read64 m (base + selector_index tr * 8)) = SEGMENT_DESCRIPTOR_TYPE_SYSTEM;
  gdt_present : descriptor_present (read64 m (base + selector_index tr * 8)) = 1
}.

(** The copy does not overlap the table. *)
Definition apart (dummy base limit : Z) : Prop := dummy + sizeof_dummy_gdt <= base \/ base + limit < dummy.

Definition in_copy (dummy a : Z) : Prop := dummy <= a < dummy + sizeof_dummy_gdt.

Lemma selector_index_range sel : 0 <= selector_index sel < 2 ^ 13.
Proof. apply bits_range. lia. Qed.

(** A copied byte, a copied word, and what the copy leaves alone. *)
Lemma store_load m d b n x : 0 <= x < n -> store m d (load m b n) (d + x) = m (b + x).
Proof.
  intros Hx. rewrite store_in by (rewrite load_length; lia). replace (d + x - d) with x by lia.
  rewrite nth_lookup. unfold load. rewrite list_lookup_fmap, lookup_seqZ_lt by lia. cbn. f_equal. lia.
Qed.

Lemma read64_copy m d b n x : 0 <= x -> x + 8 <= n -> read64 (store m d (load m b n)) (d + x) = read64 m (b + x).
Proof.
  intros H0 Hn. unfold read64. f_equal. apply load_ext. intros i Hi.
  rewrite <- !Z.add_assoc. apply store_load. lia.
Qed.

Lemma write64_outside m a v x : x < a \/ a + 8 <= x -> write64 m a v x = m x.
Proof. intros Hx. unfold write64. apply store_out. rewrite le_split_length. lia. Qed.

(** The copy has an available descriptor for TR; nothing else has changed. *)
Lemma copy_gdt_ok dummy rc m :
  mem_ok m -> usable_gdt m (rc_gdtr_base rc) (rc_gdtr_limit rc) (rc_tr rc) ->
  let off := selector_index (rc_tr rc) * 8 in
  exists m', copy_gdt dummy rc m = (m', Z.min (rc_gdtr_limit rc + 1) sizeof_dummy_gdt) /\
    (forall a, ~ in_copy dummy a -> m' a = m a) /\
    descriptor_type (read64 m' (dummy + off)) = SEGMENT_DESCRIPTOR_TYPE_SYSTEM /\
    descriptor_segment_type (read64 m' (dummy + off)) = SEGMENT_DESCRIPTOR_TYPE_TSS_AVAILABLE /\
    descriptor_present (read64 m' (dummy + off)) = 1.
Proof.
  intros Hm [Hl Ht Hi Hs Hp] off. pose proof (selector_index_range (rc_tr rc)) as Hr.
  unfold copy_gdt. assert (u16 (selector_index (rc_tr rc) * 8) = off) as -> by (apply wrap_small; unfold off; lia).
  assert ((if rc_gdtr_limit rc + 1 <? sizeof_dummy_gdt then rc_gdtr_limit rc + 1 else sizeof_dummy_gdt) =
    Z.min (rc_gdtr_limit rc + 1) sizeof_dummy_gdt) as -> by (destruct (Z.ltb_spec (rc_gdtr_limit rc + 1) sizeof_dummy_gdt); lia).
  set (n := Z.min _ _) in *. fold off in Hi, Hs, Hp.
  destruct (Z.leb_spec (off + 16) n); [| lia].
  set (m1 := store m dummy _). assert (read64 m1 (dummy + off) = read64 m (rc_gdtr_base rc + off)) as E
    by (apply read64_copy; lia).
  set (d := set_bits _ 40 4 _). assert (is_u64 d) as Hd.
  { apply set_bits_u64; [| lia ..]. rewrite E. by apply read64_range. }
  exists (write64 m1 (dummy + off) d). split; [done |]. rewrite read64_write64_same by done. split; [| split; [| split]].
  - intros a Ha. unfold in_copy in Ha. rewrite write64_outside by lia. unfold m1. apply store_out.
    rewrite load_length. lia.
  - rewrite <- Hs. unfold d, descriptor_type. rewrite E. by rewrite bits_set_bits_other by lia.
  - unfold d, descriptor_segment_type. by rewrite bits_set_bits_same by lia.
  - rewrite <- Hp. unfold d, descriptor_present. rewrite E. by rewrite bits_set_bits_other by lia.
Qed.

Lemma readmsr_writemsr a v c b : readmsr (writemsr a v c) b = if decide (a = b) then v else readmsr c b.
Proof. unfold writemsr. cbn. unfold insert, fn_insert. by destruct (decide (a = b)). Qed.

Lemma write_tr_ok sel c :
  let off := selector_index sel * 8 in
  let d := read64 (virtual_memory c) (gdtr_base c + off) in
  0 < selector_index sel -> off + 16 <= gdtr_limit c + 1 ->
  descriptor_type d = SEGMENT_DESCRIPTOR_TYPE_SYSTEM ->
  descriptor_segment_type d = SEGMENT_DESCRIPTOR_TYPE_TSS_AVAILABLE -> descriptor_present d = 1 ->
  write_tr sel c = Ok (c <| read_tr := sel |>
    <| virtual_memory := write64 (virtual_memory c) (gdtr_base c + off) (set_bits d 40 4 SEGMENT_DESCRIPTOR_TYPE_TSS_BUSY) |>).
Proof.
  intros off d Ht Hl Hs Hy Hp. unfold write_tr. fold off d. rewrite Hs, Hy, Hp.
  destruct (Z.eqb_spec (selector_index sel) 0), (Z.ltb_spec (gdtr_limit c) (off + 15)); try lia. reflexivity.
Qed.

(** The selectors can be loaded with the table they were captured with. *)
Definition loadable (rc : restore_context) (m : mem) : Prop :=
  forall c, gdtr_base c = rc_gdtr_base rc -> gdtr_limit c = rc_gdtr_limit rc ->
    (forall a, rc_gdtr_base rc <= a <= rc_gdtr_base rc + rc_gdtr_limit rc -> virtual_memory c a = m a) ->
    forall sel, In sel [rc_ds rc; rc_es rc; rc_fs rc; rc_gs rc] -> segment_faults c sel = false.

(** The registers after [devirtualize]; [b1] and [b2] are the bases that loading the
    selectors puts in between. *)
Definition writes_of (rc : restore_context) (b1 b2 : Z) (f : Z -> Z) : Z -> Z :=
  <[IA32_KERNEL_GS_BASE := rc_kernel_gs_base rc]> (<[IA32_GS_BASE := rc_gs_base rc]>
  (<[IA32_FS_BASE := rc_fs_base rc]> (<[IA32_GS_BASE := b2]> (<[IA32_FS_BASE := b1]>
  (<[IA32_SYSENTER_EIP := rc_sysenter_eip rc]> (<[IA32_SYSENTER_ESP := rc_sysenter_esp rc]>
  (<[IA32_SYSENTER_CS := rc_sysenter_cs rc]> (<[IA32_EFER := rc_efer rc]> (<[IA32_PAT := rc_pat rc]> f))))))))).

Lemma writes_of_ok c0 b1 b2 f :
  (forall msr, In msr restored_msrs -> writes_of (capture c0) b1 b2 f msr = readmsr c0 msr) /\
  (forall msr, ~ In msr restored_msrs -> writes_of (capture c0) b1 b2 f msr = f msr).
Proof.
  unfold writes_of, insert, fn_insert. split; intros msr Hin.
  - pose proof msrs_distinct as Hd. unfold restored_msrs in Hd.
    repeat match type of Hd with
           | NoDup (_ :: _) => let H := fresh "Hne" in apply list.NoDup_cons in Hd as [H Hd]; rewrite ?not_elem_of_cons in H
           end.
    destruct_and?. cbn [In] in Hin.
    repeat (destruct Hin as [<- | Hin]; [repeat case_decide; first [reflexivity | congruence] |]). destruct Hin.
  - repeat match goal with
           | |- context [decide (?a = msr)] =>
               destruct (decide (a = msr)) as [<- | _]; [exfalso; apply Hin; unfold restored_msrs; cbn [In]; tauto |]
           end. reflexivity.
Qed.

(** (C12) A core that failed in VMX root operation, whatever its host state is by then,
    gets back what was captured when it was virtualised: the address space, the
    descriptor tables, the task register, the data segments, and the model-specific
    registers, among them the bases of FS and GS, which loading the selectors has
    overwritten. It does not fault, and changes no memory but the copy of the GDT. *)
Theorem devirtualize_restores c0 c dummy
    (Hmem : mem_ok (virtual_memory c))
    (Hgdt : usable_gdt (virtual_memory c) (gdtr_base c0) (gdtr_limit c0) (read_tr c0))
    (Hapart : apart dummy (gdtr_base c0) (gdtr_limit c0))
    (Hload : loadable (capture c0) (virtual_memory c)) :
  exists c', devirtualize dummy (capture c0) c = Ok c' /\
    readcr3 c' = readcr3 c0 /\
    gdtr_base c' = gdtr_base c0 /\ gdtr_limit c' = gdtr_limit c0 /\
    idtr_base c' = idtr_base c0 /\ idtr_limit c' = idtr_limit c0 /\
    read_tr c' = read_tr c0 /\ read_ds c' = read_ds c0 /\ read_es c' = read_es c0 /\
    read_fs c' = read_fs c0 /\ read_gs c' = read_gs c0 /\
    (forall msr, In msr restored_msrs -> readmsr c' msr = readmsr c0 msr) /\
    (forall msr, ~ In msr restored_msrs -> readmsr c' msr = readmsr c msr) /\
    (forall a, ~ in_copy dummy a -> virtual_memory c' a = virtual_memory c a).
Proof.
  set (rc := capture c0) in *. unfold devirtualize.
  set (c1 := lidt _ _ _). change (virtual_memory c1) with (virtual_memory c).
  destruct (copy_gdt_ok dummy rc (virtual_memory c) Hmem Hgdt) as (m' & -> & Hout & Hs & Hy & Hp).
  destruct Hgdt as [Hl Ht Hi _ _]. change (gdtr_limit c0) with (rc_gdtr_limit rc) in *.
  set (n := Z.min _ _) in *. assert (0 < n <= sizeof_dummy_gdt) as Hn by (unfold n, sizeof_dummy_gdt in *; lia).
  assert (u16 (n - 1) = n - 1) as -> by (apply wrap_small; unfold sizeof_dummy_gdt in Hn; lia).
  rewrite write_tr_ok; [| exact Ht | change (selector_index (read_tr c0) * 8 + 16 <= n - 1 + 1); lia | exact Hs | exact Hy | exact Hp].
  cbn [obind]. set (m2 := write64 _ _ _). set (c2 := lgdt (rc_gdtr_base rc) _ _).
  assert (forall a, ~ in_copy dummy a -> m2 a = virtual_memory c a) as Hm2.
  { intros a Ha. rewrite <- Hout by done. apply write64_outside. unfold in_copy in Ha.
    change (a < dummy + selector_index (read_tr c0) * 8 \/ dummy + selector_index (read_tr c0) * 8 + 8 <= a). lia. }
  assert (forall sel c3, In sel [rc_ds rc; rc_es rc; rc_fs rc; rc_gs rc] -> virtual_memory c3 = m2 ->
    gdtr_base c3 = rc_gdtr_base rc -> gdtr_limit c3 = rc_gdtr_limit rc -> segment_faults c3 sel = false) as Hf.
  { intros sel c3 Hin E Eb El. apply (Hload c3 Eb El); [| exact Hin]. intros a Ha. rewrite E. apply Hm2.
    destruct Hapart as [H | H]; unfold in_copy; [| change (gdtr_limit c0) with (rc_gdtr_limit rc) in H];
    change (gdtr_base c0) with (rc_gdtr_base rc) in H; lia. }
  unfold write_ds at 1. rewrite Hf by (reflexivity || (cbn; tauto)). cbn [obind].
  unfold write_es at 1. rewrite Hf by (reflexivity || (cbn; tauto)). cbn [obind].
  unfold write_fs at 1. rewrite Hf by (reflexivity || (cbn; tauto)). cbn [obind].
  unfold write_gs at 1. rewrite Hf by (reflexivity || (cbn; tauto)). cbn [obind].
  eexists. split; [reflexivity |]. do 10 (split; [reflexivity |]).
  match goal with |- context [readmsr ?x _] =>
    assert (exists b1 b2, readmsr x = writes_of rc b1 b2 (readmsr c)) as (b1 & b2 & ->) by (eexists _, _; reflexivity)
  end.
  destruct (writes_of_ok c0 b1 b2 (readmsr c)) as [Hr1 Hr2].
  split; [exact Hr1 |]. split; [exact Hr2 | exact Hm2].
Qed.
End restore.

(** ** The exit overhead: [stealth.cpp] *)

(** A measured exit: the time before it, the time the processor stored on it, and
    how long the entry took. *)
Record sample := mk_sample { pre_exit_tsc : Z; stored : Z; vmentry_time : Z }.

Definition smaller (x min : Z) : Z := if (x <? min) || (min =? 0) then x else min.
Definition bench_loop (samples : list sample) : Z * Z :=
  fold_left (fun '(min_vmexit_to_store_overhead, min_vmentry_overhead) s =>
    (smaller (stored s -64 pre_exit_tsc s) min_vmexit_to_store_overhead,
     smaller (vmentry_time s) min_vmentry_overhead)) samples (0, 0).

(** [bench_tsc_overhead]; the iterations that warm up have no effect. *)
Definition bench_tsc_overhead (samples : list sample) (d : stealth_data) : stealth_data :=
  let '(vmexit, vmentry) := bench_loop samples in
  d <| stealth_tsc := (stealth_tsc d) <| vmexit_to_store_overhead := vmexit |> <| vmentry_overhead := vmentry |> |>
    <| bench_completed := true |>.

(** ** Virtualising a core *)

(** What a core and its environment answer while it is being virtualised: [vmxon]
    and [vmptrld] for the revision of their region, [vmlaunch] for the current VMCS,
    with the flags of a failure, and the measured exits. *)
Record launch_env := mk_launch_env {
  cpuid_1_ecx : Z;
  vmx_vmxon : Z -> bool;
  vmx_vmclear : bool;
  vmx_vmptrld : Z -> bool;
  vmlaunch : vmcs -> option Z;
  va_ist1_nmi : Z; va_ist2_df : Z; va_ist3_mc : Z;
  isr_handlers : Z -> Z;
  successful_launch : Z; launch_rsp : Z;
  bench_samples : list sample
}.

(** A core: the processor, whether it is in VMX operation and runs the guest, and the
    members of its [vcpu]. *)
Record core_state := mk_core_state {
  proc : cpu_state;
  in_vmx_operation : bool;
  launched : bool;
  this : vcpu;
  restore : restore_context;
  host_tss : task_state_segment;
  host_idt : Z -> interrupt_gate
}.
#[export] Instance eta_core_state : Eta core_state := fun s =>
  mk_core_state (proc s) (in_vmx_operation s) (launched s) (this s) (restore s) (host_tss s) (host_idt s).

(** [vcpu::ist_size]. *)
Definition ist_size : Z := 0x4000.

(** Why [launch_vm] failed, from the flags. *)
Inductive launch_error := vmfail_invalid | vmfail_valid | invalid_flags.
Definition decode_rflags (f : Z) : launch_error :=
  let CF := get_bit f 0 in let PF := get_bit f 2 in let AF := get_bit f 4 in
  let ZF := get_bit f 6 in let SF := get_bit f 7 in let OF := get_bit f 11 in
  if CF && negb PF && negb AF && negb ZF && negb SF && negb OF then vmfail_invalid
  else if negb CF && negb PF && negb AF && ZF && negb SF && negb OF then vmfail_valid
  else invalid_flags.

Section virtualize.
Context {ia32 : Ia32} {mtrr_layout : MtrrLayout}.
Variable supported : vmcs_field -> bool.
Variable addr : addresses.
Variable system_cr3 : Z.
Variable env : launch_env.

Definition vmcs_revision_id (c : cpu_state) : Z := bits (readmsr c IA32_VMX_BASIC) 0 31.

Definition enter_vmx_operation (s : core_state) : core_state * bool :=
  if vmx_vmxon env (vmcs_revision_id (proc s)) then
    (s <| in_vmx_operation := true |>
       <| this := (this s) <| tsc_preemption_relation_bit := bits (readmsr (proc s) IA32_VMX_MISC) 0 5 |> |>, true)
  else (s, false).

Definition load_vmcs (s : core_state) : bool :=
  vmx_vmclear env && vmx_vmptrld env (vmcs_revision_id (proc s)).

(** [launch_vm] with [vmx_vmlaunch_stub], which writes RIP and RSP first. *)
Definition launch_vm (v : vcpu) : vcpu * (unit + launch_error) :=
  let v := with_vmcs v (fun m => vmwrite supported m VMCS_GUEST_RIP (successful_launch env)) in
  let v := with_vmcs v (fun m => vmwrite supported m VMCS_GUEST_RSP (launch_rsp env)) in
  (v, match vmlaunch env (vcpu_vmcs v) with None => inl tt | Some flags => inr (decode_rflags flags) end).

(** Writing CR4 and CR0. *)
Definition enabled (c : cpu_state) : cpu_state :=
  let '(cr0, cr4) := enable_vmx c in c <| readcr4 := cr4 |> <| readcr0 := cr0 |>.

(** The tables of the host. *)
Definition host_tables (s : core_state) : core_state :=
  s <| proc := (proc s) <| virtual_memory :=
         initialize_gdt (virtual_memory (proc s)) (va_host_gdt addr) (va_host_tss addr) |> |>
    <| host_tss := initialize_tss (va_ist1_nmi env) (va_ist2_df env) (va_ist3_mc env) ist_size |>
    <| host_idt := initialize_idt (isr_handlers env) |>.

(** [virtualize]. *)
Definition virtualize (s : core_state) : core_state * bool :=
  if negb (check_vmx_support (proc s) (cpuid_1_ecx env)) then (s, false) else
  let s := s <| restore := capture (proc s) |> in
  let s := s <| proc := enabled (proc s) |> in
  match enter_vmx_operation s with
  | (s, false) => (s, false)
  | (s, true) =>
      let s := host_tables s in
      let s := s <| this := (this s) <| vcpu_mtrr := read_mtrrs (readmsr (proc s)) |>
                              <| stealth := prepare_msr_entries (proc s) |> |> in
      if negb (load_vmcs s) then (s, false) else
      match write_control_fields supported (proc s) addr system_cr3 (this s) with
      | (v, false) => (s <| this := v |>, false)
      | (v, true) =>
          match launch_vm v with
          | (v, inr _) => (s <| this := v |>, false)
          | (v, inl _) =>
              (s <| launched := true |>
                 <| this := v <| stealth := bench_tsc_overhead (bench_samples env) (stealth v) |> |>, true)
          end
      end
  end.

(** ** All cores: [hv.cpp] *)
End virtualize.

Section start.
Context {ia32 : Ia32} {mtrr_layout : MtrrLayout}.
Variable supported : vmcs_field -> bool.
(** The addresses and the environment of each core. *)
Variable addr : nat -> addresses.
Variable env : nat -> launch_env.
(** [KeQueryActiveProcessorCountEx]. *)
Variable processors : nat.
(** Whether [allocate_vcpus] and [map_host_page_tables] succeed. *)
Variables vcpus_allocated host_page_tables_mapped : bool.

(** One round of the loop of [start]. The value the function returns for a core that
    fails is not looked at, so the loop goes on. *)
Definition start_core (system_cr3 : Z) (st : (nat -> core_state) * bool) (i : nat) : (nat -> core_state) * bool :=
  let '(cores, success) := st in
  let s := cores i in
  let '(s, ok) := virtualize supported (addr i) system_cr3 (env i)
                    (s <| this := (this s) <| vcpu_core_id := Z.of_nat i |> |>) in
  (<[i := s]> cores, success && ok).

(** [start], on a thread that runs with the address space of the system. *)
Definition start (cores : nat -> core_state) : (nat -> core_state) * bool :=
  let system_cr3 := readcr3 (proc (cores 0%nat)) in
  if negb vcpus_allocated then (cores, false) else
  let cores := fun i => (cores i) <| this := zero_vcpu |> in
  if negb host_page_tables_mapped then (cores, false) else
  fold_left (start_core system_cr3) (seq 0 processors) (cores, true).
End start.

(** ** The driver: [main.cpp] *)

Inductive ntstatus := STATUS_SUCCESS | STATUS_UNSUCCESSFUL.
Definition nt_success (s : ntstatus) : bool := match s with STATUS_SUCCESS => true | STATUS_UNSUCCESSFUL => false end.

(** [thread_entry]: what it leaves in the status. *)
Definition thread_entry (started : bool) (status : ntstatus) : ntstatus :=
  let status := if negb started then STATUS_UNSUCCESSFUL else status in
  let status := STATUS_SUCCESS in
  status.

(** [DriverEntry]: its result, and whether it goes on to [hooks::initialize]. The
    arguments tell whether the serial port, the thread, the reference to it and the
    wait for it were had, and whether [start] succeeded on that thread. *)
Definition driver_entry (serial thread referenced waited started : bool) : ntstatus * bool :=
  if negb serial then (STATUS_UNSUCCESSFUL, false) else
  let status := STATUS_UNSUCCESSFUL in
  if negb thread then (STATUS_UNSUCCESSFUL, false) else
  let status := thread_entry started status in
  if negb referenced then (STATUS_UNSUCCESSFUL, false) else
  if negb waited then (STATUS_UNSUCCESSFUL, false) else
  if negb (nt_success status) then (STATUS_UNSUCCESSFUL, false) else
  (STATUS_SUCCESS, true).

(** ** Lemmas *)

Section lemmas.
Context {ia32 : Ia32} {mtrr_layout : MtrrLayout}.
Variable supported : vmcs_field -> bool.

Lemma on_vmcs_true f k v v' : on_vmcs f k v = (v', true) -> exists m, k (v <| vcpu_vmcs := m |>) = (v', true).
Proof. unfold on_vmcs. destruct (f _) as [m []]; [by exists m | done]. Qed.

Lemma with_ept_vmcs addr v m m' :
  (with_ept addr (v <| vcpu_vmcs := m |>)) <| vcpu_vmcs := m' |> = (with_ept addr v) <| vcpu_vmcs := m' |>.
Proof. destruct v. unfold with_ept. reduce_vcpu. reflexivity. Qed.

Lemma set_vmcs_twice (v : vcpu) m m' : (v <| vcpu_vmcs := m |>) <| vcpu_vmcs := m' |> = v <| vcpu_vmcs := m' |>.
Proof. by destruct v. Qed.

Lemma write_other_true cpu addr cr3 v v' :
  write_other_control_fields supported cpu addr cr3 v = (v', true) -> exists m, v' = (with_ept addr v) <| vcpu_vmcs := m |>.
Proof.
  unfold write_other_control_fields. cbv zeta. destruct (vmwrites _ _ _) as [m []]; [| done].
  destruct (vmwrites _ _ _) as [m2 []]; [| done].
  destruct (vmx_vmwrite _ _ _ _) as [m3 ok]. intros [= <- ->]. exists m3. by destruct v.
Qed.

(** A VMCS that is filled in: the extended page tables are the initial ones. *)
Lemma write_control_fields_true cpu addr cr3 v v' :
  write_control_fields supported cpu addr cr3 v = (v', true) -> exists m, v' = (with_ept addr v) <| vcpu_vmcs := m |>.
Proof.
  unfold write_control_fields. intros E. do 4 (apply on_vmcs_true in E as [? E]).
  destruct (write_other_control_fields _ _ _ _ _) as [v1 []] eqn:E1; [| done].
  apply write_other_true in E1 as [m1 ->]. do 2 (apply on_vmcs_true in E as [? E]).
  injection E as <-. eexists. by rewrite !set_vmcs_twice, !with_ept_vmcs.
Qed.

(** A core that [virtualize] reports as virtualised. *)
Record virtualized_core (addr : addresses) (s s' : core_state) : Prop := {
  virtualized_launched : launched s' = true;
  virtualized_vmx : in_vmx_operation s' = true;
  virtualized_restore : restore s' = capture (proc s);
  virtualized_normal : ept_pages_normal (this s') =
    initialize_ept (pfn_of_split_pt addr true) (pfn_of_pd addr true) (pfn_of_pdpt addr true) (vcpu_mtrr (this s'));
  virtualized_target : ept_pages_target (this s') =
    initialize_ept (pfn_of_split_pt addr false) (pfn_of_pd addr false) (pfn_of_pdpt addr false) (vcpu_mtrr (this s'));
  virtualized_in_normal : in_normal_execution (this s') = true;
  virtualized_mtrr : vcpu_mtrr (this s') = read_mtrrs (readmsr (proc s));
  virtualized_transitions : transitions (this s') = transitions (this s);
  virtualized_exception : exn_info (this s') = exn_info (this s);
  virtualized_trace : trace_buffer (this s') = trace_buffer (this s);
  virtualized_nmis : queued_nmi_count (this s') = queued_nmi_count (this s);
  virtualized_id : vcpu_core_id (this s') = vcpu_core_id (this s);
  virtualized_buffer : hypercall_local_buffer (this s') = hypercall_local_buffer (this s);
  virtualized_eptps : eptp_normal_execution (this s') = make_eptp (pa_ept_normal_pml4e addr) /\
    eptp_target_execution (this s') = make_eptp (pa_ept_target_pml4e addr)
}.

Lemma virtualize_true addr cr3 env s s' :
  virtualize supported addr cr3 env s = (s', true) -> virtualized_core addr s s'.
Proof.
  unfold virtualize. destruct (negb (check_vmx_support _ _)); [done |]. cbv zeta.
  unfold enter_vmx_operation. destruct (vmx_vmxon _ _); [| done]. destruct (negb (load_vmcs _ _)); [done |].
  destruct (write_control_fields _ _ _ _ _) as [v []] eqn:E; [| done].
  apply write_control_fields_true in E as [m ->]. unfold launch_vm, with_vmcs. rewrite !set_vmcs_twice.
  destruct (vmlaunch _ _); [done |]. intros [= <-]. destruct s as [p x l v r t d], v. by split.
Qed.

(** The rounds of the loop: a core that has had its turn stays as it is. *)
Section rounds.
Variable addr : nat -> addresses.
Variable env : nat -> launch_env.
Variable cr3 : Z.

Definition with_id (i : nat) (s : core_state) : core_state := s <| this := (this s) <| vcpu_core_id := Z.of_nat i |> |>.

Lemma start_rounds cores l c' :
  NoDup l -> fold_left (start_core supported addr env cr3) l (cores, true) = (c', true) ->
  (forall i, In i l -> virtualize supported (addr i) cr3 (env i) (with_id i (cores i)) = (c' i, true)) /\
  (forall i, ~ In i l -> c' i = cores i).
Proof.
  assert (forall l st c', fold_left (start_core supported addr env cr3) l st = (c', true) -> snd st = true) as Hsuc.
  { clear. induction l as [| i l IH]; intros [cores b] c' E; cbn [fold_left] in E; [by injection E |].
    apply IH in E. unfold start_core in E. destruct (virtualize _ _ _ _ _) as [s ok]. cbn in E. by destruct b. }
  revert cores. induction l as [| i l IH]; intros cores Hl E; cbn [fold_left] in E.
  { injection E as <-. split; [done | done]. }
  apply list.NoDup_cons in Hl as [Hi Hl]. rewrite list_elem_of_In in Hi.
  pose proof (Hsuc _ _ _ E) as Hok. unfold start_core in E, Hok. fold (with_id i (cores i)) in *.
  destruct (virtualize _ _ _ _ _) as [s ok] eqn:Ev. cbn [snd andb] in Hok. subst ok.
  destruct (IH _ Hl E) as [H1 H2]. unfold insert, fn_insert in H1, H2. split.
  - intros j [<- | Hj].
    + rewrite H2 by done. by destruct (decide (i = i)).
    + specialize (H1 j Hj). destruct (decide (i = j)) as [<- | _]; [done | exact H1].
  - intros j Hj. rewrite H2 by (intros H; apply Hj; by right).
    destruct (decide (i = j)) as [<- | _]; [exfalso; apply Hj; by left | done].
Qed.
End rounds.

(** Each core of a successful start has been virtualised, from a fresh [vcpu]. *)
Definition fresh (i : nat) (s : core_state) : core_state := with_id i (s <| this := zero_vcpu |>).

Lemma start_virtualizes addr env n pool maps cores cores' :
  start supported addr env n pool maps cores = (cores', true) ->
  forall i, (i < n)%nat -> virtualize supported (addr i) (readcr3 (proc (cores 0%nat))) (env i) (fresh i (cores i)) = (cores' i, true).
Proof.
  unfold start. destruct pool; [| done]. destruct maps; [| done]. cbn [negb]. intros E i Hi.
  apply start_rounds in E as [H _]; [| apply NoDup_seq]. apply H. apply in_seq. lia.
Qed.

Lemma start_true addr env n pool maps cores cores' :
  start supported addr env n pool maps cores = (cores', true) ->
  forall i, (i < n)%nat -> virtualized_core (addr i) (fresh i (cores i)) (cores' i).
Proof. intros E i Hi. by apply (virtualize_true _ _ _ _ _ (start_virtualizes _ _ _ _ _ _ _ E i Hi)). Qed.
End lemmas.

(** ** Properties *)

Section properties.
Context {ia32 : Ia32} {mtrr_layout : MtrrLayout} `{!Ia32Ok ia32}.
Variable supported : vmcs_field -> bool.

(** The frames of the split page tables of a core are frames, and no two are the same. *)
Definition frames_ok (pfn : Z -> Z) : Prop :=
  (forall s, 0 <= s < ept_split_pte_count -> to_pfn (pfn s) = pfn s) /\
  (forall s s', 0 <= s < ept_split_pte_count -> 0 <= s' < ept_split_pte_count -> pfn s = pfn s' -> s = s').

(** A core as the handlers of exits expect to find it. *)
Record ready_core (i : nat) (s : core_state) : Prop := {
  ready_launched : launched s = true;
  ready_normal : ept_inv (ept_pages_normal (this s)) /\ hooks (ept_pages_normal (this s)) = [];
  ready_target : ept_inv (ept_pages_target (this s)) /\ hooks (ept_pages_target (this s)) = [];
  ready_execution : in_normal_execution (this s) = true;
  ready_transitions : table_wf (transitions (this s)) /\ table_models (transitions (this s)) ∅;
  ready_exception : exception_occurred (exn_info (this s)) = false;
  ready_nmis : queued_nmi_count (this s) = 0;
  ready_trace : active (trace_buffer (this s)) = 0;
  ready_id : vcpu_core_id (this s) = Z.of_nat i
}.

Lemma virtualized_ready i addr s s' :
  virtualized_core addr s s' -> this s = zero_vcpu <| vcpu_core_id := Z.of_nat i |> ->
  (forall normal, frames_ok (pfn_of_split_pt addr normal)) -> ready_core i s'.
Proof.
  intros [Hl _ _ Hn Ht Hin _ Htr He Hb Hq Hid] Hz Hf. rewrite Hz in *.
  destruct (Hf true) as [Hn1 Hn2], (Hf false) as [Ht1 Ht2].
  split; try (done || (rewrite ?Htr, ?He, ?Hb, ?Hq, ?Hid; reflexivity)).
  - rewrite Hn. destruct (initialize_ept_ok _ (pfn_of_pd addr true) (pfn_of_pdpt addr true) (vcpu_mtrr (this s')) Hn1 Hn2)
      as (H1 & H2 & _). by split.
  - rewrite Ht. destruct (initialize_ept_ok _ (pfn_of_pd addr false) (pfn_of_pdpt addr false) (vcpu_mtrr (this s')) Ht1 Ht2)
      as (H1 & H2 & _). by split.
  - rewrite Htr. exact empty_table_wf.
Qed.

(** (C11) When the start of the hypervisor is reported as a success, every core runs as a
    guest with the state the handlers rely on: both page tables map every frame to
    itself without hooks and the normal one is in use, no address has a configuration
    of its own, no exception and no NMI is pending, and nothing is traced. *)
Theorem start_makes_cores_ready addr env n pool maps cores cores'
    (Hframes : forall i normal, (i < n)%nat -> frames_ok (pfn_of_split_pt (addr i) normal))
    (Hstart : start supported addr env n pool maps cores = (cores', true)) i (Hi : (i < n)%nat) :
  ready_core i (cores' i) /\ restore (cores' i) = capture (proc (cores i)).
Proof.
  pose proof (start_true supported addr env n pool maps cores cores' Hstart i Hi) as H. split.
  - apply (virtualized_ready i (addr i) _ _ H); [done |]. intros normal. by apply Hframes.
  - by rewrite (virtualized_restore _ _ _ H).
Qed.

(** The status the driver reports does not depend on whether the hypervisor started:
    once the thread has run, a failed start is reported as a success, and the hooks
    are installed after it. *)
Theorem failed_start_reported_as_success serial thread referenced waited started :
  driver_entry serial thread referenced waited started =
    if serial && thread && referenced && waited then (STATUS_SUCCESS, true) else (STATUS_UNSUCCESSFUL, false).
Proof. by destruct serial, thread, referenced, waited, started. Qed.

(** *** The launch *)

(** A processor that can be virtualised. *)
Record capable (addr : addresses) (cr3 : Z) (env : launch_env) (c : cpu_state) : Prop := {
  capable_vmx : check_vmx_support c (cpuid_1_ecx env) = true;
  capable_fields : forall f, supported f = true;
  capable_vmxon : vmx_vmxon env (vmcs_revision_id c) = true;
  capable_vmclear : vmx_vmclear env = true;
  capable_vmptrld : vmx_vmptrld env (vmcs_revision_id c) = true;
  capable_timer : Z.testbit (pin_based_controls c) activate_vmx_preemption_timer_bit = true;
  capable_launch : forall m, vmlaunch env m = None;
  capable_cr0 : is_u64 (readcr0 (enabled c)) /\ is_u64 (cr0_guest_host_mask c);
  capable_cr4 : is_u64 (readcr4 (enabled c)) /\ is_u64 (cr4_guest_host_mask c)
}.

(** The stub writes two fields and no other. *)
Lemma launch_vm_fields env v f :
  VMCS_GUEST_RIP <> f -> VMCS_GUEST_RSP <> f ->
  vmx_vmread supported (vcpu_vmcs (fst (launch_vm supported env v))) f = vmx_vmread supported (vcpu_vmcs v) f.
Proof.
  intros H1 H2. destruct v. unfold launch_vm, with_vmcs. cbn [fst]. reduce_vcpu.
  by rewrite !vmread_vmwrite_other by done.
Qed.

Lemma virtualize_launches_ok addr cr3 env s (Hc : capable addr cr3 env (proc s)) :
  exists s', virtualize supported addr cr3 env s = (s', true) /\
    let get f := vmx_vmread supported (vcpu_vmcs (this s')) f in
    launched s' = true /\ restore s' = capture (proc s) /\
    (forall f x, In (f, x) (guest_state (proc s')) -> VMCS_GUEST_RIP <> f -> VMCS_GUEST_RSP <> f -> get f = u64 x) /\
    get VMCS_GUEST_RIP = u64 (successful_launch env) /\ get VMCS_GUEST_RSP = u64 (launch_rsp env) /\
    (readcr0 (proc s'), readcr4 (proc s')) = enable_vmx (proc s) /\
    get_effective_guest_cr0 supported (vcpu_vmcs (this s')) = readcr0 (proc s') /\
    get_effective_guest_cr4 supported (vcpu_vmcs (this s')) = Z.land (readcr4 (proc s')) (not64 CR4_VMX_ENABLE_FLAG) /\
    get VMCS_CTRL_EPT_POINTER = u64 (eptp_normal_execution (this s')).
Proof.
  destruct Hc as [Hvmx Hall Hon Hcl Hld Ht Hl [H0 Hm0] [H4 Hm4]].
  unfold virtualize. rewrite Hvmx. cbn [negb]. cbv zeta. unfold enter_vmx_operation.
  change (vmcs_revision_id (proc _)) with (vmcs_revision_id (proc s)). rewrite Hon.
  unfold load_vmcs. change (vmcs_revision_id (proc _)) with (vmcs_revision_id (proc s)). rewrite Hcl, Hld. cbn [andb negb].
  set (s1 := _ <| this := _ |>). set (c := proc s1).
  destruct (write_control_fields_all supported c addr cr3 Hall Ht (this s1) H0 H4 Hm0 Hm4)
    as (v & -> & Hg & _ & _ & E0 & E4 & Ee & _).
  destruct (launch_vm supported env v) as [v' r] eqn:Ev.
  assert (r = inl tt) as -> by (unfold launch_vm in Ev; rewrite Hl in Ev; by injection Ev).
  assert (forall f, VMCS_GUEST_RIP <> f -> VMCS_GUEST_RSP <> f ->
    vmx_vmread supported (vcpu_vmcs v') f = vmx_vmread supported (vcpu_vmcs v) f) as Hv.
  { intros f H1 H2. pose proof (launch_vm_fields env v f H1 H2) as H. by rewrite Ev in H. }
  eexists. split; [reflexivity |]. cbv zeta. split; [reflexivity |]. split; [reflexivity |].
  split; [| split; [| split; [| split; [| split; [| split]]]]].
  - intros f x Hin H1 H2.
    change (vmx_vmread supported (vcpu_vmcs v') f = u64 x). rewrite Hv by done. by apply Hg.
  - assert (vmx_vmread supported (vcpu_vmcs v') VMCS_GUEST_RIP = u64 (successful_launch env)) as E; [| exact E].
    unfold launch_vm, with_vmcs in Ev. injection Ev as <- _. destruct v. reduce_vcpu. rewrite vmread_vmwrite_other by done. by apply vmread_vmwrite_same.
  - assert (vmx_vmread supported (vcpu_vmcs v') VMCS_GUEST_RSP = u64 (launch_rsp env)) as E; [| exact E].
    unfold launch_vm, with_vmcs in Ev. injection Ev as <- _. destruct v. reduce_vcpu. by apply vmread_vmwrite_same.
  - reflexivity.
  - change (get_effective_guest_cr0 supported (vcpu_vmcs v') = readcr0 c). rewrite <- E0.
    unfold get_effective_guest_cr0. by rewrite !Hv by done.
  - change (get_effective_guest_cr4 supported (vcpu_vmcs v') = Z.land (readcr4 c) (not64 CR4_VMX_ENABLE_FLAG)).
    rewrite <- E4. unfold get_effective_guest_cr4. by rewrite !Hv by done.
  - change (vmx_vmread supported (vcpu_vmcs v') VMCS_CTRL_EPT_POINTER = u64 (eptp_normal_execution v')).
    rewrite Hv, Ee by done. unfold launch_vm, with_vmcs in Ev. injection Ev as <- _. by destruct v.
Qed.

(** The EPT pointer of the VMCS is the one the core remembers. *)
Lemma make_eptp_u64 pa : is_u64 (make_eptp pa).
Proof.
  pose proof pfn_width_ok. unfold make_eptp. apply set_bits_u64; [| lia ..]. apply set_bits_u64; [| lia ..].
  apply set_bits_u64; [vm_compute; intuition discriminate | lia ..].
Qed.

Lemma virtualized_eptp addr cr3 env s s' :
  capable addr cr3 env (proc s) -> virtualize supported addr cr3 env s = (s', true) ->
  vmx_vmread supported (vcpu_vmcs (this s')) VMCS_CTRL_EPT_POINTER = eptp_normal_execution (this s').
Proof.
  intros Hc E. destruct (virtualize_launches_ok addr cr3 env s Hc) as (s2 & E2 & H). rewrite E in E2. injection E2 as <-.
  destruct H as (_ & _ & _ & _ & _ & _ & _ & _ & ->).
  destruct (virtualized_eptps _ _ _ (virtualize_true _ _ _ _ _ _ E)) as [-> _]. by apply wrap_small, make_eptp_u64.
Qed.


(** On capable processors the hypervisor starts. *)
Lemma start_rounds_succeed addr env cr3 l cores :
  NoDup l -> (forall i, In i l -> capable (addr i) cr3 (env i) (proc (cores i))) ->
  exists c', fold_left (start_core supported addr env cr3) l (cores, true) = (c', true).
Proof.
  revert cores. induction l as [| i l IH]; intros cores Hl Hc; [by exists cores |].
  apply list.NoDup_cons in Hl as [Hi Hl]. rewrite list_elem_of_In in Hi. cbn [fold_left]. unfold start_core at 2.
  fold (with_id i (cores i)).
  destruct (virtualize_launches_ok (addr i) cr3 (env i) (with_id i (cores i))) as (s & -> & _); [apply Hc; by left |].
  cbn [andb]. apply IH; [done |]. intros j Hj. unfold insert, fn_insert.
  destruct (decide (i = j)) as [-> | _]; [done |]. apply Hc. by right.
Qed.

Lemma start_succeeds addr env n cores :
  (forall i, (i < n)%nat -> capable (addr i) (readcr3 (proc (cores 0%nat))) (env i) (proc (cores i))) ->
  exists c', start supported addr env n true true cores = (c', true).
Proof.
  intros Hc. unfold start. cbn [negb]. apply start_rounds_succeed; [apply NoDup_seq |].
  intros i Hi%in_seq. apply Hc. lia.
Qed.
End properties.

(** The registers of a core that has been virtualised, but for CR0 and CR4. *)
Lemma virtualize_proc supported addr cr3 env s s' :
  virtualize supported addr cr3 env s = (s', true) ->
  readcr3 (proc s') = readcr3 (proc s) /\ readmsr (proc s') = readmsr (proc s).
Proof.
  unfold virtualize. destruct (negb (check_vmx_support _ _)); [done |]. cbv zeta.
  unfold enter_vmx_operation. destruct (vmx_vmxon _ _); [| done]. destruct (negb (load_vmcs _ _)); [done |].
  destruct (write_control_fields _ _ _ _ _) as [v []]; [| done].
  destruct (launch_vm _ _ _) as [v' []]; [| done]. by intros [= <-].
Qed.

(** *** The measurement *)

Lemma smaller_spec x m : 0 < x -> 0 <= m -> smaller x m = if m =? 0 then x else Z.min x m.
Proof.
  intros Hx Hm. unfold smaller. destruct (Z.ltb_spec x m), (Z.eqb_spec m 0); cbn [orb]; lia.
Qed.

(** The least of a list of numbers, none of them below one. *)
Lemma smaller_fold l m :
  Forall (fun x => 0 < x) l -> 0 <= m -> (m = 0 -> l <> []) ->
  let r := fold_left (fun m x => smaller x m) l m in
  (In r l \/ 0 < m /\ r = m) /\ Forall (fun x => r <= x) l /\ (0 < m -> r <= m) /\ 0 < r.
Proof.
  intros Hl. revert m. cbv zeta. induction Hl as [| x l Hx Hl IH]; intros m Hm Hne; cbn [fold_left].
  - assert (m <> 0) by (intros E; by apply Hne). split; [right; lia |]. split; [constructor | lia].
  - pose proof (smaller_spec x m Hx Hm) as E. assert (0 < smaller x m) as Hp by (rewrite E; destruct (Z.eqb_spec m 0); lia).
    destruct (IH (smaller x m) ltac:(lia) ltac:(lia)) as (H1 & H2 & H3 & H4). specialize (H3 Hp).
    set (r := fold_left _ l (smaller x m)) in *. clearbody r. split; [| split].
    + destruct H1 as [H1 | [_ ->]]; [left; by right |]. rewrite E. destruct (Z.eqb_spec m 0) as [-> | Hn]; [left; by left |].
      destruct (Z.min_spec x m) as [[_ ->] | [_ ->]]; [left; by left | right; lia].
    + constructor; [| done]. rewrite E in H3. destruct (Z.eqb_spec m 0); lia.
    + split; [| done]. intros H. rewrite E in H3. destruct (Z.eqb_spec m 0); lia.
Qed.

Lemma bench_loop_parts samples a b :
  fold_left (fun '(x, y) s => (smaller (stored s -64 pre_exit_tsc s) x, smaller (vmentry_time s) y)) samples (a, b) =
  (fold_left (fun m x => smaller x m) (map (fun s => stored s -64 pre_exit_tsc s) samples) a,
   fold_left (fun m x => smaller x m) (map vmentry_time samples) b).
Proof. revert a b. induction samples as [| s l IH]; intros a b; [done |]. apply IH. Qed.

(** The measurement keeps the least overhead of an exit and of an entry over all
    iterations, as long as none of them is zero, which stands for no measurement. *)
Theorem bench_takes_minimum samples d
    (Hne : samples <> [])
    (Hpos : Forall (fun s => 0 < stored s -64 pre_exit_tsc s /\ 0 < vmentry_time s) samples) :
  let t := stealth_tsc (bench_tsc_overhead samples d) in
  In (vmexit_to_store_overhead t) (map (fun s => stored s -64 pre_exit_tsc s) samples) /\
  In (vmentry_overhead t) (map vmentry_time samples) /\
  Forall (fun s => vmexit_to_store_overhead t <= stored s -64 pre_exit_tsc s /\ vmentry_overhead t <= vmentry_time s) samples.
Proof.
  unfold bench_tsc_overhead, bench_loop. rewrite bench_loop_parts. cbv zeta.
  assert (forall f : sample -> Z, map f samples <> []) as Hm by (intros f H; by apply map_eq_nil in H).
  destruct (smaller_fold (map (fun s => stored s -64 pre_exit_tsc s) samples) 0) as (H1 & H2 & _);
    [apply Forall_map; eapply Forall_impl; [| exact Hpos]; by intros s [] | lia | by intros _ |].
  destruct (smaller_fold (map vmentry_time samples) 0) as (H3 & H4 & _);
    [apply Forall_map; eapply Forall_impl; [| exact Hpos]; by intros s [] | lia | by intros _ |].
  split; [by destruct H1 as [| [? _]]; [| lia] |]. split; [by destruct H3 as [| [? _]]; [| lia] |].
  rewrite List.Forall_forall in H2, H4. apply List.Forall_forall. intros s Hin.
  split; [apply H2 | apply H4]; apply in_map_iff; by exists s.
Qed.

(** *** Examples *)

(** A processor with its TSS in entry 8 of a table at 5000H, and one that allows VMX. *)
Definition gdt_memory : mem := write64 (fun _ => 0) 0x5040 (set_bits (set_bits 0 47 1 1) 40 4 SEGMENT_DESCRIPTOR_TYPE_TSS_BUSY).
Definition running_cpu : cpu_state :=
  sample_cpu <| virtual_memory := gdt_memory |>
    <| readmsr := fun a => if a =? 0xC0000101 then 0xFFFFF80000000000 else if a =? 0x277 then 0x7040600070406 else 0 |>.
(** The same processor as a host that failed: another address space and other tables. *)
Definition failed_cpu : cpu_state :=
  running_cpu <| readcr3 := 0x7000 |> <| gdtr_base := 0x40000 |> <| read_tr := 0x18 |> <| readmsr := fun _ => 1 |>.

Lemma devirtualize_restores_witness :
  exists c', devirtualize (fun _ _ => false) (fun _ _ => 0xBAD) 0x10000 (capture running_cpu) failed_cpu = Ok c' /\
    readcr3 c' = 0x1AB000 /\ read_tr c' = 0x40 /\ readmsr c' IA32_GS_BASE = 0xFFFFF80000000000 /\
    readmsr c' IA32_DEBUGCTL = 1.
Proof.
  destruct (devirtualize_restores (fun _ _ => false) (fun _ _ => 0xBAD)) with (c0 := running_cpu) (c := failed_cpu) (dummy := 0x10000)
    as (c' & E & E3 & _ & _ & _ & _ & Et & _ & _ & _ & _ & Hm & Ho & _).
  - unfold restored_msrs. repeat (apply list.NoDup_cons; split; [rewrite list_elem_of_In; intros H; vm_compute in H; intuition discriminate |]).
    apply NoDup_nil_2.
  - intros a. change (virtual_memory failed_cpu) with gdt_memory. unfold gdt_memory, write64, store.
    destruct (_ && _) eqn:Ea; [| lia].
    assert (Forall (fun b => 0 <= b < 256) (le_split 8 (set_bits (set_bits 0 47 1 1) 40 4 SEGMENT_DESCRIPTOR_TYPE_TSS_BUSY))) as H
      by (vm_compute; repeat constructor; discriminate).
    apply Forall_nth; [exact H |]. apply andb_prop in Ea as [E1%Z.leb_le E2%Z.ltb_lt]. rewrite le_split_length in *. lia.
  - split; vm_compute; repeat split; (discriminate || reflexivity || intros [=]).
  - right. vm_compute. reflexivity.
  - intros c _ _ _ sel _. reflexivity.
  - exists c'. split; [exact E |]. split; [exact E3 |]. split; [exact Et |].
    split; [rewrite Hm by (cbn; tauto); reflexivity |].
    rewrite Ho by (intros H; vm_compute in H; intuition discriminate). reflexivity.
Defined.

Lemma bench_takes_minimum_witness :
  vmexit_to_store_overhead (stealth_tsc (bench_tsc_overhead [mk_sample 100 150 30; mk_sample 200 240 35] zero_stealth)) <= 40.
Proof.
  destruct (bench_takes_minimum [mk_sample 100 150 30; mk_sample 200 240 35] zero_stealth) as (_ & _ & H).
  - discriminate.
  - repeat constructor.
  - rewrite List.Forall_forall in H. exact (proj1 (H (mk_sample 200 240 35) ltac:(right; left; reflexivity))).
Defined.

(** A processor that allows VMX, and what it answers. *)
Definition vmx_cpu : cpu_state :=
  sample_cpu <| readmsr := fun a =>
    if a =? 0x3A then 5 else if a =? 0x481 then Z.shiftl 1 38
    else if (a =? 0x487) || (a =? 0x489) then 2 ^ 64 - 1 else if a =? 0x480 then 0x12 else 0 |>.
Definition vmx_env : launch_env :=
  mk_launch_env (Z.shiftl 1 5) (fun r => r =? 0x12) true (fun r => r =? 0x12) (fun _ => None)
    0x70000 0x80000 0x90000 (fun v => v) 0xA0000 0xB0000 [mk_sample 100 150 30].
Definition vmx_core : core_state :=
  mk_core_state vmx_cpu false false zero_vcpu (capture vmx_cpu) (mk_tss 0 0 0 0) (fun _ => zero_gate).

Lemma vmx_cpu_capable cr3 : capable (fun _ => true) sample_addresses cr3 vmx_env vmx_cpu.
Proof.
  split; try done; vm_compute; try reflexivity; repeat split; (discriminate || reflexivity).
Qed.

Lemma sample_frames_ok normal : frames_ok (pfn_of_split_pt sample_addresses normal).
Proof.
  split; [| intros s s' _ _; cbn; lia].
  intros s Hs. unfold to_pfn, ept_split_pte_count in *. cbn. unfold wrap. change (pfn_width (Ia32 := sdm)) with 36.
  apply Z.mod_small. lia.
Qed.


Lemma start_makes_cores_ready_witness :
  exists cores', start (fun _ => true) (fun _ => sample_addresses) (fun _ => vmx_env) 2 true true (fun _ => vmx_core) =
      (cores', true) /\ ready_core 1 (cores' 1%nat).
Proof.
  destruct (start_succeeds (fun _ => true) (fun _ => sample_addresses) (fun _ => vmx_env) 2 (fun _ => vmx_core))
    as (cores' & E).
  - intros i _. apply vmx_cpu_capable.
  - exists cores'. split; [exact E |].
    apply (start_makes_cores_ready (fun _ => true) (fun _ => sample_addresses) (fun _ => vmx_env) 2 true true
      (fun _ => vmx_core) cores'); [intros i normal _; apply sample_frames_ok | exact E | lia].
Defined.
