(* ===== verification/VmExit.v ===== *)
(** * VM exits: [revhv-km/vmexit.cpp]

    The handlers of the exits of a core, and the dispatch. A handler works on
    the state of the core, physical memory and the model-specific registers of
    the processor; what the processor answers to the instructions a handler
    executes is an environment. *)
From Stdlib Require Import ZArith Lia List Bool.
From stdpp Require Import base numbers list option functions.
From S2P Require Import Prelude Ia32 Memory Mtrr Paging Trace TransitionCfg Ept Vmcs Vcpu.
From S2P Require Import Exception Introspection Logging Hv VmcsSetup.

(** ** Exit information *)

(** The exit reasons the dispatch tells apart. *)
Inductive exit_reason :=
  | EXECUTE_CPUID | EXECUTE_INVD | EXECUTE_RDMSR | EXECUTE_WRMSR | EXECUTE_XSETBV | EXECUTE_GETSEC
  | NMI_WINDOW | EXCEPTION_OR_NMI | EXECUTE_VMCALL | EPT_VIOLATION | VMX_PREEMPTION_TIMER_EXPIRED
  | MOV_CR
  | EXECUTE_INVEPT | EXECUTE_INVVPID | EXECUTE_SEAMCALL | EXECUTE_TDCALL | EXECUTE_VMCLEAR
  | EXECUTE_VMLAUNCH | EXECUTE_VMPTRLD | EXECUTE_VMPTRST | EXECUTE_VMRESUME | EXECUTE_VMXOFF
  | EXECUTE_VMXON | EXECUTE_VMREAD | EXECUTE_VMWRITE
  | OTHER_REASON.

Inductive cr_access := ACCESS_MOV_TO_CR | ACCESS_CLTS | ACCESS_LMSW | ACCESS_OTHER.
Inductive control_register := REGISTER_CR0 | REGISTER_CR4 | REGISTER_OTHER.

(** Decoding of the exit-information fields, by the unions of [ia32-doc];
    [genreg] is [None] for RSP, which is not in [guest_context]. *)
Class ExitLayout := {
  basic_exit_reason : Z -> exit_reason;
  vm_entry_failure : Z -> bool;
  access_type : Z -> cr_access;
  control_register_of : Z -> control_register;
  genreg : Z -> option gpr;
  lmsw_source_data : Z -> Z;
  execute_violation : Z -> bool;
  caused_by_translation : Z -> bool;
  cr0_reserved_ignored : Z;
  cr0_reserved4 : Z;
  cr4_reserved : Z
}.

Definition sdm_reason (r : Z) : exit_reason :=
  match u16 r with
  | 0 => EXCEPTION_OR_NMI | 8 => NMI_WINDOW | 10 => EXECUTE_CPUID | 11 => EXECUTE_GETSEC
  | 13 => EXECUTE_INVD | 18 => EXECUTE_VMCALL | 19 => EXECUTE_VMCLEAR | 20 => EXECUTE_VMLAUNCH
  | 21 => EXECUTE_VMPTRLD | 22 => EXECUTE_VMPTRST | 23 => EXECUTE_VMREAD | 24 => EXECUTE_VMRESUME
  | 25 => EXECUTE_VMWRITE | 26 => EXECUTE_VMXOFF | 27 => EXECUTE_VMXON | 28 => MOV_CR
  | 31 => EXECUTE_RDMSR | 32 => EXECUTE_WRMSR | 48 => EPT_VIOLATION | 50 => EXECUTE_INVEPT
  | 52 => VMX_PREEMPTION_TIMER_EXPIRED | 53 => EXECUTE_INVVPID | 55 => EXECUTE_XSETBV
  | 76 => EXECUTE_SEAMCALL | 77 => EXECUTE_TDCALL
  | _ => OTHER_REASON
  end.

#[export] Instance sdm_exit_layout : ExitLayout := {|
  basic_exit_reason := sdm_reason;
  vm_entry_failure r := Z.testbit r 31;
  access_type q :=
    match bits q 4 2 with 0 => ACCESS_MOV_TO_CR | 2 => ACCESS_CLTS | 3 => ACCESS_LMSW
                        | _ => ACCESS_OTHER end;
  control_register_of q :=
    match bits q 0 4 with 0 => REGISTER_CR0 | 4 => REGISTER_CR4 | _ => REGISTER_OTHER end;
  genreg q := nth (Z.to_nat (bits q 8 4))
    [Some rax; Some rcx; Some rdx; Some rbx; None; Some rbp; Some rsi; Some rdi;
     Some r8; Some r9; Some r10; Some r11; Some r12; Some r13; Some r14; Some r15] None;
  lmsw_source_data q := bits q 16 16;
  execute_violation q := Z.testbit q 2;
  caused_by_translation q := Z.testbit q 8;
  cr0_reserved_ignored := bits_of [6; 7; 8; 9; 10; 11; 12; 13; 14; 15; 17; 19; 20; 21; 22; 23; 24; 25; 26; 27; 28];
  cr0_reserved4 := Z.shiftl (Z.ones 32) 32;
  cr4_reserved := Z.lor (Z.shiftl 1 15) (Z.shiftl (Z.ones 39) 25)
|}.

(** Bits of the architectural registers. *)
Definition CR0_PE : Z := 0.
Definition CR0_TS : Z := 3.
Definition CR0_ET : Z := 4.
Definition CR0_WP : Z := 16.
Definition CR0_NW : Z := 29.
Definition CR0_CD : Z := 30.
Definition CR0_PG : Z := 31.
Definition CR4_PAE : Z := 5.
Definition CR4_LA57 : Z := 12.
Definition CR4_SMXE : Z := 14.
Definition CR4_PCIDE : Z := 17.
Definition CR4_CET : Z := 23.
Definition long_mode_bit : Z := 13.
Definition blocking_by_sti : Z := 0.
Definition blocking_by_mov_ss : Z := 1.
Definition trap_flag : Z := 8.
Definition pending_bs : Z := 14.

(** ** State *)

(** What the handlers of one exit work on; [invepts] counts the flushes of
    translations derived from the EPT. The diagnostic messages of the handlers
    reach only the logger, and are left out. *)
Record machine := mk_machine {
  core : vcpu;
  physical_memory : mem;
  msrs : Z -> Z;
  invepts : nat;
  shared : hypervisor
}.
#[export] Instance eta_machine : Eta machine :=
  fun s => mk_machine (core s) (physical_memory s) (msrs s) (invepts s) (shared s).

Definition on_core (s : machine) (f : vcpu -> vcpu) : machine := s <| core := f (core s) |>.
Definition invept (s : machine) : machine := s <| invepts := S (invepts s) |>.

(** What the processor answers to the instructions a handler executes: CPUID,
    the two readings of the time-stamp counter around the instruction, the
    wrapped instructions, the time stamp of a trace entry; and the value of
    [crash_in_progress]. *)
Record environment := mk_env {
  env_cpuid : Z -> Z -> Z * Z * Z * Z;
  env_tsc_start : Z;
  env_tsc_end : Z;
  env_rdmsr : Z -> instruction_result;
  env_wrmsr : Z -> Z -> instruction_result;
  env_invd : instruction_result;
  env_xsetbv : Z -> Z -> instruction_result;
  env_copy_fault : Z -> Z -> option (Z * Z * Z);
  env_trace_tsc : Z;
  env_crash_in_progress : Z
}.

Section vmexit.
Context {ia32 : Ia32} {mtrr_layout : MtrrLayout} {exit_layout : ExitLayout}.
Variable supported : vmcs_field -> bool.
Variable pfn_of_pd : bool -> Z -> Z.
Variable env : environment.

Abbreviation read m f := (vmx_vmread supported m f).
Abbreviation write m f x := (vmwrite supported m f x).

(** ** Returning to the guest *)

(** [new_rip], cut to 32 bits when it leaves them outside long mode. *)
Definition advanced_rip (m : vmcs) : Z :=
  let rip := read m VMCS_GUEST_RIP in
  let new_rip := rip +64 read m VMCS_VMEXIT_INSTRUCTION_LENGTH in
  if (rip <? 2 ^ 32) && (2 ^ 32 <=? new_rip) &&
     negb (get_bit (u32 (read m VMCS_GUEST_CS_ACCESS_RIGHTS)) long_mode_bit)
  then Z.land new_rip 0xFFFFFFFF else new_rip.

(** A failed write of RIP is reported and the core halted until the next NMI. *)
Definition advance_guest_rip (m : vmcs) : vmcs :=
  let m := write m VMCS_GUEST_RIP (advanced_rip m) in
  let state := read m VMCS_GUEST_INTERRUPTIBILITY_STATE in
  let m :=
    if get_bit state blocking_by_mov_ss || get_bit state blocking_by_sti then
      write m VMCS_GUEST_INTERRUPTIBILITY_STATE
        (set_bit (set_bit state blocking_by_mov_ss false) blocking_by_sti false)
    else m in
  let guest_rflags := read m VMCS_GUEST_RFLAGS in
  let pending := read m VMCS_GUEST_PENDING_DEBUG_EXCEPTIONS in
  if get_bit guest_rflags trap_flag && negb (get_bit pending pending_bs) then
    write m VMCS_GUEST_PENDING_DEBUG_EXCEPTIONS (set_bit pending pending_bs true)
  else m.

Definition advance (s : machine) : machine := on_core s (fun v => with_vmcs v advance_guest_rip).

Definition inject_host_hw_exception_to_guest (v : vcpu) : vcpu :=
  let e := exn_info v in
  let v :=
    if vector_has_error_code (u16 (exception_vector e)) then
      with_vmcs v (fun m => inject_hw_exception_code supported m (exception_vector e) (error_code e))
    else with_vmcs v (fun m => inject_hw_exception supported m (exception_vector e)) in
  v <| exn_info := no_exception |>.

(** ** Instructions *)

(** [vcpu->stealth_data.tsc_data.instruction_overhead = end - start]. *)
Definition measured (v : vcpu) : vcpu := set_overhead v (env_tsc_end env -64 env_tsc_start env).

(** A wrapped instruction on this core. *)
Definition wrapped (r : instruction_result) (s : machine) : outcome machine :=
  let! v := run_wrapped supported (msrs s) (env_crash_in_progress env) r (core s) in
  Ok (s <| core := v |>).

(** A fault of the host on behalf of the guest goes to the guest; otherwise the
    handler goes on. *)
Definition or_inject (s : machine) (k : machine -> machine) : machine :=
  if exception_occurred (exn_info (core s)) then on_core s inject_host_hw_exception_to_guest
  else k s.

Definition write_edx_eax (v : vcpu) (x : Z) : vcpu :=
  v <| guest_context :=
    write32 (write32 (guest_context v) rdx (Z.shiftr x 32)) rax (Z.land x 0xFFFFFFFF) |>.
Definition edx_eax (v : vcpu) : Z :=
  Z.lor (shl64 (read32 (guest_context v) rdx) 32) (read32 (guest_context v) rax).

Definition handle_cpuid (s : machine) : machine :=
  let ctx := guest_context (core s) in
  let '(a, b, c, d) := env_cpuid env (read32 ctx rax) (read32 ctx rcx) in
  let s := on_core s measured in
  let s := on_core s (fun v => v <| guest_context :=
    write32 (write32 (write32 (write32 ctx rax a) rbx b) rcx c) rdx d |>) in
  advance s.

Definition HV_X64_MSR_GUEST_IDLE : Z := 0x400000F0.

Definition handle_rdmsr (s : machine) : outcome machine :=
  let msr := read32 (guest_context (core s)) rcx in
  let! (msr_result, s) :=
    if msr =? HV_X64_MSR_GUEST_IDLE then Ok (0, s)
    else let! s := wrapped (env_rdmsr env msr) s in Ok (msrs s msr, s) in
  let s := on_core s measured in
  Ok (or_inject s (fun s => advance (on_core s (fun v => write_edx_eax v msr_result)))).

Definition is_mtrr_msr (msr : Z) : bool :=
  (msr =? IA32_MTRR_DEF_TYPE) || (msr =? IA32_MTRR_FIX64K_00000) ||
  ((IA32_MTRR_FIX16K_80000 <=? msr) && (msr <=? IA32_MTRR_FIX16K_A0000)) ||
  ((IA32_MTRR_FIX4K_C0000 <=? msr) && (msr <=? IA32_MTRR_FIX4K_F8000)) ||
  ((IA32_MTRR_PHYSBASE0 <=? msr) && (msr <=? IA32_MTRR_PHYSBASE0 + 19)).

(** The MTRRs have changed: both EPTs get the new memory types. *)
Definition refresh_memory_types (s : machine) : machine :=
  let s := on_core s (fun v =>
    let st := read_mtrrs (msrs s) in
    v <| vcpu_mtrr := st |>
      <| ept_pages_normal := update_ept_memory_types (pfn_of_pd true) (ept_pages_normal v) st |>
      <| ept_pages_target := update_ept_memory_types (pfn_of_pd false) (ept_pages_target v) st |>) in
  invept s.

(** The processor takes the new value unless the instruction faults. *)
Definition store_msr (r : instruction_result) (msr value : Z) (s : machine) : machine :=
  match r with
  | completes => s <| msrs := <[msr := value]> (msrs s) |>
  | faults _ _ => s
  end.

Definition handle_wrmsr (s : machine) : outcome machine :=
  let msr := read32 (guest_context (core s)) rcx in
  let value := edx_eax (core s) in
  let! s := wrapped (env_wrmsr env msr value) s in
  let s := store_msr (env_wrmsr env msr value) msr value s in
  let s := on_core s measured in
  Ok (or_inject s (fun s => advance (if is_mtrr_msr msr then refresh_memory_types s else s))).

Definition handle_invd (s : machine) : outcome machine :=
  let! s := wrapped (env_invd env) s in
  Ok (or_inject s advance).

Definition inject_ud (s : machine) : machine :=
  on_core s (fun v => with_vmcs v (fun m => inject_hw_exception supported m invalid_opcode)).

Definition handle_getsec (s : machine) : machine := inject_ud s.
Definition handle_vmx_instruction (s : machine) : machine := inject_ud s.

Definition handle_xsetbv (s : machine) : outcome machine :=
  let index := read32 (guest_context (core s)) rcx in
  let value := edx_eax (core s) in
  let! s := wrapped (env_xsetbv env index value) s in
  let s := on_core s measured in
  Ok (or_inject s advance).

(** ** NMIs *)

Definition handle_nmi (s : machine) : outcome machine :=
  let! v := give_control_on_unrecoverable_error (env_crash_in_progress env) (core s) in
  Ok (s <| core := enqueue_nmi supported (msrs s) v |>).

(** Run without a host NMI in between; the interleavings are in [NmiWindow]. *)
Definition handle_nmi_window (s : machine) : machine :=
  on_core s (fun v =>
    let v := v <| queued_nmi_count := u64 (queued_nmi_count v - 1) |> in
    let v := with_vmcs v (inject_nmi supported) in
    if queued_nmi_count v =? 0 then
      let v := with_vmcs v (disable_nmi_window_exiting supported (msrs s)) in
      if negb (queued_nmi_count v =? 0) then
        with_vmcs v (enable_nmi_window_exiting supported (msrs s))
      else v
    else v).

(** ** Control registers *)

Definition get_gpr_value (s : machine) (r : option gpr) : Z :=
  match r with
  | Some r => guest_context (core s) r
  | None => read (vcpu_vmcs (core s)) VMCS_GUEST_RSP
  end.

Definition inject_gp (s : machine) : machine :=
  on_core s (fun v => with_vmcs v (fun m => inject_hw_exception_code supported m general_protection 0)).

(** A write whose failure is an unrecoverable error. *)
Definition write_or_crash (m : vmcs) (f : vmcs_field) (x : Z) : outcome vmcs :=
  match vmx_vmwrite supported m f x with
  | (m, true) => Ok m
  | (_, false) => Crash
  end.

(** [x |= fixed0; x &= fixed1]. *)
Definition apply_fixed (x fixed0 fixed1 : Z) : Z := Z.land (Z.lor x fixed0) fixed1.

(** The value of CR0 that is checked: reserved bits of the lower half cleared, ET
    set. *)
Definition normalize_cr0 (x : Z) : Z :=
  set_bit (Z.land x (not64 cr0_reserved_ignored)) CR0_ET true.

Definition cr0_faults (new_cr0 curr_cr4 : Z) : bool :=
  negb (Z.land new_cr0 cr0_reserved4 =? 0) ||
  (get_bit new_cr0 CR0_PG && negb (get_bit new_cr0 CR0_PE)) ||
  (negb (get_bit new_cr0 CR0_WP) && get_bit curr_cr4 CR4_CET) ||
  negb (get_bit new_cr0 CR0_PG) ||
  (negb (get_bit new_cr0 CR0_CD) && get_bit new_cr0 CR0_NW).

(** [ecx] of CPUID leaf 1. *)
Definition cpuid_1_ecx : Z := let '(_, _, c, _) := env_cpuid env 1 0 in c.
Definition CPUID_SMX : Z := 6.

Definition cr4_faults (new_cr4 curr_cr0 curr_cr4 cr3 : Z) : bool :=
  negb (Z.land new_cr4 cr4_reserved =? 0) ||
  (get_bit new_cr4 CR4_CET && negb (get_bit curr_cr0 CR0_WP)) ||
  (negb (get_bit curr_cr4 CR4_PCIDE) && get_bit new_cr4 CR4_PCIDE && negb (Z.land cr3 0xFFF =? 0)) ||
  negb (Bool.eqb (get_bit new_cr4 CR4_PAE) (get_bit curr_cr4 CR4_PAE)) ||
  negb (Bool.eqb (get_bit new_cr4 CR4_LA57) (get_bit curr_cr4 CR4_LA57)) ||
  (negb (get_bit cpuid_1_ecx CPUID_SMX) && get_bit new_cr4 CR4_SMXE).

(** The two fields of a control register: the shadow gets the value written, the
    register the value with the bits VMX operation fixes. *)
Definition write_cr (s : machine) (shadow reg : vmcs_field) (new_shadow new_reg fixed0 fixed1 : Z)
    : outcome machine :=
  let! m := write_or_crash (vcpu_vmcs (core s)) shadow new_shadow in
  let! m := write_or_crash m reg (apply_fixed new_reg (msrs s fixed0) (msrs s fixed1)) in
  Ok (on_core s (fun v => v <| vcpu_vmcs := m |>)).

Definition handle_mov_to_cr (s : machine) (qualification : Z) : outcome machine :=
  let reg_val := get_gpr_value s (genreg qualification) in
  let m := vcpu_vmcs (core s) in
  let curr_cr0 := get_effective_guest_cr0 supported m in
  let curr_cr4 := get_effective_guest_cr4 supported m in
  match control_register_of qualification with
  | REGISTER_CR0 =>
      let new_cr0 := normalize_cr0 reg_val in
      if cr0_faults new_cr0 curr_cr4 then Ok (inject_gp s) else
      let! s := write_cr s VMCS_CTRL_CR0_READ_SHADOW VMCS_GUEST_CR0 new_cr0 new_cr0
                  IA32_VMX_CR0_FIXED0 IA32_VMX_CR0_FIXED1 in
      Ok (advance s)
  | REGISTER_CR4 =>
      if cr4_faults reg_val curr_cr0 curr_cr4 (read m VMCS_GUEST_CR3) then Ok (inject_gp s) else
      let! s := write_cr s VMCS_CTRL_CR4_READ_SHADOW VMCS_GUEST_CR4 reg_val reg_val
                  IA32_VMX_CR4_FIXED0 IA32_VMX_CR4_FIXED1 in
      Ok (advance s)
  | REGISTER_OTHER => Crash
  end.

(** RIP is not advanced: the instruction runs again, and does not exit any more. *)
Definition handle_clts (s : machine) : outcome machine :=
  let m := vcpu_vmcs (core s) in
  let ts := Z.shiftl 1 CR0_TS in
  let current_cr0_shadow := Z.land (read m VMCS_CTRL_CR0_READ_SHADOW) (not64 ts) in
  let current_cr0 := Z.land (read m VMCS_GUEST_CR0) (not64 ts) in
  let! m := write_or_crash m VMCS_CTRL_CR0_READ_SHADOW current_cr0_shadow in
  let! m := write_or_crash m VMCS_GUEST_CR0 current_cr0 in
  Ok (on_core s (fun v => v <| vcpu_vmcs := m |>)).

Definition lmsw_mask : Z := 0xF.
Definition handle_lmsw (s : machine) (qualification : Z) : outcome machine :=
  let m := vcpu_vmcs (core s) in
  let new_bits := Z.land (lmsw_source_data qualification) lmsw_mask in
  let current_cr0_shadow := read m VMCS_CTRL_CR0_READ_SHADOW in
  let current_cr0 := read m VMCS_GUEST_CR0 in
  let new_bits :=
    if get_bit current_cr0_shadow CR0_PE then Z.lor new_bits (Z.shiftl 1 CR0_PE) else new_bits in
  let merge x := Z.lor (Z.land x (not64 lmsw_mask)) new_bits in
  let! s := write_cr s VMCS_CTRL_CR0_READ_SHADOW VMCS_GUEST_CR0 (merge current_cr0_shadow)
              (merge current_cr0) IA32_VMX_CR0_FIXED0 IA32_VMX_CR0_FIXED1 in
  Ok (advance s).

Definition handle_cr_access (s : machine) : outcome machine :=
  let qualification := read (vcpu_vmcs (core s)) VMCS_EXIT_QUALIFICATION in
  let! s :=
    match access_type qualification with
    | ACCESS_MOV_TO_CR => handle_mov_to_cr s qualification
    | ACCESS_CLTS => handle_clts s
    | ACCESS_LMSW => handle_lmsw s qualification
    | ACCESS_OTHER => Crash
    end in
  Ok (on_core s (fun v => set_overhead v 100)).

(** ** EPT violations *)

Definition trace_gpr (f : ept_transition_data_field) : option gpr :=
  match f with
  | Trace.guest_rax => Some rax | Trace.guest_rbx => Some rbx | Trace.guest_rcx => Some rcx
  | Trace.guest_rdx => Some rdx | Trace.guest_rsi => Some rsi | Trace.guest_rdi => Some rdi
  | Trace.guest_rbp => Some rbp | Trace.guest_r8 => Some r8 | Trace.guest_r9 => Some r9
  | Trace.guest_r10 => Some r10 | Trace.guest_r11 => Some r11 | Trace.guest_r12 => Some r12
  | Trace.guest_r13 => Some r13 | Trace.guest_r14 => Some r14 | Trace.guest_r15 => Some r15
  | _ => None
  end.

(** The return address is read from guest memory; what cannot be read is 0. *)
Definition resolve_data_field (s : machine) (f : ept_transition_data_field) (rip rsp : Z)
    : outcome (machine * Z) :=
  match f with
  | field_none => Ok (s, 0)
  | guest_rip => Ok (s, rip)
  | guest_rsp => Ok (s, rsp)
  | guest_retaddr =>
      if rsp =? 0 then Ok (s, 0) else
      let! (v, retaddr, _) := read_guest_virtual_current supported (msrs s)
          (env_crash_in_progress env) (env_copy_fault env) (physical_memory s) (core s) rsp
          (repeat 0 8) 8 in
      Ok (s <| core := v |>, le_combine retaddr)
  | f =>
      match trace_gpr f with
      | Some r => Ok (s, guest_context (core s) r)
      | None => Ok (s, 0)
      end
  end.

Fixpoint resolve_data_fields (s : machine) (cfg : ept_transition_cfg) (rip rsp : Z)
    : outcome (machine * list Z) :=
  match cfg with
  | [] => Ok (s, [])
  | f :: cfg =>
      let! (s, x) := resolve_data_field s f rip rsp in
      let! (s, l) := resolve_data_fields s cfg rip rsp in
      Ok (s, x :: l)
  end.

(** A hooked page shows its original frame to reads and writes, and the hook's
    frame to execution. *)
Definition switch_view (h : ept_hook) (execute : bool) (e : ept_leaf) : ept_leaf :=
  if execute then (set_permissions false false true e) <| leaf_pfn := to_pfn (hook_pfn h) |>
  else (set_permissions true true false e) <| leaf_pfn := to_pfn (orig_pfn h) |>.

Definition current_ept_pages (v : vcpu) : ept_pages :=
  if in_normal_execution v then ept_pages_normal v else ept_pages_target v.
Definition set_current_ept_pages (v : vcpu) (p : ept_pages) : vcpu :=
  if in_normal_execution v then v <| ept_pages_normal := p |> else v <| ept_pages_target := p |>.

Definition switch_eptp (v : vcpu) (normal : bool) : vcpu :=
  (with_vmcs v (fun m => change_eptp supported m
      (if normal then eptp_normal_execution v else eptp_target_execution v)))
    <| in_normal_execution := normal |>.

(** Leaving the traced range: the entry of the trace. *)
Definition trace_transition (s : machine) : outcome machine :=
  let m := vcpu_vmcs (core s) in
  let rip := read m VMCS_GUEST_RIP in
  let rsp := read m VMCS_GUEST_RSP in
  let cfg := lookup_transition_cfg (transitions (core s)) rip in
  let! (s, data) := resolve_data_fields s cfg rip rsp in
  let d i := nth i data 0 in
  Ok (on_core s (fun v => v <| trace_buffer :=
        emit (trace_buffer v) fmt_ept_target_transition (u16 (vcpu_core_id v)) (env_trace_tsc env)
          (d 0%nat) (d 1%nat) (d 2%nat) (d 3%nat) (d 4%nat) (d 5%nat) |>)).

Definition handle_ept_violation (s : machine) : outcome machine :=
  let v := core s in
  let m := vcpu_vmcs v in
  let qualification := read m VMCS_EXIT_QUALIFICATION in
  let physical_address :=
    read m (if caused_by_translation qualification then VMCS_GUEST_PHYSICAL_ADDRESS
            else VMCS_EXIT_GUEST_LINEAR_ADDRESS) in
  match get_hook_by_orig_pfn (current_ept_pages v) (Z.shiftr physical_address 12) with
  | Some (mk_hook orig hook (Some pte)) =>
      let! p := update_pte (current_ept_pages v) pte
        (switch_view (mk_hook orig hook (Some pte)) (execute_violation qualification)) in
      Ok (invept (s <| core := set_current_ept_pages v p |>))
  | _ =>
      if negb (execute_violation qualification) then Crash
      else if in_normal_execution v then Ok (on_core s (fun v => switch_eptp v false))
      else trace_transition (on_core s (fun v => switch_eptp v true))
  end.

(** ** Dispatch *)

(** Every way out of [handle_vm_entry_failure] is the unrecoverable error. *)
Definition handle_vm_entry_failure (s : machine) : outcome machine := Crash.

Definition handle_preemption_timer (s : machine) : machine :=
  on_core s (fun v =>
    let v := v <| stealth := (stealth v) <| stealth_tsc :=
                    (stealth_tsc (stealth v)) <| tsc_offset := 0 |> |> |> in
    let v := with_vmcs v (fun m => write m VMCS_CTRL_TSC_OFFSET 0) in
    let v := with_vmcs v (disable_preemption_timer supported) in
    v <| preemption_timer_enabled := false |>).

(** The hypercall interface of [hypercall.cpp]: [None] for an invalid key. *)
Variable handle_hypercall : machine -> outcome (option machine).

Definition handle_vmcall (s : machine) : outcome machine :=
  let! r := handle_hypercall s in
  match r with
  | None => Ok (handle_vmx_instruction s)
  | Some s => Ok (advance s)
  end.

(** The exits whose duration is hidden from the guest. *)
Definition hides_overhead (r : exit_reason) : bool :=
  match r with
  | EXECUTE_CPUID | EXECUTE_RDMSR | EXECUTE_WRMSR | EXECUTE_XSETBV | MOV_CR => true
  | _ => false
  end.

Definition dispatch (s : machine) (r : exit_reason) : outcome machine :=
  match r with
  | EXECUTE_CPUID => Ok (handle_cpuid s)
  | EXECUTE_INVD => handle_invd s
  | EXECUTE_RDMSR => handle_rdmsr s
  | EXECUTE_WRMSR => handle_wrmsr s
  | EXECUTE_XSETBV => handle_xsetbv s
  | EXECUTE_GETSEC => Ok (handle_getsec s)
  | NMI_WINDOW => Ok (handle_nmi_window s)
  | EXCEPTION_OR_NMI => handle_nmi s
  | EXECUTE_VMCALL => handle_vmcall s
  | EPT_VIOLATION => handle_ept_violation s
  | VMX_PREEMPTION_TIMER_EXPIRED => Ok (handle_preemption_timer s)
  | MOV_CR => handle_cr_access s
  | OTHER_REASON => Crash
  | _ => Ok (handle_vmx_instruction s)
  end.

Definition preemption_ticks : Z := 10000000.

(** [handler]; the second component tells whether the exit stub gets the
    [tsc_data] to hide the duration with. *)
Definition handler (s : machine) : outcome (machine * bool) :=
  let s := on_core s (fun v => v <| stealth := on_vmexit (stealth v) |>) in
  let reason := read (vcpu_vmcs (core s)) VMCS_EXIT_REASON in
  let s := on_core s (fun v => with_vmcs v (clear_vmentry_interrupt_info supported)) in
  if vm_entry_failure reason then let! s := handle_vm_entry_failure s in Ok (s, false) else
  let! s := dispatch s (basic_exit_reason reason) in
  let hide := hides_overhead (basic_exit_reason reason) &&
              tsc_hiding_enabled && bench_completed (stealth (core s)) in
  let s :=
    if hide && negb (preemption_timer_enabled (core s)) then
      on_core s (fun v =>
        (with_vmcs v (fun m => enable_preemption_timer supported m (tsc_preemption_relation_bit v)
                                preemption_ticks)) <| preemption_timer_enabled := true |>)
    else s in
  Ok (s, hide).

(** ** Lemmas *)

Context `{!Ia32Ok ia32}.
Hypothesis all_supported : forall f, supported f = true.

(** Reading a VMCS after writes to it. *)
Ltac vmcs_reads :=
  repeat first
    [ rewrite vmread_vmwrite_same by apply all_supported
    | rewrite vmread_vmwrite_other by discriminate ].

Definition vmcs_ok (m : vmcs) : Prop := forall f, is_u64 (m f).

Lemma vmread_ok m f : vmcs_ok m -> is_u64 (read m f).
Proof. intros Hm. unfold vmx_vmread. rewrite all_supported. apply Hm. Qed.

Lemma vmwrite_ok m f x : vmcs_ok m -> vmcs_ok (write m f x).
Proof.
  intros Hm g. unfold vmwrite, vmx_vmwrite. rewrite all_supported. cbn.
  unfold insert, fn_insert. case_decide; [apply wrap_range; lia | apply Hm].
Qed.

Lemma set_bit_ok w i b : is_u64 w -> 0 <= i < 64 -> is_u64 (set_bit w i b).
Proof. intros. apply set_bits_u64; done || lia. Qed.

Lemma get_set_bit w i b j :
  0 <= i -> 0 <= j -> get_bit (set_bit w i b) j = if i =? j then b else get_bit w j.
Proof.
  intros Hi Hj. unfold get_bit, set_bit. rewrite testbit_set_bits by lia.
  destruct (Z.eqb_spec i j) as [<- |].
  - destruct (Z.leb_spec i i), (Z.ltb_spec i (i + 1)); try lia. cbn [andb].
    rewrite Z.sub_diag. by destruct b.
  - destruct (Z.leb_spec i j), (Z.ltb_spec j (i + 1)); cbn [andb]; lia || done.
Qed.

(** Writing a word that has changed in some bits only when it has. *)
Lemma read_write_if m f (c : bool) x :
  vmcs_ok m -> is_u64 x -> (c = false -> x = read m f) ->
  read (if c then write m f x else m) f = x.
Proof.
  intros Hm Hx Hc. destruct c; [| symmetry; by apply Hc].
  rewrite vmread_vmwrite_same by apply all_supported. by apply wrap_small.
Qed.

Lemma read_write_if_other m f g (c : bool) x :
  f <> g -> read (if c then write m f x else m) g = read m g.
Proof. intros Hne. destruct c; [by apply vmread_vmwrite_other | done]. Qed.

Lemma write_if_ok m f (c : bool) x : vmcs_ok m -> vmcs_ok (if c then write m f x else m).
Proof. intros Hm. destruct c; [by apply vmwrite_ok | done]. Qed.

Lemma set_bit_same w i b : is_u64 w -> 0 <= i -> get_bit w i = b -> set_bit w i b = w.
Proof.
  intros Hw Hi Hb. apply Z.bits_inj'. intros j Hj.
  pose proof (get_set_bit w i b j Hi Hj) as H. unfold get_bit in *. rewrite H.
  destruct (Z.eqb_spec i j) as [<- |]; [by symmetry | done].
Qed.

(** The address of the next instruction. *)
Definition next_rip (m : vmcs) : Z :=
  let rip := read m VMCS_GUEST_RIP in
  let new_rip := u64 (rip + read m VMCS_VMEXIT_INSTRUCTION_LENGTH) in
  if (rip <? 2 ^ 32) && (2 ^ 32 <=? new_rip) &&
     negb (get_bit (read m VMCS_GUEST_CS_ACCESS_RIGHTS) long_mode_bit)
  then new_rip mod 2 ^ 32 else new_rip.

Lemma advanced_rip_ok m : is_u64 (advanced_rip m) /\ advanced_rip m = next_rip m.
Proof.
  unfold advanced_rip, next_rip, add64.
  assert (get_bit (u32 (read m VMCS_GUEST_CS_ACCESS_RIGHTS)) long_mode_bit =
          get_bit (read m VMCS_GUEST_CS_ACCESS_RIGHTS) long_mode_bit) as ->.
  { unfold get_bit, long_mode_bit. by rewrite testbit_wrap by lia. }
  set (sum := u64 _). assert (0 <= sum < 2 ^ 64) as Hw by (apply wrap_range; lia).
  change 0xFFFFFFFF with (Z.ones 32). rewrite Z.land_ones by lia.
  destruct (_ && _); [| by split]. split; [| done].
  pose proof (Z.mod_pos_bound sum (2 ^ 32) ltac:(lia)). unfold is_u64. lia.
Qed.

Lemma advance_guest_rip_ok m :
  vmcs_ok m ->
  let m' := advance_guest_rip m in
  let state := read m VMCS_GUEST_INTERRUPTIBILITY_STATE in
  let pending := read m VMCS_GUEST_PENDING_DEBUG_EXCEPTIONS in
  vmcs_ok m' /\ read m' VMCS_GUEST_RIP = next_rip m /\
  read m' VMCS_GUEST_INTERRUPTIBILITY_STATE =
    set_bit (set_bit state blocking_by_mov_ss false) blocking_by_sti false /\
  read m' VMCS_GUEST_PENDING_DEBUG_EXCEPTIONS =
    set_bit pending pending_bs
      (get_bit pending pending_bs || get_bit (read m VMCS_GUEST_RFLAGS) trap_flag) /\
  forall f, f <> VMCS_GUEST_RIP -> f <> VMCS_GUEST_INTERRUPTIBILITY_STATE ->
    f <> VMCS_GUEST_PENDING_DEBUG_EXCEPTIONS -> read m' f = read m f.
Proof.
  intros Hm m' state pending. unfold m', advance_guest_rip.
  destruct (advanced_rip_ok m) as [Hr Er]. rewrite <- Er.
  set (new_rip := advanced_rip m) in *. clearbody new_rip. clear Er.
  assert (is_u64 state) as Hs by by apply vmread_ok.
  assert (is_u64 pending) as Hp by by apply vmread_ok.
  pose proof (vmwrite_ok m VMCS_GUEST_RIP new_rip Hm) as Hm1.
  set (m1 := write m VMCS_GUEST_RIP new_rip) in *.
  assert (read m1 VMCS_GUEST_INTERRUPTIBILITY_STATE = state) as ->
    by (apply vmread_vmwrite_other; discriminate).
  set (c := get_bit state blocking_by_mov_ss || get_bit state blocking_by_sti).
  set (state' := set_bit (set_bit state blocking_by_mov_ss false) blocking_by_sti false).
  assert (is_u64 state') as Hs' by (apply set_bit_ok; [apply set_bit_ok |]; done || (cbv; intuition discriminate)).
  set (m2 := if c then write m1 VMCS_GUEST_INTERRUPTIBILITY_STATE state' else m1).
  assert (vmcs_ok m2) as Hm2 by by apply write_if_ok.
  assert (read m2 VMCS_GUEST_INTERRUPTIBILITY_STATE = state') as E2.
  { apply read_write_if; [done | done |]. unfold c. intros [H1 H2]%orb_false_iff.
    unfold state'. rewrite (set_bit_same state) by done. rewrite set_bit_same by done.
    symmetry. apply vmread_vmwrite_other. discriminate. }
  assert (forall f, f <> VMCS_GUEST_RIP -> f <> VMCS_GUEST_INTERRUPTIBILITY_STATE ->
    read m2 f = read m f) as F2.
  { intros f H1 H2. unfold m2. rewrite read_write_if_other by congruence.
    apply vmread_vmwrite_other. congruence. }
  rewrite !F2 by discriminate. fold pending.
  set (d := get_bit (read m VMCS_GUEST_RFLAGS) trap_flag && negb (get_bit pending pending_bs)).
  split; [by apply write_if_ok |]. split; [| split; [| split]].
  - rewrite read_write_if_other by discriminate. unfold m2. rewrite read_write_if_other by discriminate.
    unfold m1. vmcs_reads. by apply wrap_small.
  - by rewrite read_write_if_other by discriminate.
  - destruct (get_bit pending pending_bs) eqn:Eb; cbn [orb].
    + rewrite set_bit_same by done. unfold d. rewrite andb_false_r. apply F2; discriminate.
    + unfold d. rewrite andb_true_r.
      destruct (get_bit (read m VMCS_GUEST_RFLAGS) trap_flag).
      * vmcs_reads. apply wrap_small, set_bit_ok; [done | cbv; intuition discriminate].
      * rewrite set_bit_same by done. apply F2; discriminate.
  - intros f H1 H2 H3. rewrite read_write_if_other by congruence. by apply F2.
Qed.

(** ** Emulated instructions *)

(** How the processor answers to the wrapped instruction of an exit. *)
Definition instruction_outcome (s : machine) (r : exit_reason) : option instruction_result :=
  let msr := read32 (guest_context (core s)) rcx in
  match r with
  | EXECUTE_RDMSR => if msr =? HV_X64_MSR_GUEST_IDLE then None else Some (env_rdmsr env msr)
  | EXECUTE_WRMSR => Some (env_wrmsr env msr (edx_eax (core s)))
  | EXECUTE_INVD => Some (env_invd env)
  | EXECUTE_XSETBV => Some (env_xsetbv env msr (edx_eax (core s)))
  | _ => None
  end.

Lemma wrapped_ok res s :
  (forall vec code, res = faults vec code -> vec <> nmi) ->
  wrapped res s =
    match res with
    | completes => Ok s
    | faults vec code =>
        if survivable vec then Ok (on_core s (fun v => record_exception v vec code)) else Crash
    end.
Proof.
  intros Hn. unfold wrapped. rewrite run_wrapped_cases by done.
  destruct res as [| vec code]; [by destruct s |]. by destruct (survivable vec).
Qed.

(** What a guest sees that is to get an exception from the host. *)
Record injected (s : machine) (vec code : Z) (s' : machine) : Prop := {
  injected_info :
    read (vcpu_vmcs (core s')) VMCS_CTRL_VMENTRY_INTERRUPTION_INFORMATION_FIELD =
      u64 (interrupt_information vec hardware_exception (vector_has_error_code vec));
  injected_code : vector_has_error_code vec = true ->
    read (vcpu_vmcs (core s')) VMCS_CTRL_VMENTRY_EXCEPTION_ERROR_CODE = u16 code;
  injected_rest : forall f, f <> VMCS_CTRL_VMENTRY_INTERRUPTION_INFORMATION_FIELD ->
    f <> VMCS_CTRL_VMENTRY_EXCEPTION_ERROR_CODE ->
    read (vcpu_vmcs (core s')) f = read (vcpu_vmcs (core s)) f;
  injected_context : guest_context (core s') = guest_context (core s);
  injected_msrs : msrs s' = msrs s;
  injected_cleared : exn_info (core s') = no_exception
}.

Lemma inject_ok s s1 vec code v :
  survivable vec = true -> core s1 = v <| exn_info := mk_exception_info vec code (additional_info1 (exn_info v)) true |> ->
  vcpu_vmcs v = vcpu_vmcs (core s) -> guest_context v = guest_context (core s) -> msrs s1 = msrs s ->
  injected s vec code (on_core s1 inject_host_hw_exception_to_guest).
Proof.
  intros Hv Ec Em Eg Es. unfold on_core. rewrite Ec. clear Ec.
  assert (u16 vec = vec /\ (vec = 13 \/ vec = 6)) as [Eu Hcases].
  { unfold survivable in Hv. apply orb_true_iff in Hv as [E | E]; apply Z.eqb_eq in E; subst vec; auto. }
  unfold inject_host_hw_exception_to_guest, inject_hw_exception_code, inject_hw_exception, with_vmcs.
  cbn [exn_info set exception_vector error_code]. unfold set at 1.
  split; cbn; rewrite ?Eu, ?Em; destruct Hcases as [-> | ->]; cbn; vmcs_reads; try done.
  - intros _. rewrite wrap_small; [done |]. pose proof (wrap_range 16 code ltac:(lia)). lia.
  - intros f H1 H2. by rewrite !vmread_vmwrite_other by congruence.
  - intros f H1 H2. by rewrite !vmread_vmwrite_other by congruence.
Qed.

Lemma or_inject_fault s vec code k :
  or_inject (on_core s (fun v => measured (record_exception v vec code))) k =
  on_core (on_core s (fun v => measured (record_exception v vec code))) inject_host_hw_exception_to_guest.
Proof. reflexivity. Qed.

Lemma or_inject_none s k : exception_occurred (exn_info (core s)) = false -> or_inject s k = k s.
Proof. intros E. unfold or_inject. by rewrite E. Qed.

Lemma vmcs_advance s : vcpu_vmcs (core (advance s)) = advance_guest_rip (vcpu_vmcs (core s)).
Proof. reflexivity. Qed.

Lemma vmcs_refresh (b : bool) s :
  vcpu_vmcs (core (if b then refresh_memory_types s else s)) = vcpu_vmcs (core s) /\
  msrs (if b then refresh_memory_types s else s) = msrs s.
Proof. by destruct b. Qed.

(** An instruction emulated to its end: RIP moves past it, nothing is injected. *)
Record completed (s : machine) (s' : machine) : Prop := {
  completed_rip : read (vcpu_vmcs (core s')) VMCS_GUEST_RIP = next_rip (vcpu_vmcs (core s));
  completed_rest : forall f, f <> VMCS_GUEST_RIP -> f <> VMCS_GUEST_INTERRUPTIBILITY_STATE ->
    f <> VMCS_GUEST_PENDING_DEBUG_EXCEPTIONS ->
    read (vcpu_vmcs (core s')) f = read (vcpu_vmcs (core s)) f
}.

Lemma completed_advance s s1 :
  vmcs_ok (vcpu_vmcs (core s)) -> vcpu_vmcs (core s1) = vcpu_vmcs (core s) -> completed s (advance s1).
Proof.
  intros Hm E. destruct (advance_guest_rip_ok _ Hm) as (_ & Hr & _ & _ & Hf).
  split; [by rewrite vmcs_advance, E | intros f; rewrite vmcs_advance, E; apply Hf].
Qed.

(** The value the guest gets of a read MSR, and what a write leaves. *)
Definition emulated_effect (s : machine) (r : exit_reason) (s' : machine) : Prop :=
  let ctx := guest_context (core s) in
  match r with
  | EXECUTE_RDMSR => msrs s' = msrs s /\
      guest_context (core s') =
        write32 (write32 ctx rdx (Z.shiftr (msrs s (read32 ctx rcx)) 32)) rax
          (Z.land (msrs s (read32 ctx rcx)) 0xFFFFFFFF)
  | EXECUTE_WRMSR => msrs s' = <[read32 ctx rcx := edx_eax (core s)]> (msrs s) /\
      guest_context (core s') = ctx
  | _ => msrs s' = msrs s /\ guest_context (core s') = ctx
  end.

(** (C21) RDMSR, WRMSR, INVD and XSETBV are emulated by executing them on the
    host. When the processor completes the instruction the guest goes on behind
    it with its effect; when the processor raises #GP or #UD the guest gets that
    very exception with its error code, at the instruction, with no register,
    MSR or other field changed, and the host's record of it is cleared; any
    other fault is a crash. *)
Theorem emulated_instruction_spec s r res :
  vmcs_ok (vcpu_vmcs (core s)) -> exception_occurred (exn_info (core s)) = false ->
  instruction_outcome s r = Some res ->
  (forall vec code, res = faults vec code -> vec <> nmi) ->
  match res, dispatch s r with
  | completes, Ok s' => completed s s' /\ emulated_effect s r s'
  | faults vec code, Ok s' => survivable vec = true /\ injected s vec code s'
  | faults vec _, Crash => survivable vec = false
  | _, _ => False
  end.
Proof.
  intros Hm He Hr Hn.
  destruct r; try discriminate Hr; cbn [instruction_outcome dispatch] in *;
    unfold handle_invd, handle_rdmsr, handle_wrmsr, handle_xsetbv; cbv zeta.
  2: destruct (_ =? _); [discriminate |].
  all: injection Hr as Hr; rewrite Hr, wrapped_ok by done; destruct res as [| vec code];
    [cbn [obind]; rewrite or_inject_none by exact He
    | destruct (survivable vec) eqn:Ev; cbn [obind]; [split; [done |] | done]].
  - split; [by apply completed_advance | done].
  - by apply (inject_ok _ _ _ _ (core s)).
  - split; [by apply completed_advance | done].
  - by apply (inject_ok _ _ _ _ (measured (core s))).
  - split.
    + apply completed_advance; [done |]. by rewrite (proj1 (vmcs_refresh _ _)).
    + by destruct (is_mtrr_msr _).
  - by apply (inject_ok _ _ _ _ (measured (core s))).
  - split; [by apply completed_advance | done].
  - by apply (inject_ok _ _ _ _ (measured (core s))).
Qed.

(** ** Control registers *)

(** The fields of a control register and the MSRs with its fixed bits. *)
Record cr_regs := mk_cr_regs {
  cr_mask : vmcs_field; cr_shadow : vmcs_field; cr_reg : vmcs_field; cr_fixed0 : Z; cr_fixed1 : Z
}.
Definition regs_of (r : control_register) : cr_regs :=
  match r with
  | REGISTER_CR4 => mk_cr_regs VMCS_CTRL_CR4_GUEST_HOST_MASK VMCS_CTRL_CR4_READ_SHADOW VMCS_GUEST_CR4
                      IA32_VMX_CR4_FIXED0 IA32_VMX_CR4_FIXED1
  | _ => mk_cr_regs VMCS_CTRL_CR0_GUEST_HOST_MASK VMCS_CTRL_CR0_READ_SHADOW VMCS_GUEST_CR0
           IA32_VMX_CR0_FIXED0 IA32_VMX_CR0_FIXED1
  end.

(** The register as the guest reads it. *)
Definition guest_cr (m : vmcs) (r : control_register) : Z :=
  effective_cr (read m (cr_mask (regs_of r))) (read m (cr_shadow (regs_of r)))
    (read m (cr_reg (regs_of r))).

(** The bits VMX operation fixes have their fixed values. *)
Definition satisfies_fixed (x fixed0 fixed1 : Z) : Prop :=
  forall i, 0 <= i < 64 ->
    (Z.testbit fixed0 i = true -> Z.testbit fixed1 i = true -> Z.testbit x i = true) /\
    (Z.testbit fixed1 i = false -> Z.testbit x i = false).

(** The guest-host mask covers the fixed bits, as [write_other_control_fields]
    sets it up. *)
Definition mask_covers (mask fixed0 fixed1 : Z) : Prop :=
  forall i, 0 <= i < 64 ->
    Z.testbit fixed0 i = true \/ Z.testbit fixed1 i = false -> Z.testbit mask i = true.

(** The value a MOV asks for, and whether the instruction faults. *)
Definition requested_cr (s : machine) (q : Z) : Z :=
  let x := get_gpr_value s (genreg q) in
  match control_register_of q with REGISTER_CR0 => normalize_cr0 x | _ => x end.
Definition mov_to_cr_faults (s : machine) (q : Z) : bool :=
  let m := vcpu_vmcs (core s) in
  match control_register_of q with
  | REGISTER_CR0 => cr0_faults (requested_cr s q) (guest_cr m REGISTER_CR4)
  | _ => cr4_faults (requested_cr s q) (guest_cr m REGISTER_CR0) (guest_cr m REGISTER_CR4)
           (read m VMCS_GUEST_CR3)
  end.

Lemma apply_fixed_ok x fixed0 fixed1 : is_u64 fixed1 -> is_u64 (apply_fixed x fixed0 fixed1).
Proof. intros H. unfold apply_fixed. rewrite Z.land_comm. by apply land_u64. Qed.

Lemma apply_fixed_satisfies x fixed0 fixed1 : satisfies_fixed (apply_fixed x fixed0 fixed1) fixed0 fixed1.
Proof.
  intros i Hi. unfold apply_fixed. rewrite Z.land_spec, Z.lor_spec.
  split; [intros -> ->; by rewrite orb_true_r | intros ->; apply andb_false_r].
Qed.

Lemma effective_apply_fixed mask x fixed0 fixed1 :
  is_u64 x -> mask_covers mask fixed0 fixed1 ->
  effective_cr mask x (apply_fixed x fixed0 fixed1) = x.
Proof.
  intros Hx Hm. unfold effective_cr, apply_fixed. apply Z.bits_inj'. intros i Hi.
  rewrite Z.lor_spec, !Z.land_spec, Z.lor_spec, testbit_not64 by lia.
  destruct (Z.ltb_spec i 64) as [Hlt |]; cbn [andb].
  - specialize (Hm i ltac:(lia)).
    destruct (Z.testbit mask i); cbn; [by rewrite andb_false_r, andb_true_r, orb_false_r |].
    destruct (Z.testbit fixed0 i), (Z.testbit fixed1 i);
      try (discriminate Hm; by (left + right)).
    by rewrite andb_false_r, orb_false_r, !andb_true_r.
  - rewrite (testbit_above 64 x i) by (done || lia). by rewrite andb_false_r.
Qed.

Lemma land_not64_ok x y : is_u64 x -> is_u64 (Z.land x (not64 y)).
Proof. apply land_u64. Qed.

Lemma write_cr_ok s r x y :
  write_cr s (cr_shadow (regs_of r)) (cr_reg (regs_of r)) x y (cr_fixed0 (regs_of r)) (cr_fixed1 (regs_of r)) =
  Ok (on_core s (fun v => v <| vcpu_vmcs :=
        write (write (vcpu_vmcs (core s)) (cr_shadow (regs_of r)) x) (cr_reg (regs_of r))
          (apply_fixed y (msrs s (cr_fixed0 (regs_of r))) (msrs s (cr_fixed1 (regs_of r)))) |>)).
Proof.
  unfold write_cr, write_or_crash. rewrite vmx_vmwrite_ok by apply all_supported. cbn [obind].
  by rewrite vmx_vmwrite_ok by apply all_supported.
Qed.

Lemma write_cr_reads m r x fixed0 fixed1 :
  vmcs_ok m -> is_u64 x -> is_u64 fixed1 -> mask_covers (read m (cr_mask (regs_of r))) fixed0 fixed1 ->
  let m' := advance_guest_rip
    (write (write m (cr_shadow (regs_of r)) x) (cr_reg (regs_of r)) (apply_fixed x fixed0 fixed1)) in
  guest_cr m' r = x /\ satisfies_fixed (read m' (cr_reg (regs_of r))) fixed0 fixed1 /\
  read m' VMCS_GUEST_RIP = next_rip m.
Proof.
  intros Hm Hx H1 Hmask.
  set (m1 := write (write m (cr_shadow (regs_of r)) x) (cr_reg (regs_of r)) (apply_fixed x fixed0 fixed1)).
  assert (vmcs_ok m1) as Hm1 by by apply vmwrite_ok, vmwrite_ok.
  destruct (advance_guest_rip_ok m1 Hm1) as (_ & Hrip & _ & _ & Hf). cbv zeta.
  assert (read m1 (cr_reg (regs_of r)) = apply_fixed x fixed0 fixed1) as E1.
  { unfold m1. vmcs_reads. by apply wrap_small, apply_fixed_ok. }
  assert (read m1 (cr_shadow (regs_of r)) = x) as E2.
  { unfold m1. destruct r; cbn; vmcs_reads; by apply wrap_small. }
  assert (read m1 (cr_mask (regs_of r)) = read m (cr_mask (regs_of r))) as E3.
  { unfold m1. destruct r; cbn; by vmcs_reads. }
  assert (next_rip m1 = next_rip m) as E4.
  { unfold next_rip, m1. destruct r; cbn -[Z.pow]; by vmcs_reads. }
  unfold guest_cr. rewrite !Hf by (destruct r; discriminate).
  rewrite Hrip, E1, E2, E3, E4. split; [by apply effective_apply_fixed |].
  split; [apply apply_fixed_satisfies | done].
Qed.


(** ** EPT violations *)

Definition violation_address (m : vmcs) : Z :=
  read m (if caused_by_translation (read m VMCS_EXIT_QUALIFICATION) then VMCS_GUEST_PHYSICAL_ADDRESS
          else VMCS_EXIT_GUEST_LINEAR_ADDRESS).
Definition violation_frame (s : machine) : Z := Z.shiftr (violation_address (vcpu_vmcs (core s))) 12.
Definition is_execute (s : machine) : bool :=
  execute_violation (read (vcpu_vmcs (core s)) VMCS_EXIT_QUALIFICATION).

Lemma set_current_same v p :
  current_ept_pages (set_current_ept_pages v p) = p /\
  in_normal_execution (set_current_ept_pages v p) = in_normal_execution v /\
  vcpu_vmcs (set_current_ept_pages v p) = vcpu_vmcs v.
Proof. unfold current_ept_pages, set_current_ept_pages. destruct v as [? ? ? ? ? ? ? [] ? ? ? ? ? ? ? ? ? ?]; done. Qed.

(** Giving an active hook's frame one of its two views keeps the invariant. *)
Lemma switch_view_inv p h ptr b :
  ept_inv p -> In h (hooks p) -> hook_pte h = Some ptr ->
  exists p', update_pte p ptr (switch_view h b) = Ok p' /\ ept_inv p' /\
    forall m, 0 <= m < page_count ->
      page_entry p' m = if m =? orig_pfn h then switch_view h b <$> page_entry p m else page_entry p m.
Proof.
  intros [Hwf Hhs Hid Hcnt Hfr] Hin Hptr.
  assert (to_pfn (hook_pfn h) = hook_pfn h) as Hb by (apply to_pfn_u32; rewrite List.Forall_forall in Hfr; by apply Hfr).
  pose proof Hhs as Hh. rewrite List.Forall_forall in Hh.
  destruct (Hh h Hin) as [_ Hact].
  destruct (Hact ptr Hptr) as (Hn & t & Ht & ->).
  destruct (update_pte_ok p (orig_pfn h) t (switch_view h b) Hwf Hn Ht)
    as (p' & E & Hwf' & Hpde & Hhooks & He).
  assert (forall m, 0 <= m < page_count -> page_entry p' m =
    if m =? orig_pfn h then switch_view h b <$> page_entry p m else page_entry p m) as Hall.
  { intros m Hm. rewrite He by done. by destruct (Z.eqb_spec m (orig_pfn h)) as [-> |]. }
  exists p'. split; [done |]. split; [| done]. split; [done | | | |].
  - rewrite Hhooks. by apply (Forall_hook_ok_pde p).
  - intros m e Hm. rewrite Hall by done. destruct (Z.eqb_spec m (orig_pfn h)) as [-> |].
    + destruct (page_entry p (orig_pfn h)); [| done]. intros [= <-].
      unfold switch_view. destruct b; cbn; rewrite ?Hb, ?to_pfn_small by done.
      * right. exists h. rewrite Hhooks. by rewrite Hptr.
      * by left.
    + rewrite Hhooks. by apply Hid.
  - unfold hook_count. by rewrite Hhooks.
  - by rewrite Hhooks.
Qed.


(** The value a field of a trace entry stands for; [ret] is the return address. *)
Definition field_value (ctx : gprs) (rip rsp ret : Z) (f : ept_transition_data_field) : Z :=
  match f with
  | guest_rip => rip
  | guest_rsp => rsp
  | guest_retaddr => if rsp =? 0 then 0 else ret
  | f => match trace_gpr f with Some r => ctx r | None => 0 end
  end.

(** The read of the return address, eight bytes from the guest's stack. *)
Definition read_retaddr (s : machine) (rsp : Z) : outcome (vcpu * list Z * Z) :=
  read_guest_virtual_current supported (msrs s) (env_crash_in_progress env) (env_copy_fault env)
    (physical_memory s) (core s) rsp (repeat 0 8) 8.

Lemma resolve_data_field_ok s f rip rsp buf n :
  (f = guest_retaddr -> rsp <> 0 -> read_retaddr s rsp = Ok (core s, buf, n)) ->
  resolve_data_field s f rip rsp = Ok (s, field_value (guest_context (core s)) rip rsp (le_combine buf) f).
Proof.
  intros Hr. destruct f; try reflexivity. cbn [resolve_data_field field_value].
  destruct (Z.eqb_spec rsp 0) as [-> | Hne]; [done |].
  fold (read_retaddr s rsp). rewrite (Hr eq_refl Hne). cbn [obind]. by destruct s.
Qed.

Lemma resolve_data_fields_ok s cfg rip rsp buf n :
  (In guest_retaddr cfg -> rsp <> 0 -> read_retaddr s rsp = Ok (core s, buf, n)) ->
  resolve_data_fields s cfg rip rsp =
    Ok (s, map (field_value (guest_context (core s)) rip rsp (le_combine buf)) cfg).
Proof.
  induction cfg as [| f cfg IH]; intros Hr; [done |]. cbn [resolve_data_fields map].
  rewrite (resolve_data_field_ok s f rip rsp buf n).
  2: { intros ->. apply Hr. by left. }
  cbn [obind]. rewrite IH; [done |]. intros Hin. apply Hr. by right.
Qed.

(** No hook is active on the frame. *)
Definition not_hooked (p : ept_pages) (n : Z) : Prop :=
  forall h, get_hook_by_orig_pfn p n = Some h -> hook_pte h = None.

Lemma violation_unhooked s :
  not_hooked (current_ept_pages (core s)) (violation_frame s) -> is_execute s = true ->
  handle_ept_violation s =
    if in_normal_execution (core s) then Ok (on_core s (fun v => switch_eptp v false))
    else trace_transition (on_core s (fun v => switch_eptp v true)).
Proof.
  intros Hn Hx. unfold handle_ept_violation. cbv zeta.
  fold (violation_address (vcpu_vmcs (core s))). fold (violation_frame s).
  fold (is_execute s). rewrite Hx. cbn [negb].
  destruct (get_hook_by_orig_pfn _ _) as [[o k [ptr |]] |] eqn:E; try done.
  by specialize (Hn _ E).
Qed.

(** The entry of a transition that leaves the traced range. *)
Definition transition_entry (s : machine) (ret : Z) : entry :=
  let m := vcpu_vmcs (core s) in
  let rip := read m VMCS_GUEST_RIP in
  let d i := nth i (map (field_value (guest_context (core s)) rip (read m VMCS_GUEST_RSP) ret)
                       (lookup_transition_cfg (transitions (core s)) rip)) 0 in
  mk_entry fmt_ept_target_transition (u16 (vcpu_core_id (core s))) 0 (env_trace_tsc env)
    (d 0%nat) (d 1%nat) (d 2%nat) (d 3%nat) (d 4%nat) (d 5%nat).

End vmexit.

(** ** Instances at concrete inputs *)

(** MSR 1234H does not exist; every other wrapped instruction completes. *)
Definition sample_env : environment :=
  mk_env (fun _ _ => (0, 0, 0, 0)) 100 350 (fun a => if a =? 0x1234 then faults 13 0 else completes)
    (fun _ _ => completes) completes (fun _ _ => completes) (fun _ _ => None) 777 0.

Definition no_vmcs : vmcs := fun _ => 0.
Lemma no_vmcs_ok : vmcs_ok no_vmcs.
Proof. intros f. split; reflexivity || discriminate. Qed.

Definition sample_fields (l : list (vmcs_field * Z)) : vmcs := apply_writes (fun _ => true) l no_vmcs.
Lemma sample_fields_ok l : vmcs_ok (sample_fields l).
Proof.
  unfold sample_fields. generalize no_vmcs no_vmcs_ok. induction l as [| [f x] l IH]; intros m Hm; [done |].
  apply IH. apply (vmwrite_ok (fun _ => true) (fun _ => eq_refl)), Hm.
Qed.

Definition sample_machine (v : vcpu) (msrs : Z -> Z) : machine :=
  mk_machine v (fun _ => 0) msrs 0 zero_hypervisor.

Lemma emulated_instruction_spec_witness :
  let v := (zero_vcpu <| guest_context := <[rcx := 0x1234]> (fun _ => 0) |>)
             <| vcpu_vmcs := sample_fields [(VMCS_GUEST_RIP, 0x1000)] |> in
  match dispatch (fun _ => true) (fun _ _ => 0) sample_env (fun s => Ok None)
          (sample_machine v (fun _ => 0)) EXECUTE_RDMSR with
  | Ok s' =>
      vmx_vmread (fun _ => true) (vcpu_vmcs (core s')) VMCS_CTRL_VMENTRY_INTERRUPTION_INFORMATION_FIELD =
        0x80000B0D /\
      vmx_vmread (fun _ => true) (vcpu_vmcs (core s')) VMCS_GUEST_RIP = 0x1000
  | _ => False
  end.
Proof.
  intros v.
  pose proof (emulated_instruction_spec (fun _ => true) (fun _ _ => 0) sample_env (fun s => Ok None)
    (fun _ => eq_refl) (sample_machine v (fun _ => 0)) EXECUTE_RDMSR (faults 13 0)
    (sample_fields_ok _) eq_refl eq_refl) as H.
  destruct (dispatch _ _ _ _ _ _) as [s' | |].
  - destruct H as [_ Hi].
    + intros vec code [= <- _]. discriminate.
    + split; [rewrite (injected_info _ _ _ _ _ Hi); reflexivity |].
      rewrite (injected_rest _ _ _ _ _ Hi) by discriminate. reflexivity.
  - discriminate H. intros vec code [= <- _]. discriminate.
  - apply H. intros vec code [= <- _]. discriminate.
Defined.


Definition hooked_pages : ept_pages :=
  match add_hook identity_pages 0x123 0x456 with Ok (p, _) => p | _ => identity_pages end.
Lemma hooked_pages_inv : ept_inv hooked_pages.
Proof.
  destruct (add_hook_ok identity_pages 0x123 0x456 identity_inv ltac:(lia)) as (p & ok & E & Hi & _).
  unfold hooked_pages. rewrite E. exact Hi.
Qed.


