(* ===== verification/NmiWindow.v ===== *)
(** * NMIs that arrive while one is being injected: [revhv-km/vmexit.cpp],
    [exception.cpp]

    [handle_nmi_window] as its single accesses to the shared members, with the
    host's NMI handler running in between: the counter [queued_nmi_count] is
    [volatile], and an NMI of the host interrupts the exit handler at any point.
    A host NMI handler runs to its end before the interrupted code goes on. *)
From Stdlib Require Import ZArith Lia List Bool.
From stdpp Require Import base numbers list option functions relations.
From S2P Require Import Prelude Ia32 Memory Ept Vmcs Vcpu Exception VmcsSetup VmExit.

Section nmi.
Context {ia32 : Ia32}.
Variable supported : vmcs_field -> bool.
Variable rdmsr : Z -> Z.

(** Where the handler of the NMI-window exit is. The decrement of the counter is
    a read and a write; so is the change of the processor-based controls. *)
Inductive point :=
  | at_read_count
  | at_write_count (count : Z)
  | at_inject
  | at_test
  | at_disable
  | at_write_disable (proc_based : Z)
  | at_test_again
  | at_enable
  | at_write_enable (proc_based : Z)
  | at_end.

(** The core, the position, and the NMIs that have arrived and been injected. *)
Record nmi_state := mk_nmi {
  nmi_core : vcpu;
  nmi_point : point;
  arrived : Z;
  delivered : Z
}.

Abbreviation proc_based := VMCS_CTRL_PROCESSOR_BASED_VM_EXECUTION_CONTROLS.
Definition write_proc_based (v : vcpu) (w : Z) : vcpu :=
  with_vmcs v (fun m => fst (write_control_field supported rdmsr m w proc_based
                               IA32_VMX_PROCBASED_CTLS IA32_VMX_TRUE_PROCBASED_CTLS)).
Definition read_proc_based (v : vcpu) : Z := vmx_vmread supported (vcpu_vmcs v) proc_based.

(** One access of the handler. *)
Definition handler_step (s : nmi_state) : option nmi_state :=
  let v := nmi_core s in
  let go v p := Some (mk_nmi v p (arrived s) (delivered s)) in
  match nmi_point s with
  | at_read_count => go v (at_write_count (queued_nmi_count v))
  | at_write_count c => go (v <| queued_nmi_count := u64 (c - 1) |>) at_inject
  | at_inject => Some (mk_nmi (with_vmcs v (inject_nmi supported)) at_test (arrived s) (delivered s + 1))
  | at_test => go v (if queued_nmi_count v =? 0 then at_disable else at_end)
  | at_disable => go v (at_write_disable (set_bit (read_proc_based v) nmi_window_exiting_bit false))
  | at_write_disable w => go (write_proc_based v w) at_test_again
  | at_test_again => go v (if queued_nmi_count v =? 0 then at_end else at_enable)
  | at_enable => go v (at_write_enable (set_bit (read_proc_based v) nmi_window_exiting_bit true))
  | at_write_enable w => go (write_proc_based v w) at_end
  | at_end => None
  end.

(** A host NMI: [exception::handle_nmi]. *)
Definition host_nmi (s : nmi_state) : nmi_state :=
  mk_nmi (enqueue_nmi supported rdmsr (nmi_core s)) (nmi_point s) (arrived s + 1) (delivered s).

(** The point between the two halves of the decrement. *)
Definition decrementing (p : point) : bool :=
  match p with at_write_count _ => true | _ => false end.

(** Steps; [split] says that an NMI may arrive inside the decrement, which is so
    when the compiler does not emit a single instruction for it. *)
Inductive nmi_step (split : bool) : nmi_state -> nmi_state -> Prop :=
  | step_handler s s' : handler_step s = Some s' -> nmi_step split s s'
  | step_host_nmi s : split = true \/ decrementing (nmi_point s) = false ->
      nmi_step split s (host_nmi s).

Definition reaches (split : bool) : nmi_state -> nmi_state -> Prop := rtc (nmi_step split).

(** An NMI-window exit: at least one NMI is queued, and its window is requested. *)
Definition window_exit (v : vcpu) : nmi_state := mk_nmi v at_read_count (queued_nmi_count v) 0.
Definition window_ready (v : vcpu) : Prop :=
  0 < queued_nmi_count v /\ nmi_window_exiting supported (vcpu_vmcs v) = true.

(** ** The invariant *)

(** The processor lets the control take both values. *)
Definition window_flexible : Prop :=
  forall w, 0 <= nmi_window_exiting_bit ->
    Z.testbit (control_value rdmsr w IA32_VMX_PROCBASED_CTLS IA32_VMX_TRUE_PROCBASED_CTLS)
      nmi_window_exiting_bit = Z.testbit w nmi_window_exiting_bit.
Hypothesis flexible : window_flexible.
Hypothesis all_supported : forall f, supported f = true.

Lemma vmcs_write_proc_based v w :
  vcpu_vmcs (write_proc_based v w) =
  vmwrite supported (vcpu_vmcs v) proc_based
    (control_value rdmsr w IA32_VMX_PROCBASED_CTLS IA32_VMX_TRUE_PROCBASED_CTLS).
Proof. cbn. by rewrite write_control_field_eq. Qed.

Lemma window_write v w :
  nmi_window_exiting supported (vcpu_vmcs (write_proc_based v w)) = get_bit w nmi_window_exiting_bit.
Proof.
  rewrite vmcs_write_proc_based. unfold nmi_window_exiting, get_bit.
  rewrite vmread_vmwrite_same by apply all_supported.
  rewrite testbit_wrap by (unfold nmi_window_exiting_bit; lia). cbn [andb].
  apply flexible. unfold nmi_window_exiting_bit. lia.
Qed.

Lemma get_set_window w b : get_bit (set_bit w nmi_window_exiting_bit b) nmi_window_exiting_bit = b.
Proof.
  unfold get_bit, set_bit, nmi_window_exiting_bit. rewrite testbit_set_bits by lia.
  cbn. by destruct b.
Qed.

Lemma enqueue_nmi_eq v :
  enqueue_nmi supported rdmsr v =
  write_proc_based (v <| queued_nmi_count := u64 (queued_nmi_count v + 1) |>)
    (set_bit (read_proc_based v) nmi_window_exiting_bit true).
Proof. reflexivity. Qed.

Abbreviation window v := (nmi_window_exiting supported (vcpu_vmcs v)).

Definition delivered_at (p : point) : Z :=
  match p with at_read_count | at_write_count _ | at_inject => 0 | _ => 1 end.

(** What holds at each point: the NMIs that have arrived and not been injected
    are the queued ones, and whenever one is queued a window is requested, or
    about to be. *)
Definition nmi_inv (s : nmi_state) : Prop :=
  let v := nmi_core s in
  let queued := queued_nmi_count v in
  0 <= queued /\ delivered s = delivered_at (nmi_point s) /\
  match nmi_point s with
  | at_read_count => queued = arrived s - delivered s /\ 0 < queued /\ window v = true
  | at_write_count c => c = queued /\ queued = arrived s - delivered s /\ 0 < queued /\ window v = true
  | at_inject => queued = arrived s - delivered s - 1 /\ window v = true
  | at_test => queued = arrived s - delivered s /\ window v = true
  | at_disable => queued = arrived s - delivered s
  | at_write_disable w => queued = arrived s - delivered s /\ get_bit w nmi_window_exiting_bit = false
  | at_test_again => queued = arrived s - delivered s /\ (queued = 0 -> window v = false)
  | at_end => queued = arrived s - delivered s /\ window v = (0 <? queued)
  | at_enable => queued = arrived s - delivered s /\ 0 < queued
  | at_write_enable w => queued = arrived s - delivered s /\ 0 < queued /\
                         get_bit w nmi_window_exiting_bit = true
  end.
Lemma window_inject v : window (with_vmcs v (inject_nmi supported)) = window v.
Proof.
  unfold nmi_window_exiting, inject_nmi, with_vmcs. cbn. by rewrite vmread_vmwrite_other.
Qed.

Lemma queued_inject v : queued_nmi_count (with_vmcs v (inject_nmi supported)) = queued_nmi_count v.
Proof. reflexivity. Qed.

Lemma window_count v c : window (v <| queued_nmi_count := c |>) = window v.
Proof. reflexivity. Qed.

Lemma queued_write v w : queued_nmi_count (write_proc_based v w) = queued_nmi_count v.
Proof. reflexivity. Qed.

Ltac nmi_solve := repeat split; intros; first [done | lia | tauto].

Ltac nmi_simpl := cbn [nmi_core nmi_point arrived delivered delivered_at decrementing] in *.

Lemma inv_handler_step s s' :
  arrived s < 2 ^ 64 -> nmi_inv s -> handler_step s = Some s' -> nmi_inv s' /\ arrived s' = arrived s.
Proof.
  intros Ha (Hq & Hd & Hp). destruct s as [v p a d].
  unfold handler_step. nmi_simpl.
  destruct p; nmi_simpl; intros [= <-]; unfold nmi_inv;
    cbn [nmi_core nmi_point arrived delivered delivered_at].
  - destruct Hp as (? & ? & ?). nmi_solve.
  - destruct Hp as (-> & E & Hpos & Hw). rewrite window_count.
    cbn [queued_nmi_count set]. unfold set. cbn [queued_nmi_count]. rewrite wrap_small by lia. nmi_solve.
  - destruct Hp as (E & Hw). rewrite window_inject, queued_inject. nmi_solve.
  - destruct Hp as (E & Hw). destruct (Z.eqb_spec (queued_nmi_count v) 0); cbn [delivered_at]; [nmi_solve |].
    split; [| done]. split; [done |]. split; [lia |]. split; [lia |].
    rewrite Hw. symmetry. apply Z.ltb_lt. lia.
  - rewrite get_set_window. nmi_solve.
  - destruct Hp as (E & Hw). rewrite window_write, queued_write, Hw. nmi_solve.
  - destruct Hp as (E & Hw). destruct (Z.eqb_spec (queued_nmi_count v) 0) as [E0 |]; cbn [delivered_at]; [| nmi_solve].
    rewrite E0, Hw by done. nmi_solve.
  - rewrite get_set_window. nmi_solve.
  - destruct Hp as (E & Hpos & Hw). rewrite window_write, queued_write, Hw.
    split; [| done]. split; [done |]. split; [done |]. split; [done |]. symmetry. by apply Z.ltb_lt.
Qed.

Lemma inv_host_nmi s :
  arrived s + 1 < 2 ^ 64 -> decrementing (nmi_point s) = false -> nmi_inv s -> nmi_inv (host_nmi s).
Proof.
  intros Ha Hn (Hq & Hd & Hp). unfold host_nmi. rewrite enqueue_nmi_eq.
  destruct s as [v p a d]. nmi_simpl.
  set (v' := write_proc_based _ _).
  assert (window v' = true) as Hw.
  { unfold v'. rewrite window_write. apply get_set_window. }
  assert (delivered_at p <= 1 /\ 0 <= delivered_at p) by (destruct p; cbn; lia).
  assert (queued_nmi_count v + 1 < 2 ^ 64 -> queued_nmi_count v' = queued_nmi_count v + 1) as Eq.
  { intros Hb. unfold v'. rewrite queued_write.
    apply (wrap_small 64 (queued_nmi_count v + 1)). lia. }
  clearbody v'. unfold nmi_inv; nmi_simpl. destruct p; nmi_simpl; try discriminate Hn;
    rewrite ?Hw, ?Eq by lia; repeat split; intros; try (done || lia || tauto).
Qed.

Lemma inv_reaches s s' :
  reaches false s s' -> nmi_inv s -> arrived s' < 2 ^ 64 -> nmi_inv s' /\ arrived s <= arrived s'.
Proof.
  intros Hr Hi. revert Hi. induction Hr as [s | s s1 s' Hs Hr IH]; intros Hi Ha; [done |].
  assert (forall s1 s', reaches false s1 s' -> arrived s1 <= arrived s') as Hmono.
  { clear. intros s s' H. induction H as [| s s1 s' Hs _ IH]; [done |].
    enough (arrived s <= arrived s1) by lia. destruct Hs as [s s1 Hs | s _]; [| cbn; lia].
    destruct s as [v [] a d]; cbn in Hs; try discriminate Hs; by injection Hs as <-. }
  pose proof (Hmono _ _ Hr) as Hle.
  destruct Hs as [s s1 Hs | s [[=] | Hn]].
  - assert (arrived s1 = arrived s) as E.
    { destruct s as [v [] a d]; cbn in Hs; try discriminate Hs; by injection Hs as <-. }
    destruct (inv_handler_step s s1 ltac:(lia) Hi Hs) as [Hi1 _].
    destruct (IH Hi1 Ha). split; [done | lia].
  - cbn in Hle. pose proof (inv_host_nmi s ltac:(lia) Hn Hi) as Hi1.
    destruct (IH Hi1 Ha). split; [done | lia].
Qed.

(** ** Properties *)

(** (C24) No NMI is lost and none is invented while the handler of an NMI-window
    exit runs, wherever the host's NMIs arrive, as long as none arrives inside
    the decrement of the counter: at the end one NMI has been injected, the
    others that have arrived are queued, and the next window is requested exactly
    if some are. *)
Theorem nmi_window_no_lost_nmi v s :
  window_ready v -> reaches false (window_exit v) s -> nmi_point s = at_end ->
  arrived s < 2 ^ 64 ->
  delivered s = 1 /\ queued_nmi_count (nmi_core s) = arrived s - delivered s /\
  nmi_window_exiting supported (vcpu_vmcs (nmi_core s)) = (0 <? queued_nmi_count (nmi_core s)).
Proof.
  intros [Hq Hw] Hr Hp Ha.
  assert (nmi_inv (window_exit v)) as Hi by (unfold nmi_inv, window_exit; nmi_simpl; nmi_solve).
  destruct (inv_reaches _ _ Hr Hi Ha) as [(_ & Hd & He) _]. rewrite Hp in *. nmi_simpl. rewrite Hd in *. tauto.
Qed.

(** An NMI that arrives between the read and the write of the decrement is
    lost: with one NMI queued, the handler can end with two arrived, one injected,
    none queued and no window requested. *)
Theorem nmi_lost_in_decrement v :
  queued_nmi_count v = 1 ->
  exists s, reaches true (window_exit v) s /\ nmi_point s = at_end /\
    arrived s = 2 /\ delivered s = 1 /\ queued_nmi_count (nmi_core s) = 0 /\
    nmi_window_exiting supported (vcpu_vmcs (nmi_core s)) = false.
Proof.
  intros Hq. eexists. split.
  - eapply rtc_l; [apply step_handler; reflexivity |].
    eapply rtc_l; [apply step_host_nmi; by left |].
    unfold host_nmi, window_exit. cbn [nmi_core nmi_point arrived delivered]. rewrite Hq.
    eapply rtc_l; [apply step_handler; reflexivity |].
    eapply rtc_l; [apply step_handler; reflexivity |].
    eapply rtc_l; [apply step_handler; reflexivity |].
    eapply rtc_l; [apply step_handler; reflexivity |].
    eapply rtc_l; [apply step_handler; reflexivity |].
    eapply rtc_l; [apply step_handler; reflexivity |].
    apply rtc_refl.
  - cbn [nmi_core nmi_point arrived delivered]. do 4 (split; [reflexivity |]).
    rewrite window_write. apply get_set_window.
Qed.
End nmi.

(** ** Instances at concrete inputs *)

(** A processor on which every primary control may take both values. *)
Definition flexible_rdmsr (a : Z) : Z := if a =? 0x482 then Z.shiftl (Z.ones 32) 32 else 0.

Lemma flexible_window : window_flexible flexible_rdmsr.
Proof.
  intros w _. unfold control_value. change (vmx_controls _) with false.
  change (flexible_rdmsr _) with (Z.shiftl (Z.ones 32) 32).
  rewrite testbit_constrain by (unfold nmi_window_exiting_bit; lia).
  change (Z.testbit (Z.shiftl (Z.ones 32) 32) nmi_window_exiting_bit) with false.
  change (Z.testbit (Z.shiftl (Z.ones 32) 32) (nmi_window_exiting_bit + 32)) with true.
  by rewrite orb_false_r, andb_true_r.
Qed.

Definition one_queued : vcpu := enqueue_nmi (fun _ => true) flexible_rdmsr zero_vcpu.

(** A second NMI arrives after the injection, before the counter is tested. *)
Lemma nmi_window_no_lost_nmi_witness :
  exists s, reaches (fun _ => true) flexible_rdmsr false (window_exit one_queued) s /\
    arrived s = 2 /\ queued_nmi_count (nmi_core s) = 1 /\
    nmi_window_exiting (fun _ => true) (vcpu_vmcs (nmi_core s)) = true.
Proof.
  eexists. match goal with |- ?A /\ _ => assert A as Hr end.
  { do 3 (eapply rtc_l; [apply step_handler; reflexivity |]).
    eapply rtc_l; [apply step_host_nmi; right; reflexivity |].
    eapply rtc_l; [apply step_handler; reflexivity |]. apply rtc_refl. }
  destruct (nmi_window_no_lost_nmi (fun _ => true) flexible_rdmsr flexible_window (fun _ => eq_refl)
    one_queued _ ltac:(split; reflexivity) Hr eq_refl eq_refl) as (Hd & Hq & Hw).
  split; [exact Hr |]. split; [reflexivity |]. split; [exact Hq |]. exact Hw.
Defined.

Lemma nmi_lost_in_decrement_witness :
  exists s, reaches (fun _ => true) flexible_rdmsr true (window_exit one_queued) s /\
    arrived s - delivered s = 1 /\ queued_nmi_count (nmi_core s) = 0.
Proof.
  destruct (nmi_lost_in_decrement (fun _ => true) flexible_rdmsr flexible_window (fun _ => eq_refl)
    one_queued eq_refl) as (s & Hr & _ & Ha & Hd & Hq & _).
  exists s. split; [exact Hr |]. split; [rewrite Ha, Hd; reflexivity | exact Hq].
Defined.
