(* ===== verification/Hypercall.v ===== *)
(** * Hypercalls: [revhv-km/hypercall.cpp], [common/hypercall_types.hpp]

    The requests of the guest: VMCALL with a key in RAX and a number in RCX. The
    handlers read their parameters from registers and guest memory, work on the
    tables and buffers of the core and on the shared state, and answer in RAX. *)
From Stdlib Require Import ZArith Lia List Bool.
From stdpp Require Import base numbers list option functions.
From S2P Require Import Prelude Ia32 Memory Mtrr Paging Trace TransitionCfg Ept Vmcs Vcpu.
From S2P Require Import Exception Introspection Logging Hv VmExit.

Definition HYPERCALL_KEY : Z := 0x5245564856.
Definition MAX_VMEM_CHUNK_SIZE : Z := 0x1000.

Inductive hypercall_number :=
  | ping | flush_standard_logs_number | read_vmem | write_vmem | ept_hook_number
  | enable_auto_trace_number | disable_auto_trace_number | flush_trace_logs | get_apic_info
  | test_host_df | at_config_ept_transition | set_onload_target | clear_onload_target
  | unknown_number.

Definition hypercall_of (rcx : Z) : hypercall_number :=
  match rcx with
  | 1 => ping | 2 => flush_standard_logs_number | 3 => read_vmem | 4 => write_vmem
  | 5 => ept_hook_number | 6 => enable_auto_trace_number | 7 => disable_auto_trace_number
  | 8 => flush_trace_logs | 9 => get_apic_info | 10 => test_host_df | 11 => at_config_ept_transition
  | 12 => set_onload_target | 13 => clear_onload_target
  | _ => unknown_number
  end.

(** A 64-bit member of a structure. *)
Definition u64_at (buf : list Z) (off : Z) : Z := le_combine (slice buf off 8).

(** [sizeof(hypercall_local_buffer) / sizeof(trace::entry)]. *)
Definition local_buffer_size : Z := 4096.
Definition batch_capacity : Z := local_buffer_size / sizeof_entry.

(** Bits of CPUID leaf 1 and of the APIC base register. *)
Definition CPUID_X2APIC : Z := 21.
Definition IA32_APIC_BASE : Z := 0x1B.
Definition APIC_BASE_X2APIC_ENABLE : Z := 10.

Section hypercall.
Context {ia32 : Ia32} {mtrr_layout : MtrrLayout} {exit_layout : ExitLayout}.
Variable supported : vmcs_field -> bool.
Variable env : environment.

Definition gpr_of (s : machine) (r : gpr) : Z := guest_context (core s) r.
Definition set_rax (s : machine) (x : Z) : machine :=
  on_core s (fun v => v <| guest_context := <[rax := x]> (guest_context v) |>).

(** ** Guest memory *)

(** [n] bytes at a guest address under the current CR3, into a zeroed buffer. *)
Definition read_guest (s : machine) (gva n : Z) : outcome (machine * list Z * Z) :=
  let! (v, buf, k) := read_guest_virtual_current supported (msrs s) (env_crash_in_progress env)
      (env_copy_fault env) (physical_memory s) (core s) gva (repeat 0 (Z.to_nat n)) n in
  Ok (s <| core := v |>, buf, k).

Definition write_guest (s : machine) (gva : Z) (buf : list Z) (n : Z) : outcome (machine * Z) :=
  let! (m, v, k) := write_guest_virtual_current supported (msrs s) (env_crash_in_progress env)
      (env_copy_fault env) (physical_memory s) (core s) gva buf n in
  Ok (s <| core := v |> <| physical_memory := m |>, k).

(** The same for any address space; the bytes go to the core's scratch buffer. *)
Definition read_to_local (s : machine) (cr3 gva n : Z) : outcome (machine * Z) :=
  let! (v, buf, k) := read_guest_virtual supported (msrs s) (env_crash_in_progress env)
      (env_copy_fault env) (physical_memory s) (core s) cr3 gva (hypercall_local_buffer (core s)) n in
  Ok (s <| core := v <| hypercall_local_buffer := buf |> |>, k).

Definition write_from_local (s : machine) (cr3 gva n : Z) : outcome (machine * Z) :=
  let! (m, v, k) := write_guest_virtual supported (msrs s) (env_crash_in_progress env)
      (env_copy_fault env) (physical_memory s) (core s) cr3 gva (hypercall_local_buffer (core s)) n in
  Ok (s <| core := v |> <| physical_memory := m |>, k).

Definition guest_cr3 (s : machine) : Z := get_guest_cr3 supported (vcpu_vmcs (core s)).

Definition clear_local_buffer (s : machine) : machine :=
  on_core s (fun v => v <| hypercall_local_buffer := repeat 0 (Z.to_nat local_buffer_size) |>).

(** [sizeof(vmem_request)]. *)
Definition sizeof_vmem_request : Z := 32.

(** The address space of a request: the system's by default. *)
Definition request_cr3 (s : machine) (request : list Z) : Z :=
  let target_cr3 := u64_at request 24 in
  if target_cr3 =? 0 then system_cr3 (shared s) else target_cr3.

Definition handle_vmem_read (s : machine) : outcome machine :=
  let s := clear_local_buffer s in
  let! (s, request, n) := read_guest s (gpr_of s rdx) sizeof_vmem_request in
  if negb (n =? sizeof_vmem_request) then Ok (set_rax s 0) else
  let bytes_to_read := Z.min (u64_at request 16) MAX_VMEM_CHUNK_SIZE in
  if bytes_to_read =? 0 then Ok (set_rax s 0) else
  let guest_buffer := u64_at request 0 in
  let target_va := u64_at request 8 in
  let! (s, bytes_read) := read_to_local s (request_cr3 s request) target_va bytes_to_read in
  if bytes_read =? 0 then Ok (set_rax s 0) else
  let! (s, written) := write_guest s guest_buffer (hypercall_local_buffer (core s)) bytes_read in
  if negb (written =? bytes_read) then Ok (set_rax s 0) else
  Ok (set_rax s bytes_read).

Definition handle_vmem_write (s : machine) : outcome machine :=
  let s := clear_local_buffer s in
  let! (s, request, n) := read_guest s (gpr_of s rdx) sizeof_vmem_request in
  if negb (n =? sizeof_vmem_request) then Ok (set_rax s 0) else
  let bytes_to_write := Z.min (u64_at request 16) MAX_VMEM_CHUNK_SIZE in
  if bytes_to_write =? 0 then Ok (set_rax s 0) else
  let guest_buffer := u64_at request 0 in
  let target_va := u64_at request 8 in
  let target_cr3 := request_cr3 s request in
  let! (s, bytes_read) := read_to_local s (guest_cr3 s) guest_buffer bytes_to_write in
  if bytes_read =? 0 then Ok (set_rax s 0) else
  let! (s, bytes_written) := write_from_local s target_cr3 target_va bytes_read in
  if bytes_written =? 0 then Ok (set_rax s 0) else
  Ok (set_rax s bytes_written).

(** ** Logs *)

Definition handle_ping (s : machine) : machine := set_rax s 1.

Definition handle_flush_standard_logs (s : machine) : outcome machine :=
  let! (m, v, l, flushed) := flush_standard_logs supported (msrs s) (env_crash_in_progress env)
      (env_copy_fault env) (physical_memory s) (core s) (logger (shared s)) (gpr_of s rdx) (gpr_of s r8) in
  let s := s <| core := v |> <| physical_memory := m |> <| shared := (shared s) <| logger := l |> |> in
  Ok (set_rax s flushed).

(** ** Hooks and tracing *)

(** The second table is not touched when the first is full; what was added to the
    first stays. *)
Definition handle_ept_hook (s : machine) : outcome machine :=
  let orig_pfn := gpr_of s rdx in
  let hook_pfn := gpr_of s r8 in
  let! (normal, ok) := add_hook (ept_pages_normal (core s)) orig_pfn hook_pfn in
  let s := on_core s (fun v => v <| ept_pages_normal := normal |>) in
  let! (s, ok) :=
    if ok then
      let! (target, ok) := add_hook (ept_pages_target (core s)) orig_pfn hook_pfn in
      Ok (on_core s (fun v => v <| ept_pages_target := target |>), ok)
    else Ok (s, false) in
  Ok (invept (set_rax s (b2z ok))).

(** [memory::gva_to_gpa(hv::g_hv.system_cr3, va, nullptr)]. *)
Definition system_gva_to_gpa (s : machine) (va : Z) : outcome Z :=
  let! (gpa, _) := gva_to_gpa (physical_memory s) (system_cr3 (shared s)) va 0 in Ok gpa.

(** A function of both tables of the core. *)
Definition on_tables (s : machine) (f : ept_pages -> outcome ept_pages) : outcome machine :=
  let! normal := f (ept_pages_normal (core s)) in
  let! target := f (ept_pages_target (core s)) in
  Ok (on_core s (fun v => v <| ept_pages_normal := normal |> <| ept_pages_target := target |>)).

Definition handle_enable_auto_trace (s : machine) : outcome machine :=
  let target_va := gpr_of s rdx in
  let target_size := gpr_of s r8 in
  let! s := on_tables s deactivate_hooks in
  let! (normal, target, ok) := enable_auto_trace (system_gva_to_gpa s)
      (ept_pages_normal (core s)) (ept_pages_target (core s)) target_va target_size in
  let s := on_core s (fun v => v <| ept_pages_normal := normal |> <| ept_pages_target := target |>) in
  if (ok : bool) then
    let s := on_core s (fun v =>
      v <| trace_buffer := (trace_buffer v) <| write_head := 0 |> <| read_tail := 0 |> <| active := 1 |> |>) in
    let s := on_core s (fun v => switch_eptp supported v true) in
    Ok (set_rax (invept s) 1)
  else
    let! s := on_tables s reactivate_hooks in
    Ok (set_rax (invept s) 0).

(** RAX is left alone. *)
Definition handle_disable_auto_trace (s : machine) : outcome machine :=
  let s := on_core s (fun v => v <| trace_buffer := (trace_buffer v) <| active := 0 |> |>) in
  let '(normal, target) := restore_auto_trace (ept_pages_normal (core s)) (ept_pages_target (core s)) in
  let s := on_core s (fun v => v <| ept_pages_normal := normal |> <| ept_pages_target := target |>) in
  let! s := on_tables s reactivate_hooks in
  Ok (invept (on_core s (fun v => switch_eptp supported v true))).

(** The trace buffer of a core, which may be this one. *)
Definition trace_buffer_of (s : machine) (c : Z) : ring_buffer :=
  if c =? vcpu_core_id (core s) then trace_buffer (core s) else vcpu_trace_buffers (shared s) c.
Definition set_trace_buffer_of (s : machine) (c : Z) (b : ring_buffer) : machine :=
  if c =? vcpu_core_id (core s) then on_core s (fun v => v <| trace_buffer := b |>)
  else s <| shared := (shared s) <| vcpu_trace_buffers := <[c := b]> (vcpu_trace_buffers (shared s)) |> |>.

(** The loop over the batches: the state and [total_flushed]. Every round that
    goes on flushes an entry, so [fuel] is at most [max_entries]. *)
Fixpoint flush_loop (fuel : nat) (s : machine) (target_core guest_buffer max_entries total_flushed : Z)
    : outcome (machine * Z) :=
  if negb (total_flushed <? max_entries) then Ok (s, total_flushed) else
  match fuel with
  | O => Undefined
  | S fuel =>
      let to_drain := Z.min (max_entries - total_flushed) batch_capacity in
      let '(batch, b) := drain (trace_buffer_of s target_core) to_drain in
      let s := set_trace_buffer_of s target_core b in
      let s := on_core s (fun v => v <| hypercall_local_buffer :=
                   overlay (hypercall_local_buffer v) 0 (concat (map entry_bytes batch)) |>) in
      let drained := Z.of_nat (length batch) in
      if drained =? 0 then Ok (s, total_flushed) else
      let bytes_to_write := drained * sizeof_entry in
      let dest := guest_buffer +64 (total_flushed * sizeof_entry) in
      let! (s, written) := write_guest s dest (hypercall_local_buffer (core s)) bytes_to_write in
      if negb (written =? bytes_to_write) then Ok (s, total_flushed)
      else flush_loop fuel s target_core guest_buffer max_entries (total_flushed + drained)
  end.

Definition handle_flush_trace_logs (s : machine) : outcome machine :=
  let target_core := gpr_of s rdx in
  let guest_buffer := gpr_of s r8 in
  if vcpu_count (shared s) <=? target_core then Ok (set_rax s 0) else
  let max_entries := Z.min (gpr_of s r9) max_flush_entries in
  let! (s, total_flushed) := flush_loop (Z.to_nat max_entries) s target_core guest_buffer max_entries 0 in
  Ok (set_rax s total_flushed).

Definition sizeof_at_config_request : Z := 16.

(** [req.cfg]. *)
Definition request_cfg (request : list Z) : ept_transition_cfg := map field_of_byte (slice request 8 6).

Definition handle_at_config_ept_transition (s : machine) : outcome machine :=
  let scope := gpr_of s rdx in
  let! (s, request, n) := read_guest s (gpr_of s r8) sizeof_at_config_request in
  if negb (n =? sizeof_at_config_request) then Ok (set_rax s 0)
  else if scope =? 0 then
    let s := on_core s (fun v => v <| transitions :=
               (transitions v) <| generic_transition_cfg := request_cfg request |> |>) in
    Ok (set_rax s 1)
  else if scope =? 1 then
    let '(ok, t) := insert_exact_transition_cfg (transitions (core s)) (u64_at request 0) (request_cfg request) in
    Ok (set_rax (on_core s (fun v => v <| transitions := t |>)) (b2z ok))
  else Ok (set_rax s 0).

(** ** Queries and the onload target *)

Definition is_x2apic_enabled (s : machine) : bool :=
  get_bit (cpuid_1_ecx env) CPUID_X2APIC && get_bit (msrs s IA32_APIC_BASE) APIC_BASE_X2APIC_ENABLE.
Definition get_lapic_mmio_phys_base (s : machine) : Z :=
  Z.shiftl (bits (msrs s IA32_APIC_BASE) 12 36) 12.

(** The bytes of [apic_info], with its padding. *)
Definition apic_info (s : machine) : list Z :=
  let x2apic := is_x2apic_enabled s in
  le_split 8 (if x2apic then 0 else get_lapic_mmio_phys_base s) ++ b2z x2apic :: repeat 0 7.

Definition handle_get_apic_info (s : machine) : outcome machine :=
  let! (s', n) := write_guest s (gpr_of s rdx) (apic_info s) 16 in
  Ok (set_rax s' (b2z (n =? 16))).

Definition handle_set_onload_target (s : machine) : outcome machine :=
  let! (s, request, n) := read_guest s (gpr_of s rdx) max_onload_name_length in
  if negb (n =? max_onload_name_length) then Ok (set_rax s 0) else
  let driver_name := <[Z.to_nat (max_onload_name_length - 1) := 0]> request in
  let s := s <| shared := (shared s) <| onload_target := mk_onload true driver_name |> |> in
  Ok (set_rax s 1).

Definition handle_clear_onload_target (s : machine) : machine :=
  let name := onload_name (onload_target (shared s)) in
  let s := s <| shared := (shared s) <| onload_target := mk_onload false (<[0%nat := 0]> name) |> |> in
  set_rax s 1.

(** ** Dispatch *)

(** [test_host_df] trashes the host's stack pointer, and the double fault that
    follows is an unrecoverable error. *)
Definition run_hypercall (s : machine) (n : hypercall_number) : outcome machine :=
  match n with
  | ping => Ok (handle_ping s)
  | flush_standard_logs_number => handle_flush_standard_logs s
  | read_vmem => handle_vmem_read s
  | write_vmem => handle_vmem_write s
  | ept_hook_number => handle_ept_hook s
  | enable_auto_trace_number => handle_enable_auto_trace s
  | disable_auto_trace_number => handle_disable_auto_trace s
  | flush_trace_logs => handle_flush_trace_logs s
  | get_apic_info => handle_get_apic_info s
  | at_config_ept_transition => handle_at_config_ept_transition s
  | set_onload_target => handle_set_onload_target s
  | clear_onload_target => Ok (handle_clear_onload_target s)
  | test_host_df => Crash
  | unknown_number => Ok s
  end.

(** [None] if RAX is not the key. *)
Definition handle_hypercall (s : machine) : outcome (option machine) :=
  if negb (gpr_of s rax =? HYPERCALL_KEY) then Ok None else
  let! s := run_hypercall s (hypercall_of (gpr_of s rcx)) in Ok (Some s).

(** The VMCALL exit with this interface. *)
Definition vmcall (s : machine) : outcome machine := handle_vmcall supported handle_hypercall s.

(** ** Lemmas *)

Context `{!Ia32Ok ia32}.
Hypothesis no_faults : forall a n, env_copy_fault env a n = None.
Abbreviation len l := (Z.of_nat (length l)).

(** No exception is pending on the core. *)
Definition quiet (s : machine) : Prop := exception_occurred (exn_info (core s)) = false.

(** The guest bytes of a range under the current CR3. *)
Definition guest_range (s : machine) (gva n : Z) : outcome (list Z) :=
  guest_bytes (physical_memory s) (guest_cr3 s) gva (Z.to_nat n).

(** A range the hypervisor can write: mapped, apart from the page tables, without
    aliases. *)
Record writable (m : mem) (cr3 gva size : Z) (g : Z -> Z) : Prop := {
  writable_start : 0 < gva;
  writable_end : gva + size <= 2 ^ 64;
  writable_mapped : mapped_range m cr3 gva size g;
  writable_apart : tables_apart m cr3 gva size g;
  writable_aliases : no_aliases size g
}.

(** Only RAX, the scratch buffer of the core and physical memory have changed. *)
Definition answered (s : machine) (x : Z) (m : mem) (s' : machine) : Prop :=
  exists buf, s' = (set_rax (on_core s (fun v => v <| hypercall_local_buffer := buf |>)) x)
                     <| physical_memory := m |>.

Lemma overlay_all n bs : length bs = Z.to_nat n -> overlay (repeat 0 (Z.to_nat n)) 0 bs = bs.
Proof.
  intros Hl. unfold overlay. rewrite take_0, drop_ge by (rewrite repeat_length; cbn; lia). by rewrite app_nil_r.
Qed.

Lemma slice_overlay buf bs n :
  n = len bs -> slice (overlay buf 0 bs) 0 n = bs.
Proof. intros ->. unfold slice, overlay. change (Z.to_nat 0) with 0%nat.
  rewrite drop_0, Nat2Z.id, (take_0 buf). exact (take_app_length bs _). Qed.

Lemma read_guest_ok s gva n bs :
  quiet s -> 0 < gva -> 0 < n -> gva + n <= 2 ^ 64 -> guest_range s gva n = Ok bs ->
  read_guest s gva n = Ok (s, overlay (repeat 0 (Z.to_nat n)) 0 bs, len bs).
Proof.
  intros Hq Hg Hn Hw Hb. unfold read_guest, read_guest_virtual_current.
  destruct (Z.eqb_spec gva 0), (Z.eqb_spec n 0); try lia. cbn [orb].
  rewrite read_virtual_ok by (done || rewrite ?repeat_length; lia).
  unfold guest_range, guest_cr3 in Hb. rewrite Hb. cbn [obind]. by destruct s.
Qed.

Lemma read_to_local_ok s cr3 gva n bs :
  quiet s -> 0 < gva -> 0 < n <= len (hypercall_local_buffer (core s)) -> gva + n <= 2 ^ 64 ->
  guest_bytes (physical_memory s) cr3 gva (Z.to_nat n) = Ok bs ->
  read_to_local s cr3 gva n =
    Ok (on_core s (fun v => v <| hypercall_local_buffer := overlay (hypercall_local_buffer v) 0 bs |>), len bs).
Proof.
  intros Hq Hg Hn Hw Hb. unfold read_to_local. rewrite read_virtual_ok by (done || lia).
  by rewrite Hb.
Qed.

Lemma write_guest_ok s gva buf n g :
  quiet s -> 0 < n <= len buf -> writable (physical_memory s) (guest_cr3 s) gva n g ->
  exists m, write_guest s gva buf n = Ok (s <| physical_memory := m |>, n) /\
    written (physical_memory s) g n buf n m.
Proof.
  intros Hq Hn [Hg He Hmap Hap Hal]. unfold write_guest, write_guest_virtual_current.
  destruct (Z.eqb_spec gva 0), (Z.eqb_spec n 0); try lia. cbn [orb].
  destruct (write_virtual_ok supported (msrs s) (env_crash_in_progress env) (env_copy_fault env)
    (physical_memory s) (core s) (guest_cr3 s) gva n g buf no_faults Hq Hg Hn He Hmap Hap Hal) as (m & E & Hw).
  unfold guest_cr3 in *. rewrite E. cbn [obind]. exists m. split; [by destruct s | done].
Qed.

Lemma write_from_local_ok s cr3 gva n g :
  quiet s -> 0 < n <= len (hypercall_local_buffer (core s)) -> writable (physical_memory s) cr3 gva n g ->
  exists m, write_from_local s cr3 gva n = Ok (s <| physical_memory := m |>, n) /\
    written (physical_memory s) g n (hypercall_local_buffer (core s)) n m.
Proof.
  intros Hq Hn [Hg He Hmap Hap Hal]. unfold write_from_local.
  destruct (write_virtual_ok supported (msrs s) (env_crash_in_progress env) (env_copy_fault env)
    (physical_memory s) (core s) cr3 gva n g (hypercall_local_buffer (core s)) no_faults Hq Hg Hn He Hmap Hap Hal)
    as (m & E & Hw).
  rewrite E. cbn [obind]. exists m. split; [by destruct s | done].
Qed.

(** Reading back what was written from the front of a buffer. *)
Lemma written_read_back m cr3 gva n g buf m' :
  writable m cr3 gva n g -> 0 <= n <= len buf -> written m g n buf n m' ->
  guest_bytes m' cr3 gva (Z.to_nat n) = Ok (slice buf 0 n).
Proof.
  intros [Hg He Hmap Hap Hal] Hn Hw.
  pose proof (guest_bytes_written m cr3 gva n g buf Hmap Hap ltac:(lia) m' (Z.to_nat n) 0 Hw ltac:(lia)
    ltac:(lia)) as E. by rewrite Z.add_0_r, Z2Nat.id in E by lia.
Qed.

(** A request block in guest memory. *)
Definition request_at (s : machine) (gva n : Z) (bs : list Z) : Prop :=
  0 < gva /\ gva + n <= 2 ^ 64 /\ guest_range s gva n = Ok bs /\ len bs = n.

Lemma read_request_ok s gva n bs :
  quiet s -> 0 < n -> request_at s gva n bs -> read_guest s gva n = Ok (s, bs, n).
Proof.
  intros Hq Hn (Hg & Hw & Hb & Hl). rewrite (read_guest_ok s gva n bs) by (done || lia).
  by rewrite overlay_all, Hl by lia.
Qed.

(** *** Flushing trace entries *)

Lemma concat_map_app {A B} (f : A -> list B) l l' : concat (map f (l ++ l')) = concat (map f l) ++ concat (map f l').
Proof. by rewrite map_app, concat_app. Qed.

Lemma concat_entries_length l : len (concat (map entry_bytes l)) = len l * sizeof_entry.
Proof.
  rewrite (concat_length_const _ 64), length_map.
  - change sizeof_entry with 64. lia.
  - apply Forall_map, Forall_true. intros e. apply entry_bytes_length.
Qed.

(** A run of entries inside a longer one, as bytes. *)
Lemma slice_entries l t d :
  0 <= t -> 0 <= d -> t + d <= len l ->
  slice (concat (map entry_bytes l)) (t * sizeof_entry) (d * sizeof_entry) =
    concat (map entry_bytes (take (Z.to_nat d) (drop (Z.to_nat t) l))).
Proof.
  intros Ht Hd Hl. pose proof (take_drop (Z.to_nat t) l) as E1. pose proof (take_drop (Z.to_nat d) (drop (Z.to_nat t) l)) as E2.
  set (l1 := take (Z.to_nat t) l) in *. set (l2 := take (Z.to_nat d) (drop (Z.to_nat t) l)) in *.
  assert (len l1 = t) as L1 by (unfold l1; rewrite length_take; lia).
  assert (len l2 = d) as L2 by (unfold l2; rewrite length_take, length_drop; lia).
  pose proof (concat_entries_length l1) as B1. pose proof (concat_entries_length l2) as B2.
  change sizeof_entry with 64 in *.
  rewrite <- E1 at 1. rewrite <- E2 at 1. rewrite !concat_map_app. unfold slice.
  rewrite drop_app_length' by lia. apply take_app_length'. lia.
Qed.

Section flush.
Variables (m0 : mem) (cr3 c guest_buffer max_entries : Z) (g : Z -> Z) (q : list entry).
Definition flushed_count : Z := Z.min max_entries (len q).
Hypothesis Hmax : 0 <= max_entries.
Hypothesis Hdst : 0 < flushed_count -> writable m0 cr3 guest_buffer (flushed_count * sizeof_entry) g.

(** After [t] entries. *)
Record flushing (s0 : machine) (t : Z) (s : machine) : Prop := {
  flushing_quiet : quiet s;
  flushing_cr3 : guest_cr3 s = cr3;
  flushing_local : len (hypercall_local_buffer (core s)) = local_buffer_size;
  flushing_wf : ring_wf (trace_buffer_of s c);
  flushing_queue : queue (trace_buffer_of s c) = drop (Z.to_nat t) q;
  flushing_memory : written m0 g (flushed_count * sizeof_entry)
    (concat (map entry_bytes (take (Z.to_nat flushed_count) q))) (t * sizeof_entry) (physical_memory s);
  flushing_others : forall c', c' <> c -> trace_buffer_of s c' = trace_buffer_of s0 c'
}.

Lemma trace_buffer_of_set s c' b :
  trace_buffer_of (set_trace_buffer_of s c b) c' = if c' =? c then b else trace_buffer_of s c'.
Proof.
  unfold trace_buffer_of, set_trace_buffer_of. destruct (Z.eqb_spec c (vcpu_core_id (core s))) as [-> | Hne].
  - cbn. by destruct (c' =? vcpu_core_id (core s)).
  - cbn. unfold insert, fn_insert. destruct (Z.eqb_spec c' (vcpu_core_id (core s))) as [-> |].
    + destruct (Z.eqb_spec (vcpu_core_id (core s)) c); [by subst | done].
    + destruct (Z.eqb_spec c' c) as [-> |]; by case_decide.
Qed.

(** What draining a batch into the scratch buffer keeps. *)
Lemma drain_batch s0 t s b batch n :
  flushing s0 t s -> 0 <= t -> 0 <= n <= batch_capacity -> (batch, b) = drain (trace_buffer_of s c) n ->
  let s1 := on_core (set_trace_buffer_of s c b) (fun v => v <| hypercall_local_buffer :=
              overlay (hypercall_local_buffer v) 0 (concat (map entry_bytes batch)) |>) in
  batch = take (Z.to_nat n) (drop (Z.to_nat t) q) /\ physical_memory s1 = physical_memory s /\
  hypercall_local_buffer (core s1) = overlay (hypercall_local_buffer (core s)) 0 (concat (map entry_bytes batch)) /\
  (len batch * sizeof_entry <= local_buffer_size) /\
  forall m, written m0 g (flushed_count * sizeof_entry)
    (concat (map entry_bytes (take (Z.to_nat flushed_count) q))) ((t + len batch) * sizeof_entry) m ->
    flushing s0 (t + len batch) (s1 <| physical_memory := m |>).
Proof.
  intros [Hq Hc Hl Hwf Hqu _ Ho] Ht Hn Ed s1. pose proof (drain_ok (trace_buffer_of s c) n Hwf) as Hd.
  rewrite <- Ed in Hd. destruct Hd as (Hwf' & Hb & Hq'). rewrite Hqu in Hb, Hq'.
  assert (len batch <= batch_capacity) as Hcap by (rewrite Hb, length_take; lia).
  change batch_capacity with 64 in Hcap.
  assert (len batch * sizeof_entry <= local_buffer_size) as Hfit.
  { change local_buffer_size with 4096. change sizeof_entry with 64. lia. }
  assert (hypercall_local_buffer (core (set_trace_buffer_of s c b)) = hypercall_local_buffer (core s)) as El.
  { unfold set_trace_buffer_of. by destruct (_ =? _). }
  split; [exact Hb |]. split; [unfold s1, set_trace_buffer_of; by destruct (_ =? _) |].
  split; [unfold s1; cbn; by rewrite El |]. split; [exact Hfit |]. intros m Hm.
  assert (forall c', trace_buffer_of (s1 <| physical_memory := m |>) c' =
    trace_buffer_of (set_trace_buffer_of s c b) c') as Etb by done.
  split.
  - unfold quiet, s1, set_trace_buffer_of. by destruct (_ =? _).
  - rewrite <- Hc. unfold guest_cr3, s1, set_trace_buffer_of. by destruct (_ =? _).
  - change (len (overlay (hypercall_local_buffer (core (set_trace_buffer_of s c b))) 0
      (concat (map entry_bytes batch))) = local_buffer_size).
    rewrite El, overlay_length by (rewrite ?concat_entries_length; lia). exact Hl.
  - rewrite Etb, trace_buffer_of_set, Z.eqb_refl. exact Hwf'.
  - rewrite Etb, trace_buffer_of_set, Z.eqb_refl, Hq', drop_drop.
    rewrite Hb, length_take, length_drop.
    destruct (Nat.le_gt_cases (Z.to_nat n) (length q - Z.to_nat t)).
    + f_equal. lia.
    + rewrite !drop_ge by lia. done.
  - exact Hm.
  - intros c' Hne. rewrite Etb, trace_buffer_of_set. destruct (Z.eqb_spec c' c); [done | by apply Ho].
Qed.

Lemma flush_loop_ok fuel s0 s t :
  flushing s0 t s -> 0 <= t <= flushed_count -> max_entries - t <= Z.of_nat fuel ->
  exists s', flush_loop fuel s c guest_buffer max_entries t = Ok (s', flushed_count) /\
    flushing s0 flushed_count s'.
Proof.
  revert s t. induction fuel as [| fuel IH]; intros s t Hfl Ht Hf; cbn [flush_loop];
    unfold flushed_count in Ht; destruct (Z.ltb_spec t max_entries); cbn [negb]; try lia.
  1, 3: exists s; assert (t = flushed_count) as <- by (unfold flushed_count; lia); done.
  set (n := Z.min (max_entries - t) batch_capacity).
  assert (0 < n <= batch_capacity) as Hn by (change batch_capacity with 64 in *; lia).
  destruct (drain (trace_buffer_of s c) n) as [batch b] eqn:Ed. symmetry in Ed.
  destruct (drain_batch s0 t s b batch n Hfl ltac:(lia) ltac:(lia) Ed) as (Hb & Hmem & Hlocal & Hfit & Hnext).
  set (s1 := on_core _ _) in *.
  assert (len batch = Z.min n (len q - t)) as Hlb by (rewrite Hb, length_take, length_drop; lia).
  destruct (Z.eqb_spec (len batch) 0) as [Hz | Hz].
  { specialize (Hnext (physical_memory s)). rewrite Hz, Z.add_0_r in Hnext.
    assert (t = flushed_count) as Et by (unfold flushed_count; lia).
    exists s1. rewrite Et. split; [done |]. rewrite <- Et.
    assert (s1 <| physical_memory := physical_memory s |> = s1) as Es by (rewrite <- Hmem; by destruct s1).
    rewrite Es in Hnext. apply Hnext, (flushing_memory _ _ _ Hfl). }
  assert (t + len batch <= flushed_count) as Hle by (unfold flushed_count; lia).
  destruct (Hdst ltac:(lia)) as [Hg He Hmap Hap Hal].
  assert (guest_buffer +64 (t * sizeof_entry) = guest_buffer + t * sizeof_entry) as ->.
  { apply wrap_small. change sizeof_entry with 64 in *. lia. }
  set (all := concat (map entry_bytes (take (Z.to_nat flushed_count) q))) in *.
  assert (len (take (Z.to_nat flushed_count) q) = flushed_count) as Hlq
    by (rewrite length_take; unfold flushed_count in *; lia).
  assert (len all = flushed_count * sizeof_entry) as Hall
    by (unfold all; by rewrite concat_entries_length, Hlq).
  assert (slice all (t * sizeof_entry) (len batch * sizeof_entry) = concat (map entry_bytes batch)) as Hslice.
  { unfold all. rewrite slice_entries by lia. do 2 f_equal. rewrite Hb at 2.
    rewrite skipn_firstn_comm, take_take.
    destruct (Z.le_gt_cases n (len q - t)); [f_equal; lia |].
    by rewrite !take_ge by (rewrite length_drop; lia). }
  pose proof (flushing_memory _ _ _ Hfl) as Hw. fold all in Hw.
  assert (quiet s1) as Hq1 by (unfold quiet, s1, set_trace_buffer_of; destruct (_ =? _); apply Hfl).
  assert (guest_cr3 s1 = cr3) as Hc1
    by (rewrite <- (flushing_cr3 _ _ _ Hfl); unfold guest_cr3, s1, set_trace_buffer_of; by destruct (_ =? _)).
  pose proof (concat_entries_length batch) as Hbytes.
  destruct (write_piece_ok supported (msrs s1) (env_crash_in_progress env) (env_copy_fault env) m0 cr3 guest_buffer
    (flushed_count * sizeof_entry) g all Hmap Hap Hal Hg He ltac:(lia) (core s1) (physical_memory s)
    (t * sizeof_entry) (len batch * sizeof_entry) (hypercall_local_buffer (core s1)) no_faults Hq1 Hw)
    as (m & E & Hw'); [change sizeof_entry with 64 in *; lia ..| | |].
  { rewrite Hlocal, overlay_length; rewrite ?(flushing_local _ _ _ Hfl); lia. }
  { rewrite Hlocal, Hslice. apply slice_overlay. lia. }
  unfold write_guest, write_guest_virtual_current. rewrite Hmem.
  destruct (Z.eqb_spec (guest_buffer + t * sizeof_entry) 0); [change sizeof_entry with 64 in *; lia |].
  destruct (Z.eqb_spec (len batch * sizeof_entry) 0); [change sizeof_entry with 64 in *; lia |]. cbn [orb].
  unfold guest_cr3 in Hc1. rewrite Hc1, E. cbn [obind]. rewrite Z.eqb_refl. cbn [negb].
  assert (s1 <| core := core s1 |> <| physical_memory := m |> = s1 <| physical_memory := m |>) as -> by done.
  apply IH; [| lia | lia]. apply Hnext. fold all. by rewrite Z.mul_add_distr_r.
Qed.
End flush.

(** *** Hooks and tracing *)

Definition tables_inv (s : machine) : Prop := ept_inv (ept_pages_normal (core s)) /\ ept_inv (ept_pages_target (core s)).

Lemma on_tables_ok s f :
  is_ok (f (ept_pages_normal (core s))) -> is_ok (f (ept_pages_target (core s))) ->
  exists n t, f (ept_pages_normal (core s)) = Ok n /\ f (ept_pages_target (core s)) = Ok t /\
    on_tables s f = Ok (on_core s (fun v => v <| ept_pages_normal := n |> <| ept_pages_target := t |>)).
Proof. intros [n En] [t Et]. exists n, t. unfold on_tables. by rewrite En, Et. Qed.

(** The hooks of a table before and after: all recorded, active where they were
    active, trapping exactly their frames, and every frame mapped to itself. *)
Record hooks_armed (p p' : ept_pages) : Prop := {
  armed_inv : ept_inv p';
  armed_hooks : Forall2 resumed (hooks p) (hooks p');
  armed_identity : forall n, 0 <= n < page_count -> pfn_at p' n = Some n;
  armed_exec : forall n, 0 <= n < page_count ->
    (hooked (hooks p') n -> exec_at p' n = Some false) /\ (~ hooked (hooks p') n -> exec_at p' n = Some true)
}.

(** Restoring a traced table [p1] of a table [p] whose hooks were suspended. *)
Lemma restore_ok p p1 :
  ept_inv p -> ept_wf p1 -> hooks p1 = map deactivated (hooks p) ->
  (forall ij t, pde p ij = pde_table t -> pde p1 ij = pde_table t) ->
  (forall n, 0 <= n < page_count -> pfn_at p1 n = Some n) ->
  exists p', reactivate_hooks (set_all_permissions p1 true true true) = Ok p' /\ hooks_armed p p'.
Proof.
  intros Hinv Hwf Hh Hmono Hid. pose proof Hinv as [_ Hhs _ Hcnt Hfr].
  destruct (set_all_permissions_ok p1 true true true Hwf) as (Hwf' & Hh' & He').
  destruct (resume_ok p (set_all_permissions p1 true true true) Hhs Hcnt Hfr) as (p' & E & Hi & Hr & Ht & Hp).
  - intros ij t Hij. by apply set_all_permissions_mono, Hmono.
  - done.
  - by rewrite Hh'.
  - intros n Hn. specialize (Hid n Hn). unfold pfn_at in *. rewrite He' by done.
    by destruct (page_entry p1 n).
  - exists p'. split; [done |]. split; [done | done | intros n Hn; by apply Hp |].
    intros n Hn. split.
    + intros Hk. destruct (Ht n Hk) as (e & E1 & _ & Ex). unfold exec_at. rewrite E1. cbn. by rewrite Ex.
    + intros Hk. destruct (Hp n Hn) as [_ [E1 |]]; [| done]. unfold exec_at. rewrite E1, He' by done.
      by destruct (page_entry_is_some _ _ Hwf Hn) as [e ->].
Qed.

Lemma disable_ok s n t :
  reactivate_hooks (set_all_permissions (ept_pages_normal (core s)) true true true) = Ok n ->
  reactivate_hooks (set_all_permissions (ept_pages_target (core s)) true true true) = Ok t ->
  exists s', handle_disable_auto_trace s = Ok s' /\
    active (trace_buffer (core s')) = 0 /\ in_normal_execution (core s') = true /\
    vcpu_vmcs (core s') = change_eptp supported (vcpu_vmcs (core s)) (eptp_normal_execution (core s)) /\
    ept_pages_normal (core s') = n /\ ept_pages_target (core s') = t.
Proof.
  destruct s as [[x1 x2 x3 x4 x5 x6 x7 x8 x9 x10 x11 x12 x13 x14 x15 x16 x17 x18] m r i h]. cbn [core ept_pages_normal ept_pages_target]. intros En Et.
  unfold handle_disable_auto_trace, restore_auto_trace, on_tables, on_core.
  cbv beta iota zeta delta [core]. reduce_vcpu.
  rewrite En. cbn [obind]. rewrite Et. cbn [obind]. eexists. split; [reflexivity |].
  cbn [core invept set]. unfold set, switch_eptp, with_vmcs. reduce_vcpu. by repeat split.
Qed.

(** The tables while tracing. *)
Lemma enable_tables_ok s s' :
  tables_inv s -> handle_enable_auto_trace s = Ok s' -> gpr_of s' rax = 1 ->
  let traced p p' := ept_wf p' /\ hooks p' = map deactivated (hooks p) /\
    (forall ij t, pde p ij = pde_table t -> pde p' ij = pde_table t) /\
    (forall n, 0 <= n < page_count -> pfn_at p' n = Some n) in
  traced (ept_pages_normal (core s)) (ept_pages_normal (core s')) /\
  traced (ept_pages_target (core s)) (ept_pages_target (core s')) /\
  eptp_normal_execution (core s') = eptp_normal_execution (core s).
Proof.
  intros [Hn Ht] H Hrax traced. unfold handle_enable_auto_trace in H.
  destruct (deactivate_ok _ Hn) as (n1 & En & Wn & Pn & Hhn & In).
  destruct (deactivate_ok _ Ht) as (t1 & Et & Wt & Pt & Hht & It).
  unfold on_tables in H. rewrite En, Et in H. cbn [obind] in H. cbv beta zeta in H.
  set (s1 := on_core s _) in H.
  change (ept_pages_normal (core s1)) with n1 in H. change (ept_pages_target (core s1)) with t1 in H.
  change (gpr_of s rdx) with (gpr_of s rdx) in H.
  destruct (enable_auto_trace _ n1 t1 _ _) as [[[n2 t2] ok] | |] eqn:E; cbn [obind] in H; [| done | done].
  unfold enable_auto_trace in E.
  destruct (set_all_permissions_ok t1 true true false Wt) as (Wt1 & Hht1 & It1).
  destruct (auto_trace_loop_ok _ _ _ _ _ _ _ _ Wn Wt1 E) as (Wn2 & Wt2 & Hhn2 & Hht2 & I2).
  pose proof (auto_trace_loop_mono _ _ _ _ _ _ _ _ Wn Wt1 E) as M.
  destruct ok; [| exfalso].
  - injection H as <-. unfold traced. cbn. split; [| split; [| done]].
    + split; [done |]. split; [congruence |]. split.
      * intros ij t Hij. apply (M ij t). by rewrite Pn.
      * intros n Hr. destruct (I2 n Hr) as [-> _]. by apply In.
    + split; [done |]. split; [congruence |]. split.
      * intros ij t Hij. apply (M ij t). apply set_all_permissions_mono. by rewrite Pt.
      * intros n Hr. destruct (I2 n Hr) as (_ & -> & _). destruct (It n Hr) as [Hp _].
        unfold pfn_at in *. rewrite It1 by done. by destruct (page_entry t1 n).
  - unfold on_tables in H.
    destruct (reactivate_hooks _) as [n3 | |] in H; cbn [obind] in H; [| done | done].
    destruct (reactivate_hooks _) as [t3 | |] in H; cbn [obind] in H; [| done | done].
    injection H as <-. by cbv in Hrax.
Qed.

(** *** What a hypercall leaves alone *)

(** The fields of the VMCS but the EPT pointer, the registers but RAX and the
    MSRs; and no exception is left pending. *)
Record kept (s s' : machine) : Prop := {
  kept_vmcs : forall f, f <> VMCS_CTRL_EPT_POINTER ->
    vmx_vmread supported (vcpu_vmcs (core s')) f = vmx_vmread supported (vcpu_vmcs (core s)) f;
  kept_gprs : forall r, r <> rax -> guest_context (core s') r = guest_context (core s) r;
  kept_msrs : msrs s' = msrs s;
  kept_ok : (forall f, is_u64 (vcpu_vmcs (core s) f)) -> forall f, is_u64 (vcpu_vmcs (core s') f);
  kept_quiet : quiet s -> quiet s'
}.

Lemma kept_refl s : kept s s.
Proof. by split. Qed.

Lemma kept_trans s1 s2 s3 : kept s1 s2 -> kept s2 s3 -> kept s1 s3.
Proof.
  intros [A1 B1 C1 D1 E1] [A2 B2 C2 D2 E2]. split; auto; [| | congruence].
  - intros f Hf. rewrite A2 by done. by apply A1.
  - intros r Hr. rewrite B2 by done. by apply B1.
Qed.

Lemma kept_same s s' :
  vcpu_vmcs (core s') = vcpu_vmcs (core s) -> guest_context (core s') = guest_context (core s) ->
  exn_info (core s') = exn_info (core s) -> msrs s' = msrs s -> kept s s'.
Proof. intros E1 E2 E3 E4. split; unfold quiet; rewrite ?E1, ?E2, ?E3, ?E4; done. Qed.

Lemma kept_set_rax s x : kept s (set_rax s x).
Proof. split; try done. intros r Hr. cbn. unfold insert, fn_insert. by case_decide. Qed.

Lemma kept_switch_eptp s b : kept s (on_core s (fun v => switch_eptp supported v b)).
Proof.
  split; try done.
  - intros f Hf. cbn. unfold change_eptp. by rewrite vmread_vmwrite_other.
  - intros Hok f. cbn. unfold change_eptp, vmwrite, vmx_vmwrite.
    destruct (supported _); cbn; [| apply Hok]. unfold insert, fn_insert. case_decide; [| apply Hok].
    apply wrap_range. lia.
Qed.

(** A run that keeps this of [s]; [keeps_bind] chains two runs. *)
Definition keeps {A} (s : machine) (state : A -> machine) (m : outcome A) : Prop :=
  ensures (fun r => kept s (state r)) m.

Lemma keeps_ok {A} s (state : A -> machine) a : kept s (state a) -> keeps s state (Ok a).
Proof. done. Qed.

Lemma keeps_bind {A B} s (st : A -> machine) (st' : B -> machine) m (k : A -> outcome B) :
  keeps s st m -> (forall a, kept s (st a) -> keeps s st' (k a)) -> keeps s st' (obind m k).
Proof. apply ensures_bind. Qed.

Lemma keeps_from {A} s s1 (state : A -> machine) m : kept s s1 -> keeps s1 state m -> keeps s state m.
Proof. intros Hk. destruct m; cbn; [by apply kept_trans | done | done]. Qed.

Lemma read_guest_keeps s gva n : quiet s -> keeps s (fun r => r.1.1) (read_guest s gva n).
Proof.
  intros Hq. unfold read_guest, read_guest_virtual_current. eapply ensures_bind.
  - instantiate (1 := fun r => r.1.1 = core s).
    destruct ((gva =? 0) || (n =? 0)); [reflexivity |]. by apply read_virtual_core.
  - intros [[v buf] k] E. cbn [fst] in E. rewrite E. by apply kept_same.
Qed.

Lemma write_guest_keeps s gva buf n : quiet s -> keeps s fst (write_guest s gva buf n).
Proof.
  intros Hq. unfold write_guest, write_guest_virtual_current. eapply ensures_bind.
  - instantiate (1 := fun r => r.1.2 = core s).
    destruct ((gva =? 0) || (n =? 0)); [reflexivity |]. by apply write_virtual_core.
  - intros [[m v] k] E. cbn [fst snd] in E. rewrite E. by apply kept_same.
Qed.

Lemma read_to_local_keeps s cr3 gva n : quiet s -> keeps s fst (read_to_local s cr3 gva n).
Proof.
  intros Hq. unfold read_to_local. eapply ensures_bind; [by apply read_virtual_core |].
  intros [[v buf] k] E. cbn [fst] in E. rewrite E. by apply kept_same.
Qed.

Lemma write_from_local_keeps s cr3 gva n : quiet s -> keeps s fst (write_from_local s cr3 gva n).
Proof.
  intros Hq. unfold write_from_local. eapply ensures_bind; [by apply write_virtual_core |].
  intros [[m v] k] E. cbn [fst snd] in E. rewrite E. by apply kept_same.
Qed.

Lemma on_tables_keeps s f : keeps s id (on_tables s f).
Proof.
  unfold on_tables. destruct (f _); cbn [obind]; [| exact I | exact I].
  destruct (f _); cbn [obind]; [| exact I | exact I]. by apply kept_same.
Qed.

Lemma keeps_rax s s1 x : kept s s1 -> keeps s id (Ok (set_rax s1 x)).
Proof. intros K. apply (kept_trans s s1 _ K), kept_set_rax. Qed.

(** The run before a bind, from the state [s1] reached so far. *)
Lemma keeps_step {A B} s s1 (st : A -> machine) (st' : B -> machine) m (k : A -> outcome B) :
  kept s s1 -> keeps s1 st m -> (forall a, kept s (st a) -> keeps s st' (k a)) -> keeps s st' (obind m k).
Proof. intros K Hm. apply keeps_bind. by apply (keeps_from s s1). Qed.

Create HintDb kept.
#[local] Hint Resolve kept_refl keeps_rax kept_quiet : kept.
#[local] Hint Resolve read_guest_keeps write_guest_keeps read_to_local_keeps write_from_local_keeps : kept.
#[local] Hint Resolve on_tables_keeps : kept.

(** Step over a bind from the state of [K], and name what is kept after it. *)
Tactic Notation "keep_step" hyp(K) "as" simple_intropattern(r) ident(K') :=
  eapply (keeps_step _ _ _ _ _ _ K); [solve [eauto with kept] |]; intros r K'; cbn [fst] in K'.

Lemma vmem_read_keeps s : quiet s -> keeps s id (handle_vmem_read s).
Proof.
  intros Hq. unfold handle_vmem_read.
  assert (kept s (clear_local_buffer s)) as K0 by by apply kept_same.
  keep_step K0 as [[s1 request] n] K1. destruct (negb _); [eauto with kept |].
  destruct (_ =? 0); [eauto with kept |].
  keep_step K1 as [s2 k] K2. destruct (_ =? 0); [eauto with kept |].
  keep_step K2 as [s3 k'] K3. destruct (negb _); eauto with kept.
Qed.

Lemma vmem_write_keeps s : quiet s -> keeps s id (handle_vmem_write s).
Proof.
  intros Hq. unfold handle_vmem_write.
  assert (kept s (clear_local_buffer s)) as K0 by by apply kept_same.
  keep_step K0 as [[s1 request] n] K1. destruct (negb _); [eauto with kept |].
  destruct (_ =? 0); [eauto with kept |].
  keep_step K1 as [s2 k] K2. destruct (_ =? 0); [eauto with kept |].
  keep_step K2 as [s3 k'] K3. destruct (_ =? 0); eauto with kept.
Qed.

Lemma flush_standard_logs_keeps s : quiet s -> keeps s id (handle_flush_standard_logs s).
Proof.
  intros Hq. unfold handle_flush_standard_logs. eapply ensures_bind; [by apply flush_core |].
  intros [[[m v] l] n] E. cbn [fst snd] in E. rewrite E. apply keeps_rax. by apply kept_same.
Qed.

Lemma ept_hook_keeps s : keeps s id (handle_ept_hook s).
Proof.
  unfold handle_ept_hook. destruct (add_hook _ _ _) as [[normal ok] | |]; cbn [obind]; [| exact I | exact I].
  eapply keeps_bind.
  - instantiate (1 := fst). destruct ok; [| by apply kept_same].
    destruct (add_hook _ _ _) as [[target ok] | |]; cbn [obind]; [| exact I | exact I]. by apply kept_same.
  - intros [s1 ok'] K. apply (kept_trans s s1 _ K).
    apply (kept_trans _ (set_rax s1 (b2z ok'))); [apply kept_set_rax | by apply kept_same].
Qed.

Lemma enable_keeps s : keeps s id (handle_enable_auto_trace s).
Proof.
  unfold handle_enable_auto_trace. pose proof (kept_refl s) as K0. keep_step K0 as s1 K1.
  destruct (enable_auto_trace _ _ _ _ _) as [[[normal target] ok] | |]; cbn [obind]; [| exact I | exact I].
  set (s2 := on_core s1 _).
  assert (kept s s2) as K2 by (apply (kept_trans s s1 _ K1); by apply kept_same).
  destruct ok.
  - apply keeps_rax. set (s3 := on_core s2 _).
    assert (kept s s3) as K3 by (apply (kept_trans s s2 _ K2); by apply kept_same).
    apply (kept_trans s s3 _ K3). eapply kept_trans; [apply kept_switch_eptp | by apply kept_same].
  - keep_step K2 as s3 K3. apply keeps_rax. apply (kept_trans s s3 _ K3). by apply kept_same.
Qed.

Lemma disable_keeps s : keeps s id (handle_disable_auto_trace s).
Proof.
  unfold handle_disable_auto_trace, restore_auto_trace. set (s1 := on_core s _). set (s2 := on_core s1 _).
  assert (kept s s2) as K2.
  { apply (kept_trans s s1); by apply kept_same. }
  keep_step K2 as s3 K3. apply (kept_trans s s3 _ K3).
  eapply kept_trans; [apply kept_switch_eptp | by apply kept_same].
Qed.

Lemma kept_set_trace_buffer s c b : kept s (set_trace_buffer_of s c b).
Proof. unfold set_trace_buffer_of. destruct (_ =? _); by apply kept_same. Qed.

Lemma flush_loop_keeps fuel s s1 c guest_buffer max total :
  quiet s -> kept s s1 -> keeps s fst (flush_loop fuel s1 c guest_buffer max total).
Proof.
  intros Hq. revert s1 total. induction fuel as [| fuel IH]; intros s1 total K; cbn [flush_loop];
    (destruct (total <? max); cbn [negb]; [| exact K]); [exact I |].
  destruct (drain _ _) as [batch b]. set (s2 := on_core (set_trace_buffer_of s1 c b) _).
  assert (kept s s2) as K2.
  { apply (kept_trans s s1 _ K). eapply kept_trans; [apply kept_set_trace_buffer | by apply kept_same]. }
  destruct (_ =? 0); [exact K2 |]. keep_step K2 as [s3 k] K3. destruct (negb _); [exact K3 |]. by apply IH.
Qed.

Lemma flush_trace_logs_keeps s : quiet s -> keeps s id (handle_flush_trace_logs s).
Proof.
  intros Hq. unfold handle_flush_trace_logs. pose proof (kept_refl s) as K0.
  destruct (_ <=? _); [eauto with kept |]. eapply keeps_bind; [by apply (flush_loop_keeps _ s s) |].
  intros [s1 n] K. by apply keeps_rax.
Qed.

Lemma at_config_keeps s : quiet s -> keeps s id (handle_at_config_ept_transition s).
Proof.
  intros Hq. unfold handle_at_config_ept_transition. pose proof (kept_refl s) as K0.
  keep_step K0 as [[s1 request] n] K1. destruct (negb _); [eauto with kept |]. destruct (_ =? 0).
  { apply keeps_rax. apply (kept_trans s s1 _ K1). by apply kept_same. }
  destruct (_ =? 1); [| eauto with kept]. destruct (insert_exact_transition_cfg _ _ _) as [ok t].
  apply keeps_rax. apply (kept_trans s s1 _ K1). by apply kept_same.
Qed.

Lemma apic_info_keeps s : quiet s -> keeps s id (handle_get_apic_info s).
Proof.
  intros Hq. unfold handle_get_apic_info. pose proof (kept_refl s) as K0.
  keep_step K0 as [s1 n] K1. eauto with kept.
Qed.

Lemma set_onload_keeps s : quiet s -> keeps s id (handle_set_onload_target s).
Proof.
  intros Hq. unfold handle_set_onload_target. pose proof (kept_refl s) as K0.
  keep_step K0 as [[s1 request] n] K1. destruct (negb _); [eauto with kept |].
  apply keeps_rax. apply (kept_trans s s1 _ K1). by apply kept_same.
Qed.

(** No hypercall touches more of the guest than RAX and memory. *)
Lemma run_hypercall_keeps s n : quiet s -> keeps s id (run_hypercall s n).
Proof.
  intros Hq. destruct n; cbn [run_hypercall].
  - apply keeps_rax, kept_refl.
  - by apply flush_standard_logs_keeps.
  - by apply vmem_read_keeps.
  - by apply vmem_write_keeps.
  - apply ept_hook_keeps.
  - apply enable_keeps.
  - apply disable_keeps.
  - by apply flush_trace_logs_keeps.
  - by apply apic_info_keeps.
  - exact I.
  - by apply at_config_keeps.
  - by apply set_onload_keeps.
  - apply keeps_rax. by apply kept_same.
  - apply kept_refl.
Qed.

(** Active hooks are skipped when hooks are reactivated. *)
Lemma reactivate_active p : Forall (fun h => hook_pte h <> None) (hooks p) -> reactivate_hooks p = Ok p.
Proof.
  intros Ha. unfold reactivate_hooks.
  assert (forall hs acc, Forall (fun h => hook_pte h <> None) hs ->
    fold_left reactivate_hook hs (Ok (p, acc)) = Ok (p, acc ++ hs)) as Hf.
  { induction hs as [| h hs IH]; intros acc Hh; [by rewrite app_nil_r |].
    apply list.Forall_cons in Hh as [Hh Hhs]. cbn [fold_left reactivate_hook obind].
    destruct (hook_pte h) eqn:E; [| done]. rewrite IH by done. by rewrite <- app_assoc. }
  rewrite Hf by done. cbn [obind app]. by destruct p.
Qed.

(** ** Properties *)

(** Reading virtual memory for the guest: given a readable request block,
    the bytes at the target address, under the requested address space or the
    system's, up to the first unmapped one and at most 1000H of them, arrive in
    the caller's buffer; RAX tells how many. No other memory changes, and of
    the core only RAX and the scratch buffer. *)
Theorem vmem_read_spec s request bs g :
  quiet s -> request_at s (gpr_of s rdx) sizeof_vmem_request request ->
  let size := Z.min (u64_at request 16) MAX_VMEM_CHUNK_SIZE in
  let target_va := u64_at request 8 in
  let guest_buffer := u64_at request 0 in
  0 < size -> 0 < target_va -> target_va + size <= 2 ^ 64 ->
  guest_bytes (physical_memory s) (request_cr3 s request) target_va (Z.to_nat size) = Ok bs ->
  (bs <> [] -> writable (physical_memory s) (guest_cr3 s) guest_buffer (len bs) g) ->
  exists s' m, handle_vmem_read s = Ok s' /\ answered s (len bs) m s' /\
    len bs <= MAX_VMEM_CHUNK_SIZE /\
    guest_bytes m (guest_cr3 s) guest_buffer (length bs) = Ok bs /\
    (forall a, outside (len bs) g a -> m a = physical_memory s a).
Proof.
  intros Hq Hreq size target_va guest_buffer Hs Hva Hw Hb Hdst.
  pose proof (guest_bytes_length _ _ _ _ _ Hb) as Hl.
  assert (size <= MAX_VMEM_CHUNK_SIZE) by (unfold size; lia).
  unfold handle_vmem_read. set (s1 := clear_local_buffer s).
  change (gpr_of s1 rdx) with (gpr_of s rdx).
  rewrite (read_request_ok s1 (gpr_of s rdx) sizeof_vmem_request request Hq eq_refl Hreq).
  cbn [obind]. rewrite Z.eqb_refl. cbn [negb]. fold size. destruct (Z.eqb_spec size 0); [lia |].
  assert (len (hypercall_local_buffer (core s1)) = MAX_VMEM_CHUNK_SIZE) as Hlocal by reflexivity.
  rewrite (read_to_local_ok s1 _ _ _ bs) by (done || lia). cbn [obind].
  set (s2 := on_core s1 _). destruct (Z.eqb_spec (len bs) 0) as [Hz | Hz].
  { assert (bs = []) as -> by (by destruct bs). exists (set_rax s2 0), (physical_memory s).
    split; [done |]. split; [eexists; reflexivity |]. split; [done |]. done. }
  assert (bs <> []) as Hne by (intros ->; done).
  assert (len (hypercall_local_buffer (core s2)) = MAX_VMEM_CHUNK_SIZE) as Hlocal2.
  { change (hypercall_local_buffer (core s2)) with (overlay (hypercall_local_buffer (core s1)) 0 bs).
    rewrite overlay_length by lia. exact Hlocal. }
  assert (0 < len bs <= len (hypercall_local_buffer (core s2))) as Hlen by (rewrite Hlocal2; lia).
  destruct (write_guest_ok s2 guest_buffer (hypercall_local_buffer (core s2)) (len bs) g Hq Hlen (Hdst Hne))
    as (m & E & Hwr). fold guest_buffer. rewrite E. cbn [obind]. rewrite Z.eqb_refl. cbn [negb].
  exists (set_rax (s2 <| physical_memory := m |>) (len bs)), m. split; [done |].
  split; [eexists; reflexivity |]. split; [lia |]. split; [| apply (written_frame _ _ _ _ _ _ Hwr)].
  assert (0 <= len bs <= len (hypercall_local_buffer (core s2))) as Hlen' by lia.
  pose proof (written_read_back _ _ _ _ _ _ _ (Hdst Hne) Hlen' Hwr) as Hback.
  rewrite Nat2Z.id in Hback. etransitivity; [exact Hback |]. f_equal.
  apply (slice_overlay (hypercall_local_buffer (core s1)) bs). reflexivity.
Qed.

(** Writing virtual memory for the guest: the bytes of the caller's buffer up
    to the first unmapped one and at most 1000H of them arrive at the target
    address in the requested address space; RAX tells how many, and no other
    memory changes. *)
Theorem vmem_write_spec s request bs g :
  quiet s -> request_at s (gpr_of s rdx) sizeof_vmem_request request ->
  let size := Z.min (u64_at request 16) MAX_VMEM_CHUNK_SIZE in
  let target_va := u64_at request 8 in
  let guest_buffer := u64_at request 0 in
  0 < size -> 0 < guest_buffer -> guest_buffer + size <= 2 ^ 64 ->
  guest_range s guest_buffer size = Ok bs ->
  (bs <> [] -> writable (physical_memory s) (request_cr3 s request) target_va (len bs) g) ->
  exists s' m, handle_vmem_write s = Ok s' /\ answered s (len bs) m s' /\
    len bs <= MAX_VMEM_CHUNK_SIZE /\
    guest_bytes m (request_cr3 s request) target_va (length bs) = Ok bs /\
    (forall a, outside (len bs) g a -> m a = physical_memory s a).
Proof.
  intros Hq Hreq size target_va guest_buffer Hs Hva Hw Hb Hdst.
  pose proof (guest_bytes_length _ _ _ _ _ Hb) as Hl.
  assert (size <= MAX_VMEM_CHUNK_SIZE) by (unfold size; lia).
  unfold handle_vmem_write. set (s1 := clear_local_buffer s).
  change (gpr_of s1 rdx) with (gpr_of s rdx).
  rewrite (read_request_ok s1 (gpr_of s rdx) sizeof_vmem_request request Hq eq_refl Hreq).
  cbn [obind]. rewrite Z.eqb_refl. cbn [negb]. fold size. destruct (Z.eqb_spec size 0); [lia |].
  assert (len (hypercall_local_buffer (core s1)) = MAX_VMEM_CHUNK_SIZE) as Hlocal by reflexivity.
  rewrite (read_to_local_ok s1 _ _ _ bs) by (done || lia). cbn [obind].
  set (s2 := on_core s1 _). destruct (Z.eqb_spec (len bs) 0) as [Hz | Hz].
  { assert (bs = []) as -> by (by destruct bs). exists (set_rax s2 0), (physical_memory s).
    split; [done |]. split; [eexists; reflexivity |]. split; [done |]. done. }
  assert (bs <> []) as Hne by (intros ->; done).
  assert (len (hypercall_local_buffer (core s2)) = MAX_VMEM_CHUNK_SIZE) as Hlocal2.
  { change (hypercall_local_buffer (core s2)) with (overlay (hypercall_local_buffer (core s1)) 0 bs).
    rewrite overlay_length by lia. exact Hlocal. }
  assert (0 < len bs <= len (hypercall_local_buffer (core s2))) as Hlen by (rewrite Hlocal2; lia).
  destruct (write_from_local_ok s2 (request_cr3 s request) target_va (len bs) g Hq Hlen (Hdst Hne))
    as (m & E & Hwr). change (request_cr3 s1 request) with (request_cr3 s request).
  fold target_va. rewrite E. cbn [obind]. destruct (Z.eqb_spec (len bs) 0); [lia |].
  exists (set_rax (s2 <| physical_memory := m |>) (len bs)), m. split; [done |].
  split; [eexists; reflexivity |]. split; [lia |]. split; [| apply (written_frame _ _ _ _ _ _ Hwr)].
  assert (0 <= len bs <= len (hypercall_local_buffer (core s2))) as Hlen' by lia.
  pose proof (written_read_back _ _ _ _ _ _ _ (Hdst Hne) Hlen' Hwr) as Hback.
  rewrite Nat2Z.id in Hback. etransitivity; [exact Hback |]. f_equal.
  apply (slice_overlay (hypercall_local_buffer (core s1)) bs). reflexivity.
Qed.

(** Flushing the trace: the oldest entries of the requested core, as many as
    the caller has room for and at most 512, leave its queue and arrive in the
    caller's buffer in order, byte for byte; RAX is their number. It works for
    the calling core and for others alike, and leaves the queues of the other
    cores and the rest of memory alone. The loop over batches always ends. *)
Theorem flush_trace_logs_spec s g :
  let c := gpr_of s rdx in
  let q := queue (trace_buffer_of s c) in
  let k := Z.min (Z.min (gpr_of s r9) max_flush_entries) (len q) in
  quiet s -> len (hypercall_local_buffer (core s)) = local_buffer_size ->
  ring_wf (trace_buffer_of s c) -> c < vcpu_count (shared s) -> 0 <= gpr_of s r9 ->
  (0 < k -> writable (physical_memory s) (guest_cr3 s) (gpr_of s r8) (k * sizeof_entry) g) ->
  exists s', handle_flush_trace_logs s = Ok s' /\ gpr_of s' rax = k /\
    queue (trace_buffer_of s' c) = drop (Z.to_nat k) q /\
    (forall c', c' <> c -> trace_buffer_of s' c' = trace_buffer_of s c') /\
    guest_bytes (physical_memory s') (guest_cr3 s) (gpr_of s r8) (Z.to_nat (k * sizeof_entry)) =
      Ok (concat (map entry_bytes (take (Z.to_nat k) q))) /\
    (forall a, outside (k * sizeof_entry) g a -> physical_memory s' a = physical_memory s a).
Proof.
  intros c q k Hq Hl Hwf Hc Hr9 Hdst. unfold handle_flush_trace_logs. fold c.
  destruct (Z.leb_spec (vcpu_count (shared s)) c); [lia |].
  set (max := Z.min (gpr_of s r9) max_flush_entries) in *.
  assert (0 <= max) as Hmax by (unfold max, max_flush_entries; lia).
  assert (flushed_count max q = k) as Ek by done.
  assert (flushing (physical_memory s) (guest_cr3 s) c max g q s 0 s) as H0.
  { split; try done. by split; [lia |]. }
  destruct (flush_loop_ok (physical_memory s) (guest_cr3 s) c (gpr_of s r8) max g q Hmax Hdst
    (Z.to_nat max) s s 0 H0) as (s' & E & Hf); [rewrite Ek; lia | lia |].
  rewrite Ek in *. rewrite E. cbn [obind]. exists (set_rax s' k).
  destruct Hf as [_ _ _ _ Hqu Hw Ho]. rewrite Ek in Hw.
  assert (forall c', trace_buffer_of (set_rax s' k) c' = trace_buffer_of s' c') as Htb by done.
  split; [done |]. split; [done |]. split; [by rewrite Htb |].
  split; [intros c' Hne; rewrite Htb; by apply Ho |].
  split; [| apply (written_frame _ _ _ _ _ _ Hw)].
  assert (len (take (Z.to_nat k) q) = k) as Hk by (rewrite length_take; lia).
  pose proof (concat_entries_length (take (Z.to_nat k) q)) as Hb. rewrite Hk in Hb.
  destruct (Z.eq_dec k 0) as [-> |]; [done |].
  assert (0 <= k * sizeof_entry <= len (concat (map entry_bytes (take (Z.to_nat k) q)))) as Hfit
    by (rewrite Hb; change sizeof_entry with 64; lia).
  pose proof (written_read_back (physical_memory s) (guest_cr3 s) (gpr_of s r8) (k * sizeof_entry) g _ _
    (Hdst ltac:(lia)) Hfit Hw) as Hback.
  etransitivity; [exact Hback |]. f_equal. unfold slice. rewrite drop_0. apply take_ge. lia.
Qed.

(** (C5) A tracing session gives everything back: after a successful enable, a
    disable succeeds, leaves tracing off and the core on the normal table, and
    both tables as before the session: every hook that was active is active
    again and traps its frame, every other frame is executable, and every frame
    maps to itself. *)
Theorem auto_trace_session s s1 :
  (forall f, supported f = true) -> tables_inv s ->
  handle_enable_auto_trace s = Ok s1 -> gpr_of s1 rax = 1 ->
  exists s2, handle_disable_auto_trace s1 = Ok s2 /\
    active (trace_buffer (core s1)) = 1 /\ active (trace_buffer (core s2)) = 0 /\
    in_normal_execution (core s2) = true /\
    vmx_vmread supported (vcpu_vmcs (core s2)) VMCS_CTRL_EPT_POINTER = u64 (eptp_normal_execution (core s)) /\
    hooks_armed (ept_pages_normal (core s)) (ept_pages_normal (core s2)) /\
    hooks_armed (ept_pages_target (core s)) (ept_pages_target (core s2)).
Proof.
  intros Hsup [Hn Ht] H Hrax.
  destruct (enable_tables_ok s s1 (conj Hn Ht) H Hrax) as ((Wn & Hhn & Mn & In) & (Wt & Hht & Mt & It) & Hptr).
  assert (active (trace_buffer (core s1)) = 1) as Hact.
  { clear -H Hrax. unfold handle_enable_auto_trace, on_tables in H.
    do 2 (destruct (deactivate_hooks _) in H; cbn [obind] in H; [| done | done]).
    destruct (enable_auto_trace _ _ _ _ _) as [[[n2 t2] [|]] | |] in H; cbn [obind] in H; [| | done | done].
    - by injection H as <-.
    - do 2 (destruct (reactivate_hooks _) in H; cbn [obind] in H; [| done | done]).
      injection H as <-. by cbv in Hrax. }
  destruct (restore_ok _ _ Hn Wn Hhn Mn In) as (n2 & En & Hen).
  destruct (restore_ok _ _ Ht Wt Hht Mt It) as (t2 & Et & Het).
  destruct (disable_ok s1 n2 t2 En Et) as (s2 & E & Ha & Hi & Hv & En2 & Et2).
  exists s2. rewrite En2, Et2. do 4 (split; [done |]). split; [| by split].
  rewrite Hv. unfold change_eptp. rewrite vmread_vmwrite_same by apply Hsup. by rewrite Hptr.
Qed.

(** (C23) VMCALL needs the key: without it the guest gets an invalid-opcode
    exception and nothing else happens, so the interface looks absent. With it,
    whatever the number and the parameters, a hypercall that returns has changed
    no MSR, no register but RAX, and no field of the VMCS but the EPT pointer and
    what moves the guest to the next instruction. *)
Theorem vmcall_confined s :
  (forall f, supported f = true) -> (forall f, is_u64 (vcpu_vmcs (core s) f)) -> quiet s ->
  match gpr_of s rax =? HYPERCALL_KEY, vmcall s with
  | false, Ok s' =>
      s' = on_core s (fun v => with_vmcs v (fun m => inject_hw_exception supported m invalid_opcode)) /\
      vmx_vmread supported (vcpu_vmcs (core s')) VMCS_CTRL_VMENTRY_INTERRUPTION_INFORMATION_FIELD = 0x80000306
  | false, _ => False
  | true, Ok s' =>
      (forall r, r <> rax -> gpr_of s' r = gpr_of s r) /\ msrs s' = msrs s /\
      vmx_vmread supported (vcpu_vmcs (core s')) VMCS_GUEST_RIP = next_rip supported (vcpu_vmcs (core s)) /\
      forall f, f <> VMCS_CTRL_EPT_POINTER -> f <> VMCS_GUEST_RIP ->
        f <> VMCS_GUEST_INTERRUPTIBILITY_STATE -> f <> VMCS_GUEST_PENDING_DEBUG_EXCEPTIONS ->
        vmx_vmread supported (vcpu_vmcs (core s')) f = vmx_vmread supported (vcpu_vmcs (core s)) f
  | true, _ => True
  end.
Proof.
  intros Hsup Hok Hq. unfold vmcall, handle_vmcall, handle_hypercall.
  destruct (gpr_of s rax =? HYPERCALL_KEY); cbn [negb].
  - pose proof (run_hypercall_keeps s (hypercall_of (gpr_of s rcx)) Hq) as K. unfold keeps, ensures in K.
    destruct (run_hypercall s _) as [s1 | |]; cbn [obind]; [| exact I | exact I]. cbn [id] in K.
    destruct K as [Kf Kg Km Ko _]. specialize (Ko Hok).
    destruct (advance_guest_rip_ok supported (fun _ _ => 0) Hsup (vcpu_vmcs (core s1)) Ko) as (_ & Hrip & _ & _ & Hrest).
    split; [exact Kg |]. split; [exact Km |]. rewrite vmcs_advance. split.
    + rewrite Hrip. unfold next_rip. by rewrite !Kf.
    + intros f H1 H2 H3 H4. rewrite Hrest by done. by apply Kf.
  - cbn [obind]. split; [done |]. unfold handle_vmx_instruction, inject_ud. cbn [core on_core set]. unfold set.
    cbn [core]. unfold with_vmcs, inject_hw_exception. reduce_vcpu.
    rewrite vmread_vmwrite_same by apply Hsup. reflexivity.
Qed.

(** Disabling a trace that was never enabled disarms the hooks: they stay
    recorded as active, so nothing re-arms them, but their frames execute. *)
Theorem disable_without_tracing_disarms s :
  tables_inv s ->
  Forall (fun h => hook_pte h <> None) (hooks (ept_pages_normal (core s))) ->
  Forall (fun h => hook_pte h <> None) (hooks (ept_pages_target (core s))) ->
  exists s', handle_disable_auto_trace s = Ok s' /\
    hooks (ept_pages_normal (core s')) = hooks (ept_pages_normal (core s)) /\
    hooks (ept_pages_target (core s')) = hooks (ept_pages_target (core s)) /\
    forall n, 0 <= n < page_count ->
      exec_at (ept_pages_normal (core s')) n = Some true /\ exec_at (ept_pages_target (core s')) n = Some true.
Proof.
  intros [Hn Ht] An At.
  destruct (set_all_permissions_ok _ true true true (inv_wf _ Hn)) as (_ & Hhn & In).
  destruct (set_all_permissions_ok _ true true true (inv_wf _ Ht)) as (_ & Hht & It).
  destruct (disable_ok s _ _ (reactivate_active (set_all_permissions (ept_pages_normal (core s)) true true true)
      ltac:(by rewrite Hhn))
    (reactivate_active (set_all_permissions (ept_pages_target (core s)) true true true) ltac:(by rewrite Hht)))
    as (s' & E & _ & _ & _ & En & Et).
  exists s'. rewrite En, Et. split; [exact E |]. split; [exact Hhn |]. split; [exact Hht |].
  intros n Hr. unfold exec_at. rewrite In, It by done.
  destruct (page_entry_is_some _ _ (inv_wf _ Hn) Hr) as [e ->], (page_entry_is_some _ _ (inv_wf _ Ht) Hr) as [e' ->].
  by split.
Qed.
End hypercall.

(** ** Instances at concrete inputs *)

(** A core whose guest runs in the sample address space, whose page at 1000H is
    the frame at 9000H. *)
Definition sample_caller (m : mem) (ctx : list (gpr * Z)) : machine :=
  mk_machine (logging_vcpu <| guest_context := fold_left (fun c e => <[fst e := snd e]> c) ctx (fun _ => 0) |>)
    m (fun _ => 0) 0 (zero_hypervisor <| vcpu_count := 2 |>).

(** A request block at 1100H: buffer 1200H, target 1300H, 3 bytes; and bytes at
    both places. *)
Definition request_bytes : list Z := concat (map (le_split 8) [0x1200; 0x1300; 3; 0x1000]).
Definition request_memory : mem :=
  store (store (store sample_tables 0x9100 request_bytes) 0x9200 [1; 2; 3]) 0x9300 [0xAA; 0xBB; 0xCC].

Lemma request_memory_page a : a < 0x9000 \/ 0xA000 <= a -> request_memory a = sample_tables a.
Proof. intros Ha. unfold request_memory. rewrite !store_out by (cbn; lia). done. Qed.

Lemma sample_writable m off n :
  (forall a, a < 0x9000 \/ 0xA000 <= a -> m a = sample_tables a) ->
  0 <= off -> 0 <= n -> off + n <= 4096 ->
  writable m 0x1000 (0x1000 + off) n (fun i => 0x9000 + off + i).
Proof.
  intros Hm Ho Hn Hle. destruct (sample_page m off n Hm Ho Hn Hle) as (H1 & H2 & H3).
  split; [lia | lia | exact H1 | exact H2 | exact H3].
Qed.

Lemma request_memory_at :
  request_at (fun _ => true) (sample_caller request_memory [(rdx, 0x1100)]) 0x1100 32 request_bytes.
Proof. split; [lia |]. split; [lia |]. split; vm_compute; reflexivity. Qed.

Lemma vmem_read_spec_witness :
  exists s' m, handle_vmem_read (fun _ => true) sample_env (sample_caller request_memory [(rdx, 0x1100)]) = Ok s' /\
    answered (sample_caller request_memory [(rdx, 0x1100)]) 3 m s' /\
    guest_bytes m 0x1000 0x1200 3 = Ok [0xAA; 0xBB; 0xCC].
Proof.
  destruct (vmem_read_spec (fun _ => true) sample_env (fun _ _ => eq_refl)
    (sample_caller request_memory [(rdx, 0x1100)]) request_bytes [0xAA; 0xBB; 0xCC] (fun i => 0x9000 + 0x200 + i))
    as (s' & m & E & Ha & _ & Hb & _).
  - reflexivity.
  - exact request_memory_at.
  - reflexivity.
  - reflexivity.
  - vm_compute. discriminate.
  - vm_compute. reflexivity.
  - intros _. apply (sample_writable request_memory 0x200 3 request_memory_page); lia.
  - exists s', m. split; [exact E |]. split; [exact Ha | exact Hb].
Defined.

Lemma vmem_write_spec_witness :
  exists s' m, handle_vmem_write (fun _ => true) sample_env (sample_caller request_memory [(rdx, 0x1100)]) = Ok s' /\
    answered (sample_caller request_memory [(rdx, 0x1100)]) 3 m s' /\
    guest_bytes m 0x1000 0x1300 3 = Ok [1; 2; 3].
Proof.
  destruct (vmem_write_spec (fun _ => true) sample_env (fun _ _ => eq_refl)
    (sample_caller request_memory [(rdx, 0x1100)]) request_bytes [1; 2; 3] (fun i => 0x9000 + 0x300 + i))
    as (s' & m & E & Ha & _ & Hb & _).
  - reflexivity.
  - exact request_memory_at.
  - reflexivity.
  - reflexivity.
  - vm_compute. discriminate.
  - vm_compute. reflexivity.
  - intros _. apply (sample_writable request_memory 0x300 3 request_memory_page); lia.
  - exists s', m. split; [exact E |]. split; [exact Ha | exact Hb].
Defined.

(** Core 0 flushes two entries of core 1. *)
Definition two_entries : ring_buffer :=
  mk_ring 2 0 1 (<[0 := mk_entry 1 1 0 100 7 0 0 0 0 0]> (<[1 := mk_entry 1 1 0 200 8 0 0 0 0 0]> (fun _ => zero_entry))).
Definition flushing_caller : machine :=
  (sample_caller sample_tables [(rdx, 1); (r8, 0x1200); (r9, 1000)])
    <| shared := (zero_hypervisor <| vcpu_count := 2 |>) <| vcpu_trace_buffers := fun _ => two_entries |> |>.

Lemma flush_trace_logs_spec_witness :
  exists s', handle_flush_trace_logs (fun _ => true) sample_env flushing_caller = Ok s' /\
    gpr_of s' rax = 2 /\ queue (trace_buffer_of s' 1) = [] /\
    guest_bytes (physical_memory s') 0x1000 0x1200 128 =
      Ok (entry_bytes (mk_entry 1 1 0 100 7 0 0 0 0 0) ++ entry_bytes (mk_entry 1 1 0 200 8 0 0 0 0 0)).
Proof.
  destruct (flush_trace_logs_spec (fun _ => true) sample_env (fun _ _ => eq_refl) flushing_caller
    (fun i => 0x9000 + 0x200 + i)) as (s' & E & Hr & Hq & _ & Hb & _).
  - reflexivity.
  - vm_compute. reflexivity.
  - split; vm_compute; split; reflexivity || discriminate.
  - reflexivity.
  - discriminate.
  - intros _. apply (sample_writable sample_tables 0x200 128); [done | lia | lia | lia].
  - exists s'. split; [exact E |]. split; [exact Hr |]. split; [exact Hq | exact Hb].
Defined.

(** Tracing four bytes at 1000H, with a hook on frame 123H in both tables. *)
Definition tracing_core : machine :=
  on_core (sample_caller sample_tables [(rdx, 0x1000); (r8, 4)])
    (fun v => v <| ept_pages_normal := hooked_pages |> <| ept_pages_target := hooked_pages |>).
Definition tracing_caller : machine :=
  tracing_core <| shared := zero_hypervisor <| system_cr3 := 0x1000 |> |>.

Lemma tracing_caller_inv : tables_inv tracing_caller.
Proof. split; apply hooked_pages_inv. Qed.

Definition enabled_machine : machine :=
  match handle_enable_auto_trace (fun _ => true) tracing_caller with Ok s => s | _ => tracing_caller end.

Lemma auto_trace_session_witness :
  exists s2, handle_disable_auto_trace (fun _ => true) enabled_machine = Ok s2 /\
    active (trace_buffer (core enabled_machine)) = 1 /\ active (trace_buffer (core s2)) = 0 /\
    hooks_armed hooked_pages (ept_pages_normal (core s2)).
Proof.
  destruct (auto_trace_session (fun _ => true) tracing_caller enabled_machine) as (s2 & E & H1 & H2 & _ & _ & Hn & _).
  - reflexivity.
  - exact tracing_caller_inv.
  - unfold enabled_machine.
    assert (is_ok_b (handle_enable_auto_trace (fun _ => true) tracing_caller) = true) as Hok by (vm_compute; reflexivity).
    destruct (handle_enable_auto_trace _ _); [reflexivity | discriminate | discriminate].
  - vm_compute. reflexivity.
  - exists s2. split; [exact E |]. split; [exact H1 |]. split; [exact H2 | exact Hn].
Defined.

Lemma disable_without_tracing_disarms_witness :
  exists s', handle_disable_auto_trace (fun _ => true) tracing_caller = Ok s' /\
    hooks (ept_pages_normal (core s')) = hooks hooked_pages /\
    exec_at (ept_pages_normal (core s')) 0x123 = Some true.
Proof.
  destruct (disable_without_tracing_disarms (fun _ => true) tracing_caller) as (s' & E & Hn & _ & Hx).
  - exact tracing_caller_inv.
  - repeat constructor. discriminate.
  - repeat constructor. discriminate.
  - exists s'. split; [exact E |]. split; [exact Hn |]. apply Hx. vm_compute. split; [discriminate | reflexivity].
Defined.

(** A ping with the key. *)
Lemma vmcall_confined_witness :
  let s := sample_caller sample_tables [(rax, HYPERCALL_KEY); (rcx, 1)] in
  match vmcall (fun _ => true) sample_env s with
  | Ok s' => gpr_of s' rcx = 1 /\ vmx_vmread (fun _ => true) (vcpu_vmcs (core s')) VMCS_GUEST_RIP = 0
  | _ => False
  end.
Proof.
  intros s. pose proof (vmcall_confined (fun _ => true) sample_env (fun _ _ => eq_refl) s (fun _ => eq_refl)) as H.
  assert (forall f, is_u64 (vcpu_vmcs (core s) f)) as Hok.
  { apply (vmwrite_ok (fun _ => true) (fun _ => eq_refl) (fun _ => 0)). apply no_vmcs_ok. }
  specialize (H Hok eq_refl). change (gpr_of s rax =? HYPERCALL_KEY) with true in H.
  assert (exists s', vmcall (fun _ => true) sample_env s = Ok s') as [s' E] by (eexists; reflexivity).
  rewrite E in *. destruct H as (Hg & _ & Hr & _). split.
  - rewrite Hg by discriminate. reflexivity.
  - rewrite Hr. vm_compute. reflexivity.
Defined.
