(* ===== verification/Devices.v ===== *)
(** * Devices: [revhv-km/serial.cpp], [revhv-km/apic.cpp] and the broadcast of
    [revhv-km/error.cpp]

    The serial port is an interface: what a driver sees of a UART, and what it promises;
    [uart16550] implements it. The local APIC takes the interrupt that stops the other
    cores, through its MSR or through its page. *)
From Stdlib Require Import ZArith Lia String Ascii List Bool.
From stdpp Require Import base numbers list option functions.
From S2P Require Import Prelude Ia32 Memory Vmcs Vcpu VmExit Hypercall.

(** ** Ports *)

(** IN and OUT of a byte. *)
Class PortIo (D : Type) := {
  inbyte : Z -> D -> Z * D;
  outbyte : Z -> Z -> D -> D
}.

Definition SERIAL_COM_1 : Z := 0x3F8.
Definition SERIAL_THR : Z := 0.
Definition SERIAL_RBR : Z := 0.
Definition SERIAL_DLL : Z := 0.
Definition SERIAL_DLH : Z := 1.
Definition SERIAL_IER : Z := 1.
Definition SERIAL_IIR : Z := 2.
Definition SERIAL_FCR : Z := 2.
Definition SERIAL_LCR : Z := 3.
Definition SERIAL_MCR : Z := 4.
Definition SERIAL_LSR : Z := 5.
Definition SERIAL_MSR : Z := 6.

(** [comHandle] with the device behind the port. *)
Record serial_port (D : Type) := mk_serial_port { com_handle : option Z; device : D }.
Arguments mk_serial_port {D}.
Arguments com_handle {D}.
Arguments device {D}.

Section serial.
Context {D : Type} `{PortIo D}.
Variable portBase : Z.

Definition out (register value : Z) (d : D) : D := outbyte (u16 (portBase + register)) value d.
Definition skip_in (register : Z) (d : D) : D := snd (inbyte (u16 (portBase + register)) d).

(** [initialize] after ZwCreateFile gave [opened]: a handle, or a status that it returns. *)
Definition initialize (opened : Z + Z) (p : serial_port D) : serial_port D * Z :=
  match opened with
  | inr status => (p, status)
  | inl handle =>
      let d := out SERIAL_LCR 0x00 (device p) in
      let d := out SERIAL_IER 0x00 d in
      let d := out SERIAL_LCR 0x80 d in
      let d := out SERIAL_DLL 0x01 d in
      let d := out SERIAL_DLH 0x00 d in
      let d := out SERIAL_LCR 0x03 d in
      let d := out SERIAL_FCR 0xC7 d in
      let d := out SERIAL_MCR 0x0B d in
      let d := skip_in SERIAL_LSR d in
      let d := skip_in SERIAL_RBR d in
      let d := skip_in SERIAL_IIR d in
      let d := skip_in SERIAL_MSR d in
      (mk_serial_port (Some handle) d, 0)
  end.

(** [deinitialize]: the port and the handle that is closed. *)
Definition deinitialize (p : serial_port D) : serial_port D * option Z := (mk_serial_port None (device p), com_handle p).

(** The busy wait of [write_byte] with [spin] tries left. *)
Fixpoint wait_and_write (spin : nat) (data : Z) (d : D) : D :=
  match spin with
  | O => d
  | S spin =>
      let '(lsr, d) := inbyte (u16 (portBase + SERIAL_LSR)) d in
      if negb (Z.land lsr 0x20 =? 0) then out SERIAL_THR data d else wait_and_write spin data d
  end.
Definition spin_count : Z := 25000.
Definition write_byte (data : Z) (d : D) : D := wait_and_write (Z.to_nat spin_count) data d.

(** The loop of [write_string] over at most [n] bytes. *)
Fixpoint write_chars (n : nat) (string : list Z) (d : D) : outcome D :=
  match n with
  | O => Ok d
  | S n =>
      match string with
      | [] => Undefined
      | c :: string =>
          if c =? 0 then Ok d else
          let d := if c =? 10 then write_byte 13 d else d in
          write_chars n string (write_byte c d)
      end
  end.
Definition write_string (string : list Z) (d : D) : outcome D := write_chars 512 string d.
End serial.

(** ** A UART *)

(** What the driver relies on, of a UART in the state [ready_mode]: how many reads of the
    line status will show it busy, and what it has sent. *)
Class Uart (D : Type) `{PortIo D} (portBase : Z) := {
  ready_mode : D -> Prop;
  busy : D -> nat;
  sent : D -> list Z;
  status_of_idle d : ready_mode d -> busy d = O ->
    let '(lsr, d') := inbyte (u16 (portBase + SERIAL_LSR)) d in
    Z.land lsr 0x20 <> 0 /\ ready_mode d' /\ busy d' = O /\ sent d' = sent d;
  status_of_busy d n : ready_mode d -> busy d = S n ->
    let '(lsr, d') := inbyte (u16 (portBase + SERIAL_LSR)) d in
    Z.land lsr 0x20 = 0 /\ ready_mode d' /\ busy d' = n /\ sent d' = sent d;
  send_when_idle d c : ready_mode d -> busy d = O ->
    let d' := outbyte (u16 (portBase + SERIAL_THR)) c d in
    ready_mode d' /\ (busy d' < Z.to_nat spin_count)%nat /\ sent d' = sent d ++ [c]
}.

(** A line of text on the wire. *)
Definition on_wire (text : list Z) : list Z := flat_map (fun c => if c =? 10 then [13; 10] else [c]) text.

Section uart.
Context {D : Type} `{PortIo D} (portBase : Z) `{!Uart D portBase}.

(** A UART that a character occupies for less than the wait of the driver. *)
Definition accepting (d : D) : Prop := ready_mode (portBase := portBase) d /\ (busy (portBase := portBase) d < Z.to_nat spin_count)%nat.

Lemma wait_and_write_ok spin c d :
  ready_mode d -> (busy d < spin)%nat ->
  let d' := wait_and_write portBase spin c d in accepting d' /\ sent d' = sent d ++ [c].
Proof.
  revert d. induction spin as [| spin IH]; intros d Hm Hb; [lia |]. cbn [wait_and_write].
  destruct (busy d) as [| n] eqn:E.
  - pose proof (status_of_idle d Hm E) as Hs. destruct (inbyte _ d) as [lsr d1]. destruct Hs as (Hl & Hm1 & Hb1 & Hs1).
    destruct (Z.eqb_spec (Z.land lsr 0x20) 0); [done |]. cbn [negb]. unfold out.
    destruct (send_when_idle d1 c Hm1 Hb1) as (Hm2 & Hb2 & Hs2). split; [by split | by rewrite Hs2, Hs1].
  - pose proof (status_of_busy d n Hm E) as Hs. destruct (inbyte _ d) as [lsr d1]. destruct Hs as (Hl & Hm1 & Hb1 & Hs1).
    rewrite Hl. cbn [Z.eqb negb]. destruct (IH d1 Hm1) as [Ha Hs2]; [lia |]. split; [exact Ha | by rewrite Hs2, Hs1].
Qed.

Lemma write_byte_ok c d :
  accepting d -> let d' := write_byte portBase c d in accepting d' /\ sent d' = sent d ++ [c].
Proof. intros [Hm Hb]. by apply wait_and_write_ok. Qed.

(** A transmitter that stays busy longer than the wait: the byte is given up. *)
Lemma wait_and_write_timeout spin c d :
  ready_mode d -> (spin <= busy d)%nat ->
  let d' := wait_and_write portBase spin c d in
  ready_mode d' /\ busy d' = (busy d - spin)%nat /\ sent d' = sent d.
Proof.
  revert d. induction spin as [| spin IH]; intros d Hm Hb; cbn [wait_and_write]; [split; [done |]; split; [lia | done] |].
  destruct (busy d) as [| n] eqn:E; [lia |].
  pose proof (status_of_busy d n Hm E) as Hs. destruct (inbyte _ d) as [lsr d1]. destruct Hs as (Hl & Hm1 & Hb1 & Hs1).
  rewrite Hl. cbn [Z.eqb negb]. destruct (IH d1 Hm1) as (Hm2 & Hb2 & Hs2); [lia |].
  split; [done |]. split; [lia | congruence].
Qed.

(** A text of any length goes out with its ends of line completed, cut at 512 characters. *)
Lemma write_chars_ok n string d :
  accepting d -> In 0 string \/ (n <= length string)%nat ->
  exists d', write_chars portBase n string d = Ok d' /\ accepting d' /\ sent d' = sent d ++ on_wire (take n (cstr string)).
Proof.
  revert string d. induction n as [| n IH]; intros string d Ha Hn; cbn [write_chars].
  { exists d. by rewrite take_0, app_nil_r. }
  destruct string as [| c string]; [destruct Hn as [[] | Hn]; cbn in Hn; lia |]. cbn [cstr].
  destruct (Z.eqb_spec c 0) as [-> | Hc]; [exists d; by rewrite app_nil_r |].
  assert (In 0 string \/ (n <= length string)%nat) as Hn' by (destruct Hn as [[E | Hi] | Hn]; [by subst | by left | right; cbn in Hn; lia]).
  cbn [take on_wire flat_map]. fold (on_wire (take n (cstr string))). destruct (Z.eqb_spec c 10) as [-> | Hl].
  - destruct (write_byte_ok 13 d Ha) as [Ha1 Hs1]. destruct (write_byte_ok 10 _ Ha1) as [Ha2 Hs2].
    destruct (IH string _ Ha2 Hn') as (d' & E & Ha' & Hs'). exists d'. split; [exact E |]. split; [exact Ha' |].
    rewrite Hs', Hs2, Hs1. by rewrite <- !app_assoc.
  - destruct (write_byte_ok c d Ha) as [Ha1 Hs1]. destruct (IH string _ Ha1 Hn') as (d' & E & Ha' & Hs').
    exists d'. split; [exact E |]. split; [exact Ha' |]. rewrite Hs', Hs1. by rewrite <- !app_assoc.
Qed.
End uart.

(** ** The 16550 *)

(** Its registers, the reads of the line status until the transmitter is free, and the
    bytes on the wire; [char_time] is how many such reads a byte takes. *)
Record uart16550 := mk_uart {
  dll : Z; dlh : Z; ier : Z; lcr : Z; fcr : Z; mcr : Z;
  transmitting : nat;
  wire : list Z
}.
#[export] Instance eta_uart16550 : Eta uart16550 := fun u =>
  mk_uart (dll u) (dlh u) (ier u) (lcr u) (fcr u) (mcr u) (transmitting u) (wire u).

(** The divisor latch hides the data and the interrupt registers. *)
Definition dlab (u : uart16550) : bool := Z.testbit (lcr u) 7.

Section uart16550.
Variable char_time : nat.
Hypothesis char_time_short : (char_time < Z.to_nat spin_count)%nat.

(** A byte written while the transmitter is busy is lost. *)
Definition transmit (c : Z) (u : uart16550) : uart16550 :=
  match transmitting u with O => u <| wire := wire u ++ [c] |> <| transmitting := char_time |> | _ => u end.

Definition uart_out (port value : Z) (u : uart16550) : uart16550 :=
  match port - SERIAL_COM_1 with
  | 0 => if dlab u then u <| dll := value |> else transmit value u
  | 1 => if dlab u then u <| dlh := value |> else u <| ier := value |>
  | 2 => u <| fcr := value |>
  | 3 => u <| lcr := value |>
  | 4 => u <| mcr := value |>
  | _ => u
  end.
Definition uart_in (port : Z) (u : uart16550) : Z * uart16550 :=
  match port - SERIAL_COM_1 with
  | 5 => match transmitting u with O => (0x60, u) | S n => (0, u <| transmitting := n |>) end
  | _ => (0, u)
  end.
#[local] Instance uart_io : PortIo uart16550 := {| inbyte := uart_in; outbyte := uart_out |}.

#[local] Instance uart16550_uart : Uart uart16550 SERIAL_COM_1.
Proof.
  refine {| ready_mode u := dlab u = false; busy := transmitting; sent := wire |}.
  - intros u Hm Hb. change (inbyte _ u) with (match transmitting u with O => (0x60, u) | S n => (0, u <| transmitting := n |>) end).
    by rewrite Hb.
  - intros u n Hm Hb. change (inbyte _ u) with (match transmitting u with O => (0x60, u) | S n => (0, u <| transmitting := n |>) end).
    by rewrite Hb.
  - intros u c Hm Hb. change (outbyte _ c u) with (if dlab u then u <| dll := c |> else transmit c u).
    rewrite Hm. unfold transmit. rewrite Hb. by split.
Defined.

(** After [initialize] the port runs at 115200 baud, eight data bits, no parity and one stop
    bit, without interrupts, and no byte has left it. *)
Lemma initialize_ok handle p :
  let '(p', status) := initialize SERIAL_COM_1 (inl handle) p in
  let u := device p' in
  status = 0 /\ com_handle p' = Some handle /\ dll u = 1 /\ dlh u = 0 /\ ier u = 0 /\ lcr u = 3 /\ fcr u = 0xC7 /\
  mcr u = 0x0B /\ wire u = wire (device p) /\ (transmitting u <= transmitting (device p))%nat.
Proof.
  destruct p as [h [a b c d e f t w]].
  destruct t as [| t]; cbv beta iota zeta delta [initialize]; repeat (split; [reflexivity |]); cbv; lia.
Qed.

End uart16550.

(** ** The local APIC *)

Definition ICR_DELIVERY_NMI : Z := Z.shiftl 4 8.
Definition ICR_DEST_SHORTHAND_ALL_EXCL_SELF : Z := Z.shiftl 3 18.
Definition ICR_LEVEL_ASSERT : Z := Z.shiftl 1 14.
Definition ICR_DELIVERY_STATUS : Z := Z.shiftl 1 12.
(** The MSR and the offsets of the register, as the SDM has them. *)
Definition IA32_X2APIC_ICR : Z := 0x830.
Definition LAPIC_ICR_LOW : Z := 0x300.
Definition LAPIC_ICR_HIGH : Z := 0x310.

(** Accesses to the page of the APIC, and to its MSR; [None] for a #GP. *)
Class ApicIo (A : Type) := {
  mmio_read32 : Z -> A -> Z * A;
  mmio_write32 : Z -> Z -> A -> A;
  write_icr_msr : Z -> A -> option A
}.

Section apic.
Context {A : Type} `{ApicIo A}.

Definition x2apic_send_nmi_all_others (a : A) : option A :=
  write_icr_msr (Z.lor (Z.lor ICR_DELIVERY_NMI ICR_LEVEL_ASSERT) ICR_DEST_SHORTHAND_ALL_EXCL_SELF) a.

(** The wait for an idle register, with [n] tries left. *)
Fixpoint wait_idle (n : nat) (a : A) : A :=
  match n with
  | O => a
  | S n =>
      let '(icr_low, a) := mmio_read32 LAPIC_ICR_LOW a in
      if Z.land icr_low ICR_DELIVERY_STATUS =? 0 then a else wait_idle n a
  end.
Definition idle_tries : Z := 100000.

Definition xapic_send_nmi_all_others (a : A) : A :=
  let a := wait_idle (Z.to_nat idle_tries) a in
  let a := mmio_write32 LAPIC_ICR_HIGH 0 a in
  let icr_low := Z.lor (Z.lor (u32 ICR_DELIVERY_NMI) (u32 ICR_LEVEL_ASSERT)) (u32 ICR_DEST_SHORTHAND_ALL_EXCL_SELF) in
  mmio_write32 LAPIC_ICR_LOW icr_low a.

(** How [raise_host_crash] sends the NMI: [x2apic] is what [is_x2apic_enabled] returns, [mapped]
    whether MmMapIoSpace gives an address. [Crash] is the bug check that it makes at once
    when there is none, or the #GP of the processor. *)
Definition broadcast_nmi (x2apic mapped : bool) (a : A) : outcome A :=
  if x2apic then match x2apic_send_nmi_all_others a with Some a => Ok a | None => Crash end
  else if mapped then Ok (xapic_send_nmi_all_others a) else Crash.
End apic.

(** An APIC in one of its modes; [delivering] is how many reads will show the last interrupt
    in delivery, [None] when it never ends; [ipis] are the values of the command register that
    it has taken. *)
Record local_apic := mk_apic { x2_mode : bool; icr_high : Z; delivering : option nat; ipis : list Z }.
#[export] Instance eta_local_apic : Eta local_apic := fun a =>
  mk_apic (x2_mode a) (icr_high a) (delivering a) (ipis a).

Definition apic_read (off : Z) (a : local_apic) : Z * local_apic :=
  if x2_mode a || negb (off =? LAPIC_ICR_LOW) then (0, a) else
  match delivering a with
  | None => (ICR_DELIVERY_STATUS, a)
  | Some O => (0, a)
  | Some (S n) => (ICR_DELIVERY_STATUS, a <| delivering := Some n |>)
  end.
(** A write to the low half sends. *)
Definition apic_write (off v : Z) (a : local_apic) : local_apic :=
  if x2_mode a then a
  else if off =? LAPIC_ICR_HIGH then a <| icr_high := v |>
  else if off =? LAPIC_ICR_LOW then a <| ipis := ipis a ++ [Z.lor (Z.shiftl (icr_high a) 32) v] |>
  else a.
Definition apic_wrmsr (v : Z) (a : local_apic) : option local_apic :=
  if x2_mode a then Some (a <| ipis := ipis a ++ [v] |>) else None.
#[export] Instance apic_io : ApicIo local_apic := {|
  mmio_read32 := apic_read; mmio_write32 := apic_write; write_icr_msr := apic_wrmsr |}.

(** The fields of the command register. *)
Definition icr_vector (icr : Z) : Z := bits icr 0 8.
Definition icr_delivery_mode (icr : Z) : Z := bits icr 8 3.
Definition icr_logical (icr : Z) : bool := get_bit icr 11.
Definition icr_level (icr : Z) : bool := get_bit icr 14.
Definition icr_shorthand (icr : Z) : Z := bits icr 18 2.

Lemma wait_idle_ok n a :
  let a' := wait_idle n a in x2_mode a' = x2_mode a /\ icr_high a' = icr_high a /\ ipis a' = ipis a.
Proof.
  revert a. induction n as [| n IH]; intros a; [done |]. cbn [wait_idle].
  assert (let a' := snd (apic_read LAPIC_ICR_LOW a) in x2_mode a' = x2_mode a /\ icr_high a' = icr_high a /\ ipis a' = ipis a)
    as H by (unfold apic_read; destruct (_ || _); [done |]; by destruct (delivering a) as [[| k] |]).
  cbn [mmio_read32 apic_io]. destruct (apic_read _ a) as [v a1]. cbn [snd] in H. destruct H as (H1 & H2 & H3).
  destruct (_ =? 0); [done |]. destruct (IH a1) as (E1 & E2 & E3). split; [congruence |]. split; congruence.
Qed.

Section broadcast.
Context {ia32 : Ia32}.
Variable env : environment.

(** When the driver's test agrees with the mode of the APIC, the APIC takes exactly one more
    interrupt, an NMI for all processors but this one, however long the last one is in
    delivery; only where the page of the APIC cannot be mapped nothing is sent. *)
Theorem broadcast_reaches_all_others s a mapped (Hmode : x2_mode a = is_x2apic_enabled env s) :
  match broadcast_nmi (is_x2apic_enabled env s) mapped a with
  | Ok a' => exists icr, ipis a' = ipis a ++ [icr] /\ icr_delivery_mode icr = 4 /\ icr_vector icr = 0 /\
      icr_level icr = true /\ icr_logical icr = false /\ icr_shorthand icr = 3
  | Crash => x2_mode a = false /\ mapped = false
  | Undefined => False
  end.
Proof.
  unfold broadcast_nmi. rewrite <- Hmode. destruct (x2_mode a) eqn:E.
  - unfold x2apic_send_nmi_all_others. cbn [write_icr_msr apic_io]. unfold apic_wrmsr. rewrite E.
    eexists. split; [reflexivity |]. by vm_compute.
  - destruct mapped; [| done]. unfold xapic_send_nmi_all_others.
    destruct (wait_idle_ok (Z.to_nat idle_tries) a) as (H1 & H2 & H3). set (a1 := wait_idle _ a) in *. clearbody a1.
    rewrite E in H1. cbn [mmio_write32 apic_io]. destruct a1 as [x h d l]. cbn [x2_mode icr_high ipis] in *. subst x l.
    eexists. split; [reflexivity |]. by vm_compute.
Qed.
End broadcast.

(** *** Examples *)

Definition reset_uart : uart16550 := mk_uart 0 0 0 0x80 0 0 0 [].

Lemma within_spin n : Z.of_nat n < spin_count -> (n < Z.to_nat spin_count)%nat.
Proof. generalize spin_count. lia. Qed.


(** An APIC in its page mode whose last interrupt is never delivered. *)
Definition stuck_apic : local_apic := mk_apic false 0x1000000 None [].

Lemma broadcast_reaches_all_others_witness :
  exists a' icr, broadcast_nmi (is_x2apic_enabled sample_env (sample_machine zero_vcpu (fun _ => 0))) true stuck_apic = Ok a' /\
    ipis a' = [icr] /\ icr_delivery_mode icr = 4 /\ icr_shorthand icr = 3.
Proof.
  pose proof (broadcast_reaches_all_others sample_env (sample_machine zero_vcpu (fun _ => 0)) stuck_apic true eq_refl) as H.
  destruct (broadcast_nmi _ _ _) as [a' | |] eqn:E; [| destruct H as [_ H]; discriminate H | destruct H].
  destruct H as (icr & Hi & H1 & _ & _ & _ & H2). exists a', icr. split; [reflexivity |].
  split; [exact Hi |]. split; [exact H1 | exact H2].
Defined.
