(* ===== verification/ExitStub.v ===== *)
(** * An exit from its first instruction to its last: [vmexit_stub.asm]

    The stub hands the registers of the guest to [vmexit::handler] in a block on the
    stack, loads what the handler leaves in the block, corrects the offset of the
    time-stamp counter if the handler asks for it, and enters the guest again. *)
From Stdlib Require Import ZArith Lia List Bool FunctionalExtensionality.
From stdpp Require Import base numbers list option functions.
From S2P Require Import Prelude Ia32 Memory Mtrr Trace TransitionCfg Ept Vmcs Vcpu Asm Stubs VmExit Hypercall.

(** ** The exit handler as a routine of the stub *)

Definition all_gprs : list gpr := [rax; rcx; rdx; rbx; rbp; rsi; rdi; r8; r9; r10; r11; r12; r13; r14; r15].
Definition all_cregs : list creg := [cr2; cr8; dr0; dr1; dr2; dr3; dr6].

(** [guest_context] in memory: its registers, and all its fields with those of a core. *)
Definition context_at (m : mem) (a : Z) : gprs := fun r => read_n 8 m (a + ctx_gpr r).
Definition gpr_fields (g : gprs) : list (Z * nat * Z) := map (fun r => (ctx_gpr r, 8%nat, g r)) all_gprs.
Definition creg_fields (c : creg -> Z) : list (Z * nat * Z) := map (fun r => (ctx_creg r, 8%nat, c r)) all_cregs.
Definition xmm_fields (x : nat -> Z) : list (Z * nat * Z) := map (fun i => (ctx_xmm i, 16%nat, x i)) (seq 0 16).
Definition context_fields (s : state) : list (Z * nat * Z) :=
  gpr_fields (regs s) ++ creg_fields (cregs s) ++ xmm_fields (xmm s) ++ [(ctx_mxcsr, 4%nat, mxcsr s)].

(** [tsc_data] in memory. *)
Definition tsc_fields (d : tsc_data) : list (Z * nat * Z) :=
  [(tsc_tsc_offset, 8%nat, u64 (tsc_offset d)); (tsc_stored_tsc, 8%nat, u64 (stored_tsc d));
   (tsc_vmexit_to_store_overhead, 8%nat, u64 (vmexit_to_store_overhead d));
   (tsc_instruction_overhead, 8%nat, u64 (instruction_overhead d));
   (tsc_vmentry_overhead, 8%nat, u64 (vmentry_overhead d))].

(** What the calling convention lets a routine change besides its result and its
    arguments in memory: the volatile registers, MXCSR, and the stack from the area
    for its arguments down to the end of the stack. *)
Record scratch := mk_scratch {
  scratch_gprs : gprs; scratch_xmm : nat -> Z; scratch_mxcsr : Z; scratch_flags : Z; scratch_memory : mem
}.
Definition volatile_gpr (r : gpr) : bool :=
  match r with rax | rcx | rdx | r8 | r9 | r10 | r11 => true | _ => false end.
Definition after_call (low : Z) (t : scratch) (result : Z) (s : state) : state :=
  s <| regs := <[rax := result]> (fun r => if volatile_gpr r then scratch_gprs t r else regs s r) |>
    <| xmm := fun x => if (x <? 6)%nat then scratch_xmm t x else xmm s x |>
    <| mxcsr := scratch_mxcsr t |> <| rflags := scratch_flags t |>
    <| memory := fun a => if (low <=? a) && (a <? sp s + 0x20) then scratch_memory t a else memory s a |>.

Lemma all_gprs_in r : In r all_gprs.
Proof. destruct r; cbn; tauto. Qed.
Lemma all_cregs_in c : In c all_cregs.
Proof. destruct c; cbn; tauto. Qed.

Lemma in_gpr_fields g r : In (ctx_gpr r, 8%nat, g r) (gpr_fields g).
Proof. apply (in_map (fun r => (ctx_gpr r, 8%nat, g r))), all_gprs_in. Qed.
Lemma in_creg_fields g c : In (ctx_creg c, 8%nat, g c) (creg_fields g).
Proof. apply (in_map (fun c => (ctx_creg c, 8%nat, g c))), all_cregs_in. Qed.
Lemma in_xmm_fields g x : (x < 16)%nat -> In (ctx_xmm x, 16%nat, g x) (xmm_fields g).
Proof. intros Hx. apply (in_map (fun x => (ctx_xmm x, 16%nat, g x))), in_seq. lia. Qed.

Section exit.
Context {ia32 : Ia32} {mtrr_layout : MtrrLayout} {exit_layout : ExitLayout}.
Variable supported : vmcs_field -> bool.
Variable pfn_of_pd : bool -> Z -> Z.
Variable env : environment.
Variable other_flags : Z -> Z -> Z.
Variable wrapped : state -> wrapped_result.
Variable launch_result : vmcs -> option Z.
Variable address : list line -> Z.
(** The end of the stack, what the handler leaves in the places it may change, and
    the address of [vcpu->stealth_data.tsc_data]. *)
Variable low : Z.
Variable t : scratch.
Variable va_tsc_data : Z.

(** The handler works on the core's [vcpu], with the registers in the context and
    the current VMCS. *)
Definition exit_machine (M : machine) (g : gprs) (m : vmcs) : machine :=
  on_core M (fun v => v <| guest_context := g |> <| vcpu_vmcs := m |>).

Definition exit_handler : machine -> outcome (machine * bool) :=
  handler supported pfn_of_pd env (handle_hypercall supported env).

Definition call_handler (M : machine) (s : state) : option state :=
  match exit_handler (exit_machine M (context_at (memory s) (regs s rcx)) (vm s)) with
  | Ok (M', hide) =>
      let s' := after_call low t (if hide then va_tsc_data else 0) s in
      Some (s' <| memory := write_fields va_tsc_data (tsc_fields (stealth_tsc (stealth (core M'))))
                              (write_fields (regs s rcx) (gpr_fields (guest_context (core M'))) (memory s')) |>
               <| vm := vcpu_vmcs (core M') |>)
  | _ => None
  end.

(** [vmexit_stub] on a core that exits. *)
Definition exit_runs_to (M : machine) : state -> stop * list line * state -> Prop :=
  runs_to supported other_flags (call_handler M) wrapped launch_result address vmexit_stub vmexit_stub.

(** ** Lemmas *)

Abbreviation straight' M := (straight supported other_flags (call_handler M) wrapped launch_result address vmexit_stub).
Abbreviation runs_to' M :=
  (runs_to supported other_flags (call_handler M) wrapped launch_result address vmexit_stub).

(** The block is below the top of the address space. *)
Definition block_ok (s : state) : Prop := 0 <= sp s /\ sp s + sizeof_guest_context <= 2 ^ 64.

Lemma block_address s off : block_ok s -> 0 <= off < sizeof_guest_context -> sp s +64 off = sp s + off.
Proof. intros [H1 H2] Ho. unfold add64. apply wrap_small. lia. Qed.

Lemma ctx_gpr_range r : 0 <= ctx_gpr r < sizeof_guest_context.
Proof. by destruct r. Qed.
Lemma ctx_creg_range c : 0 <= ctx_creg c < sizeof_guest_context.
Proof. by destruct c. Qed.
Lemma ctx_xmm_range x : (x < 16)%nat -> 0 <= ctx_xmm x < sizeof_guest_context.
Proof. unfold ctx_xmm, sizeof_guest_context. lia. Qed.
Hint Resolve ctx_gpr_range ctx_creg_range ctx_xmm_range : core.

(** Saving. *)
Lemma save_gprs_ok M l s :
  block_ok s ->
  straight' M (map (fun r => plain (MOV_mem SP (ctx_gpr r) r)) l) s =
    Some (s <| memory := write_fields (sp s) (map (fun r => (ctx_gpr r, 8%nat, regs s r)) l) (memory s) |>).
Proof.
  revert s. induction l as [| r l IH]; intros s Hs; [by destruct s |].
  cbn [map straight step plain line_instr get]. rewrite block_address, IH by done. by destruct s.
Qed.

Lemma save_cregs_ok M l s :
  block_ok s -> exists f,
  straight' M (flat_map (fun c => [plain (MOV_from_cr rax c); plain (MOV_mem SP (ctx_creg c) rax)]) l) s =
    Some (s <| regs := f |>
            <| memory := write_fields (sp s) (map (fun c => (ctx_creg c, 8%nat, cregs s c)) l) (memory s) |>) /\
  forall r, r <> rax -> f r = regs s r.
Proof.
  revert s. induction l as [| c l IH]; intros s Hs; [by exists (regs s); destruct s |].
  cbn [flat_map app straight step plain line_instr get put]. change (sp (s <| regs := _ |>)) with (sp s).
  rewrite block_address by done.
  set (s1 := put_mem _ _ _ _). destruct (IH s1) as (f & -> & Hf); [done |].
  exists f. split.
  - unfold s1. by destruct s.
  - intros r Hr. rewrite Hf by done. unfold s1. cbn. unfold insert, fn_insert. by rewrite decide_False by congruence.
Qed.

Lemma aligned_field a x : aligned16 a = true -> aligned16 (a + ctx_xmm x) = true.
Proof.
  unfold aligned16, ctx_xmm. rewrite !Z.eqb_eq. change 0xF with (Z.ones 4). rewrite !Z.land_ones by lia.
  intros H. rewrite Z.add_assoc, (Z.mul_comm 16), Z.mod_add by lia. rewrite <- Z.add_mod_idemp_l, H by lia. done.
Qed.

Lemma save_xmms_ok M l s :
  block_ok s -> aligned16 (sp s) = true -> (forall x, In x l -> (x < 16)%nat) ->
  straight' M (map (fun x => plain (MOVAPS_mem SP (ctx_xmm x) x)) l) s =
    Some (s <| memory := write_fields (sp s) (map (fun x => (ctx_xmm x, 16%nat, xmm s x)) l) (memory s) |>).
Proof.
  revert s. induction l as [| x l IH]; intros s Hs Ha Hl; [by destruct s |].
  cbn [map straight step plain line_instr get]. rewrite block_address by (done || apply ctx_xmm_range, Hl; by left).
  rewrite aligned_field by done. rewrite IH by (try done; intros y Hy; apply Hl; by right). by destruct s.
Qed.

Lemma write_fields_app base l1 l2 m : write_fields base (l1 ++ l2) m = write_fields base l2 (write_fields base l1 m).
Proof. apply fold_left_app. Qed.

(** The block as the handler finds it. *)
Lemma save_context_ok M s :
  block_ok (s <| sp := sp s -64 sizeof_guest_context |>) -> aligned16 (sp s -64 sizeof_guest_context) = true ->
  exists f fl,
  straight' M save_context s =
    Some (s <| sp := sp s -64 sizeof_guest_context |> <| rflags := fl |> <| regs := f |>
            <| memory := write_fields (sp s -64 sizeof_guest_context) (context_fields s) (memory s) |>).
Proof.
  intros Hs Ha. set (base := sp s -64 sizeof_guest_context) in *. unfold save_context.
  rewrite straight_app. cbn [straight step lab line_instr get put alu_op value]. fold base.
  set (s1 := alu_flags _ _ _). assert (block_ok s1 /\ sp s1 = base) as [Hs1 E1] by done.
  rewrite straight_app. unfold save_gprs. rewrite save_gprs_ok by done. rewrite E1.
  set (s2 := s1 <| memory := _ |>).
  rewrite straight_app. destruct (save_cregs_ok M all_cregs s2) as (f & E & _); [done |].
  unfold save_cregs. unfold all_cregs at 1 in E. rewrite E. clear E. change (sp s2) with base.
  set (s3 := _ <| memory := _ |>).
  rewrite straight_app. unfold save_xmms. rewrite save_xmms_ok by (try done; intros x Hx%in_seq; lia).
  change (sp s3) with base. cbn [straight step plain line_instr get].
  rewrite block_address by done.
  exists f, (rflags s1). unfold context_fields. rewrite !write_fields_app. by destruct s.
Qed.

(** Loading. *)
Lemma load_xmms_ok M l s :
  block_ok s -> aligned16 (sp s) = true -> (forall x, In x l -> (x < 16)%nat) -> exists f,
  straight' M (map (fun x => plain (MOVAPS x SP (ctx_xmm x))) l) s = Some (s <| xmm := f |>) /\
  (forall x, In x l -> f x = read_n 16 (memory s) (sp s + ctx_xmm x)) /\ (forall x, ~ In x l -> f x = xmm s x).
Proof.
  revert s. induction l as [| x l IH]; intros s Hs Ha Hl; [by exists (xmm s); destruct s |].
  cbn [map straight step plain line_instr get]. rewrite block_address by (done || apply ctx_xmm_range, Hl; by left).
  rewrite aligned_field by done. set (s1 := s <| xmm := _ |>).
  destruct (IH s1) as (f & -> & H1 & H2); [done | done | intros y Hy; apply Hl; by right |].
  exists f. split; [by destruct s |]. split.
  - intros y [<- | Hy]; [| by apply H1]. destruct (in_dec Nat.eq_dec x l) as [Hy | Hy]; [by apply H1 |].
    rewrite H2 by done. unfold s1. cbn. unfold insert, fn_insert. by rewrite decide_True.
  - intros y Hy. cbn [In] in Hy. rewrite H2 by tauto. unfold s1. cbn. unfold insert, fn_insert. rewrite decide_False; [done |]. tauto.
Qed.

Lemma load_cregs_ok M l s :
  block_ok s -> exists f g,
  straight' M (flat_map (fun c => [plain (MOV rax (at_mem SP (ctx_creg c))); plain (MOV_to_cr c rax)]) l) s =
    Some (s <| regs := f |> <| cregs := g |>) /\
  (forall r, r <> rax -> f r = regs s r) /\
  (forall c, In c l -> g c = read_n 8 (memory s) (sp s + ctx_creg c)) /\ (forall c, ~ In c l -> g c = cregs s c).
Proof.
  revert s. induction l as [| c l IH]; intros s Hs; [by exists (regs s), (cregs s); destruct s |].
  cbn [flat_map app straight step plain line_instr put value get]. rewrite block_address by done.
  set (s1 := _ <| cregs := _ |>).
  destruct (IH s1) as (f & g & -> & H0 & H1 & H2); [done |].
  exists f, g. split; [by destruct s |]. split; [| split].
  - intros r Hr. rewrite H0 by done. unfold s1. cbn. unfold insert, fn_insert. by rewrite decide_False by congruence.
  - intros d [<- | Hd]; [| by apply H1]. destruct (in_dec creg_eq_dec c l) as [Hy | Hy]; [by apply H1 |].
    rewrite H2 by done. unfold s1. cbn. unfold insert, fn_insert. by rewrite decide_True.
  - intros d Hd. cbn [In] in Hd. rewrite H2 by tauto. unfold s1. cbn. unfold insert, fn_insert. rewrite decide_False; [done |]. tauto.
Qed.

Lemma load_gprs_ok M l s :
  block_ok s -> exists f,
  straight' M (load_gprs l) s = Some (s <| regs := f |>) /\
  (forall r, In r l -> f r = read_n 8 (memory s) (sp s + ctx_gpr r)) /\ (forall r, ~ In r l -> f r = regs s r).
Proof.
  revert s. unfold load_gprs. induction l as [| r l IH]; intros s Hs; [by exists (regs s); destruct s |].
  cbn [map straight step plain line_instr put value get]. rewrite block_address by done.
  set (s1 := s <| regs := _ |>).
  destruct (IH s1) as (f & -> & H1 & H2); [done |].
  exists f. split; [by destruct s |]. split.
  - intros d [<- | Hd]; [| by apply H1]. destruct (in_dec gpr_eq_dec r l) as [Hy | Hy]; [by apply H1 |].
    rewrite H2 by done. unfold s1. cbn. unfold insert, fn_insert. by rewrite decide_True.
  - intros d Hd. cbn [In] in Hd. rewrite H2 by tauto. unfold s1. cbn. unfold insert, fn_insert. rewrite decide_False; [done |]. tauto.
Qed.

(** *** The block around the call *)

Lemma in_context s f :
  In f (gpr_fields (regs s)) \/ In f (creg_fields (cregs s)) \/ In f (xmm_fields (xmm s)) \/ f = (ctx_mxcsr, 4%nat, mxcsr s) ->
  In f (context_fields s).
Proof. unfold context_fields. rewrite !in_app_iff. cbn [In]. intuition. Qed.

(** The registers of a core fit. *)
Record registers_fit (s : state) : Prop := {
  regs_fit : forall r, is_u64 (regs s r);
  cregs_fit : forall c, is_u64 (cregs s c);
  xmm_fit : forall x, 0 <= xmm s x < 2 ^ 128;
  mxcsr_fit : 0 <= mxcsr s < 2 ^ 32
}.

Lemma read_n_ext k m m' a : (forall i, a <= i < a + Z.of_nat k -> m i = m' i) -> read_n k m a = read_n k m' a.
Proof. intros H. unfold read_n. f_equal. apply load_ext. intros i Hi. apply H. lia. Qed.

Lemma read_fields_out k m base n l a :
  inside_fields n (map fst l) = true -> a + Z.of_nat k <= base \/ base + n <= a ->
  read_n k (write_fields base l m) a = read_n k m a.
Proof. intros Hi Ha. apply read_n_ext. intros i Hr. apply (write_fields_out base n); [done | lia]. Qed.

Lemma context_disjoint s : disjoint_fields (map fst (context_fields s)) = true.
Proof. reflexivity. Qed.
Lemma context_inside s : inside_fields sizeof_guest_context (map fst (context_fields s)) = true.
Proof. reflexivity. Qed.

Lemma saved_field s m off k v :
  In (off, k, v) (context_fields s) -> 0 <= v < 2 ^ (8 * Z.of_nat k) ->
  forall base, read_n k (write_fields base (context_fields s) m) (base + off) = v.
Proof. intros. by apply read_write_fields. Qed.

Lemma context_at_saved s m base :
  registers_fit s -> context_at (write_fields base (context_fields s) m) base = regs s.
Proof.
  intros [Hr _ _ _]. apply functional_extensionality. intros r. unfold context_at.
  apply saved_field; [apply in_context; left; apply in_gpr_fields | exact (Hr r)].
Qed.

(** The stack of the host and the place of [tsc_data]. *)
Record host_ok (s : state) : Prop := {
  host_aligned : aligned16 (sp s) = true;
  host_stack : 0 <= low /\ low + sizeof_guest_context + 0x40 <= sp s /\ sp s < 2 ^ 64;
  host_tsc : 0 < va_tsc_data /\ va_tsc_data + 40 <= 2 ^ 64;
  host_apart : va_tsc_data + 40 <= low \/ sp s <= va_tsc_data
}.

(** The core when the handler has returned and the stub has dropped the area for its
    arguments. *)
Record handled (M' : machine) (hide : bool) (s s' : state) : Prop := {
  handled_sp : sp s' = sp s - sizeof_guest_context;
  handled_rcx : regs s' rcx = (if hide then va_tsc_data else 0);
  handled_vm : vm s' = vcpu_vmcs (core M');
  handled_tsc : tsc s' = tsc s;
  handled_cregs : forall c, read_n 8 (memory s') (sp s' + ctx_creg c) = cregs s c;
  handled_xmm : forall x, (x < 16)%nat -> read_n 16 (memory s') (sp s' + ctx_xmm x) = xmm s x;
  handled_mxcsr : read_n 4 (memory s') (sp s' + ctx_mxcsr) = mxcsr s;
  handled_gprs : forall r, read_n 8 (memory s') (sp s' + ctx_gpr r) = guest_context (core M') r;
  handled_data : forall off v, In (off, 8%nat, v) (tsc_fields (stealth_tsc (stealth (core M')))) ->
    read_n 8 (memory s') (va_tsc_data + off) = v
}.

Lemma base_ok s : host_ok s -> sp s -64 sizeof_guest_context = sp s - sizeof_guest_context.
Proof. intros [_ [H1 [H2 H3]] _ _]. apply wrap_small. unfold sizeof_guest_context in *. lia. Qed.

Lemma aligned_base s : host_ok s -> aligned16 (sp s - sizeof_guest_context) = true.
Proof.
  intros [H _ _ _]. revert H. unfold aligned16, sizeof_guest_context. rewrite !Z.eqb_eq. change 0xF with (Z.ones 4).
  rewrite !Z.land_ones by lia. intros H. replace (sp s - 448) with (sp s + (-28) * 2 ^ 4) by lia.
  rewrite Z.mod_add by lia. exact H.
Qed.

Lemma call_ok M M' hide s :
  host_ok s -> registers_fit s -> (forall g, is_u64 (guest_context (core M') g)) ->
  exit_handler (exit_machine M (regs s) (vm s)) = Ok (M', hide) ->
  exists s', handled M' hide s s' /\ straight' M (save_context ++ call_handler_lines) s = Some s'.
Proof.
  intros Hh Hf Hg He. pose proof (base_ok s Hh) as Eb. pose proof (aligned_base s Hh) as Ha.
  destruct Hh as [_ [L1 [L2 L3]] [T1 T2] Hap]. set (base := sp s - sizeof_guest_context) in *.
  destruct (save_context_ok M s) as (f & fl & E); [split; cbn; rewrite Eb; unfold base, sizeof_guest_context in *; lia | by rewrite Eb |].
  rewrite Eb in E. rewrite straight_app, E. clear E. set (s1 := _ <| memory := _ |>).
  assert (sub64 base 0x20 = base - 0x20) as Ec by (apply wrap_small; unfold base, sizeof_guest_context in *; lia).
  assert (add64 (base - 0x20) 0x20 = base) as Ed by (unfold add64; rewrite Z.sub_add; apply wrap_small; unfold base, sizeof_guest_context in *; lia).
  set (m1 := write_fields base (context_fields s) (memory s)) in *.
  cbn [call_handler_lines straight step plain line_instr].
  set (sc := alu_flags _ _ _). assert (memory sc = m1 /\ regs sc rcx = base /\ sp sc = base - 0x20 /\ vm sc = vm s) as (E1 & E2 & E3 & E4).
  { split; [done |]. split; [done |]. split; [exact Ec | done]. }
  unfold call_handler. rewrite E1, E2, E4. unfold m1. rewrite context_at_saved by done. rewrite He.
  eexists. split; [| reflexivity].
  set (m2 := fun a => if (low <=? a) && (a <? base) then scratch_memory t a else m1 a).
  set (m3 := write_fields base (gpr_fields (guest_context (core M'))) m2).
  set (m4 := write_fields va_tsc_data (tsc_fields (stealth_tsc (stealth (core M')))) m3).
  match goal with |- handled _ _ _ ?x => assert (sp x = base /\ memory x = m4) as [Esp Em] end.
  { cbn [get put value alu_op alu_flags]. split; [| ].
    - change (base -64 0x20 +64 0x20 = base). by rewrite Ec, Ed.
    - unfold m4, m3, m2. cbn. rewrite Ec, Z.sub_add. reflexivity. }
  assert (base + sizeof_guest_context = sp s /\ low + 0x40 <= base /\ sizeof_guest_context = 448) as (B1 & B2 & B3)
    by (unfold base, sizeof_guest_context in *; lia).
  assert (forall off k, 0 <= off -> off + Z.of_nat k <= sizeof_guest_context ->
    read_n k m4 (base + off) = read_n k m3 (base + off)) as R4.
  { intros off k H0 H1. apply (read_fields_out k m3 va_tsc_data 40); [reflexivity | lia]. }
  assert (forall off k v, In (off, k, v) (context_fields s) -> 0 <= v < 2 ^ (8 * Z.of_nat k) ->
    0 <= off -> off + Z.of_nat k <= sizeof_guest_context ->
    apart_from off k (map fst (gpr_fields (guest_context (core M')))) = true -> read_n k m4 (base + off) = v) as R.
  { intros off k v Hin Hv H0 H1 Hap'. rewrite R4 by done. unfold m3. rewrite write_fields_apart by done.
    rewrite (read_n_ext k m2 m1); [by apply saved_field |].
    intros i Hi. unfold m2. destruct (Z.ltb_spec i base); [lia |]. by rewrite andb_false_r. }
  destruct Hf as [_ F2 F3 F4]. split; [exact Esp | reflexivity | reflexivity | reflexivity | ..]; rewrite Em, ?Esp.
  - intros c. apply R; [apply in_context; right; left; apply in_creg_fields | exact (F2 c) | destruct c; (reflexivity || (cbn; lia)) ..].
  - intros x Hx. apply R; [apply in_context; right; right; left; by apply in_xmm_fields | exact (F3 x) | ..].
    all: do 16 (destruct x as [| x]; [vm_compute; (reflexivity || discriminate) |]); lia.
  - apply R; [apply in_context; by right; right; right | exact F4 | done ..].
  - intros g. rewrite R4 by (destruct g; cbn; lia). apply read_write_fields; [done | apply in_gpr_fields | exact (Hg g)].
  - intros off v Hin. unfold m4. apply read_write_fields; [done | exact Hin |].
    cbn [tsc_fields In] in Hin. repeat (destruct Hin as [[= <- <-] | Hin]; [by apply wrap_range |]). destruct Hin.
Qed.

(** *** After the call *)

(** What the stub has loaded before it looks at the result. *)
Record loaded (M' : machine) (hide : bool) (s s' : state) : Prop := {
  loaded_sp : sp s' = sp s - sizeof_guest_context;
  loaded_rcx : regs s' rcx = (if hide then va_tsc_data else 0);
  loaded_vm : vm s' = vcpu_vmcs (core M');
  loaded_tsc : tsc s' = tsc s;
  loaded_cregs : forall c, cregs s' c = cregs s c;
  loaded_xmm : forall x, (x < 16)%nat -> xmm s' x = xmm s x;
  loaded_mxcsr : mxcsr s' = mxcsr s;
  loaded_gprs : forall r, r <> rax -> r <> rcx -> r <> rdx -> r <> rbx -> regs s' r = guest_context (core M') r;
  loaded_block : forall r, read_n 8 (memory s') (sp s' + ctx_gpr r) = guest_context (core M') r;
  loaded_data : forall off v, In (off, 8%nat, v) (tsc_fields (stealth_tsc (stealth (core M')))) ->
    read_n 8 (memory s') (va_tsc_data + off) = v
}.

Lemma handled_block M' hide s s' : host_ok s -> handled M' hide s s' -> block_ok s' /\ aligned16 (sp s') = true.
Proof.
  intros Hh Hs. pose proof (handled_sp _ _ _ _ Hs) as Es. unfold block_ok. rewrite Es.
  split; [| by apply aligned_base]. destruct Hh as [_ [L1 [L2 L3]] _ _]. unfold sizeof_guest_context in *. lia.
Qed.

Lemma load_context_ok M M' hide s s' :
  host_ok s -> handled M' hide s s' -> exists s2, straight' M load_context s' = Some s2 /\ loaded M' hide s s2.
Proof.
  intros Hh Hs. destruct (handled_block _ _ _ _ Hh Hs) as [Hb Ha].
  destruct Hs as [E1 E2 E3 E4 E5 E6 E7 E8 E9]. unfold load_context. rewrite straight_app.
  cbn [straight step plain line_instr get]. rewrite block_address, E7 by done. set (s1 := s' <| mxcsr := _ |>).
  rewrite straight_app. destruct (load_xmms_ok M (seq 0 16) s1) as (fx & E & Hx & _);
    [done | done | intros x Hx%in_seq; lia |]. unfold load_xmms. rewrite E. clear E. set (s2 := s1 <| xmm := fx |>).
  rewrite straight_app. destruct (load_cregs_ok M [dr0; dr1; dr2; dr3; dr6; cr2; cr8] s2) as (f & g & E & Hf & Hc & _); [done |].
  unfold load_cregs. rewrite E. clear E. set (s3 := _ <| cregs := g |>).
  destruct (load_gprs_ok M [rbp; rsi; rdi; r8; r9; r10; r11; r12; r13; r14; r15] s3) as (h & E & Hg & Hg'); [done |].
  rewrite E. clear E. eexists. split; [reflexivity |]. split; cbn.
  - exact E1.
  - rewrite Hg' by (cbn; intuition discriminate). cbn. by rewrite Hf.
  - exact E3.
  - exact E4.
  - intros c. rewrite Hc by (destruct c; cbn; tauto). apply E5.
  - intros x Hx'. rewrite Hx by (apply in_seq; lia). by apply E6.
  - done.
  - intros r H1 H2 H3 H4. rewrite Hg by (destruct r; cbn; tauto). apply E8.
  - exact E8.
  - exact E9.
Qed.

(** What the guest goes on with. *)
Record resumes (M' : machine) (s s' : state) : Prop := {
  resumes_gprs : forall r, regs s' r = guest_context (core M') r;
  resumes_sp : sp s' = sp s;
  resumes_cregs : forall c, cregs s' c = cregs s c;
  resumes_xmm : forall x, (x < 16)%nat -> xmm s' x = xmm s x;
  resumes_mxcsr : mxcsr s' = mxcsr s
}.

Lemma load_rest_ok M M' hide s s2 (m : mem) (v : vmcs) (g : gprs) later fl :
  host_ok s -> loaded M' hide s s2 ->
  (forall r, read_n 8 m (sp s2 + ctx_gpr r) = guest_context (core M') r) ->
  (forall r, r <> rax -> r <> rcx -> r <> rdx -> r <> rbx -> g r = regs s2 r) ->
  exists s3,
    straight' M load_rest (s2 <| memory := m |> <| vm := v |> <| regs := g |> <| tsc := later |> <| rflags := fl |>) = Some s3 /\
    resumes M' s s3 /\ vm s3 = v /\ memory s3 = m.
Proof.
  intros Hh [E1 E2 E3 E4 E5 E6 E7 E8 E9 _] Hm Hg. unfold load_rest. rewrite straight_app.
  set (sx := _ <| rflags := _ |>). assert (block_ok sx) as Hb.
  { unfold block_ok. change (sp sx) with (sp s2). rewrite E1. destruct Hh as [_ [L1 [L2 L3]] _ _]. unfold sizeof_guest_context in *. lia. }
  destruct (load_gprs_ok M [rax; rcx; rdx; rbx] sx Hb) as (f & -> & Hf & Hf').
  cbn [straight step plain line_instr get put value alu_op]. eexists. split; [reflexivity |]. split; [| by split].
  split; cbn; try done.
  - intros r. destruct (in_dec gpr_eq_dec r [rax; rcx; rdx; rbx]) as [Hin | Hin].
    + rewrite Hf by done. apply Hm.
    + rewrite Hf' by done. cbn. rewrite Hg, E8; [done | ..]; intros ->; apply Hin; cbn; tauto.
  - rewrite E1. unfold add64. rewrite Z.sub_add. apply wrap_small. destruct Hh as [_ [L1 [L2 L3]] _ _].
    unfold sizeof_guest_context in *. lia.
Qed.

(** Two halves of a word. *)
Lemma join_halves x : is_u64 x -> Z.lor (u32 x) (shl64 (Z.shiftr x 32) 32) = x.
Proof.
  intros Hx. unfold shl64. zbits; rewrite ?(testbit_above 64 x) by (exact Hx || lia);
    try (by rewrite ?andb_false_r, ?orb_false_r); replace (i - 32 + 32) with i by lia; by destruct (Z.testbit x i).
Qed.

(** The offset the stub computes at the time [now]. *)
Definition new_tsc_offset (d : tsc_data) (now : Z) : Z :=
  u64 (tsc_offset d) -64
  (now -64 (u64 (stored_tsc d) +64 u64 (instruction_overhead d) -64 u64 (vmentry_overhead d) -64
            u64 (vmexit_to_store_overhead d))).

Lemma zero_flag_set x v : get_bit (set_bits x ZF 1 (b2z (v =? 0))) ZF = (v =? 0).
Proof. unfold get_bit, ZF. rewrite testbit_set_bits by lia. cbn. by destruct (v =? 0). Qed.

Lemma compare_jne M i d v l pc :
  step supported other_flags (call_handler M) wrapped launch_result address vmexit_stub i d = go (alu_flags other_flags d v) ->
  exists fl, forall r,
    runs_to' M (if v =? 0 then pc else from_label l vmexit_stub) (d <| rflags := fl |>) r ->
    runs_to' M (plain i :: plain (JNE l) :: pc) d r.
Proof.
  intros E. exists (rflags (alu_flags other_flags d v)). intros r H. eapply runs_go; [exact E |].
  assert (step supported other_flags (call_handler M) wrapped launch_result address vmexit_stub (JNE l) (alu_flags other_flags d v) =
    if v =? 0 then go (alu_flags other_flags d v) else jump l (alu_flags other_flags d v)) as E2.
  { cbn [step]. unfold alu_flags at 1. cbn [rflags set]. by rewrite zero_flag_set. }
  destruct (v =? 0); [eapply runs_go | eapply runs_jump]; (exact E2 || exact H).
Qed.

Lemma leave_ok M M' s s2 :
  host_ok s -> loaded M' false s s2 -> exists pc s3,
  runs_to' M (leave_offset ++ update_offset ++ load_rest ++ [plain VMRESUME; plain INT3]) s2 (enters_guest, pc, s3) /\
  resumes M' s s3 /\ vm s3 = vcpu_vmcs (core M').
Proof.
  intros Hh Hl. pose proof (loaded_rcx _ _ _ _ Hl) as Ec. unfold leave_offset. rewrite <- !app_assoc. cbn [app].
  edestruct (compare_jne M (TEST rcx rcx) s2) as [fl Hj]; [reflexivity |].
  destruct (load_rest_ok M M' false s s2 (memory s2) (vm s2) (regs s2) (tsc s2) fl Hh Hl (loaded_block _ _ _ _ Hl))
    as (s3 & E & H3 & Ev3 & _); [done |].
  eexists _, s3. split; [| split; [exact H3 |]].
  - apply Hj. rewrite Ec. cbn [Z.land Z.eqb]. eapply runs_straight; [| by apply runs_end].
    rewrite <- E. by destruct s2.
  - by rewrite Ev3, (loaded_vm _ _ _ _ Hl).
Qed.

Lemma update_ok M M' s s2 now later :
  host_ok s -> loaded M' true s s2 -> tsc s = now :: later -> is_u64 now ->
  let off := new_tsc_offset (stealth_tsc (stealth (core M'))) now in
  exists pc s3,
  runs_to' M (leave_offset ++ update_offset ++ load_rest ++ [plain VMRESUME; plain INT3]) s2 (enters_guest, pc, s3) /\
  resumes M' s s3 /\ vm s3 = vmwrite supported (vcpu_vmcs (core M')) VMCS_CTRL_TSC_OFFSET off /\
  read_n 8 (memory s3) (va_tsc_data + tsc_tsc_offset) = off.
Proof.
  intros Hh Hl Ht Hnow off. pose proof (loaded_rcx _ _ _ _ Hl) as Ec. cbn iota in Ec. pose proof (loaded_data _ _ _ _ Hl) as Hd.
  set (d := stealth_tsc (stealth (core M'))) in *.
  assert (forall o, 0 <= o < 40 -> regs s2 rcx +64 o = va_tsc_data + o) as Ha.
  { intros o Ho. rewrite Ec. apply wrap_small. destruct Hh as [_ _ [T1 T2] _]. lia. }
  set (m := write_n 8 (memory s2) (va_tsc_data + tsc_tsc_offset) off).
  unfold leave_offset. rewrite <- !app_assoc. cbn [app].
  edestruct (compare_jne M (TEST rcx rcx) s2) as [fl Hj]; [reflexivity |].
  rewrite Ec, Z.land_diag in Hj.
  assert (va_tsc_data =? 0 = false) as E0 by (destruct Hh as [_ _ [T1 T2] _]; lia). rewrite E0 in Hj.
  assert (exists g fl',
    straight' M update_offset (s2 <| rflags := fl |>) =
      Some (s2 <| memory := m |> <| vm := vmwrite supported (vm s2) VMCS_CTRL_TSC_OFFSET off |> <| regs := g |>
               <| tsc := later |> <| rflags := fl' |>) /\
    (forall r, r <> rax -> r <> rcx -> r <> rdx -> r <> rbx -> g r = regs s2 r)) as (g & fl' & Eu & Hg).
  { assert (tsc s2 = now :: later) as Et by (by rewrite (loaded_tsc _ _ _ _ Hl)).
    clear - Ha Hd Et Hnow. destruct s2 as [xr xs xf xm xc xx xcsr xfs xv xt]. cbn [tsc regs memory] in *. subst xt.
    assert (forall o v, In (o, 8%nat, v) (tsc_fields d) -> read_n 8 xm (xr rcx +64 o) = v) as Hv.
    { intros o v Hin. rewrite Ha; [by apply Hd |]. cbn [tsc_fields In] in Hin.
      repeat (destruct Hin as [[= <- _] | Hin]; [done |]). destruct Hin. }
    eexists _, _. split.
    - cbv -[read_n write_n add64 sub64 shl64 wrap Z.lor Z.shiftr vmwrite set_bits m off b2z Z.eqb field_of].
      change (field_of 8208) with (Some VMCS_CTRL_TSC_OFFSET). cbv iota beta.
      rewrite join_halves by done.
      rewrite (Hv 0 (u64 (tsc_offset d))), (Hv 8 (u64 (stored_tsc d))), (Hv 16 (u64 (vmexit_to_store_overhead d))),
        (Hv 24 (u64 (instruction_overhead d))), (Hv 32 (u64 (vmentry_overhead d))) by (cbn; tauto).
      rewrite (Ha 0) by lia. reflexivity.
    - intros r H1 H2 H3 H4. destruct r; try reflexivity; congruence. }
  destruct (load_rest_ok M M' true s s2 m (vmwrite supported (vm s2) VMCS_CTRL_TSC_OFFSET off) g later fl' Hh Hl)
    as (s3 & E & H3 & Ev3 & Em3); [| done |].
  { intros r. unfold m. rewrite read_n_other; [apply (loaded_block _ _ _ _ Hl) |]. rewrite (loaded_sp _ _ _ _ Hl).
    destruct Hh as [_ [L1 [L2 L3]] _ Hap]. pose proof (ctx_gpr_range r). unfold sizeof_guest_context, tsc_tsc_offset in *.
    assert (ctx_gpr r + 8 <= 448) by (by destruct r). lia. }
  eexists _, s3. split; [| split; [exact H3 | split]].
  - apply Hj. change (from_label update_tsc_offset vmexit_stub) with (update_offset ++ load_rest ++ [plain VMRESUME; plain INT3]).
    eapply runs_straight; [exact Eu |]. eapply runs_straight; [exact E |]. by apply runs_end.
  - by rewrite Ev3, (loaded_vm _ _ _ _ Hl).
  - rewrite Em3. unfold m. apply read_n_same. apply wrap_range. lia.
Qed.

(** *** From the first instruction *)

(** Not the exit the benchmark makes. *)
Definition bench_exit (s : state) : bool :=
  (u32 (regs s rcx) =? BNCH) && (vmx_vmread supported (vm s) VMCS_EXIT_REASON =? 0x0A) && (regs s rcx =? RVHVBNCH).

Lemma sub64_zero x y : is_u64 x -> is_u64 y -> (x -64 y =? 0) = (x =? y).
Proof.
  intros [Hx0 Hx1] [Hy0 Hy1]. unfold sub64, wrap. destruct (Z.eqb_spec x y) as [-> | Hne]; [by rewrite Z.sub_diag |].
  apply Z.eqb_neq. intros E. apply Z.mod_divide in E as [k Ek]; [| lia]. assert (k = 0) by nia. lia.
Qed.

Lemma sub32_zero x v : 0 <= v < 2 ^ 32 -> (u32 (x - v) =? 0) = (u32 x =? v).
Proof.
  intros Hv. unfold wrap. destruct (Z.eqb_spec (x mod 2 ^ 32) v) as [E | Hne].
  - subst v. by rewrite Zminus_mod_idemp_r, Z.sub_diag.
  - apply Z.eqb_neq. intros E. apply Hne. apply Z.mod_divide in E as [k Ek]; [| lia].
    replace x with (v + k * 2 ^ 32) by lia. rewrite Z.mod_add by lia. by apply Z.mod_small.
Qed.

Lemma pushed_back m a x y :
  is_u64 x -> is_u64 y -> read_n 8 (write_n 8 (write_n 8 m (a - 8) x) (a - 16) y) (a - 16) = y /\
  read_n 8 (write_n 8 (write_n 8 m (a - 8) x) (a - 16) y) (a - 8) = x.
Proof.
  intros Hx Hy. split; [by apply read_n_same |]. rewrite read_n_other by lia. by apply read_n_same.
Qed.

(** The two registers that the fast path borrows come back. *)
Lemma borrowed M s (g : gprs) fl m :
  16 <= sp s < 2 ^ 64 -> read_n 8 m (sp s - 16) = regs s r11 -> read_n 8 m (sp s - 8) = regs s r10 ->
  (forall r, r <> r10 -> g r = regs s r) ->
  straight' M restore_r10_r11 (s <| rflags := fl |> <| memory := m |> <| sp := sp s - 16 |> <| regs := g |>) =
    Some (s <| rflags := fl |> <| memory := m |>).
Proof.
  intros Hs H1 H2 Hg. assert (sp s - 16 +64 8 = sp s - 8 /\ sp s - 8 +64 8 = sp s) as [P1 P2]
    by (split; apply add64_eq; unfold is_u64; lia).
  destruct s as [xr xs xf xm xc xx xcsr xfs xv xt]. cbn [sp regs] in *.
  cbv -[read_n add64 Z.sub]. rewrite P1, P2, H1, H2. do 2 f_equal.
  apply functional_extensionality. intros r. destruct r; try reflexivity; by rewrite Hg.
Qed.

(** What is left of the fast path after the reading of the exit reason, and after the
    comparison with the key. *)
Definition compare_reason : list line := Eval cbv [drop fast_path] in drop 6 fast_path.
Definition key_matches : list line := Eval cbv [drop fast_path] in drop 11 fast_path.
Definition normal_exit : list line :=
  save_context ++ call_handler_lines ++ load_context ++ leave_offset ++ update_offset ++ load_rest ++
  [plain VMRESUME; plain INT3].

(** The state after the two pushes. *)
Definition borrowing (s : state) (fl : Z) (g : gprs) : state :=
  s <| rflags := fl |>
    <| memory := write_n 8 (write_n 8 (memory s) (sp s - 8) (regs s r10)) (sp s - 16) (regs s r11) |>
    <| sp := sp s - 16 |> <| regs := g |>.

Lemma first_comparison M s :
  host_ok s ->
  exists fl, forall r,
  (if u32 (regs s rcx) =? BNCH
   then runs_to' M (compare_reason ++ restore_r10_r11 ++ normal_exit)
          (borrowing s fl (<[r10 := vmx_vmread supported (vm s) VMCS_EXIT_REASON]> (<[r10 := 0x4402]> (regs s)))) r
   else runs_to' M normal_exit (s <| rflags := fl |>) r) ->
  runs_to' M vmexit_stub s r.
Proof.
  intros Hh. edestruct (compare_jne M (CMP32 rcx BNCH) s) as [fl Hj]; [reflexivity |].
  rewrite sub32_zero in Hj by done. exists fl. intros r Hk.
  unfold vmexit_stub, fast_path. cbn [app]. apply Hj. destruct (_ =? BNCH); [| exact Hk].
  destruct Hh as [_ [L1 [L2 L3]] _ _]. unfold sizeof_guest_context in L2.
  assert (sp s -64 8 = sp s - 8 /\ sp s - 8 -64 8 = sp s - 16) as [P1 P2] by (split; apply sub64_eq; unfold is_u64; lia).
  unfold borrowing in Hk. rewrite <- P2, <- P1 in Hk.
  do 3 (eapply runs_go; [reflexivity |]). eapply runs_go; [reflexivity |].
  match type of Hk with runs_to _ _ _ _ _ _ _ _ ?y _ => match goal with |- runs_to _ _ _ _ _ _ _ _ ?x _ =>
    assert (x = y) as -> by (by destruct s) end end.
  exact Hk.
Qed.

Lemma entry_ok M s :
  host_ok s -> registers_fit s -> is_u64 (vmx_vmread supported (vm s) VMCS_EXIT_REASON) -> bench_exit s = false ->
  exists fl m, forall r, runs_to' M normal_exit (s <| rflags := fl |> <| memory := m |>) r -> runs_to' M vmexit_stub s r.
Proof.
  intros Hh Hf Hr Hb. destruct (first_comparison M s Hh) as (fl & Hj). unfold bench_exit in Hb.
  destruct (Z.eqb_spec (u32 (regs s rcx)) BNCH) as [E0 | _].
  2: { exists fl, (memory s). intros r Hk. apply Hj.
       assert (s <| rflags := fl |> <| memory := memory s |> = s <| rflags := fl |>) as <- by (by destruct s). exact Hk. }
  destruct Hh as [_ [L1 [L2 L3]] _ _]. unfold sizeof_guest_context in L2.
  destruct (pushed_back (memory s) (sp s) (regs s r10) (regs s r11)) as [Q1 Q2]; [apply Hf .. |].
  set (m := write_n 8 (write_n 8 (memory s) (sp s - 8) (regs s r10)) (sp s - 16) (regs s r11)) in *.
  assert (forall g fl' r, (forall q, q <> r10 -> g q = regs s q) ->
    runs_to' M normal_exit (s <| rflags := fl' |> <| memory := m |>) r ->
    runs_to' M (restore_r10_r11 ++ normal_exit) (borrowing s fl' g) r) as Hback.
  { intros g fl' r Hg Hk. eapply runs_straight; [| exact Hk]. apply borrowed; [lia | done ..]. }
  set (reason := vmx_vmread supported (vm s) VMCS_EXIT_REASON) in *.
  set (g1 := <[r10 := reason]> (<[r10 := 0x4402]> (regs s))) in *.
  assert (forall q, q <> r10 -> g1 q = regs s q) as Hg1
    by (intros q Hq; unfold g1, insert, fn_insert; by rewrite !decide_False by congruence).
  edestruct (compare_jne M (CMP r10 (imm 0x0A)) (borrowing s fl g1)) as [fl2 Hj2]; [reflexivity |].
  cbn [value] in Hj2. change (regs (borrowing s fl g1) r10) with reason in Hj2. rewrite sub64_zero in Hj2 by done.
  destruct (Z.eqb_spec reason 0x0A) as [E1 | _].
  2: { exists fl2, m. intros r Hk. apply Hj, Hj2. exact (Hback g1 fl2 r Hg1 Hk). }
  cbn [andb] in Hb. set (g2 := <[r10 := RVHVBNCH]> g1).
  edestruct (compare_jne M (CMP rcx (reg_op r10)) (borrowing s fl2 g2)) as [fl3 Hj3]; [reflexivity |].
  change (regs (borrowing s fl2 g2) rcx) with (regs s rcx) in Hj3.
  change (value (borrowing s fl2 g2) (reg_op r10)) with RVHVBNCH in Hj3.
  rewrite sub64_zero, Hb in Hj3 by (apply Hf || done).
  exists fl3, m. intros r Hk. apply Hj, Hj2. eapply runs_go; [reflexivity |].
  apply Hj3. refine (Hback g2 fl3 r _ Hk).
  intros q Hq. unfold g2, insert, fn_insert. rewrite decide_False by congruence. by apply Hg1.
Qed.

(** ** Properties *)

Lemma add64_wrapped x y : u64 x +64 u64 y = u64 (x + y).
Proof. unfold add64. by rewrite wrap_add_l, wrap_add_r. Qed.
Lemma sub64_wrapped x y : u64 x -64 u64 y = u64 (x - y).
Proof. unfold sub64. by rewrite wrap_sub_l, wrap_sub_r. Qed.

(** The flags and the memory do not matter for the start. *)
Lemma handled_from M' hide s fl m s' : handled M' hide (s <| rflags := fl |> <| memory := m |>) s' -> handled M' hide s s'.
Proof. intros []. by split. Qed.

Lemma exit_stub_ok M M' hide s now later :
  host_ok s -> registers_fit s -> is_u64 (vmx_vmread supported (vm s) VMCS_EXIT_REASON) -> bench_exit s = false ->
  (forall r, is_u64 (guest_context (core M') r)) -> tsc s = now :: later -> is_u64 now ->
  exit_handler (exit_machine M (regs s) (vm s)) = Ok (M', hide) ->
  let off := new_tsc_offset (stealth_tsc (stealth (core M'))) now in
  exists pc s', exit_runs_to M s (enters_guest, pc, s') /\ resumes M' s s' /\
    vm s' = (if hide then vmwrite supported (vcpu_vmcs (core M')) VMCS_CTRL_TSC_OFFSET off else vcpu_vmcs (core M')) /\
    (hide = true -> read_n 8 (memory s') (va_tsc_data + tsc_tsc_offset) = off).
Proof.
  intros Hh Hf Hr Hb Hg Ht Hnow He off. destruct (entry_ok M s Hh Hf Hr Hb) as (fl & m & Hin).
  set (s0 := s <| rflags := fl |> <| memory := m |>) in *.
  assert (host_ok s0 /\ registers_fit s0) as [Hh0 Hf0] by (split; [destruct Hh | destruct Hf]; by split).
  destruct (call_ok M M' hide s0 Hh0 Hf0 Hg He) as (s1 & H1%handled_from & E1).
  destruct (load_context_ok M M' hide s s1 Hh H1) as (s2 & E2 & H2).
  assert (forall r, runs_to' M (leave_offset ++ update_offset ++ load_rest ++ [plain VMRESUME; plain INT3]) s2 r ->
    exit_runs_to M s r) as Hrun.
  { intros r Hr'. apply Hin. unfold normal_exit. rewrite app_assoc. eapply runs_straight; [exact E1 |].
    eapply runs_straight; [exact E2 | exact Hr']. }
  destruct hide.
  - destruct (update_ok M M' s s2 now later Hh H2 Ht Hnow) as (pc & s3 & Er & H3 & Ev & Eo).
    exists pc, s3. split; [exact (Hrun _ Er) |]. split; [exact H3 |]. split; [exact Ev |]. intros _. exact Eo.
  - destruct (leave_ok M M' s s2 Hh H2) as (pc & s3 & Er & H3 & Ev).
    exists pc, s3. split; [exact (Hrun _ Er) |]. split; [exact H3 |]. split; [exact Ev |]. discriminate.
Qed.

(** (C17) An exit goes to the handler with the registers of the guest and the current
    VMCS; and when the handler returns, the stub enters the guest with the registers
    the handler left in the context, the stack as it was, and all control, debug and
    vector registers the guest had, whatever the handler did to those it may change. *)
Theorem vmexit_stub_runs_handler M M' hide s now later
    (Hhost : host_ok s) (Hfit : registers_fit s)
    (Hreason : is_u64 (vmx_vmread supported (vm s) VMCS_EXIT_REASON)) (Hbench : bench_exit s = false)
    (Hctx : forall r, is_u64 (guest_context (core M') r))
    (Htsc : tsc s = now :: later) (Hnow : is_u64 now)
    (Hhandler : exit_handler (exit_machine M (regs s) (vm s)) = Ok (M', hide)) :
  exists pc s', exit_runs_to M s (enters_guest, pc, s') /\
    (forall r, regs s' r = guest_context (core M') r) /\ sp s' = sp s /\
    (forall c, cregs s' c = cregs s c) /\ (forall x, (x < 16)%nat -> xmm s' x = xmm s x) /\ mxcsr s' = mxcsr s /\
    (hide = false -> vm s' = vcpu_vmcs (core M')).
Proof.
  destruct (exit_stub_ok M M' hide s now later Hhost Hfit Hreason Hbench Hctx Htsc Hnow Hhandler)
    as (pc & s' & E & [] & Hv & _).
  exists pc, s'. split; [exact E |]. do 5 (split; [assumption |]). intros ->. exact Hv.
Qed.

(** (C18) When the duration of an exit is hidden, the guest goes on with a time-stamp
    counter that shows the time of the exit, without the overhead of leaving it, with
    that of the instruction alone, and early by the overhead of the entry to come. *)
Theorem exit_time_hidden M M' s now later
    (Hhost : host_ok s) (Hfit : registers_fit s)
    (Hreason : is_u64 (vmx_vmread supported (vm s) VMCS_EXIT_REASON)) (Hbench : bench_exit s = false)
    (Hctx : forall r, is_u64 (guest_context (core M') r))
    (Htsc : tsc s = now :: later) (Hnow : is_u64 now) (Hsup : supported VMCS_CTRL_TSC_OFFSET = true)
    (Hhandler : exit_handler (exit_machine M (regs s) (vm s)) = Ok (M', true)) :
  let d := stealth_tsc (stealth (core M')) in
  exists pc s', exit_runs_to M s (enters_guest, pc, s') /\
    now +64 vmx_vmread supported (vm s') VMCS_CTRL_TSC_OFFSET =
      u64 (stored_tsc d + tsc_offset d - vmexit_to_store_overhead d + instruction_overhead d - vmentry_overhead d) /\
    read_n 8 (memory s') (va_tsc_data + tsc_tsc_offset) = vmx_vmread supported (vm s') VMCS_CTRL_TSC_OFFSET.
Proof.
  intros d.
  destruct (exit_stub_ok M M' true s now later Hhost Hfit Hreason Hbench Hctx Htsc Hnow Hhandler)
    as (pc & s' & E & _ & Hv & Hm). specialize (Hm eq_refl).
  exists pc, s'. split; [exact E |]. rewrite Hm, Hv, vmread_vmwrite_same by exact Hsup. fold d.
  assert (u64 (new_tsc_offset d now) = new_tsc_offset d now) as -> by (unfold new_tsc_offset; apply wrap_wrap; lia).
  split; [| done]. assert (now = u64 now) as En by (symmetry; by apply wrap_small). unfold new_tsc_offset. rewrite En.
  rewrite !add64_wrapped, !sub64_wrapped, add64_wrapped. f_equal. lia.
Qed.
(** The fast path: the guest goes on at the address in R8, with the time before the
    entry in R9. *)
Record bench_resumes (s s' : state) (now : Z) (later : list Z) : Prop := {
  bench_tsc : tsc s' = later;
  bench_r9 : regs s' r9 = now;
  bench_gprs : forall r, r <> rax -> r <> r9 -> regs s' r = regs s r;
  bench_sp : sp s' = sp s;
  bench_cregs : cregs s' = cregs s;
  bench_xmm : xmm s' = xmm s;
  bench_mxcsr : mxcsr s' = mxcsr s;
  bench_memory : forall a, a < sp s - 16 \/ sp s <= a -> memory s' a = memory s a;
  bench_vm : vm s' = vmwrite supported (vmwrite supported (vm s) VMCS_GUEST_RIP (regs s r8)) VMCS_CTRL_TSC_OFFSET (2 ^ 64 - 1)
}.

Lemma fast_path_ok M s now later :
  host_ok s -> registers_fit s -> bench_exit s = true -> tsc s = now :: later -> is_u64 now ->
  exists pc s', exit_runs_to M s (enters_guest, pc, s') /\ bench_resumes s s' now later.
Proof.
  intros Hh Hf Hb Ht Hnow. destruct (first_comparison M s Hh) as (fl & Hj).
  apply andb_prop in Hb as [[E0 E1]%andb_prop E2]. rewrite E0 in Hj. apply Z.eqb_eq in E1, E2. rewrite E1 in Hj.
  destruct Hh as [_ [L1 [L2 L3]] _ _]. unfold sizeof_guest_context in L2.
  destruct (pushed_back (memory s) (sp s) (regs s r10) (regs s r11)) as [Q1 Q2]; [apply Hf .. |].
  set (m := write_n 8 (write_n 8 (memory s) (sp s - 8) (regs s r10)) (sp s - 16) (regs s r11)) in *.
  assert (forall a, a < sp s - 16 \/ sp s <= a -> m a = memory s a) as Hm
    by (intros a Ha; unfold m; rewrite !write_n_out by lia; done).
  set (g1 := <[r10 := 0x0A]> (<[r10 := 0x4402]> (regs s))) in *.
  edestruct (compare_jne M (CMP r10 (imm 0x0A)) (borrowing s fl g1)) as [fl2 Hj2]; [reflexivity |].
  set (g2 := <[r10 := RVHVBNCH]> g1).
  edestruct (compare_jne M (CMP rcx (reg_op r10)) (borrowing s fl2 g2)) as [fl3 Hj3]; [reflexivity |].
  change (regs (borrowing s fl2 g2) rcx) with (regs s rcx) in Hj3.
  change (value (borrowing s fl2 g2) (reg_op r10)) with RVHVBNCH in Hj3. rewrite E2 in Hj3.
  cut (exists s', straight' M (take 16 key_matches) (borrowing s fl3 g2) = Some s' /\ bench_resumes s s' now later).
  { intros (s' & E & H). eexists _, s'. split; [| exact H]. apply Hj, Hj2. eapply runs_go; [reflexivity |].
    apply Hj3. exact (runs_straight _ _ _ _ _ _ _ _ _ _ _ _ E (runs_end _ _ _ _ _ _ _ (plain VMRESUME)
      (plain INT3 :: restore_r10_r11 ++ normal_exit) s' enters_guest s' eq_refl)). }
  assert (sp s - 16 +64 8 = sp s - 8 /\ sp s - 8 +64 8 = sp s) as [P1 P2] by (split; apply add64_eq; unfold is_u64; lia).
  assert (sp s -64 8 = sp s - 8) as P3 by (apply sub64_eq; unfold is_u64; lia).
  pose proof (regs_fit s Hf) as Hr. clear - Q1 Q2 Hm P1 P2 P3 Ht Hnow Hr L2 L1.
  destruct s as [xr xs xf xm xc xx xcsr xfs xv xt]. cbn [tsc regs sp memory] in *. subst xt.
  eexists. split.
  - cbv -[read_n write_n add64 sub64 shl64 wrap Z.lor Z.lxor Z.shiftr vmwrite set_bits b2z Z.eqb field_of Z.sub m].
    change (field_of 26654) with (Some VMCS_GUEST_RIP). cbv iota beta.
    change (field_of 8208) with (Some VMCS_CTRL_TSC_OFFSET). cbv iota beta.
    rewrite join_halves by done. rewrite !P1, !P2, !P3. fold m. rewrite Q1, Q2, Z.lxor_nilpotent, read_n_same by apply Hr.
    change (0 -64 1) with (2 ^ 64 - 1). rewrite P2. reflexivity.
  - split; cbn; try reflexivity.
    + intros r H1 H2. destruct r; try reflexivity; congruence.
    + intros a Ha. rewrite write_n_out by lia. by apply Hm.
Qed.
End exit.

(** ** Examples *)

(** A guest that executes CPUID, on a core whose overheads have been measured. *)
Definition measured_core : machine :=
  sample_machine (zero_vcpu <| stealth := zero_stealth <| bench_completed := true |>
                                <| stealth_tsc := mk_tsc_data 0 0 40 0 30 |> |>) (fun _ => 0).
Definition exiting : state :=
  mk_state (<[rcx := 7]> (fun r => match r with r12 => 0x1212 | _ => 0 end)) 0x10000 2 (fun _ => 0) (fun _ => 0)
    (fun _ => 3) 0x1F80 0x5000 (sample_fields [(VMCS_EXIT_REASON, 0x0A); (VMCS_GUEST_RIP, 0x1000)]) [5000].
Definition no_scratch : scratch := mk_scratch (fun _ => 0xBAD) (fun _ => 0xBAD) 0xBAD 0xBAD (fun _ => 0xAD).

Abbreviation example_handler := (exit_handler (fun _ => true) (fun _ _ => 0) sample_env).
Definition handled_core : machine :=
  match example_handler (exit_machine measured_core (regs exiting) (vm exiting)) with
  | Ok (M', _) => M'
  | _ => measured_core
  end.

Lemma example_handled : example_handler (exit_machine measured_core (regs exiting) (vm exiting)) = Ok (handled_core, true).
Proof.
  assert (match example_handler (exit_machine measured_core (regs exiting) (vm exiting)) with
          | Ok (_, b) => b | _ => false end = true) as H by (vm_compute; reflexivity).
  unfold handled_core. destruct (exit_handler _ _ _ _) as [[M' []] | |]; [reflexivity | discriminate H ..].
Qed.

Lemma exiting_host_ok : host_ok 0x8000 0x20000 exiting.
Proof. split; [reflexivity | | | right]; vm_compute; intuition discriminate. Qed.
Lemma exiting_fits : registers_fit exiting.
Proof.
  split.
  - intros r. destruct r; vm_compute; intuition discriminate.
  - intros c. vm_compute. intuition discriminate.
  - intros x. vm_compute. intuition discriminate.
  - vm_compute. intuition discriminate.
Qed.
Lemma handled_core_fits r : is_u64 (guest_context (core handled_core) r).
Proof. destruct r; vm_compute; intuition discriminate. Qed.

Lemma vmexit_stub_runs_handler_witness :
  exists pc s', exit_runs_to (fun _ => true) (fun _ _ => 0) sample_env (fun _ _ => 0) done_with (fun _ => None) (fun _ => 0)
      0x8000 no_scratch 0x20000 measured_core exiting (enters_guest, pc, s') /\
    regs s' r12 = 0x1212 /\ regs s' rcx = 0 /\ sp s' = 0x10000.
Proof.
  destruct (vmexit_stub_runs_handler (fun _ => true) (fun _ _ => 0) sample_env (fun _ _ => 0) done_with (fun _ => None) (fun _ => 0)
      0x8000 no_scratch 0x20000 measured_core handled_core true exiting 5000 []) as (pc & s' & E & Hr & Hs & _).
  - exact exiting_host_ok.
  - exact exiting_fits.
  - vm_compute. intuition discriminate.
  - reflexivity.
  - exact handled_core_fits.
  - reflexivity.
  - vm_compute. intuition discriminate.
  - exact example_handled.
  - exists pc, s'. split; [exact E |]. rewrite !Hr, Hs. vm_compute. intuition.
Defined.

Lemma exit_time_hidden_witness :
  exists pc s', exit_runs_to (fun _ => true) (fun _ _ => 0) sample_env (fun _ _ => 0) done_with (fun _ => None) (fun _ => 0)
      0x8000 no_scratch 0x20000 measured_core exiting (enters_guest, pc, s') /\
    5000 +64 vmx_vmread (fun _ => true) (vm s') VMCS_CTRL_TSC_OFFSET =
      u64 (instruction_overhead (stealth_tsc (stealth (core handled_core))) - 70).
Proof.
  destruct (exit_time_hidden (fun _ => true) (fun _ _ => 0) sample_env (fun _ _ => 0) done_with (fun _ => None) (fun _ => 0)
      0x8000 no_scratch 0x20000 measured_core handled_core exiting 5000 []) as (pc & s' & E & Ht & _).
  - exact exiting_host_ok.
  - exact exiting_fits.
  - vm_compute. intuition discriminate.
  - reflexivity.
  - exact handled_core_fits.
  - reflexivity.
  - vm_compute. intuition discriminate.
  - reflexivity.
  - exact example_handled.
  - exists pc, s'. split; [exact E |]. rewrite Ht. vm_compute. reflexivity.
Defined.
