(* ===== verification/LaunchStub.v ===== *)
(** * The launch, the benchmark and the way out: [vmlaunch_stub.asm],
    [stealth_util.asm], [utils.asm]

    The stub that launches the guest returns to its caller in either case; the
    benchmark measures an entry together with the fast path of the exit stub; a core
    that has left VMX operation switches its code segment, or waits for ever. *)
From Stdlib Require Import ZArith Lia List Bool FunctionalExtensionality.
From stdpp Require Import base numbers list option functions.
From S2P Require Import Prelude Ia32 Memory Mtrr Trace TransitionCfg Ept Vmcs Vcpu Asm Stubs VmExit Hypercall ExitStub.

(** ** What an exit and an entry switch *)

(** An exit changes the stack, the memory and the current VMCS; the registers stay. *)
Definition to_host (g h : state) : state :=
  h <| regs := regs g |> <| cregs := cregs g |> <| xmm := xmm g |> <| mxcsr := mxcsr g |> <| tsc := tsc g |>.
Definition to_guest (h g : state) : state :=
  g <| regs := regs h |> <| cregs := cregs h |> <| xmm := xmm h |> <| mxcsr := mxcsr h |> <| tsc := tsc h |>.

Section launch.
Context {ia32 : Ia32} {mtrr_layout : MtrrLayout} {exit_layout : ExitLayout}.
Variable supported : vmcs_field -> bool.
Variable other_flags : Z -> Z -> Z.
Variable callee : state -> option state.
Variable wrapped : state -> wrapped_result.
Variable vmlaunch : vmcs -> option Z.
Variable address : list line -> Z.
Hypothesis address_range : forall pc, is_u64 (address pc).

Abbreviation runs prog := (runs_to supported other_flags callee wrapped vmlaunch address prog).

(** Room for [n] bytes below the stack pointer, and the return address at it. *)
Definition stack_ok (n : Z) (s : state) : Prop := n <= sp s /\ sp s + 8 < 2 ^ 64.

(** ** The launch *)

(** The lines up to VMLAUNCH leave the registers of the caller alone but for RAX and
    RDX, and put the way on and the stack into the VMCS. *)
Definition launch_fields (s : state) : vmcs :=
  vmwrite supported (vmwrite supported (vm s) VMCS_GUEST_RIP (address (from_label successful_launch vmx_vmlaunch_stub)))
    VMCS_GUEST_RSP (sp s).

Lemma launch_prefix s :
  exists g, straight supported other_flags callee wrapped vmlaunch address vmx_vmlaunch_stub (take 6 vmx_vmlaunch_stub) s =
      Some (s <| regs := g |> <| vm := launch_fields s |>) /\
    forall r, r <> rax -> r <> rdx -> g r = regs s r.
Proof.
  destruct s as [xr xs xf xm xc xx xcsr xfs xv xt]. eexists. split.
  - cbv -[vmwrite field_of from_label launch_fields].
    change (field_of 26654) with (Some VMCS_GUEST_RIP). cbv iota beta.
    change (field_of 26652) with (Some VMCS_GUEST_RSP). cbv iota beta. reflexivity.
  - intros r H1 H2. destruct r; try reflexivity; congruence.
Qed.

(** The launch stub returns to its caller: when the guest is entered, as the guest, at
    the end of the stub and on the same stack, with 1; else with 0 and the flags of
    the failure where the caller wants them. *)
Theorem launch_stub_returns s
    (Hstack : stack_ok 8 s) (Hrip : supported VMCS_GUEST_RIP = true) (Hrsp : supported VMCS_GUEST_RSP = true)
    (Hout : 0 <= regs s rcx /\ (regs s rcx + 8 <= sp s - 8 \/ sp s + 8 <= regs s rcx < 2 ^ 64)) :
  match vmlaunch (launch_fields s) with
  | None =>
      exists pc s1, runs vmx_vmlaunch_stub vmx_vmlaunch_stub s (enters_guest, pc, s1) /\
        vmx_vmread supported (vm s1) VMCS_GUEST_RIP = address (from_label successful_launch vmx_vmlaunch_stub) /\
        let guest := s1 <| sp := vmx_vmread supported (vm s1) VMCS_GUEST_RSP |> in
        exists pc2 s2, runs vmx_vmlaunch_stub (from_label successful_launch vmx_vmlaunch_stub) guest
            (returns (read_n 8 (memory s) (sp s)), pc2, s2) /\
          regs s2 rax = 1 /\ sp s2 = sp s + 8 /\ (forall r, r <> rax -> r <> rdx -> regs s2 r = regs s r)
  | Some flags => is_u64 flags ->
      exists pc s1, runs vmx_vmlaunch_stub vmx_vmlaunch_stub s (returns (read_n 8 (memory s) (sp s)), pc, s1) /\
        regs s1 rax = 0 /\ sp s1 = sp s + 8 /\ (forall r, r <> rax -> r <> rdx -> regs s1 r = regs s r) /\
        read_n 8 (memory s1) (regs s rcx) = flags
  end.
Proof.
  destruct (launch_prefix s) as (g & E & Hg). destruct Hstack as [S1 S2].
  set (s1 := s <| regs := g |> <| vm := launch_fields s |>) in *.
  assert (forall r, runs vmx_vmlaunch_stub (drop 6 vmx_vmlaunch_stub) s1 r -> runs vmx_vmlaunch_stub vmx_vmlaunch_stub s r) as Hrun.
  { intros r Hr. change (runs vmx_vmlaunch_stub (take 6 vmx_vmlaunch_stub ++ drop 6 vmx_vmlaunch_stub) s r).
    eapply runs_straight; [exact E | exact Hr]. }
  destruct (vmlaunch (launch_fields s)) as [flags |] eqn:El.
  - intros Hfl.
    cut (exists s2, straight supported other_flags callee wrapped vmlaunch address vmx_vmlaunch_stub
        (take 5 (drop 6 vmx_vmlaunch_stub)) s1 = Some s2 /\
      regs s2 rax = 0 /\ sp s2 = sp s /\ (forall r, r <> rax -> r <> rdx -> regs s2 r = regs s r) /\
      memory s2 = write_n 8 (write_n 8 (memory s) (sp s - 8) flags) (regs s rcx) flags).
    { intros (s2 & E2 & H1 & H2 & H3 & H4). eexists _, (drop_top s2).
      assert (read_n 8 (memory s) (sp s) = top s2) as ->
        by (unfold top; rewrite H4, H2, !read_n_other by lia; done).
      split; [| split; [exact H1 | split; [cbn; rewrite H2; apply add64_eq; unfold is_u64; lia | split; [exact H3 |]]]].
      - apply Hrun. change (drop 6 vmx_vmlaunch_stub) with (take 5 (drop 6 vmx_vmlaunch_stub) ++ drop 11 vmx_vmlaunch_stub).
        eapply runs_straight; [exact E2 |]. by apply runs_end.
      - cbn [memory drop_top set]. change (read_n 8 (memory s2) (regs s rcx) = flags). rewrite H4. by apply read_n_same. }
    assert (sp s -64 8 = sp s - 8) as P1 by (apply sub64_eq; unfold is_u64; lia).
    assert (sp s - 8 +64 8 = sp s) as P2 by (apply add64_eq; unfold is_u64; lia).
    assert (regs s rcx +64 0 = regs s rcx) as P3 by (apply add64_eq; unfold is_u64; lia).
    pose proof (Hg rcx ltac:(done) ltac:(done)) as Hc. clear E Hrun. subst s1. unfold is_u64 in *.
    eexists. split; [| split; [| split; [| split]]].
    + cbn -[launch_fields]. rewrite El. reflexivity.
    + cbn. apply Z.lxor_nilpotent.
    + cbn. by rewrite P1, P2.
    + intros r H1 H2. cbn. unfold insert, fn_insert. rewrite !decide_False by congruence. by apply Hg.
    + cbn. unfold insert, fn_insert. rewrite decide_False, decide_True, Hc, P3 by done.
      unfold top, push. cbn. by rewrite P1, read_n_same.
  - exists (drop 6 vmx_vmlaunch_stub), s1. split.
    { apply Hrun. apply runs_end. cbn [step plain line_instr]. change (vm s1) with (launch_fields s). by rewrite El. }
    change (vm s1) with (launch_fields s). unfold launch_fields at 1 2.
    rewrite vmread_vmwrite_other, vmread_vmwrite_same, vmread_vmwrite_same by done. split; [by apply wrap_small, address_range |].
    rewrite (wrap_small 64 (sp s)) by lia. set (d := _ <| sp := _ |>).
    exists (drop 13 vmx_vmlaunch_stub), (drop_top (d <| regs := <[rax := 1]> g |>)). split; [| split; [done | split]].
    + change (from_label successful_launch vmx_vmlaunch_stub) with (drop 12 vmx_vmlaunch_stub).
      eapply runs_go; [reflexivity |]. by apply runs_end.
    + cbn. apply add64_eq; unfold is_u64; lia.
    + intros r H1 H2. cbn. unfold insert, fn_insert. rewrite decide_False by congruence. by apply Hg.
Qed.

(** ** The way out of VMX operation *)

(** The part of the frame that both routines build last, below the stack pointer [a]. *)
Definition pushed_frame (m : mem) (a rip cs flags : Z) : mem :=
  write_n 8 (write_n 8 (write_n 8 m (a - 24) flags) (a - 32) cs) (a - 40) rip.

Lemma pushed_frame_ok m a rip cs flags rsp :
  is_u64 rip -> is_u64 cs -> is_u64 flags -> read_n 8 m (a - 16) = rsp -> read_n 8 m (a - 8) = 0 ->
  frame_at (pushed_frame m a rip cs flags) (a - 40) rip cs flags rsp 0.
Proof.
  intros H1 H2 H3 H4 H5. unfold frame_at, pushed_frame.
  replace (a - 40 + 8) with (a - 32) by lia. replace (a - 40 + 16) with (a - 24) by lia.
  replace (a - 40 + 24) with (a - 16) by lia. replace (a - 40 + 32) with (a - 8) by lia.
  split; [by apply read_n_same |]. split; [rewrite read_n_other by lia; by apply read_n_same |].
  split; [rewrite !read_n_other by lia; by apply read_n_same |].
  by rewrite !read_n_other by lia.
Qed.

Lemma pushed_frame_above m a rip cs flags k b : a <= b -> read_n k (pushed_frame m a rip cs flags) b = read_n k m b.
Proof. intros H. unfold pushed_frame. by rewrite !read_n_other by lia. Qed.

(** What is pushed first. *)
Definition pushed_stack (m : mem) (a : Z) : mem := write_n 8 (write_n 8 m (a - 8) 0) (a - 16) a.

Lemma pushed_stack_ok m a :
  is_u64 a -> read_n 8 (pushed_stack m a) (a - 16) = a /\ read_n 8 (pushed_stack m a) (a - 8) = 0.
Proof.
  intros Ha. split; [by apply read_n_same |]. unfold pushed_stack. rewrite read_n_other by lia. by apply read_n_same.
Qed.

(** The addresses of five pushes. *)
Lemma five_pushes a :
  40 <= a -> a + 8 < 2 ^ 64 ->
  a -64 8 = a - 8 /\ a - 8 +64 8 = a /\ a - 8 -64 8 = a - 16 /\ a - 16 -64 8 = a - 24 /\ a - 24 -64 8 = a - 32 /\
  a - 32 -64 8 = a - 40 /\ a - 16 +64 8 = a - 8 /\ a - 24 +64 8 = a - 16.
Proof. intros H1 H2. repeat split; (apply sub64_eq || apply add64_eq); unfold is_u64; lia. Qed.

Lemma u16_u64 x : is_u64 (u16 x).
Proof. pose proof (wrap_range 16 x ltac:(lia)). unfold is_u64. lia. Qed.
Lemma lor_u64 x y : is_u64 x -> is_u64 y -> is_u64 (Z.lor x y).
Proof.
  intros Hx Hy. unfold is_u64 in *. split; [apply Z.lor_nonneg; lia |]. apply bounded_of_testbit; [lia | apply Z.lor_nonneg; lia |].
  intros i Hi. by rewrite Z.lor_spec, (testbit_above 64 x), (testbit_above 64 y) by lia.
Qed.
Lemma land_ffff x : Z.land x 0xFFFF = u16 x.
Proof. change 0xFFFF with (Z.ones 16). by apply Z.land_ones. Qed.

(** [switch_host_cs] returns to its caller with the code segment that was asked for, a
    null stack segment, and the flags and the stack as they were. *)
Theorem switch_host_cs_returns s (Hstack : stack_ok 40 s) (Hflags : is_u64 (rflags s)) (Hcs : is_u64 (regs s rcx)) :
  exists pc s1, runs switch_host_cs switch_host_cs s
      (interrupt_returns (address (from_label cs_done switch_host_cs)) (u16 (regs s rcx)) (rflags s) (sp s) 0, pc, s1) /\
    forall fl,
    let after := s1 <| sp := sp s |> <| rflags := fl |> in
    exists pc2 s2, runs switch_host_cs (from_label cs_done switch_host_cs) after
        (returns (read_n 8 (memory s) (sp s)), pc2, s2) /\
      sp s2 = sp s + 8 /\ (forall r, volatile_gpr r = false -> regs s2 r = regs s r).
Proof.
  destruct Hstack as [S1 S2]. set (rip := address (from_label cs_done switch_host_cs)).
  cut (exists s1, straight supported other_flags callee wrapped vmlaunch address switch_host_cs (take 10 switch_host_cs) s = Some s1 /\
    memory s1 = pushed_frame (pushed_stack (write_n 8 (memory s) (sp s - 8) (rflags s)) (sp s)) (sp s) rip (u16 (regs s rcx)) (rflags s) /\
    sp s1 = sp s - 40 /\ (forall r, volatile_gpr r = false -> regs s1 r = regs s r)).
  { intros (s1 & E & Em & Es & Hr). exists (drop 10 switch_host_cs), s1. split.
    - eapply (runs_straight _ _ _ _ _ _ _ (take 10 switch_host_cs) (drop 10 switch_host_cs)); [exact E |].
      apply iretq_ends; rewrite ?Es; [done | lia | lia |]. rewrite Em.
      apply pushed_frame_ok; [apply address_range | apply u16_u64 | done | apply pushed_stack_ok; unfold is_u64; lia ..].
    - intros fl after. exists [lab cs_done RET], (drop_top after).
      split; [| split; [apply add64_eq; unfold is_u64; cbn; lia | exact Hr]].
      assert (read_n 8 (memory s) (sp s) = top after) as ->; [| by apply runs_end].
      unfold top. change (sp after) with (sp s). change (memory after) with (memory s1).
      unfold pushed_stack in Em. rewrite Em, pushed_frame_above, !read_n_other by lia. done. }
  destruct (five_pushes (sp s) S1 S2) as (A1 & A2 & A3 & A4 & A5 & A6 & A7 & A8).
  unfold rip. destruct s as [xr xs xf xm xc xx xcsr xfs xv xt]. cbn [sp] in *. eexists. split.
  - cbv -[read_n write_n add64 sub64 Z.land set_bits b2z Z.eqb from_label].
    rewrite A1, A2, A1, A3, A2, A4, A5, A6, read_n_same by exact Hflags. reflexivity.
  - split; [| split; [reflexivity |]].
    + cbn [memory regs rflags]. rewrite <- land_ffff. reflexivity.
    + intros r Hr. destruct r; try reflexivity; discriminate.
Qed.

(** [cpu_hang_unblock_nmi] goes on at its loop, with interrupts on, and the loop never
    ends. *)
Theorem cpu_hang_never_returns s (Hstack : stack_ok 40 s) (Hflags : is_u64 (rflags s)) (Hcs : is_u64 (regs s rcx)) :
  let loop := from_label hang_loop cpu_hang_unblock_nmi in
  (exists pc s1, runs cpu_hang_unblock_nmi cpu_hang_unblock_nmi s
      (interrupt_returns (address loop) (u16 (regs s rcx)) (Z.lor (rflags s) 0x200) (sp s) 0, pc, s1)) /\
  forall fuel after, run supported other_flags callee wrapped vmlaunch address fuel cpu_hang_unblock_nmi loop after = None.
Proof.
  intros loop. split.
  - destruct Hstack as [S1 S2]. set (flags := Z.lor (rflags s) 0x200).
    cut (exists s1, straight supported other_flags callee wrapped vmlaunch address cpu_hang_unblock_nmi (take 11 cpu_hang_unblock_nmi) s = Some s1 /\
      sp s1 = sp s - 40 /\
      memory s1 = pushed_frame (write_n 8 (pushed_stack (memory s) (sp s)) (sp s - 24) (rflags s))
                    (sp s) (address loop) (u16 (regs s rcx)) flags).
    { intros (s1 & E & Es & Em). exists (drop 11 cpu_hang_unblock_nmi), s1.
      eapply (runs_straight _ _ _ _ _ _ _ (take 11 cpu_hang_unblock_nmi) (drop 11 cpu_hang_unblock_nmi)); [exact E |].
      apply iretq_ends; rewrite ?Es; [done | lia | lia |]. rewrite Em.
      apply pushed_frame_ok; [apply address_range | apply u16_u64 | by apply lor_u64 | ..];
        rewrite read_n_other by lia; apply pushed_stack_ok; unfold is_u64; lia. }
    destruct (five_pushes (sp s) S1 S2) as (A1 & A2 & A3 & A4 & A5 & A6 & A7 & A8).
    unfold flags. destruct s as [xr xs xf xm xc xx xcsr xfs xv xt]. cbn [sp] in *. eexists. split.
    + cbv -[read_n write_n add64 sub64 Z.land Z.lor set_bits b2z Z.eqb from_label loop].
      rewrite A1, A2, A3, A4, A8, A4, A5, A6, read_n_same by exact Hflags. reflexivity.
    + split; [reflexivity |]. cbn [memory regs rflags]. rewrite <- land_ffff. reflexivity.
  - intros fuel. assert (forall fuel after,
      run supported other_flags callee wrapped vmlaunch address fuel cpu_hang_unblock_nmi loop after = None /\
      run supported other_flags callee wrapped vmlaunch address fuel cpu_hang_unblock_nmi [plain (JMP hang_loop)] after = None) as H.
    { clear. induction fuel as [| fuel IH]; intros after; [done |]. split; [apply IH |]. cbn [run]. apply IH. }
    intros after. apply H.
Qed.
End launch.

(** ** The benchmark *)

Section bench.
Context {ia32 : Ia32} {mtrr_layout : MtrrLayout} {exit_layout : ExitLayout}.
Variable supported : vmcs_field -> bool.
Variable pfn_of_pd : bool -> Z -> Z.
Variable env : environment.
Variable other_flags : Z -> Z -> Z.
Variable callee : state -> option state.
Variable wrapped : state -> wrapped_result.
Variable vmlaunch : vmcs -> option Z.
Variable address : list line -> Z.
Hypothesis address_range : forall pc, is_u64 (address pc).
Variables (low : Z) (t : scratch) (va_tsc_data : Z).

Abbreviation guest_runs := (runs_to supported other_flags callee wrapped vmlaunch address stealth_vmexit_bench_one).
Abbreviation host_runs := (exit_runs_to supported pfn_of_pd env other_flags wrapped vmlaunch address low t va_tsc_data).

(** The guest up to CPUID. *)
Definition before_cpuid : list line := Eval cbv [take stealth_vmexit_bench_one] in take 11 stealth_vmexit_bench_one.
Definition after_cpuid : list line := Eval cbv [take drop stealth_vmexit_bench_one] in take 11 (drop 12 stealth_vmexit_bench_one).

Definition bench_stack (g : state) : mem := write_n 8 (write_n 8 (memory g) (sp g - 8) (regs g rbx)) (sp g - 16) (regs g rcx).

Lemma before_cpuid_ok g t0 later :
  16 <= sp g < 2 ^ 64 -> tsc g = t0 :: later -> is_u64 t0 -> (forall r, is_u64 (regs g r)) -> exists f fl,
  straight supported other_flags callee wrapped vmlaunch address stealth_vmexit_bench_one before_cpuid g =
    Some (g <| sp := sp g - 16 |> <| memory := bench_stack g |> <| rflags := fl |> <| tsc := later |> <| regs := f |>) /\
  f rcx = RVHVBNCH /\ f r8 = address (from_label Asm.next_rip stealth_vmexit_bench_one) /\ f r10 = t0 /\
  (forall r, volatile_gpr r = false -> f r = regs g r) /\ forall r, is_u64 (f r).
Proof.
  intros Hs Ht H0 Hu. assert (sp g -64 8 = sp g - 8 /\ sp g - 8 -64 8 = sp g - 16) as [P1 P2]
    by (split; apply sub64_eq; unfold is_u64; lia).
  unfold bench_stack. rewrite <- P2, <- P1. clear P1 P2 Hs. destruct g as [xr xs xf xm xc xx xcsr xfs xv xt]. cbn [tsc] in Ht. subst xt.
  eexists _, _. split; [| split; [| split; [| split; [| split]]]].
  - cbv -[read_n write_n add64 sub64 shl64 wrap Z.lor Z.shiftr set_bits b2z Z.eqb from_label]. rewrite join_halves by done. reflexivity.
  - reflexivity.
  - reflexivity.
  - reflexivity.
  - intros r Hr. destruct r; try reflexivity; discriminate.
  - intros r. destruct r; first [exact H0 | apply address_range | exact (Hu _) | by split | by apply wrap_range].
Qed.

Lemma after_cpuid_ok g m t1 t2 later :
  16 <= sp g -> sp g + 16 < 2 ^ 64 -> is_u64 t2 -> memory g = m -> tsc g = t2 :: later ->
  regs g r9 = t1 -> 0 <= read_n 8 m (sp g) -> read_n 8 m (sp g) + 8 <= sp g \/ sp g + 24 <= read_n 8 m (sp g) < 2 ^ 64 ->
  exists s, straight supported other_flags callee wrapped vmlaunch address stealth_vmexit_bench_one after_cpuid g = Some s /\
    regs s rax = regs g r10 /\ regs s rbx = read_n 8 m (sp g + 8) /\ sp s = sp g + 16 /\
    memory s = write_n 8 m (read_n 8 m (sp g)) (t2 -64 t1) /\
    forall r, volatile_gpr r = false -> r <> rbx -> regs s r = regs g r.
Proof.
  intros H1 H2 H0 Em Ht E9 Hc0 Hc.
  assert (sp g +64 8 = sp g + 8 /\ sp g + 8 +64 8 = sp g + 16) as [P1 P2] by (split; apply add64_eq; unfold is_u64; lia).
  assert (read_n 8 m (sp g) +64 0 = read_n 8 m (sp g)) as P3 by (apply add64_eq; unfold is_u64; lia).
  destruct g as [xr xs xf xm xc xx xcsr xfs xv xt]. cbn [tsc memory sp regs] in *. subst xt xm.
  eexists. split; [| split; [| split; [| split; [| split]]]].
  - cbv -[read_n write_n add64 sub64 shl64 wrap Z.lor Z.shiftr set_bits b2z Z.eqb].
    rewrite join_halves by done. rewrite E9, P1, P2, P3. rewrite read_n_other by lia. reflexivity.
  - reflexivity.
  - reflexivity.
  - reflexivity.
  - reflexivity.
  - intros r Hr Hb. destruct r; try reflexivity; (discriminate || congruence).
Qed.

(** A core that runs the benchmark as a guest, with [h] the host it exits to. *)
Record bench_ready (g h : state) (t0 t1 t2 : Z) (later : list Z) : Prop := {
  ready_clock : tsc g = t0 :: t1 :: t2 :: later;
  ready_times : is_u64 t0 /\ is_u64 t1 /\ is_u64 t2;
  ready_stack : 32 <= sp g /\ sp g + 8 < 2 ^ 64;
  ready_fit : registers_fit g;
  ready_result : regs g rcx + 8 <= sp g - 16 \/ sp g + 8 <= regs g rcx;
  ready_host : host_ok low va_tsc_data h;
  ready_reason : vmx_vmread supported (vm h) VMCS_EXIT_REASON = 0x0A
}.

(** One round of the benchmark: the guest executes CPUID, the exit stub takes its fast
    path and enters the guest again at [next_rip], and the routine returns the time
    before the exit and stores the time from just before the entry until the guest
    runs; its caller finds its registers and its stack as it left them. *)
Theorem benchmark_measures M g h t0 t1 t2 later
    (Hready : bench_ready g h t0 t1 t2 later) (Hsup : supported VMCS_GUEST_RIP = true) :
  exists pc1 g1, guest_runs stealth_vmexit_bench_one g (exits_to_host, pc1, g1) /\
  exists pc2 h1, host_runs M (to_host g1 h) (enters_guest, pc2, h1) /\
    vmx_vmread supported (vm h1) VMCS_GUEST_RIP = address (from_label Asm.next_rip stealth_vmexit_bench_one) /\
  exists pc3 g2, guest_runs (from_label Asm.next_rip stealth_vmexit_bench_one) (to_guest h1 g1)
      (returns (read_n 8 (memory g) (sp g)), pc3, g2) /\
    regs g2 rax = t0 /\ read_n 8 (memory g2) (regs g rcx) = t2 -64 t1 /\ sp g2 = sp g + 8 /\
    (forall r, volatile_gpr r = false -> regs g2 r = regs g r).
Proof.
  destruct Hready as [Ht (T0 & T1 & T2) [S1 S2] Hf Hres Hh Hreason].
  destruct (before_cpuid_ok g t0 (t1 :: t2 :: later)) as (f & fl & E1 & F1 & F2 & F3 & F4 & F5); [lia | done | done | apply Hf |].
  set (g1 := _ <| regs := f |>) in E1. exists (drop 11 stealth_vmexit_bench_one), g1. split.
  { eapply (runs_straight _ _ _ _ _ _ _ before_cpuid (drop 11 stealth_vmexit_bench_one)); [exact E1 |]. by apply runs_end. }
  destruct (fast_path_ok supported pfn_of_pd env other_flags wrapped vmlaunch address low t va_tsc_data M (to_host g1 h) t1 (t2 :: later))
    as (pc2 & h1 & E2 & Hb); [by destruct Hh | by destruct Hf | | done | done |].
  { unfold bench_exit. change (vm (to_host g1 h)) with (vm h). change (regs (to_host g1 h) rcx) with (f rcx). by rewrite F1, Hreason. }
  exists pc2, h1. split; [exact E2 |]. destruct Hb as [B0 B1 B2 B3 B4 B5 B6 B7 B8]. split.
  { rewrite B8. change (regs (to_host g1 h) r8) with (f r8). rewrite F2, vmread_vmwrite_other, vmread_vmwrite_same by done.
    by apply wrap_small, address_range. }
  set (gm := bench_stack g). set (gr := to_guest h1 g1).
  assert (read_n 8 gm (sp g - 16) = regs g rcx /\ read_n 8 gm (sp g - 8) = regs g rbx) as [M1 M2].
  { split; [apply read_n_same; by apply Hf |]. unfold gm, bench_stack. rewrite read_n_other by lia. apply read_n_same; by apply Hf. }
  destruct (after_cpuid_ok gr gm t1 t2 later) as (s & E3 & A1 & A2 & A3 & A4 & A5).
  - change (sp gr) with (sp g - 16). lia.
  - change (sp gr) with (sp g - 16). lia.
  - done.
  - done.
  - exact B0.
  - exact B1.
  - change (sp gr) with (sp g - 16). rewrite M1. apply Hf.
  - change (sp gr) with (sp g - 16). rewrite M1. pose proof (regs_fit g Hf rcx) as [_ H]. lia.
  - exists [plain RET], (drop_top s). change (sp gr) with (sp g - 16) in *. rewrite M1 in A4.
    assert (sp s = sp g) as Es by lia. assert (read_n 8 (memory g) (sp g) = top s) as ->.
    { unfold top. rewrite Es, A4, read_n_other by lia. unfold gm, bench_stack. by rewrite !read_n_other by lia. }
    split; [| split; [| split; [| split]]].
    + eapply (runs_straight _ _ _ _ _ _ _ after_cpuid [plain RET]); [exact E3 |]. by apply runs_end.
    + cbn. rewrite A1. change (regs gr r10) with (regs h1 r10). rewrite B2 by done. exact F3.
    + cbn. rewrite A4. apply read_n_same. by apply wrap_range.
    + cbn. rewrite Es. apply add64_eq; unfold is_u64; lia.
    + intros r Hr. cbn. destruct (decide (r = rbx)) as [-> | Hne]; [rewrite A2; by replace (sp g - 16 + 8) with (sp g - 8) by lia |].
      rewrite A5 by done. change (regs gr r) with (regs h1 r). rewrite B2 by (intros ->; discriminate). by apply F4.
Qed.
End bench.

(** ** Examples *)

(** A core in the middle of a routine, with its return address on the stack. *)
Definition in_routine (c : Z) (clock : list Z) : state :=
  mk_state (<[rbx := 0xB]> (<[rcx := c]> (fun _ => 0))) 0x7000 2 (write64 (fun _ => 0) 0x7000 0x401000) (fun _ => 0)
    (fun _ => 3) 0x1F80 0 no_vmcs clock.
Definition code_address (pc : list line) : Z := 0x140000000 + Z.of_nat (length pc).
Definition any_address (pc : list line) : Z := u64 (code_address pc).
Lemma any_address_range pc : is_u64 (any_address pc).
Proof. by apply wrap_range. Qed.

Abbreviation no_callee := (fun _ : state => @None state).

Lemma launch_stub_returns_witness :
  exists pc s1, runs_to (fun _ => true) (fun _ _ => 0) no_callee done_with (fun _ => Some 0x40) any_address
      vmx_vmlaunch_stub vmx_vmlaunch_stub (in_routine 0x9000 []) (returns 0x401000, pc, s1) /\
    regs s1 rax = 0 /\ sp s1 = 0x7008 /\ read_n 8 (memory s1) 0x9000 = 0x40.
Proof.
  destruct (launch_stub_returns (fun _ => true) (fun _ _ => 0) no_callee done_with (fun _ => Some 0x40) any_address
    any_address_range (in_routine 0x9000 [])) as (pc & s1 & E & H1 & H2 & _ & H4).
  - split; vm_compute; intuition discriminate.
  - reflexivity.
  - reflexivity.
  - vm_compute. intuition discriminate.
  - vm_compute. intuition discriminate.
  - exists pc, s1. split; [exact E |]. split; [exact H1 |]. split; [exact H2 | exact H4].
Defined.

Lemma switch_host_cs_returns_witness :
  exists pc s1, runs_to (fun _ => true) (fun _ _ => 0) no_callee done_with (fun _ => None) any_address
      switch_host_cs switch_host_cs (in_routine 0x10 [])
      (interrupt_returns (any_address [lab cs_done RET]) 0x10 2 0x7000 0, pc, s1).
Proof.
  destruct (switch_host_cs_returns (fun _ => true) (fun _ _ => 0) no_callee done_with (fun _ => None) any_address
    any_address_range (in_routine 0x10 [])) as (pc & s1 & E & _).
  - split; vm_compute; intuition discriminate.
  - vm_compute. intuition discriminate.
  - vm_compute. intuition discriminate.
  - exists pc, s1. exact E.
Defined.

Lemma cpu_hang_never_returns_witness :
  run (fun _ => true) (fun _ _ => 0) no_callee done_with (fun _ => None) any_address 1000 cpu_hang_unblock_nmi
    (from_label hang_loop cpu_hang_unblock_nmi) (in_routine 0x10 []) = None.
Proof.
  destruct (cpu_hang_never_returns (fun _ => true) (fun _ _ => 0) no_callee done_with (fun _ => None) any_address
    any_address_range (in_routine 0x10 [])) as [_ H].
  - split; vm_compute; intuition discriminate.
  - vm_compute. intuition discriminate.
  - vm_compute. intuition discriminate.
  - apply H.
Defined.

(** The host that the guest exits to. *)
Definition bench_host : state :=
  mk_state (fun _ => 0) 0x10000 2 (fun _ => 0) (fun _ => 0) (fun _ => 0) 0 0x5000 (sample_fields [(VMCS_EXIT_REASON, 0x0A)]) [].

Lemma benchmark_measures_witness :
  exists pc1 g1, runs_to (fun _ => true) (fun _ _ => 0) no_callee done_with (fun _ => None) any_address
      stealth_vmexit_bench_one stealth_vmexit_bench_one (in_routine 0x9000 [100; 140; 170]) (exits_to_host, pc1, g1) /\
  exists pc2 h1, exit_runs_to (fun _ => true) (fun _ _ => 0) sample_env (fun _ _ => 0) done_with (fun _ => None) any_address
      0x8000 no_scratch 0x20000 measured_core (to_host g1 bench_host) (enters_guest, pc2, h1) /\
  exists pc3 g2, runs_to (fun _ => true) (fun _ _ => 0) no_callee done_with (fun _ => None) any_address
      stealth_vmexit_bench_one (from_label Asm.next_rip stealth_vmexit_bench_one) (to_guest h1 g1) (returns 0x401000, pc3, g2) /\
    regs g2 rax = 100 /\ read_n 8 (memory g2) 0x9000 = 30 /\ regs g2 rbx = 0xB.
Proof.
  destruct (benchmark_measures (fun _ => true) (fun _ _ => 0) sample_env (fun _ _ => 0) no_callee done_with (fun _ => None) any_address
    any_address_range 0x8000 no_scratch 0x20000 measured_core (in_routine 0x9000 [100; 140; 170]) bench_host 100 140 170 [])
    as (pc1 & g1 & E1 & pc2 & h1 & E2 & _ & pc3 & g2 & E3 & H1 & H2 & _ & H4).
  - split.
    + reflexivity.
    + vm_compute. intuition discriminate.
    + vm_compute. intuition discriminate.
    + split; [intros []; vm_compute; intuition discriminate | intros c; vm_compute; intuition discriminate
             | intros x; vm_compute; intuition discriminate | vm_compute; intuition discriminate].
    + right. vm_compute. discriminate.
    + split; [reflexivity | | | right]; vm_compute; intuition discriminate.
    + reflexivity.
  - reflexivity.
  - exists pc1, g1. split; [exact E1 |]. exists pc2, h1. split; [exact E2 |]. exists pc3, g2. split; [exact E3 |].
    split; [exact H1 |]. split; [exact H2 |]. rewrite H4 by reflexivity. reflexivity.
Defined.
