(* ===== verification/FaultStub.v ===== *)
(** * A fault of the host from its instruction to the wrapper's exit: [isr.asm],
    [exception_wrappers.asm]

    The processor pushes a frame, the stub for the vector completes it to the
    [trap_frame] of [handle_exception], and IRETQ goes on where the handler left it:
    for a wrapped instruction at the exit of the wrapper, which gives its caller the
    registers back. *)
From Stdlib Require Import ZArith Lia List Bool FunctionalExtensionality.
From stdpp Require Import base numbers list option functions.
From S2P Require Import Prelude Ia32 Memory Vmcs Vcpu Asm Stubs Exception ExitStub LaunchStub.

(** ** The stack of a fault *)

(** Quadwords pushed one after the other below [a]. *)
Fixpoint pushes (a : Z) (l : list Z) (m : mem) : mem :=
  match l with [] => m | v :: l => pushes (a - 8) l (write_n 8 m (a - 8) v) end.

(** What the processor does before the stub of the vector: it aligns the stack and
    pushes the stack it came from, the flags, the code segment and the address, and an
    error code for some vectors. *)
Definition deliver (cs ss vec code rip : Z) (s : state) : state :=
  let a := sp s - sp s mod 16 in
  let l := [ss; sp s; rflags s; cs; rip] ++ (if vector_has_error_code vec then [code] else []) in
  s <| memory := pushes a l (memory s) |> <| sp := a - 8 * Z.of_nat (length l) |>.

(** [trap_frame] in memory. *)
Definition frame_fields (f : trap_frame) : list (Z * nat * Z) :=
  gpr_fields (trap_gprs f) ++
  [(120, 8%nat, vector f); (128, 8%nat, trap_error_code f); (136, 8%nat, trap_rip f); (144, 8%nat, trap_cs f);
   (152, 8%nat, trap_rflags f); (160, 8%nat, trap_rsp f); (168, 8%nat, trap_ss f)].
Definition frame_of (m : mem) (a : Z) : trap_frame :=
  mk_trap_frame (context_at m a) (read_n 8 m (a + 120)) (read_n 8 m (a + 128)) (read_n 8 m (a + 136))
    (read_n 8 m (a + 144)) (read_n 8 m (a + 152)) (read_n 8 m (a + 160)) (read_n 8 m (a + 168)).
Definition sizeof_trap_frame : Z := 176.

Section fault.
Context {ia32 : Ia32}.
Variable supported : vmcs_field -> bool.
Variable rdmsr : Z -> Z.
Variable crash_in_progress : Z.
Variable other_flags : Z -> Z -> Z.
Variable wrapped : state -> wrapped_result.
Variable launch_result : vmcs -> option Z.
Variable address : list line -> Z.
Variable low : Z.
Variable t : scratch.
(** The segments of the host. *)
Variables cs ss : Z.

(** [handle_exception] as the routine the stub calls. *)
Definition call_handle_exception (v : vcpu) (s : state) : option state :=
  match handle_exception supported rdmsr crash_in_progress (frame_of (memory s) (regs s rcx)) v with
  | Ok (f, _) =>
      let s' := after_call low t 0 s in
      Some (s' <| memory := write_fields (regs s rcx) (frame_fields f) (memory s') |>)
  | _ => None
  end.

Abbreviation straight' v := (straight supported other_flags (call_handle_exception v) wrapped launch_result address).
Abbreviation runs v := (runs_to supported other_flags (call_handle_exception v) wrapped launch_result address).

(** ** Lemmas *)

Lemma pushes_out a l m b : a <= b -> pushes a l m b = m b.
Proof.
  revert a m. induction l as [| v l IH]; intros a m H; [done |]. cbn. rewrite IH by lia. apply write_n_out. lia.
Qed.

Lemma pushes_above a l m k b : a <= b -> read_n k (pushes a l m) b = read_n k m b.
Proof.
  revert a m. induction l as [| v l IH]; intros a m H; [done |]. cbn. rewrite IH by lia. apply read_n_other. lia.
Qed.

Lemma pushes_nth a l m i v :
  nth_error l i = Some v -> is_u64 v -> read_n 8 (pushes a l m) (a - 8 * (Z.of_nat i + 1)) = v.
Proof.
  revert a m i. induction l as [| w l IH]; intros a m i Hi Hv; [by destruct i |]. destruct i as [| i]; cbn in *.
  - injection Hi as ->. rewrite pushes_above by lia. replace (a - 8 * (0 + 1)) with (a - 8) by lia. by apply read_n_same.
  - rewrite <- (IH (a - 8) (write_n 8 m (a - 8) w) i Hi Hv). f_equal. lia.
Qed.

Lemma pushes_app a l1 l2 m : pushes a (l1 ++ l2) m = pushes (a - 8 * Z.of_nat (length l1)) l2 (pushes a l1 m).
Proof.
  revert a m. induction l1 as [| v l1 IH]; intros a m; cbn [app pushes length]; [by rewrite Z.sub_0_r |].
  rewrite IH. f_equal. lia.
Qed.

Lemma push_all v prog l s :
  8 * Z.of_nat (length l) <= sp s < 2 ^ 64 ->
  straight' v prog (map (fun r => plain (PUSH (reg_op (R r)))) l) s =
    Some (s <| memory := pushes (sp s) (map (regs s) l) (memory s) |> <| sp := sp s - 8 * Z.of_nat (length l) |>).
Proof.
  revert s. induction l as [| r l IH]; intros s Hs; cbn [length] in Hs.
  - cbn. rewrite Z.sub_0_r. by destruct s.
  - cbn [map straight step plain line_instr value get push]. unfold push.
    rewrite (sub64_eq (sp s) 8 (sp s - 8)) by (unfold is_u64; lia).
    rewrite IH by (cbn; lia). destruct s. cbn -[Z.of_nat Z.mul].
    replace (8 * Z.of_nat (S (length l))) with (8 + 8 * Z.of_nat (length l)) by lia. by rewrite Z.sub_add_distr.
Qed.

Lemma pop_all v prog l s :
  0 <= sp s -> sp s + 8 * Z.of_nat (length l) < 2 ^ 64 -> NoDup l -> exists f,
  straight' v prog (map (fun r => plain (POP r)) l) s = Some (s <| regs := f |> <| sp := sp s + 8 * Z.of_nat (length l) |>) /\
  (forall i r, nth_error l i = Some r -> f r = read_n 8 (memory s) (sp s + 8 * Z.of_nat i)) /\
  (forall r, ~ In r l -> f r = regs s r).
Proof.
  revert s. induction l as [| r l IH]; intros s H0 H1 Hl; cbn [length] in H1.
  - exists (regs s). cbn. rewrite Z.add_0_r. split; [by destruct s |]. split; [by intros [] | done].
  - apply list.NoDup_cons in Hl as [Hr Hl]. rewrite list_elem_of_In in Hr.
    cbn [map straight step plain line_instr]. set (s1 := put _ _ _).
    assert (sp s1 = sp s + 8) as E1 by (apply add64_eq; unfold is_u64; lia).
    destruct (IH s1) as (f & -> & Hf & Hf'); [rewrite E1; lia | rewrite E1; lia | done |].
    exists f. split; [| split].
    + rewrite E1. unfold s1. destruct s. cbn -[Z.of_nat Z.mul].
      replace (8 * Z.of_nat (S (length l))) with (8 + 8 * Z.of_nat (length l)) by lia. by rewrite Z.add_assoc.
    + intros i q Hi. destruct i as [| i]; cbn in Hi.
      * injection Hi as ->. rewrite Hf' by done. cbn. rewrite Z.add_0_r. unfold insert, fn_insert. by rewrite decide_True.
      * rewrite (Hf i q Hi), E1. change (memory s1) with (memory s). f_equal. lia.
    + intros q Hq. cbn in Hq. rewrite Hf' by tauto. cbn. unfold insert, fn_insert. rewrite decide_False by tauto. done.
Qed.

(** The table of stubs pushes an error code of its own for exactly the vectors
    without one. *)
Lemma isr_cases vec prog :
  isr vec = Some prog -> prog = if vector_has_error_code vec then ISR_ERR vec else ISR_NOERR vec.
Proof.
  unfold isr. destruct (find _ _) as [[n p] |] eqn:E; [| done]. intros [= <-]. apply find_some in E as [Hin Hv%Z.eqb_eq].
  cbn [fst snd] in *. subst n. unfold isr_table in Hin. cbn [In] in Hin.
  repeat (destruct Hin as [[= <- <-] | Hin]; [reflexivity |]). destruct Hin.
Qed.

(** The interrupted core: its stack has room, and what it pushes fits. *)
Record interrupted (s : state) (vec code rip : Z) : Prop := {
  int_regs : forall r, is_u64 (regs s r);
  int_flags : is_u64 (rflags s);
  int_words : is_u64 vec /\ is_u64 code /\ is_u64 rip /\ is_u64 cs /\ is_u64 ss;
  int_code : vector_has_error_code vec = false -> code = 0;
  int_stack : 0 <= low /\ low + 0x200 <= sp s /\ sp s + 8 < 2 ^ 64
}.

Definition aligned_sp (s : state) : Z := sp s - sp s mod 16.

(** All that is pushed. *)
Definition pushed_words (s : state) (vec code rip : Z) : list Z :=
  [ss; sp s; rflags s; cs; rip; code; vec] ++ map (regs s) pushed_gprs.
(** The frame the handler gets. *)
Definition fault_frame (s : state) (vec code rip : Z) : trap_frame :=
  mk_trap_frame (regs s) vec code rip cs (rflags s) (sp s) ss.

Lemma aligned_sp_range s : 0 <= sp s -> sp s - 16 < aligned_sp s <= sp s.
Proof. intros H. unfold aligned_sp. pose proof (Z.mod_pos_bound (sp s) 16 ltac:(lia)). lia. Qed.

Lemma frame_pushed v prog s vec code rip :
  interrupted s vec code rip ->
  straight' v prog ((if vector_has_error_code vec then [plain (PUSH (imm vec))] else [plain (PUSH (imm 0)); plain (PUSH (imm vec))]) ++
                    map (fun r => plain (PUSH (reg_op (R r)))) pushed_gprs) (deliver cs ss vec code rip s) =
    Some (s <| memory := pushes (aligned_sp s) (pushed_words s vec code rip) (memory s) |> <| sp := aligned_sp s - 176 |>).
Proof.
  intros [_ _ _ Hc [L0 [L1 L2]]]. pose proof (aligned_sp_range s ltac:(lia)) as Ha.
  unfold deliver. fold (aligned_sp s). set (a := aligned_sp s) in *. clearbody a. rewrite straight_app.
  assert (forall (s : state) m x m' x', s <| memory := m |> <| sp := x |> <| memory := m' |> <| sp := x' |> =
    s <| memory := m' |> <| sp := x' |>) as Hset by (intros []; reflexivity).
  assert (forall m d, 0 <= d <= 100 ->
    straight' v prog (map (fun r => plain (PUSH (reg_op (R r)))) pushed_gprs) (s <| memory := m |> <| sp := a - d |>) =
    Some (s <| memory := pushes (a - d) (map (regs s) pushed_gprs) m |> <| sp := a - (d + 120) |>)) as Hall.
  { intros m d Hd. rewrite push_all by (cbn; lia). rewrite Hset.
    change (sp (_ <| sp := _ |>)) with (a - d). change (memory (_ <| sp := _ |>)) with m.
    change (regs (_ <| sp := _ |>)) with (regs s).
    replace (a - (d + 120)) with (a - d - 8 * Z.of_nat (length pushed_gprs)) by (cbn; lia). reflexivity. }
  assert (forall d, 0 <= d <= 100 -> a - d -64 8 = a - (d + 8)) as Hp by (intros d Hd; apply sub64_eq; unfold is_u64; lia).
  assert (forall m d x, 0 <= d <= 100 -> push (s <| memory := m |> <| sp := a - d |>) x =
    s <| memory := write_n 8 m (a - (d + 8)) x |> <| sp := a - (d + 8) |>) as Hpush.
  { intros m d x Hd. unfold push. change (sp (s <| memory := m |> <| sp := a - d |>)) with (a - d). rewrite Hp by done.
    unfold put_mem. destruct s. reflexivity. }
  assert (forall m, pushes (a - 56) (map (regs s) pushed_gprs) (write_n 8 (pushes a [ss; sp s; rflags s; cs; rip; code] m) (a - 56) vec) =
    pushes a (pushed_words s vec code rip) m) as Hwords.
  { intros m. unfold pushed_words. rewrite pushes_app, (pushes_app a [ss; sp s; rflags s; cs; rip; code] [vec]).
    change (Z.of_nat (length [ss; sp s; rflags s; cs; rip; code])) with 6. cbn [pushes].
    replace (a - 8 * 6 - 8) with (a - 56) by lia. reflexivity. }
  destruct (vector_has_error_code vec); cbn [app length straight step plain line_instr value push].
  - change (a - 8 * Z.of_nat 6) with (a - 48). rewrite Hpush, Hall by lia. rewrite Hwords. reflexivity.
  - change (a - 8 * Z.of_nat 5) with (a - 40). rewrite !Hpush, Hall by lia. pose proof (Hc eq_refl) as Ec. subst code.
    rewrite <- Hwords, (pushes_app a [ss; sp s; rflags s; cs; rip] [0]) by done. cbn [pushes length].
    replace (a - 8 * Z.of_nat 5 - 8) with (a - (40 + 8)) by lia. reflexivity.
Qed.

Lemma pushed_fit s vec code rip w : interrupted s vec code rip -> In w (pushed_words s vec code rip) -> is_u64 w.
Proof.
  intros [Hr Hf (H1 & H2 & H3 & H4 & H5) _ [L0 [L1 L2]]]. unfold pushed_words. rewrite in_app_iff. cbn [In].
  assert (is_u64 (sp s)) by (unfold is_u64; lia).
  intros [[<- | [<- | [<- | [<- | [<- | [<- | [<- | []]]]]]]] | Hin]; try done.
  apply in_map_iff in Hin as (r & <- & _). apply Hr.
Qed.

(** The handler finds the frame of the fault. *)
Lemma frame_read s vec code rip :
  interrupted s vec code rip ->
  frame_of (pushes (aligned_sp s) (pushed_words s vec code rip) (memory s)) (aligned_sp s - 176) = fault_frame s vec code rip.
Proof.
  intros Hi. set (a := aligned_sp s). set (m := memory s). set (l := pushed_words s vec code rip).
  assert (forall i w o, nth_error l i = Some w -> o = 176 - 8 * (Z.of_nat i + 1) -> read_n 8 (pushes a l m) (a - 176 + o) = w) as H.
  { intros i w o Hn ->. replace (a - 176 + (176 - 8 * (Z.of_nat i + 1))) with (a - 8 * (Z.of_nat i + 1)) by lia.
    apply pushes_nth; [done |]. apply (pushed_fit s vec code rip); [done |]. by apply nth_error_In in Hn. }
  unfold frame_of, fault_frame.
  rewrite (H 6%nat vec), (H 5%nat code), (H 4%nat rip), (H 3%nat cs), (H 2%nat (rflags s)), (H 1%nat (sp s)), (H 0%nat ss) by reflexivity.
  f_equal. apply functional_extensionality. intros r.
  apply (H (21 - Z.to_nat (ctx_gpr r / 8))%nat); by destruct r.
Qed.

(** A frame whose words fit. *)
Definition frame_fits (f : trap_frame) : Prop := forall off v, In (off, 8%nat, v) (frame_fields f) -> is_u64 v.

Lemma frame_fields_read f m a off v :
  frame_fits f -> In (off, 8%nat, v) (frame_fields f) -> read_n 8 (write_fields a (frame_fields f) m) (a + off) = v.
Proof. intros Hf Hin. apply read_write_fields; [reflexivity | done | exact (Hf off v Hin)]. Qed.

(** From the completed frame on. *)
Lemma handled_return v v' f prog s a :
  sp s = a -> 0 <= low -> low + 0x100 <= a -> a + 176 < 2 ^ 64 ->
  handle_exception supported rdmsr crash_in_progress (frame_of (memory s) a) v = Ok (f, v') -> frame_fits f ->
  exists pc s', runs v prog (drop 15 generic_isr) s
      (interrupt_returns (trap_rip f) (trap_cs f) (trap_rflags f) (trap_rsp f) (trap_ss f), pc, s') /\
    (forall r, regs s' r = trap_gprs f r) /\ (forall b, a + 176 <= b -> memory s' b = memory s b).
Proof.
  intros <- L0 L1 L2 He Hf. set (a := sp s) in *.
  set (m := write_fields a (frame_fields f) (fun b => if (low <=? b) && (b <? a) then scratch_memory t b else memory s b)).
  assert (exists g fl x mx, straight' v prog (take 5 (drop 15 generic_isr)) s =
    Some (s <| regs := g |> <| xmm := x |> <| mxcsr := mx |> <| rflags := fl |> <| memory := m |>)) as (g & fl & x & mx & E).
  { change (take 5 (drop 15 generic_isr)) with
      [plain (MOV rcx SP); plain (RDFSBASE rdx); plain (ALU SUB SP (imm 0x20)); plain CALL; plain (ALU ADD SP (imm 0x20))].
    cbn [straight step plain line_instr get put value alu_op].
    assert (a -64 0x20 = a - 0x20) as P1 by (apply sub64_eq; unfold is_u64; lia).
    assert (a - 0x20 +64 0x20 = a) as P2 by (apply add64_eq; unfold is_u64; lia).
    set (sc := alu_flags _ _ _). unfold call_handle_exception at 1.
    change (memory sc) with (memory s). change (regs sc rcx) with a. rewrite He.
    set (s1 := after_call low t 0 sc). eexists _, _, _, _.
    assert (sp sc = a - 0x20) as Esc by exact P1.
    assert (memory s1 = fun b => if (low <=? b) && (b <? a) then scratch_memory t b else memory s b) as Em.
    { change (memory s1) with (fun b => if (low <=? b) && (b <? sp sc + 0x20) then scratch_memory t b else memory s b).
      by rewrite Esc, Z.sub_add. }
    rewrite Em. fold m. change (sp (s1 <| memory := m |>)) with (sp sc). rewrite Esc, P2. reflexivity. }
  set (s1 := _ <| memory := m |>) in E.
  destruct (pop_all v prog all_gprs s1) as (g' & E2 & Hg & _); [change (sp s1) with a; lia | change (sp s1) with a; cbn; lia | |].
  { unfold all_gprs. repeat (apply list.NoDup_cons; split; [rewrite list_elem_of_In; cbn; intuition discriminate |]). apply NoDup_nil_2. }
  change (sp s1 + 8 * Z.of_nat (length all_gprs)) with (a + 120) in E2.
  set (s2 := _ <| sp := _ |>) in E2.
  assert (exists s3, straight' v prog [plain (ALU ADD SP (imm 8)); plain (ALU ADD SP (imm 8))] s2 = Some s3 /\
    sp s3 = a + 136 /\ regs s3 = g' /\ memory s3 = m) as (s3 & E3 & Es & Er & Em).
  { eexists. split; [reflexivity |]. split; [| by split]. cbn -[add64].
    rewrite (add64_eq (a + 120) 8 (a + 128)) by (unfold is_u64; lia). apply add64_eq; unfold is_u64; lia. }
  exists [plain IRETQ], s3. split; [| split].
  - change (drop 15 generic_isr) with (take 5 (drop 15 generic_isr) ++ map (fun r => plain (POP r)) all_gprs ++
      [plain (ALU ADD SP (imm 8)); plain (ALU ADD SP (imm 8))] ++ [plain IRETQ]).
    eapply runs_straight; [exact E |]. eapply runs_straight; [exact E2 |]. eapply runs_straight; [exact E3 |].
    assert (forall off w, In (off, 8%nat, w) (frame_fields f) -> read_n 8 m (a + off) = w) as Hm
      by (intros; by apply frame_fields_read).
    apply iretq_ends; rewrite ?Es, ?Em; [done | lia | lia |].
    split; [| split; [| split; [| split]]]; rewrite <- ?Z.add_assoc; apply Hm; unfold frame_fields; rewrite in_app_iff; right; cbn; tauto.
  - intros r. rewrite Er, (Hg (Z.to_nat (ctx_gpr r / 8)) r) by (by destruct r). change (sp s1) with a. change (memory s1) with m.
    replace (a + 8 * Z.of_nat (Z.to_nat (ctx_gpr r / 8))) with (a + ctx_gpr r) by (by destruct r).
    apply (frame_fields_read f _ a (ctx_gpr r)); [done |]. unfold frame_fields. apply in_app_iff. left. apply in_gpr_fields.
  - intros b Hb. rewrite Em. unfold m. rewrite (write_fields_out a 176) by (reflexivity || lia).
    destruct (Z.ltb_spec b a); [lia |]. by rewrite andb_false_r.
Qed.

(** ** Properties *)

Lemma isr_split vec prog :
  isr vec = Some prog ->
  prog = ((if vector_has_error_code vec then [plain (PUSH (imm vec))] else [plain (PUSH (imm 0)); plain (PUSH (imm vec))]) ++
          map (fun r => plain (PUSH (reg_op (R r)))) pushed_gprs) ++ drop 15 generic_isr.
Proof. intros ->%isr_cases. by destruct (vector_has_error_code vec). Qed.

Lemma isr_ok s v v' f vec code rip prog :
  isr vec = Some prog -> interrupted s vec code rip ->
  handle_exception supported rdmsr crash_in_progress (fault_frame s vec code rip) v = Ok (f, v') -> frame_fits f ->
  exists pc s', runs v prog prog (deliver cs ss vec code rip s)
      (interrupt_returns (trap_rip f) (trap_cs f) (trap_rflags f) (trap_rsp f) (trap_ss f), pc, s') /\
    (forall r, regs s' r = trap_gprs f r) /\ (forall b, sp s <= b -> memory s' b = memory s b).
Proof.
  intros Hp Hi He Hf. pose proof (frame_pushed v prog s vec code rip Hi) as E. pose proof (frame_read s vec code rip Hi) as Er.
  destruct Hi as [_ _ _ _ [L0 [L1 L2]]]. pose proof (aligned_sp_range s ltac:(lia)) as Ha.
  set (s1 := _ <| sp := _ |>) in E.
  destruct (handled_return v v' f prog s1 (aligned_sp s - 176)) as (pc & s' & Hrun & Hr & Hm);
    [reflexivity | lia | lia | lia | by rewrite <- Er in He | done |].
  exists pc, s'. split; [| split; [exact Hr |]].
  - rewrite (isr_split vec prog Hp) at 2. eapply runs_straight; [exact E | exact Hrun].
  - intros b Hb. rewrite Hm by lia. apply pushes_out. lia.
Qed.

(** An exception of the host: the stub for its vector hands [handle_exception] the
    registers, the vector, the error code, or 0 for a vector without one, and where the
    fault was; and IRETQ goes on where the frame says when the handler returns, with
    the registers the frame has then. What is above the stack pointer stays. *)
Theorem exception_round_trip s v v' f vec code rip prog
    (Hisr : isr vec = Some prog) (Hint : interrupted s vec code rip)
    (Hhandler : handle_exception supported rdmsr crash_in_progress (fault_frame s vec code rip) v = Ok (f, v'))
    (Hfits : frame_fits f) :
  exists pc s', runs v prog prog (deliver cs ss vec code rip s)
      (interrupt_returns (trap_rip f) (trap_cs f) (trap_rflags f) (trap_rsp f) (trap_ss f), pc, s') /\
    (forall r, regs s' r = trap_gprs f r) /\ (forall b, sp s <= b -> memory s' b = memory s b).
Proof. by apply (isr_ok s v v'). Qed.

(** *** The wrappers *)

(** Each with the registers a callee must keep that its instruction may have changed when
    it faults: REP MOVSB counts in RDI and RSI. *)
Definition wrappers : list (list line * list gpr) :=
  [(rdmsr_wrapper, []); (wrmsr_wrapper, []); (invd_wrapper, []); (xsetbv_wrapper, []); (memcpy_wrapper, [rdi; rsi])].

Definition kept_but (l : list gpr) (g g' : gprs) : Prop := forall r, volatile_gpr r = false -> ~ In r l -> g r = g' r.
Definition nonvolatile_same : gprs -> gprs -> Prop := kept_but [].

Lemma wrapper_lines W l : In (W, l) wrappers -> exists after, from_label exception_instruction W = lab exception_instruction WRAPPED :: after.
Proof. unfold wrappers. cbn [In]. intros [[= <- <-] | [[= <- <-] | [[= <- <-] | [[= <- <-] | [[= <- <-] | []]]]]]; eexists; reflexivity. Qed.

(** The wrapper at its instruction: it has announced its address and its exit, and the
    exit gives the caller back what the wrapper has borrowed. *)
Record at_instruction (v : vcpu) (W : list line) (l : list gpr) (s s1 : state) : Prop := {
  at_r14 : regs s1 r14 = address (from_label exception_instruction W);
  at_r15 : regs s1 r15 = address (from_label exception_handler W);
  at_sp : sp s - 32 <= sp s1 <= sp s;
  at_flags : is_u64 (rflags s1);
  at_fit : forall r, is_u64 (regs s1 r);
  at_exit : forall s2, sp s2 = sp s1 -> (forall a, sp s1 <= a -> memory s2 a = memory s1 a) ->
    kept_but l (regs s2) (regs s1) ->
    exists pc s3, runs v W (from_label exception_handler W) s2 (returns (read_n 8 (memory s) (sp s)), pc, s3) /\
      sp s3 = sp s + 8 /\ nonvolatile_same (regs s3) (regs s)
}.

Definition borrowed_pair (s : state) : mem := write_n 8 (write_n 8 (memory s) (sp s - 8) (regs s r15)) (sp s - 16) (regs s r14).

Lemma borrowed_pair_ok s :
  is_u64 (regs s r14) -> is_u64 (regs s r15) ->
  read_n 8 (borrowed_pair s) (sp s - 16) = regs s r14 /\ read_n 8 (borrowed_pair s) (sp s - 8) = regs s r15 /\
  read_n 8 (borrowed_pair s) (sp s) = read_n 8 (memory s) (sp s).
Proof.
  intros H1 H2. unfold borrowed_pair. split; [by apply read_n_same |]. split.
  - rewrite read_n_other by lia. by apply read_n_same.
  - by rewrite !read_n_other by lia.
Qed.

(** The lines before the instruction that all wrappers share. *)
Lemma wrapper_start v W s :
  16 <= sp s < 2 ^ 64 -> exists g,
  straight' v W [plain (PUSH r15); plain (PUSH r14); plain (LEA_label r14 exception_instruction); plain (LEA_label r15 exception_handler)] s =
    Some (s <| memory := borrowed_pair s |> <| sp := sp s - 16 |> <| regs := g |>) /\
  g r14 = address (from_label exception_instruction W) /\ g r15 = address (from_label exception_handler W) /\
  forall r, r <> r14 -> r <> r15 -> g r = regs s r.
Proof.
  intros Hs. assert (sp s -64 8 = sp s - 8 /\ sp s - 8 -64 8 = sp s - 16) as [P1 P2] by (split; apply sub64_eq; unfold is_u64; lia).
  unfold borrowed_pair. rewrite <- P2, <- P1. clear. destruct s as [xr xs xf xm xc xx xcsr xfs xv xt].
  eexists. split; [reflexivity |]. split; [reflexivity |]. split; [reflexivity |].
  intros r H1 H2. destruct r; try reflexivity; congruence.
Qed.

Lemma pop_pair v W x q1 q2 s a :
  sp s = a -> 0 <= a -> a + 16 < 2 ^ 64 ->
  straight' v W [mk_line x (POP q1); plain (POP q2)] s =
    Some (s <| sp := a + 16 |> <| regs := <[q2 := read_n 8 (memory s) (a + 8)]> (<[q1 := read_n 8 (memory s) a]> (regs s)) |>).
Proof.
  intros Es H0 H1. assert (a +64 8 = a + 8 /\ a + 8 +64 8 = a + 16) as [P1 P2] by (split; apply add64_eq; unfold is_u64; lia).
  destruct s as [xr xs xf xm xc xx xcsr xfs xv xt]. cbn [sp] in Es. subst xs.
  cbv -[read_n add64 Z.add insert gprs]. rewrite P1, P2. reflexivity.
Qed.

(** Their common exit. *)
Lemma pops_and_returns v W x s s2 :
  16 <= sp s -> sp s + 8 < 2 ^ 64 -> is_u64 (regs s r14) -> is_u64 (regs s r15) ->
  sp s2 = sp s - 16 -> (forall a, sp s - 16 <= a -> memory s2 a = borrowed_pair s a) ->
  (forall r, volatile_gpr r = false -> r <> r14 -> r <> r15 -> regs s2 r = regs s r) ->
  exists pc s3, runs v W [mk_line x (POP r14); plain (POP r15); plain RET] s2 (returns (read_n 8 (memory s) (sp s)), pc, s3) /\
    sp s3 = sp s + 8 /\ nonvolatile_same (regs s3) (regs s).
Proof.
  intros S1 S2 U1 U2 Es Hm Hr. destruct (borrowed_pair_ok s U1 U2) as (B1 & B2 & B3).
  assert (forall k a, sp s - 16 <= a -> read_n k (memory s2) a = read_n k (borrowed_pair s) a) as Hk
    by (intros k a Ha; apply read_n_ext; intros i Hi; apply Hm; lia).
  assert (sp s - 16 +64 8 = sp s - 8 /\ sp s - 8 +64 8 = sp s /\ sp s +64 8 = sp s + 8) as (P1 & P2 & P3)
    by (repeat split; apply add64_eq; unfold is_u64; lia).
  pose proof (pop_pair v W x r14 r15 s2 (sp s - 16)) as E. rewrite !Hk, B1 in E by lia.
  replace (sp s - 16 + 8) with (sp s - 8) in E by lia. replace (sp s - 16 + 16) with (sp s) in E by lia. rewrite B2 in E.
  specialize (E Es ltac:(lia) ltac:(lia)).
  set (s3 := _ <| regs := _ |>) in E. exists [plain RET], (drop_top s3). split; [| split; [exact P3 |]].
  - eapply (runs_straight _ _ _ _ _ _ _ [mk_line x (POP r14); plain (POP r15)] [plain RET]); [exact E |].
    rewrite <- B3, <- Hk by lia. by apply runs_end.
  - intros r Hv _. cbn. unfold insert, fn_insert. destruct (decide (r15 = r)) as [<- |]; [done |].
    destruct (decide (r14 = r)) as [<- |]; [done |]. by apply Hr.
Qed.

Section wrappers.
Hypothesis address_range : forall pc, is_u64 (address pc).
Hypothesis other_flags_range : forall f x, is_u64 (other_flags f x).

(** A wrapper whose lines before the instruction change volatile registers only. *)
Lemma wrapper_simple v W before after s :
  W = wrapper before after -> from_label exception_instruction W = lab exception_instruction WRAPPED :: after ->
  from_label exception_handler W = pop_and_return ->
  16 <= sp s -> sp s + 8 < 2 ^ 64 -> (forall r, is_u64 (regs s r)) -> is_u64 (rflags s) ->
  (forall d, (forall r, is_u64 (regs d r)) -> is_u64 (rflags d) -> exists g fl,
    straight' v W before d = Some (d <| regs := g |> <| rflags := fl |>) /\ nonvolatile_same g (regs d) /\
    (forall r, is_u64 (g r)) /\ is_u64 fl) ->
  exists s1, (forall r, runs v W (from_label exception_instruction W) s1 r -> runs v W W s r) /\ at_instruction v W [] s s1.
Proof.
  intros HW Hi Hx S1 S2 Hr Hf Hb. destruct (wrapper_start v W s) as (g & E & G1 & G2 & G3); [lia |].
  set (d := _ <| regs := g |>) in E. assert (forall r, is_u64 (g r)) as Hg.
  { intros r. destruct (decide (r = r14)) as [-> |]; [rewrite G1; apply address_range |].
    destruct (decide (r = r15)) as [-> |]; [rewrite G2; apply address_range |]. by rewrite G3. }
  destruct (Hb d Hg Hf) as (g2 & fl & E2 & N & U & F). exists (d <| regs := g2 |> <| rflags := fl |>). split.
  - intros r Hrun. rewrite HW at 2. unfold wrapper. eapply runs_straight; [exact E |].
    eapply runs_straight; [exact E2 |]. rewrite Hi in Hrun. exact Hrun.
  - split; cbn.
    + rewrite N by (done || by intros []). exact G1.
    + rewrite N by (done || by intros []). exact G2.
    + lia.
    + exact F.
    + exact U.
    + intros s2 Es Hm Hn. rewrite Hx. apply (pops_and_returns v W (Some exception_handler)); try done.
      intros r Hv H1 H2. rewrite Hn by (done || by intros []). cbn. rewrite N by (done || by intros []). by apply G3.
Qed.

Lemma no_lines v W d :
  (forall r, is_u64 (regs d r)) -> is_u64 (rflags d) -> exists g fl,
    straight' v W [] d = Some (d <| regs := g |> <| rflags := fl |>) /\ nonvolatile_same g (regs d) /\
    (forall r, is_u64 (g r)) /\ is_u64 fl.
Proof. intros Hr Hf. exists (regs d), (rflags d). split; [by destruct d |]. by split. Qed.

Lemma edx_eax_lines v W d :
  (forall r, is_u64 (regs d r)) -> is_u64 (rflags d) -> exists g fl,
    straight' v W edx_eax_arguments d = Some (d <| regs := g |> <| rflags := fl |>) /\ nonvolatile_same g (regs d) /\
    (forall r, is_u64 (g r)) /\ is_u64 fl.
Proof.
  intros Hr Hf.
  exists (<[rdx := Z.shiftr (regs d rdx) 32]> (<[rax := u32 (regs d rdx)]> (regs d))).
  exists (set_bits (other_flags (rflags d) (Z.shiftr (regs d rdx) 32)) ZF 1 (b2z (Z.shiftr (regs d rdx) 32 =? 0))).
  split; [by destruct d |]. split; [| split].
  - intros r Hv _. by destruct r.
  - pose proof (Hr rdx) as Hx. intros r. unfold insert, fn_insert. destruct (decide (rdx = r)) as [_ |].
    + rewrite Z.shiftr_div_pow2 by lia. unfold is_u64 in *. split; [apply Z.div_pos; lia |].
      apply Z.div_lt_upper_bound; lia.
    + destruct (decide (rax = r)) as [_ |]; [| done]. unfold u32, wrap, is_u64.
      pose proof (Z.mod_pos_bound (regs d rdx) (2 ^ 32)). lia.
  - unfold ZF. apply set_bits_u64; [apply other_flags_range | lia ..].
Qed.

(** [memcpy_wrapper] also borrows RDI and RSI. *)
Definition moved_regs (g : gprs) : gprs := <[rcx := g r8]> (<[rsi := g rdx]> (<[rdi := g rcx]> g)).

Lemma memcpy_lines v W d :
  16 <= sp d < 2 ^ 64 ->
  straight' v W [plain (PUSH rdi); plain (PUSH rsi); plain (MOV rdi rcx); plain (MOV rsi rdx); plain (MOV rcx r8)] d =
    Some (d <| memory := write_n 8 (write_n 8 (memory d) (sp d - 8) (regs d rdi)) (sp d - 16) (regs d rsi) |>
            <| sp := sp d - 16 |> <| regs := moved_regs (regs d) |>).
Proof.
  intros Hs. assert (sp d -64 8 = sp d - 8 /\ sp d - 8 -64 8 = sp d - 16) as [P1 P2] by (split; apply sub64_eq; unfold is_u64; lia).
  rewrite <- P2, <- P1. destruct d. reflexivity.
Qed.

Lemma memcpy_prepares v s :
  32 <= sp s -> sp s + 8 < 2 ^ 64 -> (forall r, is_u64 (regs s r)) -> is_u64 (rflags s) ->
  exists s1, (forall r, runs v memcpy_wrapper (from_label exception_instruction memcpy_wrapper) s1 r -> runs v memcpy_wrapper memcpy_wrapper s r) /\
    at_instruction v memcpy_wrapper [rdi; rsi] s s1.
Proof.
  intros S1 S2 Hr Hf. destruct (wrapper_start v memcpy_wrapper s) as (g & E & G1 & G2 & G3); [lia |].
  set (d := _ <| regs := g |>) in E. assert (forall r, is_u64 (g r)) as Hg.
  { intros r. destruct (decide (r = r14)) as [-> |]; [rewrite G1; apply address_range |].
    destruct (decide (r = r15)) as [-> |]; [rewrite G2; apply address_range |]. by rewrite G3. }
  pose proof (memcpy_lines v memcpy_wrapper d ltac:(cbn; lia)) as E2.
  set (s1 := _ <| regs := moved_regs _ |>) in E2. exists s1. split; [| split].
  - intros r Hrun. eapply (runs_straight _ _ _ _ _ _ memcpy_wrapper); [exact E |].
    eapply (runs_straight _ _ _ _ _ _ memcpy_wrapper); [exact E2 | exact Hrun].
  - exact G1.
  - exact G2.
  - cbn. lia.
  - exact Hf.
  - intros r. cbn. unfold moved_regs, insert, fn_insert. repeat case_decide; apply Hg.
  - intros s2 Es Hm Hn. change (sp s1) with (sp s - 16 - 16) in Es, Hm.
    set (m2 := write_n 8 (borrowed_pair s) (sp s - 16 - 8) (g rdi)).
    change (memory s1) with (write_n 8 m2 (sp s - 16 - 16) (g rsi)) in Hm.
    assert (forall k b, sp s - 32 <= b -> read_n k (memory s2) b = read_n k (write_n 8 m2 (sp s - 16 - 16) (g rsi)) b) as Hk
      by (intros k b Hb; apply read_n_ext; intros i Hi; apply Hm; lia).
    replace (sp s - 16 - 16) with (sp s - 32) in * by lia.
    pose proof (pop_pair v memcpy_wrapper (Some exception_handler) rsi rdi s2 (sp s - 32) Es ltac:(lia) ltac:(lia)) as E3.
    rewrite !Hk, read_n_same, read_n_other in E3 by (lia || apply Hg).
    replace (sp s - 32 + 8) with (sp s - 16 - 8) in E3 by lia. unfold m2 in E3 at 1. rewrite read_n_same in E3 by apply Hg.
    rewrite !G3 in E3 by done. set (s3 := _ <| regs := _ |>) in E3.
    destruct (pops_and_returns v memcpy_wrapper None s s3) as (pc & s4 & R4 & Hsp & Hn4); try done; try lia.
    + cbn. lia.
    + intros b Hb. cbn. rewrite Hm by lia. unfold m2. by rewrite !write_n_out by lia.
    + intros r Hv N14 N15. cbn. unfold insert, fn_insert. destruct (decide (rdi = r)) as [<- |]; [done |].
      destruct (decide (rsi = r)) as [<- |]; [done |]. rewrite Hn by (done || (cbn; intuition congruence)).
      rewrite <- (G3 r N14 N15). cbn. by destruct r.
    + exists pc, s4. split; [| by split]. eapply (runs_straight _ _ _ _ _ _ memcpy_wrapper [_; _] [_; _; _]); [exact E3 | exact R4].
Qed.

(** A wrapper reaches its instruction. *)
Lemma wrapper_prepares v W l s :
  In (W, l) wrappers -> 32 <= sp s -> sp s + 8 < 2 ^ 64 -> (forall r, is_u64 (regs s r)) -> is_u64 (rflags s) ->
  exists s1, (forall r, runs v W (from_label exception_instruction W) s1 r -> runs v W W s r) /\ at_instruction v W l s s1.
Proof.
  intros Hin S1 S2 Hr Hf. unfold wrappers in Hin. cbn [In] in Hin.
  destruct Hin as [[= <- <-] | [[= <- <-] | [[= <- <-] | [[= <- <-] | [[= <- <-] | []]]]]].
  - eapply wrapper_simple; [reflexivity .. | lia | lia | done | done | intros d; apply no_lines].
  - eapply wrapper_simple; [reflexivity .. | lia | lia | done | done | intros d; apply edx_eax_lines].
  - eapply wrapper_simple; [reflexivity .. | lia | lia | done | done | intros d; apply no_lines].
  - eapply wrapper_simple; [reflexivity .. | lia | lia | done | done | intros d; apply edx_eax_lines].
  - by apply memcpy_prepares.
Qed.

(** *** The fault of a wrapped instruction *)

(** Where the fault is: nothing the exit needs has changed. *)
Record faulted (l : list gpr) (s1 s2 : state) : Prop := {
  faulted_sp : sp s2 = sp s1;
  faulted_memory : forall a, sp s1 <= a -> memory s2 a = memory s1 a;
  faulted_regs : kept_but l (regs s2) (regs s1);
  faulted_fit : (forall r, is_u64 (regs s1 r)) -> forall r, is_u64 (regs s2 r);
  faulted_flags : rflags s2 = rflags s1
}.

(** After IRETQ. *)
Definition resumed (flags rsp : Z) (s : state) : state := s <| sp := rsp |> <| rflags := flags |>.

Lemma recovered_frame v vec code rip s :
  survivable vec = true -> regs s r14 = rip ->
  handle_exception supported rdmsr crash_in_progress (fault_frame s vec code rip) v =
    Ok ((fault_frame s vec code rip) <| trap_rip := regs s r15 |>, record_exception v vec code).
Proof.
  intros Hv Hr. rewrite handle_exception_cases by (cbn; intros ->; done). cbn [vector fault_frame trap_gprs trap_rip trap_error_code].
  by rewrite Hv, Hr, Z.eqb_refl.
Qed.

Lemma recovered_frame_fits vec code rip to s :
  interrupted s vec code rip -> is_u64 to -> frame_fits ((fault_frame s vec code rip) <| trap_rip := to |>).
Proof.
  intros [Hr Hf (H1 & H2 & H3 & H4 & H5) _ [L0 [L1 L2]]] Ht off v. unfold frame_fields. rewrite in_app_iff. cbn [In].
  assert (is_u64 (sp s)) by (unfold is_u64; lia).
  intros [Hin | [[= _ <-] | [[= _ <-] | [[= _ <-] | [[= _ <-] | [[= _ <-] | [[= _ <-] | [[= _ <-] | []]]]]]]]]; try done.
  unfold gpr_fields in Hin. apply in_map_iff in Hin as (r & [= _ <-] & _). apply Hr.
Qed.

Lemma survivable_isr vec : survivable vec = true -> exists prog, isr vec = Some prog /\ (vec = 13 \/ vec = 6).
Proof.
  intros Hv. apply orb_prop in Hv as [E%Z.eqb_eq | E%Z.eqb_eq]; subst vec; eexists; (split; [reflexivity |]); [by left | by right].
Qed.

(** A call of a wrapper: the stack has room for the fault, and the words fit. *)
Record wrapper_called (s : state) (code : Z) : Prop := {
  wc_regs : forall r, is_u64 (regs s r);
  wc_flags : is_u64 (rflags s);
  wc_words : is_u64 code /\ is_u64 cs /\ is_u64 ss;
  wc_stack : 0 <= low /\ low + 0x220 <= sp s /\ sp s + 8 < 2 ^ 64
}.

(** (C19) A #GP or #UD of a wrapped instruction, from the call of the wrapper to its return:
    the fault has the address that the wrapper announced, the stub for its vector ends
    at the exit of the wrapper with the stack and the flags of the fault, and the exit
    returns to the caller of the wrapper, which finds its stack pointer and every
    register that a callee must keep as they were. The vcpu records the exception, as
    [run_wrapped] says. *)
Theorem wrapped_fault_recovers v W l s vec code partial
    (HW : In (W, l) wrappers) (Hcall : wrapper_called s code) (Hvec : survivable vec = true)
    (Hcode : vec = invalid_opcode -> code = 0)
    (Hfault : forall s1, wrapped s1 = fault_with vec code (partial s1)) (Hpartial : forall s1, faulted l s1 (partial s1)) :
  let at_rip := from_label exception_instruction W in
  let resume := from_label exception_handler W in
  exists prog s1, isr vec = Some prog /\ runs v W W s (raises vec code, at_rip, s1) /\
  exists pc2 s2, runs v prog prog (deliver cs ss vec code (address at_rip) s1)
      (interrupt_returns (address resume) cs (rflags s1) (sp s1) ss, pc2, s2) /\
  exists pc3 s3, runs v W resume (resumed (rflags s1) (sp s1) s2) (returns (read_n 8 (memory s) (sp s)), pc3, s3) /\
    sp s3 = sp s + 8 /\ nonvolatile_same (regs s3) (regs s) /\
  exists f v', handle_exception supported rdmsr crash_in_progress (fault_frame s1 vec code (address at_rip)) v = Ok (f, v') /\
    run_wrapped supported rdmsr crash_in_progress (faults vec code) v = Ok v'.
Proof.
  intros at_rip resume. destruct Hcall as [Hr Hf (U1 & U2 & U3) (L0 & L1 & L2)].
  destruct (wrapper_prepares v W l s HW ltac:(lia) ltac:(lia) Hr Hf) as (s0 & Hrun & Hat).
  set (s1 := partial s0). destruct (Hpartial s0) as [P1 P2 P3 P4 P5]. fold s1 in P1, P2, P3, P4, P5.
  destruct (survivable_isr vec Hvec) as (prog & Hisr & Hv). exists prog, s1. split; [exact Hisr |].
  assert (regs s1 r14 = address at_rip /\ regs s1 r15 = address resume) as [R14 R15].
  { unfold at_rip, resume. rewrite <- (at_r14 _ _ _ _ _ Hat), <- (at_r15 _ _ _ _ _ Hat).
    split; apply P3; try done; unfold wrappers in HW; cbn in HW; intuition (simplify_eq; cbn in *; intuition done). }
  assert (interrupted s1 vec code (address at_rip)) as Hint.
  { pose proof (at_sp _ _ _ _ _ Hat). split.
    - apply P4, Hat.
    - rewrite P5. apply Hat.
    - split; [destruct Hv as [-> | ->]; done |]. auto.
    - destruct Hv as [-> | ->]; [done |]. intros _. by apply Hcode.
    - lia. }
  split; [| destruct (isr_ok s1 v _ _ vec code (address at_rip) prog Hisr Hint (recovered_frame v vec code _ s1 Hvec R14))
    as (pc2 & s2 & Hrun2 & Hr2 & Hm2)].
  - apply Hrun. destruct (wrapper_lines W l HW) as [after E]. unfold at_rip. rewrite E. apply runs_end. cbn [line_instr lab step].
    by rewrite Hfault.
  - rewrite R15. by apply recovered_frame_fits.
  - exists pc2, s2. cbn in Hrun2. rewrite R15 in Hrun2. split; [exact Hrun2 |].
    destruct (at_exit _ _ _ _ _ Hat (resumed (rflags s1) (sp s1) s2)) as (pc3 & s3 & Hrun3 & Hsp & Hn).
    + exact P1.
    + intros a Ha. cbn. rewrite Hm2 by (rewrite P1; lia). by apply P2.
    + intros r Hvr Hl. cbn. rewrite Hr2. cbn. by apply P3.
    + exists pc3, s3. split; [exact Hrun3 |]. split; [exact Hsp |]. split; [exact Hn |].
      eexists _, (record_exception v vec code). split; [by apply recovered_frame |].
      rewrite run_wrapped_cases by (intros n c [= -> ->] ->; done). by rewrite Hvec.
Qed.
End wrappers.
End fault.

(** ** Witnesses *)

Lemma sample_flags_range : forall f x : Z, is_u64 ((fun _ _ => 0) f x : Z).
Proof. intros f x. vm_compute. intuition discriminate. Qed.

Lemma exception_round_trip_witness :
  exists prog f v', isr nmi = Some prog /\
    handle_exception (fun _ => true) (fun _ => 0) 0 (fault_frame 0x10 0 (in_routine 5 []) nmi 0 0x401234) zero_vcpu = Ok (f, v') /\
    queued_nmi_count v' = 1 /\
  exists pc s', runs_to (fun _ => true) (fun _ _ => 0)
      (call_handle_exception (fun _ => true) (fun _ => 0) 0 0x5000 no_scratch zero_vcpu) done_with (fun _ => None) any_address
      prog prog (deliver 0x10 0 nmi 0 0x401234 (in_routine 5 [])) (interrupt_returns 0x401234 0x10 2 0x7000 0, pc, s') /\
    regs s' rcx = 5 /\ regs s' rbx = 0xB.
Proof.
  do 3 eexists. split; [reflexivity |]. split; [reflexivity |]. split; [reflexivity |].
  edestruct (exception_round_trip (fun _ => true) (fun _ => 0) 0 (fun _ _ => 0) done_with (fun _ => None) any_address 0x5000 no_scratch
    0x10 0 (in_routine 5 []) zero_vcpu (enqueue_nmi (fun _ => true) (fun _ => 0) zero_vcpu)
    (fault_frame 0x10 0 (in_routine 5 []) nmi 0 0x401234) nmi 0 0x401234) as (pc & s' & E & Hr & _).
  - reflexivity.
  - split; [intros []; vm_compute; intuition discriminate | vm_compute; intuition discriminate ..].
  - reflexivity.
  - intros off x Hin. cbn in Hin.
    repeat (destruct Hin as [[= _ <-] | Hin]; [vm_compute; intuition discriminate |]). destruct Hin.
  - exists pc, s'. split; [exact E |]. by rewrite !Hr.
Defined.

Lemma wrapped_fault_recovers_witness :
  let W := rdmsr_wrapper in
  let s := in_routine 0xC0000080 [] in
  exists prog s1, isr 13 = Some prog /\
    runs_to (fun _ => true) (fun _ _ => 0) (call_handle_exception (fun _ => true) (fun _ => 0) 0 0x5000 no_scratch zero_vcpu)
      (fault_with 13 0) (fun _ => None) any_address W W s (raises 13 0, from_label exception_instruction W, s1) /\
    exists pc3 s2 s3, runs_to (fun _ => true) (fun _ _ => 0)
      (call_handle_exception (fun _ => true) (fun _ => 0) 0 0x5000 no_scratch zero_vcpu)
      (fault_with 13 0) (fun _ => None) any_address W (from_label exception_handler W) s2 (returns 0x401000, pc3, s3) /\
    sp s3 = 0x7008 /\ regs s3 rbx = 0xB.
Proof.
  destruct (wrapped_fault_recovers (fun _ => true) (fun _ => 0) 0 (fun _ _ => 0) (fault_with 13 0) (fun _ => None) any_address
    0x5000 no_scratch 0x10 0 any_address_range sample_flags_range zero_vcpu rdmsr_wrapper [] (in_routine 0xC0000080 []) 13 0 (fun s => s))
    as (prog & s1 & Hisr & Hrun & pc2 & s2 & _ & pc3 & s3 & Hrun3 & Hsp & Hn & _).
  - left. reflexivity.
  - split; [intros []; vm_compute; intuition discriminate | vm_compute; intuition discriminate ..].
  - reflexivity.
  - discriminate.
  - reflexivity.
  - intros s1. by split.
  - exists prog, s1. split; [exact Hisr |]. split; [exact Hrun |]. eexists pc3, _, s3. split; [exact Hrun3 |].
    split; [exact Hsp |]. apply (Hn rbx); [reflexivity | intros []].
Defined.
