(* ===== verification/TraceFiles.v ===== *)
(** * The files of a trace session: [revhv-um/trace_poller.hpp],
    [trace_parser.hpp], [kmodules.cpp], [commands.cpp],
    [common/trace_log.hpp], [module_export.hpp], [trace_cfg_export.hpp]

    The controller leaves three kinds of files for the offline parser: the
    entries of each core, the modules, and the trace configuration. The file
    models how each is written and how it is read back, byte by byte; a file is
    the list of its bytes, and the file system returns what was written. *)
From Stdlib Require Import ZArith Lia String Ascii List Bool.
From stdpp Require Import base numbers list option functions.
From S2P Require Import Prelude Memory Trace.

(** ** Structures in files *)

(** [file.read(&s, sizeof(s))] and the test of the stream. *)
Definition read_struct (size : nat) (f : list Z) : option (list Z * list Z) :=
  if (size <=? length f)%nat then Some (take size f, drop size f) else None.

(** The next member of a structure: an integer, or an array. *)
Definition get_le (n : nat) (b : list Z) : Z * list Z := (le_combine (take n b), drop n b).
Definition get_raw (n : nat) (b : list Z) : list Z * list Z := (take n b, drop n b).

(** A zeroed [char[n]] with a string copied in, truncated to leave a terminator;
    reading one back is [cstr]. *)
Definition char_array (n : nat) (s : list Z) : list Z :=
  let c := take (n - 1) s in c ++ repeat 0 (n - length c).

(** ** The module list *)

(** [module_info] of the parser; [kmodule] of the controller has the same
    members. *)
Record module_info := mk_module { base : Z; size : Z; name : list Z; full_path : list Z }.

Definition module_magic : Z := 0x444F4D5652.
Definition module_version : Z := 1.
Definition max_name_length : nat := 64.
Definition max_path_length : nat := 260.

(** [module_export::module_entry], with the padding at its end. *)
Definition module_entry (m : module_info) : list Z :=
  le_split 8 (base m) ++ le_split 8 (size m) ++
  char_array max_name_length (name m) ++ char_array max_path_length (full_path m) ++ repeat 0 4.
Definition sizeof_module_entry : nat := 344.

Definition module_header (count : Z) : list Z :=
  le_split 8 module_magic ++ le_split 4 module_version ++ le_split 4 (u32 count).

(** [kmodule_context::export_modules]; [None] where it returns false. *)
Definition export_modules (modules : list module_info) : option (list Z) :=
  match modules with
  | [] => None
  | _ => Some (module_header (Z.of_nat (length modules)) ++ concat (map module_entry modules))
  end.

Definition read_module_entry (b : list Z) : module_info :=
  let '(base, b) := get_le 8 b in
  let '(size, b) := get_le 8 b in
  let '(name, b) := get_raw max_name_length b in
  let '(path, _) := get_raw max_path_length b in
  mk_module base size (cstr name) (cstr path).

Fixpoint load_module_entries (n : nat) (f : list Z) : option (list module_info) :=
  match n with
  | O => Some []
  | S n =>
      match read_struct sizeof_module_entry f with
      | None => None
      | Some (b, f) => cons (read_module_entry b) <$> load_module_entries n f
      end
  end.

(** [trace::parser::load_modules]. *)
Definition load_modules (f : list Z) : option (list module_info) :=
  match read_struct 16 f with
  | None => None
  | Some (hdr, f) =>
      let '(magic, hdr) := get_le 8 hdr in
      let '(version, hdr) := get_le 4 hdr in
      let '(module_count, _) := get_le 4 hdr in
      if negb (magic =? module_magic) || negb (version =? module_version) then None
      else load_module_entries (Z.to_nat module_count) f
  end.

(** ** The trace configuration *)

Record exact_cfg_entry := mk_exact_cfg {
  ex_addr : Z; ex_cfg : ept_transition_cfg; ex_fmt : list Z }.

Definition cfg_magic : Z := 0x47464354565200.
Definition cfg_version : Z := 2.
Definition max_format_length : nat := 256.

(** The byte of a field descriptor. *)
Definition byte_of_field (f : ept_transition_data_field) : Z :=
  match f with
  | field_none => 0 | guest_rip => 1 | guest_rsp => 2 | guest_rax => 3 | guest_rbx => 4
  | guest_rcx => 5 | guest_rdx => 6 | guest_rsi => 7 | guest_rdi => 8 | guest_rbp => 9
  | guest_r8 => 10 | guest_r9 => 11 | guest_r10 => 12 | guest_r11 => 13 | guest_r12 => 14
  | guest_r13 => 15 | guest_r14 => 16 | guest_r15 => 17 | guest_retaddr => 18
  | field_other n => n
  end.

Definition cfg_bytes (c : ept_transition_cfg) : list Z := map byte_of_field c.
Definition cfg_of_bytes (b : list Z) : ept_transition_cfg := map field_of_byte b.

Definition cfg_header (count : Z) (generic : ept_transition_cfg) (fmt : list Z) : list Z :=
  le_split 8 cfg_magic ++ le_split 4 cfg_version ++ le_split 4 max_data_fields ++
  le_split 4 (u32 count) ++ le_split 4 0 ++ cfg_bytes generic ++ char_array max_format_length fmt ++
  repeat 0 2.
Definition sizeof_cfg_header : nat := 288.

Definition exact_entry (e : exact_cfg_entry) : list Z :=
  le_split 8 (ex_addr e) ++ cfg_bytes (ex_cfg e) ++ char_array max_format_length (ex_fmt e) ++ repeat 0 2.
Definition sizeof_exact_entry : nat := 272.

(** [commands::engine::export_trace_config]. *)
Definition export_trace_config (generic : ept_transition_cfg) (fmt : list Z)
    (exact : list exact_cfg_entry) : list Z :=
  cfg_header (Z.of_nat (length exact)) generic fmt ++ concat (map exact_entry exact).

(** What the parser knows of the configuration. *)
Record parser_cfg := mk_parser_cfg {
  m_generic_cfg : ept_transition_cfg;
  m_generic_fmt : list Z;
  m_exact_cfgs : list exact_cfg_entry;
  m_rip_slot : Z
}.
Definition default_parser_cfg : parser_cfg := mk_parser_cfg default_generic_cfg [] [] (-1).

(** [parser::find_data_slot]; [load_trace_cfg] has the same loop. *)
Fixpoint find_slot (c : ept_transition_cfg) (field : ept_transition_data_field) (i : Z) : Z :=
  match c with
  | [] => -1
  | f :: c => if decide (f = field) then i else find_slot c field (i + 1)
  end.
Definition find_data_slot (c : ept_transition_cfg) (field : ept_transition_data_field) : Z :=
  find_slot c field 0.

Definition zero_exact : exact_cfg_entry := mk_exact_cfg 0 (repeat field_none 6) [].

Definition read_exact_entry (b : list Z) : exact_cfg_entry :=
  let '(a, b) := get_le 8 b in
  let '(c, b) := get_raw 6 b in
  let '(fmt, _) := get_raw max_format_length b in
  mk_exact_cfg a (cfg_of_bytes c) (cstr fmt).

(** The loop that reads the exact entries: when the file ends early the rest of
    the resized vector stays zero. *)
Fixpoint load_exact_entries (n : nat) (f : list Z) : list exact_cfg_entry :=
  match n with
  | O => []
  | S m =>
      match read_struct sizeof_exact_entry f with
      | None => repeat zero_exact n
      | Some (b, f) => read_exact_entry b :: load_exact_entries m f
      end
  end.

(** [parser::load_trace_cfg] of a fresh parser; [None] is a missing file. *)
Definition load_trace_cfg (file : option (list Z)) : parser_cfg :=
  match file with
  | None => default_parser_cfg
  | Some f =>
      match read_struct sizeof_cfg_header f with
      | None => default_parser_cfg
      | Some (hdr, f) =>
          let '(magic, hdr) := get_le 8 hdr in
          let '(version, hdr) := get_le 4 hdr in
          let '(_, hdr) := get_le 4 hdr in
          let '(exact_entry_count, hdr) := get_le 4 hdr in
          let '(_, hdr) := get_le 4 hdr in
          let '(generic, hdr) := get_raw 6 hdr in
          let '(fmt, _) := get_raw max_format_length hdr in
          if negb (magic =? cfg_magic) || negb (version =? cfg_version) then default_parser_cfg
          else
            let generic := cfg_of_bytes generic in
            mk_parser_cfg generic (cstr fmt) (load_exact_entries (Z.to_nat exact_entry_count) f)
              (find_data_slot generic guest_rip)
      end
  end.

(** ** The entries of a core *)

Definition trace_magic : Z := 0x4543415254565200.
Definition trace_version : Z := 1.
Definition sizeof_trace_header : nat := 24.

(** [trace::file_header] as the worker of a core writes it. *)
Definition trace_header (core : Z) : list Z :=
  le_split 8 trace_magic ++ le_split 4 trace_version ++ le_split 2 (u16 core) ++
  le_split 2 (u16 sizeof_entry) ++ le_split 8 ring_buffer_entry_count.

(** What is emitted into the buffer of a core while the controller runs, one
    entry after the other. *)
Definition emit_entry (buf : ring_buffer) (e : entry) : ring_buffer :=
  emit buf (format_id e) (core_id e) (timestamp e)
    (data0 e) (data1 e) (data2 e) (data3 e) (data4 e) (data5 e).
Definition emit_entries (buf : ring_buffer) (es : list entry) : ring_buffer := fold_left emit_entry es buf.

(** [hypercall::drain_trace_logs] with a buffer of [max_flush_entries], which the
    hypervisor fills from the ring of the core. *)
Definition drain_trace_logs (buf : ring_buffer) : list entry * ring_buffer := drain buf max_flush_entries.

(** The loop of [poller::worker] while [m_running]: an iteration for each list of
    entries emitted before it. *)
Fixpoint worker_loop (buf : ring_buffer) (emitted : list (list entry)) (file : list Z)
    : list Z * ring_buffer :=
  match emitted with
  | [] => (file, buf)
  | es :: emitted =>
      let '(batch, buf) := drain_trace_logs (emit_entries buf es) in
      worker_loop buf emitted (file ++ concat (map entry_bytes batch))
  end.

(** The final loop, after [stop]; [None] when it is not done after [fuel]
    iterations. *)
Fixpoint final_drain (fuel : nat) (buf : ring_buffer) (file : list Z) : option (list Z * ring_buffer) :=
  match fuel with
  | O => None
  | S fuel =>
      let '(batch, buf) := drain_trace_logs buf in
      match batch with
      | [] => Some (file, buf)
      | _ => final_drain fuel buf (file ++ concat (map entry_bytes batch))
      end
  end.

(** [poller::worker]: the contents of [trace_core_N.bin], and the ring. *)
Definition worker (core : Z) (buf : ring_buffer) (emitted : list (list entry)) (fuel : nat)
    : option (list Z * ring_buffer) :=
  let '(file, buf) := worker_loop buf emitted (trace_header core) in
  final_drain fuel buf file.

(** [trace::entry] in a mapped file. *)
Definition read_entry (b : list Z) : entry :=
  let '(f, b) := get_le 2 b in
  let '(c, b) := get_le 2 b in
  let '(p, b) := get_le 4 b in
  let '(t, b) := get_le 8 b in
  let '(d0, b) := get_le 8 b in
  let '(d1, b) := get_le 8 b in
  let '(d2, b) := get_le 8 b in
  let '(d3, b) := get_le 8 b in
  let '(d4, b) := get_le 8 b in
  let '(d5, _) := get_le 8 b in
  mk_entry f c p t d0 d1 d2 d3 d4 d5.

Fixpoint read_entries (n : nat) (b : list Z) : list entry :=
  match n with
  | O => []
  | S n => read_entry (take 64 b) :: read_entries n (drop 64 b)
  end.

(** [core_stream], but for its mapping. *)
Record core_stream := mk_stream { stream_core : Z; stream_entries : list entry; cursor : nat }.
#[export] Instance eta_core_stream : Eta core_stream :=
  fun s => mk_stream (stream_core s) (stream_entries s) (cursor s).

(** A file of the directory; [None] is a file that is skipped. *)
Definition open_stream (f : list Z) : option core_stream :=
  match read_struct sizeof_trace_header f with
  | None => None
  | Some (hdr, payload) =>
      let '(magic, hdr) := get_le 8 hdr in
      let '(version, hdr) := get_le 4 hdr in
      let '(core, _) := get_le 2 hdr in
      if negb (magic =? trace_magic) || negb (version =? trace_version) then None
      else
        let entry_count := (length payload / 64)%nat in
        if (entry_count =? 0)%nat then None
        else Some (mk_stream core (read_entries entry_count payload) 0)
  end.

(** [fname.find(s) == 0] and [fname.find(s) != npos]. *)
Fixpoint starts_with (s fname : list Z) : bool :=
  match s, fname with
  | [], _ => true
  | c :: s, d :: fname => (c =? d) && starts_with s fname
  | _ :: _, [] => false
  end.
Fixpoint contains (s fname : list Z) : bool :=
  starts_with s fname || match fname with [] => false | _ :: fname => contains s fname end.

Definition is_trace_file (fname : list Z) : bool :=
  starts_with (bytes "trace_core_") fname && contains (bytes ".bin") fname.

(** [open_trace_streams]: the regular files of the directory in its order, [None]
    for the contents of one that cannot be mapped. *)
Definition open_trace_streams (dir : list (list Z * option (list Z))) : option (list core_stream) :=
  let streams := omap (fun '(fname, f) => if is_trace_file fname then f ≫= open_stream else None) dir in
  match streams with
  | [] => None
  | _ => Some streams
  end.

(** ** Lemmas *)

Section codec.
Implicit Types (b r s f : list Z).

Lemma get_le_app n x r : 0 <= x < 256 ^ Z.of_nat n -> get_le n (le_split n x ++ r) = (x, r).
Proof.
  intros Hx. unfold get_le.
  rewrite take_app_length', drop_app_length' by (by rewrite le_split_length).
  by rewrite le_combine_split.
Qed.

Lemma get_raw_app n b r : length b = n -> get_raw n (b ++ r) = (b, r).
Proof. intros Hb. unfold get_raw. by rewrite take_app_length', drop_app_length'. Qed.

Lemma read_struct_app n b r : length b = n -> read_struct n (b ++ r) = Some (b, r).
Proof.
  intros Hb. unfold read_struct. rewrite length_app.
  destruct (Nat.leb_spec n (length b + length r)); [| lia].
  by rewrite take_app_length', drop_app_length'.
Qed.

Lemma char_array_length n s : (0 < n)%nat -> length (char_array n s) = n.
Proof. intros Hn. unfold char_array. rewrite length_app, repeat_length, length_take. lia. Qed.

Lemma cstr_char_array n s : (0 < n)%nat -> nonzero s -> cstr (char_array n s) = take (n - 1) s.
Proof.
  intros Hn Hs. unfold char_array.
  destruct (n - length (take (n - 1) s))%nat as [| k] eqn:E.
  { rewrite length_take in E. lia. }
  cbn [repeat]. by apply cstr_terminated, Forall_take.
Qed.

Lemma read_struct_short n f : (length f < n)%nat -> read_struct n f = None.
Proof. intros H. unfold read_struct. by destruct (Nat.leb_spec n (length f)); [lia |]. Qed.
End codec.

Lemma get_le_last n x : 0 <= x < 256 ^ Z.of_nat n -> get_le n (le_split n x) = (x, []).
Proof. intros Hx. rewrite <- (app_nil_r (le_split n x)). by apply get_le_app. Qed.

(** Decode the structure at the front, member by member. *)
Ltac read_members :=
  repeat first
    [ rewrite get_le_app by (done || unfold wrap, is_u64 in *; lia)
    | rewrite get_le_last by (done || unfold wrap, is_u64 in *; lia)
    | rewrite get_raw_app by (rewrite ?length_map, ?char_array_length; done || lia) ].

(** *** Modules *)

Definition module_ok (m : module_info) : Prop :=
  is_u64 (base m) /\ is_u64 (size m) /\ nonzero (name m) /\ nonzero (full_path m).
(** A module with its strings cut to what the file has room for. *)
Definition clip_module (m : module_info) : module_info :=
  mk_module (base m) (size m) (take 63 (name m)) (take 259 (full_path m)).

Lemma module_entry_length m : length (module_entry m) = sizeof_module_entry.
Proof.
  unfold module_entry. rewrite !length_app, !le_split_length, !char_array_length by (unfold max_name_length, max_path_length; lia).
  reflexivity.
Qed.

Lemma read_module_entry_ok m : module_ok m -> read_module_entry (module_entry m) = clip_module m.
Proof.
  intros (Hb & Hs & Hn & Hp). unfold read_module_entry, module_entry, max_name_length, max_path_length.
  read_members. by rewrite !cstr_char_array by (done || lia).
Qed.

Lemma load_module_entries_ok ms rest :
  Forall module_ok ms ->
  load_module_entries (length ms) (concat (map module_entry ms) ++ rest) = Some (map clip_module ms).
Proof.
  induction 1 as [| m ms Hm Hms IH]; [done |]. cbn [length load_module_entries map concat].
  rewrite <- app_assoc, read_struct_app by apply module_entry_length.
  by rewrite IH, read_module_entry_ok.
Qed.

Lemma export_load_modules_ok ms :
  ms <> [] -> Z.of_nat (length ms) < 2 ^ 32 -> Forall module_ok ms ->
  exists f, export_modules ms = Some f /\ load_modules f = Some (map clip_module ms).
Proof.
  intros Hne Hcount Hok.
  destruct ms as [| m ms]; [done |]. eexists. split; [reflexivity |].
  unfold load_modules. rewrite read_struct_app by reflexivity.
  unfold module_header, wrap. rewrite Z.mod_small by lia. read_members.
  cbn [Z.eqb]. rewrite Nat2Z.id, <- (app_nil_r (concat _)).
  exact (load_module_entries_ok (m :: ms) [] Hok).
Qed.

(** The modules the controller exports are the ones the parser loads, in order,
    with their bases and sizes, and with names of up to 63 and paths of up to 259
    bytes whole. *)
Theorem export_load_modules ms
    (Hne : ms <> []) (Hcount : Z.of_nat (length ms) < 2 ^ 32) (Hok : Forall module_ok ms) :
  exists f, export_modules ms = Some f /\ load_modules f = Some (map clip_module ms).
Proof. by apply export_load_modules_ok. Qed.

(** *** The configuration *)

Definition field_ok (f : ept_transition_data_field) : Prop := field_of_byte (byte_of_field f) = f.
Definition cfg_ok (c : ept_transition_cfg) : Prop := length c = 6%nat /\ Forall field_ok c.

Lemma cfg_bytes_ok c : cfg_ok c -> cfg_of_bytes (cfg_bytes c) = c.
Proof.
  intros [_ Hc]. unfold cfg_of_bytes, cfg_bytes. rewrite map_map.
  induction Hc as [| f c Hf Hc IH]; [done |]. cbn [map]. by rewrite Hf, IH.
Qed.

Definition exact_ok (e : exact_cfg_entry) : Prop :=
  is_u64 (ex_addr e) /\ cfg_ok (ex_cfg e) /\ nonzero (ex_fmt e).
Definition clip_exact (e : exact_cfg_entry) : exact_cfg_entry :=
  mk_exact_cfg (ex_addr e) (ex_cfg e) (take 255 (ex_fmt e)).

Lemma exact_entry_length e : exact_ok e -> length (exact_entry e) = sizeof_exact_entry.
Proof.
  intros (_ & [Hc _] & _). unfold exact_entry, cfg_bytes.
  rewrite !length_app, le_split_length, length_map, Hc, char_array_length by (unfold max_format_length; lia).
  reflexivity.
Qed.

Lemma read_exact_entry_ok e : exact_ok e -> read_exact_entry (exact_entry e) = clip_exact e.
Proof.
  intros (Ha & Hc & Hf). unfold read_exact_entry, exact_entry, max_format_length.
  assert (length (cfg_bytes (ex_cfg e)) = 6%nat) as Hl by (unfold cfg_bytes; rewrite length_map; apply Hc).
  read_members. rewrite cfg_bytes_ok by done. by rewrite cstr_char_array by (done || lia).
Qed.

Lemma load_exact_entries_ok es rest :
  Forall exact_ok es ->
  load_exact_entries (length es) (concat (map exact_entry es) ++ rest) = map clip_exact es.
Proof.
  induction 1 as [| e es He Hes IH]; [done |]. cbn [length load_exact_entries map concat].
  rewrite <- app_assoc, read_struct_app by (by apply exact_entry_length).
  by rewrite IH, read_exact_entry_ok.
Qed.

Lemma export_load_trace_cfg_ok generic fmt exact :
  cfg_ok generic -> nonzero fmt -> Forall exact_ok exact -> Z.of_nat (length exact) < 2 ^ 32 ->
  load_trace_cfg (Some (export_trace_config generic fmt exact)) =
    mk_parser_cfg generic (take 255 fmt) (map clip_exact exact) (find_data_slot generic guest_rip).
Proof.
  intros Hgen Hfmt Hexact Hcount.
  assert (length (cfg_bytes generic) = 6%nat) as Hl by (unfold cfg_bytes; rewrite length_map; apply Hgen).
  assert (length (cfg_header (Z.of_nat (length exact)) generic fmt) = sizeof_cfg_header) as Hh.
  { unfold cfg_header. rewrite !length_app, !le_split_length, Hl, char_array_length by (unfold max_format_length; lia).
    reflexivity. }
  unfold load_trace_cfg, export_trace_config. rewrite read_struct_app by done.
  unfold cfg_header, wrap, max_format_length. rewrite Z.mod_small by lia. read_members.
  cbn [Z.eqb Pos.eqb negb orb]. rewrite cfg_bytes_ok, cstr_char_array by (done || lia).
  rewrite Nat2Z.id, <- (app_nil_r (concat _)), load_exact_entries_ok by done. reflexivity.
Qed.

(** The configuration the controller saves is the one the parser works with, its
    format strings cut to 255 bytes; the slot of the instruction pointer is that
    of the generic configuration. *)
Theorem export_load_trace_cfg generic fmt exact
    (Hgen : cfg_ok generic) (Hfmt : nonzero fmt) (Hexact : Forall exact_ok exact)
    (Hcount : Z.of_nat (length exact) < 2 ^ 32) :
  load_trace_cfg (Some (export_trace_config generic fmt exact)) =
    mk_parser_cfg generic (take 255 fmt) (map clip_exact exact) (find_data_slot generic guest_rip).
Proof. by apply export_load_trace_cfg_ok. Qed.

(** *** Entries *)

Definition entry_ok (e : entry) : Prop :=
  0 <= format_id e < 2 ^ 16 /\ 0 <= core_id e < 2 ^ 16 /\ pad0 e = 0 /\ is_u64 (timestamp e) /\
  Forall is_u64 [data0 e; data1 e; data2 e; data3 e; data4 e; data5 e].

Lemma read_entry_ok e : entry_ok e -> read_entry (entry_bytes e) = e.
Proof.
  destruct e as [f c p t d0 d1 d2 d3 d4 d5]. intros (Hf & Hc & Hp & Ht & Hd). cbn in Hf, Hc, Hp, Ht, Hd. subst p.
  repeat match goal with H : Forall _ (_ :: _) |- _ => inversion_clear H as [| ? ? ?H ?Hd'] end.
  unfold read_entry, entry_bytes. cbn [map concat Trace.format_id Trace.core_id Trace.pad0 Trace.timestamp
    Trace.data0 Trace.data1 Trace.data2 Trace.data3 Trace.data4 Trace.data5].
  by read_members.
Qed.

Lemma read_entries_ok es rest :
  Forall entry_ok es -> read_entries (length es) (concat (map entry_bytes es) ++ rest) = es.
Proof.
  induction 1 as [| e es He Hes IH]; [done |]. cbn [length read_entries map concat].
  rewrite <- app_assoc, take_app_length', drop_app_length' by done. by rewrite IH, read_entry_ok.
Qed.

Lemma entries_bytes_length es : length (concat (map entry_bytes es)) = (64 * length es)%nat.
Proof. induction es as [| e es IH]; [done |]. cbn [map concat length]. rewrite length_app, IH, entry_bytes_length. lia. Qed.

(** The file of a worker that wrote [es]. *)
Lemma open_stream_ok core es :
  es <> [] -> Forall entry_ok es ->
  open_stream (trace_header core ++ concat (map entry_bytes es)) = Some (mk_stream (u16 core) es 0).
Proof.
  intros Hne Hok. unfold open_stream. rewrite read_struct_app by reflexivity.
  unfold trace_header. pose proof (wrap_range 16 core ltac:(lia)) as Hc.
  read_members. cbn [Z.eqb Pos.eqb negb orb].
  rewrite entries_bytes_length, Nat.mul_comm, Nat.div_mul by lia.
  destruct (Nat.eqb_spec (length es) 0) as [E | _]; [by destruct es |].
  by rewrite <- (app_nil_r (concat _)), read_entries_ok.
Qed.

(** What the ring takes of the entries emitted while [q] waits in it, and of those
    emitted before each round of draining. *)
Fixpoint accepted (q es : list entry) : list entry :=
  match es with
  | [] => []
  | e :: es => if Z.of_nat (length q) =? queue_capacity then accepted q es else e :: accepted (q ++ [e]) es
  end.
Fixpoint accepted_rounds (q : list entry) (rounds : list (list entry)) : list entry :=
  match rounds with
  | [] => []
  | es :: rounds =>
      accepted q es ++ accepted_rounds (drop (Z.to_nat max_flush_entries) (q ++ accepted q es)) rounds
  end.

Lemma emit_entries_ok es buf :
  ring_wf buf -> active buf <> 0 -> Forall entry_ok es ->
  let buf' := emit_entries buf es in
  ring_wf buf' /\ active buf' <> 0 /\ queue buf' = queue buf ++ accepted (queue buf) es.
Proof.
  intros Hwf Hact Hes. revert buf Hwf Hact. induction Hes as [| e es He Hes IH]; intros buf Hwf Hact.
  - cbn. by rewrite app_nil_r.
  - cbn [emit_entries fold_left]. fold (emit_entries (emit_entry buf e) es).
    destruct (emit_ok buf (format_id e) (core_id e) (timestamp e)
      (data0 e) (data1 e) (data2 e) (data3 e) (data4 e) (data5 e) Hwf) as [Hwf' Hq].
    destruct (Z.eqb_spec (active buf) 0) as [| _]; [done |].
    assert (active (emit_entry buf e) <> 0) as Hact'.
    { unfold emit_entry, emit. destruct (active buf =? 0); [done |]. by destruct (_ =? _). }
    destruct (IH (emit_entry buf e) Hwf' Hact') as (H1 & H2 & H3).
    split; [done |]. split; [done |]. rewrite H3. unfold emit_entry. rewrite Hq. unfold queue_push. cbn [accepted].
    destruct (_ =? queue_capacity); [done |]. rewrite <- app_assoc. cbn [app].
    destruct He as (_ & _ & Hp & _). by destruct e; cbn in Hp |- *; rewrite Hp.
Qed.

Lemma drain_trace_logs_ok buf :
  ring_wf buf -> active buf <> 0 ->
  let '(batch, buf') := drain_trace_logs buf in
  ring_wf buf' /\ active buf' <> 0 /\ batch = take (Z.to_nat max_flush_entries) (queue buf) /\
  queue buf' = drop (Z.to_nat max_flush_entries) (queue buf).
Proof.
  intros Hwf Hact. pose proof (drain_ok buf max_flush_entries Hwf) as H. unfold drain_trace_logs.
  assert (active (snd (drain buf max_flush_entries)) = active buf) as Ea
    by (unfold drain; by destruct (drain_loop _ _ _)).
  destruct (drain buf max_flush_entries) as [batch buf']. destruct H as (H1 & H2 & H3). cbn in Ea.
  split; [done |]. split; [congruence | done].
Qed.

Lemma worker_loop_ok emitted buf file :
  ring_wf buf -> active buf <> 0 -> Forall (Forall entry_ok) emitted ->
  let '(file', buf') := worker_loop buf emitted file in
  ring_wf buf' /\ active buf' <> 0 /\ exists out,
    file' = file ++ concat (map entry_bytes out) /\
    out ++ queue buf' = queue buf ++ accepted_rounds (queue buf) emitted.
Proof.
  intros Hwf Hact Hem. revert buf file Hwf Hact. induction Hem as [| es emitted Hes Hem IH]; intros buf file Hwf Hact.
  - cbn. split; [done |]. split; [done |]. exists []. cbn. by rewrite !app_nil_r.
  - cbn [worker_loop accepted_rounds].
    destruct (emit_entries_ok es buf Hwf Hact Hes) as (Hwf1 & Hact1 & Hq1).
    pose proof (drain_trace_logs_ok (emit_entries buf es) Hwf1 Hact1) as Hd.
    destruct (drain_trace_logs (emit_entries buf es)) as [batch buf1]. destruct Hd as (Hwf2 & Hact2 & Hb & Hq2).
    specialize (IH buf1 (file ++ concat (map entry_bytes batch)) Hwf2 Hact2).
    destruct (worker_loop buf1 emitted _) as [file' buf']. destruct IH as (H1 & H2 & out & Hf & Ho).
    split; [done |]. split; [done |]. exists (batch ++ out). split.
    + by rewrite Hf, map_app, concat_app, <- app_assoc.
    + rewrite <- app_assoc, Ho, Hq2, Hq1, Hb, Hq1, app_assoc, take_drop. by rewrite <- app_assoc.
Qed.

Lemma final_drain_ok fuel buf file :
  ring_wf buf -> active buf <> 0 -> (length (queue buf) <= 512 * fuel)%nat ->
  exists buf', final_drain (S fuel) buf file = Some (file ++ concat (map entry_bytes (queue buf)), buf') /\
               queue buf' = [].
Proof.
  revert buf file. induction fuel as [| fuel IH]; intros buf file Hwf Hact Hlen;
    cbn [final_drain]; pose proof (drain_trace_logs_ok buf Hwf Hact) as Hd;
    destruct (drain_trace_logs buf) as [batch buf1]; destruct Hd as (Hwf1 & Hact1 & Hb & Hq);
    change (Z.to_nat max_flush_entries) with 512%nat in *.
  - destruct (queue buf) as [| e q] eqn:Eq; [| cbn in Hlen; lia]. cbn in Hb. subst batch.
    exists buf1. cbn. by rewrite app_nil_r.
  - destruct batch as [| e batch].
    + destruct (queue buf) as [| e q] eqn:Eq; [| done]. exists buf1. cbn. by rewrite app_nil_r.
    + rewrite Hb. destruct (IH buf1 (file ++ concat (map entry_bytes (take 512 (queue buf)))) Hwf1 Hact1)
        as (buf' & E & Hq').
      { rewrite Hq, length_drop. lia. }
      exists buf'. split; [| done]. cbn [final_drain] in E. rewrite E, Hq, <- app_assoc.
      by rewrite <- concat_app, <- map_app, take_drop.
Qed.

Lemma accepted_incl q es : Forall entry_ok es -> Forall entry_ok (accepted q es).
Proof.
  intros H. revert q. induction H as [| e es He Hes IH]; intros q; cbn [accepted]; [done |].
  destruct (_ =? queue_capacity); [apply IH | constructor; [done | apply IH]].
Qed.
Lemma accepted_rounds_incl q rounds :
  Forall (Forall entry_ok) rounds -> Forall entry_ok (accepted_rounds q rounds).
Proof.
  intros H. revert q. induction H as [| es rounds Hes Hr IH]; intros q; cbn [accepted_rounds]; [done |].
  apply Forall_app. split; [by apply accepted_incl | apply IH].
Qed.

Lemma accepted_all q es :
  Z.of_nat (length q + length es) <= queue_capacity -> accepted q es = es.
Proof.
  revert q. induction es as [| e es IH]; intros q H; cbn [accepted length] in *; [done |].
  destruct (Z.eqb_spec (Z.of_nat (length q)) queue_capacity); [lia |].
  rewrite IH; [done |]. rewrite length_app. cbn. lia.
Qed.

(** Nothing is dropped when there is room for everything. *)
Lemma accepted_rounds_all q rounds :
  Z.of_nat (length q + length (concat rounds)) <= queue_capacity -> accepted_rounds q rounds = concat rounds.
Proof.
  revert q. induction rounds as [| es rounds IH]; intros q H; cbn [accepted_rounds concat] in *; [done |].
  rewrite length_app in H. rewrite accepted_all by lia. f_equal. apply IH.
  rewrite length_drop, length_app. lia.
Qed.

(** 17 rounds of the final loop empty any ring. *)
Definition final_fuel : nat := 17.

(** (C8) The worker of a core saves every entry that got into the ring, in the order
    of emission and once, however the emissions fall between its polls; after
    [stop] its final loop ends with the ring empty; and the parser reads exactly
    these entries, with the number of the core, out of the file. *)
Theorem worker_file_round_trip core buf emitted
    (Hwf : ring_wf buf) (Hact : active buf <> 0) (Hcore : 0 <= core < 2 ^ 16)
    (Hq : Forall entry_ok (queue buf)) (Hem : Forall (Forall entry_ok) emitted) :
  let saved := queue buf ++ accepted_rounds (queue buf) emitted in
  exists f buf', worker core buf emitted final_fuel = Some (f, buf') /\ queue buf' = [] /\
    f = trace_header core ++ concat (map entry_bytes saved) /\
    (saved <> [] -> open_stream f = Some (mk_stream core saved 0)).
Proof.
  intros saved. unfold worker.
  pose proof (worker_loop_ok emitted buf (trace_header core) Hwf Hact Hem) as Hl.
  destruct (worker_loop buf emitted (trace_header core)) as [file buf1].
  destruct Hl as (Hwf1 & Hact1 & out & Hf & Ho).
  destruct (final_drain_ok 16 buf1 file Hwf1 Hact1) as (buf2 & E & Hempty).
  { rewrite queue_length. pose proof (pending_bound buf1). unfold queue_capacity, ring_buffer_entry_count in *. lia. }
  exists (file ++ concat (map entry_bytes (queue buf1))), buf2.
  assert (file ++ concat (map entry_bytes (queue buf1)) = trace_header core ++ concat (map entry_bytes saved)) as Ef.
  { unfold saved. by rewrite Hf, <- app_assoc, <- concat_app, <- map_app, Ho. }
  split; [exact E |]. split; [done |]. split; [done |]. intros Hne. rewrite Ef.
  rewrite open_stream_ok; [| done | apply Forall_app; split; [done | by apply accepted_rounds_incl]].
  unfold wrap. by rewrite Z.mod_small.
Qed.

(** *** Witnesses *)

Definition sample_entry (t : Z) : entry := mk_entry 1 3 0 t 0x1000 0x2000 0 0 0 0.

Lemma sample_entry_ok t : is_u64 t -> entry_ok (sample_entry t).
Proof. intros Ht. unfold entry_ok, sample_entry, is_u64. cbn. split; [lia |]. split; [lia |]. split; [done |]. split; [done |].
  repeat constructor; lia. Qed.

Definition active_ring : ring_buffer := mk_ring 0 0 1 (fun _ => zero_entry).

Lemma worker_file_round_trip_witness :
  exists f buf', worker 3 active_ring [[sample_entry 7; sample_entry 9]; []; [sample_entry 12]] final_fuel = Some (f, buf') /\
    open_stream f = Some (mk_stream 3 [sample_entry 7; sample_entry 9; sample_entry 12] 0).
Proof.
  destruct (worker_file_round_trip 3 active_ring [[sample_entry 7; sample_entry 9]; []; [sample_entry 12]])
    as (f & buf' & E & _ & _ & Ho).
  - done.
  - done.
  - lia.
  - done.
  - repeat constructor; apply sample_entry_ok; unfold is_u64; lia.
  - rewrite accepted_rounds_all in Ho by done. exists f, buf'. split; [exact E |]. by apply Ho.
Defined.

Definition sample_module : module_info :=
  mk_module 0xFFFFF80000000000 0x1000 (bytes "ntoskrnl") (bytes "C:\Windows\ntoskrnl.exe").

Lemma export_load_modules_witness :
  exists f, export_modules [sample_module] = Some f /\ load_modules f = Some [sample_module].
Proof.
  apply (export_load_modules [sample_module]); [done | done |].
  constructor; [| done]. unfold module_ok, is_u64. cbn.
  repeat split; try lia; by apply nonzero_check.
Defined.

Lemma export_load_trace_cfg_witness :
  load_trace_cfg (Some (export_trace_config default_generic_cfg (bytes "{rip}")
    [mk_exact_cfg 0x1000 [guest_rcx; guest_rip; field_none; field_none; field_none; field_none] []])) =
  mk_parser_cfg default_generic_cfg (bytes "{rip}")
    [mk_exact_cfg 0x1000 [guest_rcx; guest_rip; field_none; field_none; field_none; field_none] []] 0.
Proof.
  refine (export_load_trace_cfg default_generic_cfg (bytes "{rip}") _ _ _ _ _); [| | | done].
  - split; [done |]. repeat constructor.
  - by apply nonzero_check.
  - constructor; [| done]. unfold exact_ok, is_u64. cbn. split; [lia |].
    split; [| by constructor]. split; [done |]. by repeat constructor.
Defined.
