(* ===== verification/System.v ===== *)
(** * The cores together: [revhv-um/hypercall.cpp], [hypercall_intrin.asm],
    [for_each_cpu] of [revhv-um/utils.hpp]

    A thread of the controller runs VMCALL on one core after the other. The system
    is the virtual processors of all cores with the memory and the shared state;
    a hypercall is the exit of one core, with what that core sees of the others. *)
From Stdlib Require Import ZArith Lia List Bool.
From stdpp Require Import base numbers list option functions.
From S2P Require Import Prelude Ia32 Memory Mtrr Paging Trace TransitionCfg Ept Vmcs Vcpu.
From S2P Require Import Introspection Logging Hv VmExit Hypercall TraceFiles.

(** ** The system *)

(** A core is [virtualized] when it runs in VMX non-root operation under this
    hypervisor. *)
Record system := mk_system {
  cores : nat -> vcpu;
  virtualized : nat -> bool;
  memory : mem;
  core_msrs : nat -> Z -> Z;
  core_invepts : nat -> nat;
  g_hv : hypervisor
}.

(** What an exit of a core works on, and the system after it. *)
Definition enter (s : system) (cpu : nat) : machine :=
  mk_machine (cores s cpu) (memory s) (core_msrs s cpu) (core_invepts s cpu)
    ((g_hv s) <| vcpu_trace_buffers := fun d => trace_buffer (cores s (Z.to_nat d)) |>).
Definition leave (s : system) (cpu : nat) (m : machine) : system :=
  mk_system
    (fun d => if decide (d = cpu) then core m
              else (cores s d) <| trace_buffer := vcpu_trace_buffers (shared m) (Z.of_nat d) |>)
    (virtualized s) (physical_memory m) (<[cpu := msrs m]> (core_msrs s))
    (<[cpu := invepts m]> (core_invepts s)) (shared m).

(** ** Hypercalls of the controller *)

(** [hypercall_number]. *)
Definition number_of (n : hypercall_number) : Z :=
  match n with
  | ping => 1 | flush_standard_logs_number => 2 | read_vmem => 3 | write_vmem => 4
  | ept_hook_number => 5 | enable_auto_trace_number => 6 | disable_auto_trace_number => 7
  | flush_trace_logs => 8 | get_apic_info => 9 | test_host_df => 10 | at_config_ept_transition => 11
  | set_onload_target => 12 | clear_onload_target => 13 | unknown_number => 0
  end.

(** The registers of the call: the first four arguments of the convention, and
    the key loaded into RAX. *)
Definition with_arguments (n : hypercall_number) (arg1 arg2 arg3 : Z) (v : vcpu) : vcpu :=
  v <| guest_context :=
         <[rax := HYPERCALL_KEY]> (<[rcx := number_of n]> (<[rdx := arg1]>
           (<[r8 := arg2]> (<[r9 := arg3]> (guest_context v))))) |>.

Section system.
Context {ia32 : Ia32} {mtrr_layout : MtrrLayout} {exit_layout : ExitLayout}.
Variable supported : vmcs_field -> bool.
Variable env : nat -> environment.
(** [dwNumberOfProcessors]. *)
Variable processors : nat.

(** [__vmcall] on a core: what RAX holds after it, or [None] for the exception
    VMCALL raises where no hypervisor is. *)
Definition __vmcall (cpu : nat) (n : hypercall_number) (arg1 arg2 arg3 : Z) (s : system)
    : outcome (option Z * system) :=
  if virtualized s cpu then
    let! m := vmcall supported (env cpu) (on_core (enter s cpu) (with_arguments n arg1 arg2 arg3)) in
    Ok (Some (gpr_of m rax), leave s cpu m)
  else Ok (None, s).

(** [utils::for_each_cpu]. *)
Fixpoint for_cpus {A} (func : nat -> A -> outcome A) (cpus : list nat) (s : A) : outcome A :=
  match cpus with
  | [] => Ok s
  | i :: cpus => let! s := func i s in for_cpus func cpus s
  end.
Definition for_each_cpu {A} (func : nat -> A -> outcome A) (s : A) : outcome A :=
  for_cpus func (seq 0 processors) s.

(** A hypercall on every core, and whether each one answered as [ok] wants. *)
Definition vmcall_each (ok : option Z -> bool) (n : hypercall_number) (arg1 arg2 arg3 : Z) (s : system)
    : outcome (system * bool) :=
  for_each_cpu (fun cpu '(s, success) =>
    let! (r, s) := __vmcall cpu n arg1 arg2 arg3 s in Ok (s, success && ok r)) (s, true).

Definition succeeded (r : option Z) : bool := match r with Some x => negb (x =? 0) | None => false end.
Definition returned (r : option Z) : bool := match r with Some _ => true | None => false end.

Definition ping_hv (cpu : nat) (s : system) : outcome (bool * system) :=
  let! (r, s) := __vmcall cpu ping 0 0 0 s in
  Ok (match r with Some x => x =? 1 | None => false end, s).

Definition auto_trace_enable (target_va target_size : Z) : system -> outcome (system * bool) :=
  vmcall_each succeeded enable_auto_trace_number target_va target_size 0.
Definition auto_trace_disable : system -> outcome (system * bool) :=
  vmcall_each returned disable_auto_trace_number 0 0 0.

(** The request block. *)
Definition at_config_request (addr : Z) (cfg : ept_transition_cfg) : list Z :=
  le_split 8 addr ++ cfg_bytes cfg ++ [0; 0].

(** Bytes the program stores at an address of its own. *)
Fixpoint guest_store (m : mem) (cr3 va : Z) (bs : list Z) : outcome mem :=
  match bs with
  | [] => Ok m
  | b :: bs => let! (pa, _) := gva_to_gpa m cr3 va 0 in guest_store (store m pa [b]) cr3 (va + 1) bs
  end.

(** [config_ept_transition], with the request at [req] in the address space of
    the controller. *)
Definition config_ept_transition (process_cr3 req scope addr : Z) (cfg : ept_transition_cfg) (s : system)
    : outcome (system * bool) :=
  let! m := guest_store (memory s) process_cr3 req (at_config_request addr cfg) in
  vmcall_each succeeded at_config_ept_transition scope req 0
    (mk_system (cores s) (virtualized s) m (core_msrs s) (core_invepts s) (g_hv s)).

(** ** Lemmas *)

Lemma number_of_ok n : n <> unknown_number -> hypercall_of (number_of n) = n.
Proof. by destruct n. Qed.

(** A property that the iterations carry from core to core. *)
Lemma for_each_cpu_ok {A} (P : nat -> A -> Prop) func s :
  (forall i s, (i < processors)%nat -> P i s -> exists s', func i s = Ok s' /\ P (i + 1)%nat s') ->
  P 0%nat s -> exists s', for_each_cpu func s = Ok s' /\ P processors s'.
Proof.
  intros Hstep HP. unfold for_each_cpu.
  assert (forall n k s, (k + n = processors)%nat -> P k s ->
    exists s', for_cpus func (seq k n) s = Ok s' /\ P processors s') as H.
  { clear s HP. induction n as [| n IH]; intros k s Hk HP; cbn [seq for_cpus].
    - exists s. split; [done |]. by replace processors with k by lia.
    - destruct (Hstep k s ltac:(lia) HP) as (s1 & -> & HP1). cbn [obind].
      apply IH; [lia |]. by replace (S k) with (k + 1)%nat by lia. }
  by apply H.
Qed.

(** The same for iterations that are known to return. *)
Lemma for_each_cpu_inv {A} (P : nat -> A -> Prop) func s s' :
  (forall i s s', (i < processors)%nat -> P i s -> func i s = Ok s' -> P (i + 1)%nat s') ->
  P 0%nat s -> for_each_cpu func s = Ok s' -> P processors s'.
Proof.
  intros Hstep HP. unfold for_each_cpu.
  assert (forall n k s, (k + n = processors)%nat -> P k s ->
    for_cpus func (seq k n) s = Ok s' -> P processors s') as H.
  { clear s HP. induction n as [| n IH]; intros k s Hk HP E; cbn [seq for_cpus] in E.
    - injection E as <-. by replace processors with k by lia.
    - destruct (func k s) as [s1 | |] eqn:E1; [| done | done]. cbn [obind] in E.
      apply (IH (k + 1)%nat s1); [lia | apply (Hstep k s); [lia | done | done] | by replace (k + 1)%nat with (S k) by lia]. }
  by apply H.
Qed.

(** The same for a hypercall on every core. *)
Lemma vmcall_each_ok (P : nat -> system -> bool -> Prop) ok n arg1 arg2 arg3 s :
  (forall i s b, (i < processors)%nat -> P i s b ->
    exists r s', __vmcall i n arg1 arg2 arg3 s = Ok (r, s') /\ P (i + 1)%nat s' (b && ok r)) ->
  P 0%nat s true -> exists s' b, vmcall_each ok n arg1 arg2 arg3 s = Ok (s', b) /\ P processors s' b.
Proof.
  intros Hstep HP. unfold vmcall_each.
  destruct (for_each_cpu_ok (fun i '(s, b) => P i s b)
    (fun cpu '(s, success) => let! (r, s) := __vmcall cpu n arg1 arg2 arg3 s in Ok (s, success && ok r)) (s, true))
    as ([s' b] & E & H); [| done | by exists s', b].
  intros i [s1 b] Hi H1. destruct (Hstep i s1 b Hi H1) as (r & s2 & E & H2). exists (s2, b && ok r). by rewrite E.
Qed.

Lemma vmcall_each_inv (P : nat -> system -> bool -> Prop) ok n arg1 arg2 arg3 s s' b' :
  (forall i s b r s', (i < processors)%nat -> P i s b ->
    __vmcall i n arg1 arg2 arg3 s = Ok (r, s') -> P (i + 1)%nat s' (b && ok r)) ->
  P 0%nat s true -> vmcall_each ok n arg1 arg2 arg3 s = Ok (s', b') -> P processors s' b'.
Proof.
  intros Hstep HP E. apply (for_each_cpu_inv (fun i '(s, b) => P i s b)) in E; [done | | done].
  intros i [s1 b] [s2 b2] Hi H1. destruct (__vmcall i n arg1 arg2 arg3 s1) as [[r s3] | |] eqn:E1; cbn [obind]; [| done | done].
  intros [= <- <-]. by apply (Hstep i s1).
Qed.

(** The machine a hypercall starts with. *)
Definition called (s : system) (cpu : nat) (n : hypercall_number) (arg1 arg2 arg3 : Z) : machine :=
  on_core (enter s cpu) (with_arguments n arg1 arg2 arg3).

Lemma vmcall_keyed s cpu n arg1 arg2 arg3 :
  virtualized s cpu = true -> n <> unknown_number ->
  __vmcall cpu n arg1 arg2 arg3 s =
    let! m := run_hypercall supported (env cpu) (called s cpu n arg1 arg2 arg3) n in
    Ok (Some (gpr_of m rax), leave s cpu (advance supported m)).
Proof.
  intros Hv Hn. unfold __vmcall. rewrite Hv. unfold vmcall, handle_vmcall, handle_hypercall.
  fold (called s cpu n arg1 arg2 arg3).
  change (gpr_of (called s cpu n arg1 arg2 arg3) rax) with HYPERCALL_KEY.
  change (gpr_of (called s cpu n arg1 arg2 arg3) rcx) with (number_of n).
  rewrite Z.eqb_refl, number_of_ok by done. cbn [negb].
  by destruct (run_hypercall _ _ _ _).
Qed.

(** A hypercall on one core that leaves the shared state alone changes no other
    core. *)
Lemma leave_other s cpu m d :
  d <> cpu -> (forall c, vcpu_trace_buffers (shared m) c = trace_buffer (cores s (Z.to_nat c))) ->
  cores (leave s cpu m) d = cores s d.
Proof.
  intros Hd Ht. cbn [leave cores]. rewrite decide_False by done. rewrite Ht, Nat2Z.id. by destruct (cores s d).
Qed.

Lemma leave_same s cpu m : cores (leave s cpu m) cpu = core m.
Proof. cbn [leave cores]. by rewrite decide_True. Qed.

Context `{!Ia32Ok ia32}.

(** *** The tables of a core in a session *)

Definition on_both (P : ept_pages -> Prop) (v : vcpu) : Prop := P (ept_pages_normal v) /\ P (ept_pages_target v).

(** A table while it is traced. *)
Definition traced (p p' : ept_pages) : Prop :=
  ept_wf p' /\ hooks p' = map deactivated (hooks p) /\
  (forall ij t, pde p ij = pde_table t -> pde p' ij = pde_table t) /\
  (forall n, 0 <= n < page_count -> pfn_at p' n = Some n).

Definition both (R : ept_pages -> ept_pages -> Prop) (v v' : vcpu) : Prop :=
  R (ept_pages_normal v) (ept_pages_normal v') /\ R (ept_pages_target v) (ept_pages_target v').

Lemma on_tables_shared m f m1 : on_tables m f = Ok m1 -> shared m1 = shared m.
Proof.
  unfold on_tables. destruct (f _); cbn [obind]; [| done | done].
  destruct (f _); cbn [obind]; [| done | done]. by intros [= <-].
Qed.

Lemma enable_shared m m1 :
  handle_enable_auto_trace supported m = Ok m1 ->
  shared m1 = shared m /\ (gpr_of m1 rax = 0 \/ gpr_of m1 rax = 1).
Proof.
  unfold handle_enable_auto_trace. destruct (on_tables m _) as [m2 | |] eqn:E; cbn [obind]; [| done | done].
  apply on_tables_shared in E. destruct (enable_auto_trace _ _ _ _ _) as [[[n t] ok] | |]; cbn [obind]; [| done | done].
  destruct ok.
  - intros [= <-]. split; [exact E | by right].
  - destruct (on_tables _ reactivate_hooks) as [m3 | |] eqn:E3; cbn [obind]; [| done | done].
    intros [= <-]. apply on_tables_shared in E3. split; [exact (eq_trans E3 E) | by left].
Qed.

Lemma disable_shared m m1 : handle_disable_auto_trace supported m = Ok m1 -> shared m1 = shared m.
Proof.
  unfold handle_disable_auto_trace. destruct (restore_auto_trace _ _) as [n t].
  destruct (on_tables _ _) as [m2 | |] eqn:E; cbn [obind]; [| done | done].
  intros [= <-]. apply on_tables_shared in E. exact E.
Qed.

(** The tables of a core after the call that enables tracing on it. *)
Lemma enable_on_core s cpu va size r s1 :
  virtualized s cpu = true -> tables_inv (enter s cpu) ->
  __vmcall cpu enable_auto_trace_number va size 0 s = Ok (r, s1) ->
  virtualized s1 = virtualized s /\ (forall d, d <> cpu -> cores s1 d = cores s d) /\
  (succeeded r = true -> both traced (cores s cpu) (cores s1 cpu)).
Proof.
  intros Hv Hi. rewrite vmcall_keyed by done. cbn [run_hypercall].
  destruct (handle_enable_auto_trace _ _) as [m | |] eqn:E; cbn [obind]; [| done | done].
  intros [= <- <-]. destruct (enable_shared _ _ E) as [Hs Hrax]. split; [done |]. split.
  - intros d Hd. apply leave_other; [done |]. intros c. change (shared (advance supported m)) with (shared m). by rewrite Hs.
  - intros Hok. assert (gpr_of m rax = 1) as H1.
    { destruct Hrax as [H0 |]; [| done]. cbn [succeeded] in Hok. by rewrite H0 in Hok. }
    destruct (enable_tables_ok supported (called s cpu enable_auto_trace_number va size 0) m Hi E H1) as (Hn & Ht & _).
    rewrite leave_same. split; [exact Hn | exact Ht].
Qed.

(** The tables of a core after the call that disables tracing. *)
Lemma disable_on_core s cpu v0 :
  virtualized s cpu = true -> on_both ept_inv v0 -> both traced v0 (cores s cpu) ->
  exists r s1, __vmcall cpu disable_auto_trace_number 0 0 0 s = Ok (Some r, s1) /\
    virtualized s1 = virtualized s /\ (forall d, d <> cpu -> cores s1 d = cores s d) /\
    both hooks_armed v0 (cores s1 cpu) /\
    active (trace_buffer (cores s1 cpu)) = 0 /\ in_normal_execution (cores s1 cpu) = true.
Proof.
  intros Hv [Hn Ht] [(Wn & Hhn & Mn & In) (Wt & Hht & Mt & It)].
  destruct (restore_ok _ _ Hn Wn Hhn Mn In) as (n2 & En & Hen).
  destruct (restore_ok _ _ Ht Wt Hht Mt It) as (t2 & Et & Het).
  destruct (disable_ok supported (called s cpu disable_auto_trace_number 0 0 0) n2 t2 En Et)
    as (m & E & Ha & Hi & _ & En2 & Et2).
  rewrite vmcall_keyed by done. cbn [run_hypercall]. rewrite E. cbn [obind].
  pose proof (disable_shared _ _ E) as Hs.
  eexists _, _. split; [reflexivity |]. split; [done |]. split.
  - intros d Hd. apply leave_other; [done |]. intros c. change (shared (advance supported m)) with (shared m). by rewrite Hs.
  - rewrite leave_same. split; [| split; [exact Ha | exact Hi]]. split.
    + change (ept_pages_normal (core (advance supported m))) with (ept_pages_normal (core m)). by rewrite En2.
    + change (ept_pages_target (core (advance supported m))) with (ept_pages_target (core m)). by rewrite Et2.
Qed.

(** *** Configuring a core *)

(** What a request does to the table of a core. *)
Definition configure (scope addr : Z) (cfg : ept_transition_cfg) (t : transition_table) : bool * transition_table :=
  if scope =? 0 then (true, t <| generic_transition_cfg := cfg |>) else insert_exact_transition_cfg t addr cfg.

Lemma at_config_request_ok addr cfg :
  is_u64 addr -> cfg_ok cfg ->
  u64_at (at_config_request addr cfg) 0 = addr /\ request_cfg (at_config_request addr cfg) = cfg /\
  length (at_config_request addr cfg) = 16%nat.
Proof.
  intros Ha [Hl Hc]. split; [| split].
  - unfold u64_at, at_config_request, slice. rewrite drop_0, take_app_length' by (by rewrite le_split_length).
    by apply le_combine_split.
  - unfold request_cfg, at_config_request, slice.
    rewrite drop_app_length' by (by rewrite le_split_length).
    rewrite take_app_length' by (unfold cfg_bytes; by rewrite length_map).
    unfold cfg_bytes. rewrite map_map. rewrite <- (map_id cfg) at 2. apply map_ext_in.
    intros f Hf. rewrite List.Forall_forall in Hc. by apply Hc.
  - unfold at_config_request, cfg_bytes. by rewrite !length_app, le_split_length, length_map, Hl.
Qed.

(** The program can store into a range of its own. *)
Lemma guest_store_ok m cr3 va bs g :
  writable m cr3 va (Z.of_nat (length bs)) g ->
  exists m', guest_store m cr3 va bs = Ok m' /\
    written m g (Z.of_nat (length bs)) bs (Z.of_nat (length bs)) m'.
Proof.
  intros [Hg He Hmap Hap Hal]. set (n := Z.of_nat (length bs)) in *.
  assert (forall k off m1, drop off bs = k -> (off <= length bs)%nat -> written m g n bs (Z.of_nat off) m1 ->
    exists m', guest_store m1 cr3 (va + Z.of_nat off) k = Ok m' /\ written m g n bs n m') as H.
  { induction k as [| b k IH]; intros off m1 Hk Hle Hw; cbn [guest_store].
    - exists m1. split; [done |]. apply (f_equal length) in Hk. rewrite length_drop in Hk. cbn in Hk.
      assert (off = length bs) as -> by lia. exact Hw.
    - assert (off < length bs)%nat as Hlt
        by (apply (f_equal length) in Hk; rewrite length_drop in Hk; cbn in Hk; lia).
      assert (bs !! off = Some b) as Hb by (rewrite <- (Nat.add_0_r off), <- lookup_drop, Hk; done).
      rewrite (Hap m1 (written_frame _ _ _ _ _ _ Hw)) by lia.
      destruct (Hmap (Z.of_nat off) ltac:(lia)) as (_ & _ & rest & ->). cbn [obind].
      replace (va + Z.of_nat off + 1) with (va + Z.of_nat (S off)) by lia. apply IH; [| lia |].
      + replace (S off) with (off + 1)%nat by lia. by rewrite <- drop_drop, Hk.
      + destruct Hw as [Hwb Hwf]. split.
        * intros i Hi. destruct (decide (i = Z.of_nat off)) as [-> | Hne].
          -- rewrite store_in by (cbn; lia). rewrite Z.sub_diag, Nat2Z.id. cbn. by rewrite (nth_lookup_Some _ _ _ _ Hb).
          -- assert (g i <> g (Z.of_nat off)) by (intros E; apply Hal in E; lia).
             rewrite store_out by (cbn; lia). apply Hwb. lia.
        * intros x Hx. pose proof (Hx (Z.of_nat off) ltac:(lia)). rewrite store_out by (cbn; lia). by apply Hwf. }
  replace va with (va + Z.of_nat 0) by lia. apply (H bs 0%nat m); [done | lia |]. split; [lia | done].
Qed.

(** A core on which the controller can make the call. *)
Record prepared (process_cr3 : Z) (s : system) (cpu : nat) : Prop := {
  prepared_virtualized : virtualized s cpu = true;
  prepared_quiet : exception_occurred (exn_info (cores s cpu)) = false;
  prepared_cr3 : get_guest_cr3 supported (vcpu_vmcs (cores s cpu)) = process_cr3
}.

Lemma advance_cr3 m :
  get_guest_cr3 supported (vcpu_vmcs (core (advance supported m))) = get_guest_cr3 supported (vcpu_vmcs (core m)).
Proof.
  unfold get_guest_cr3. cbn [advance on_core core set]. unfold set. cbn [core]. unfold with_vmcs. reduce_vcpu.
  unfold advance_guest_rip.
  repeat (match goal with |- context [if ?b then _ else _] => destruct b end);
    by rewrite ?vmread_vmwrite_other.
Qed.

Lemma config_on_core process_cr3 s cpu scope req addr cfg :
  (forall a n, env_copy_fault (env cpu) a n = None) ->
  is_u64 addr -> cfg_ok cfg -> scope = 0 \/ scope = 1 ->
  prepared process_cr3 s cpu -> 0 < req -> req + 16 <= 2 ^ 64 ->
  guest_bytes (memory s) process_cr3 req 16 = Ok (at_config_request addr cfg) ->
  let '(ok, t) := configure scope addr cfg (transitions (cores s cpu)) in
  exists s1, __vmcall cpu at_config_ept_transition scope req 0 s = Ok (Some (b2z ok), s1) /\
    virtualized s1 = virtualized s /\ (forall d, d <> cpu -> cores s1 d = cores s d) /\
    memory s1 = memory s /\ transitions (cores s1 cpu) = t /\ prepared process_cr3 s1 cpu.
Proof.
  intros Hnf Ha Hc Hscope [Hv Hq Hcr] Hreq Hend Hr.
  destruct (at_config_request_ok addr cfg Ha Hc) as (Eaddr & Ecfg & Hl).
  rewrite vmcall_keyed by done. cbn [run_hypercall]. unfold handle_at_config_ept_transition.
  set (m := called s cpu at_config_ept_transition scope req 0).
  change (gpr_of m rdx) with scope. change (gpr_of m r8) with req.
  assert (request_at supported m req sizeof_at_config_request (at_config_request addr cfg)) as Hat.
  { split; [done |]. split; [done |]. split; [| by rewrite Hl]. unfold guest_range.
    change (guest_cr3 supported m) with (get_guest_cr3 supported (vcpu_vmcs (cores s cpu))). by rewrite Hcr. }
  rewrite (read_request_ok supported (env cpu) Hnf m req sizeof_at_config_request (at_config_request addr cfg) Hq eq_refl Hat).
  cbn [obind]. rewrite Z.eqb_refl. cbn [negb]. rewrite Eaddr, Ecfg. unfold configure.
  destruct Hscope as [-> | ->]; cbn [Z.eqb].
  2: { change (transitions (core m)) with (transitions (cores s cpu)).
       destruct (insert_exact_transition_cfg _ _ _) as [ok t]. cbn [obind].
       eexists. split; [reflexivity |]. split; [done |]. split; [intros d Hd; by apply leave_other |].
       split; [done |]. rewrite leave_same. split; [done |].
       split; rewrite ?leave_same; [done | exact Hq |]. rewrite advance_cr3. exact Hcr. }
  cbn [obind]. eexists. split; [reflexivity |]. split; [done |]. split; [intros d Hd; by apply leave_other |].
  split; [done |]. rewrite leave_same. split; [done |].
  split; rewrite ?leave_same; [done | exact Hq |]. rewrite advance_cr3. exact Hcr.
Qed.

(** *** Every core *)

(** The cores before [i] are done, the others as they were. *)
Record progress (s : system) (done : nat -> vcpu -> Prop) (i : nat) (s' : system) : Prop := {
  progress_virtualized : virtualized s' = virtualized s;
  progress_done : forall c, (c < i)%nat -> done c (cores s' c);
  progress_rest : forall c, (i <= c)%nat -> cores s' c = cores s c
}.

Lemma progress_start s done : progress s done 0 s.
Proof. split; [done | lia | done]. Qed.

Lemma progress_next s done i s1 s2 :
  progress s done i s1 -> virtualized s2 = virtualized s1 -> (forall d, d <> i -> cores s2 d = cores s1 d) ->
  done i (cores s2 i) -> progress s done (i + 1) s2.
Proof.
  intros [H1 H2 H3] Hv Ho Hd. split; [congruence | |].
  - intros c Hc. destruct (decide (c = i)) as [-> | Hne]; [done |]. rewrite Ho by done. apply H2. lia.
  - intros c Hc. rewrite Ho by lia. apply H3. lia.
Qed.

Lemma auto_trace_enable_ok s va size s1 :
  (forall c, (c < processors)%nat -> virtualized s c = true /\ tables_inv (enter s c)) ->
  auto_trace_enable va size s = Ok (s1, true) ->
  progress s (fun c v => both traced (cores s c) v) processors s1.
Proof.
  intros Hs E. unfold auto_trace_enable in E.
  assert (progress s (fun c v => true = true -> both traced (cores s c) v) processors s1) as [H1 H2 H3].
  { refine (vmcall_each_inv (fun i s' ok => progress s (fun c v => ok = true -> both traced (cores s c) v) i s')
      _ _ _ _ _ _ _ _ _ _ E); [| apply progress_start].
    intros i s2 ok r s4 Hi HP Ev. destruct (Hs i Hi) as [Hv Ht].
    assert (cores s2 i = cores s i) as Ei by (by apply (progress_rest _ _ _ _ HP)).
    destruct (enable_on_core s2 i va size r s4) as (Hv4 & Ho & Hd).
    - by rewrite (progress_virtualized _ _ _ _ HP).
    - unfold tables_inv in *. cbn [enter core] in *. by rewrite Ei.
    - done.
    - apply (progress_next s _ i s2); [| done | done |].
      + destruct HP as [H1 H2 H3]. split; [done | | done]. intros c Hc Hok. apply H2; [done |].
        by apply andb_prop in Hok as [-> _].
      + intros Hok. apply andb_prop in Hok as [_ Hok]. rewrite <- Ei. by apply Hd. }
  split; [done | | done]. intros c Hc. by apply H2.
Qed.

(** (C10) A tracing session on the whole machine: after enabling it on all cores with
    success, disabling it succeeds, and on every core tracing is off, the normal
    table is in use and both tables are as before the session. *)
Theorem auto_trace_session_everywhere s va size s1
    (Hs : forall c, (c < processors)%nat -> virtualized s c = true /\ tables_inv (enter s c))
    (Henable : auto_trace_enable va size s = Ok (s1, true)) :
  exists s2, auto_trace_disable s1 = Ok (s2, true) /\
    forall c, (c < processors)%nat ->
      both hooks_armed (cores s c) (cores s2 c) /\
      active (trace_buffer (cores s2 c)) = 0 /\ in_normal_execution (cores s2 c) = true.
Proof.
  pose proof (auto_trace_enable_ok s va size s1 Hs Henable) as [Hv Htr _].
  destruct (vmcall_each_ok (fun i s' ok => ok = true /\
    progress s1 (fun c v => both hooks_armed (cores s c) v /\ active (trace_buffer v) = 0 /\
                            in_normal_execution v = true) i s') returned disable_auto_trace_number 0 0 0 s1)
    as (s2 & ok & E & -> & HP).
  - intros i s2 ok Hi [-> HP]. destruct (Hs i Hi) as [Hvi Hti].
    assert (cores s2 i = cores s1 i) as Ei by (by apply (progress_rest _ _ _ _ HP)).
    destruct (disable_on_core s2 i (cores s i)) as (r & s3 & E & Hv3 & Ho & Hd).
    + by rewrite (progress_virtualized _ _ _ _ HP), Hv.
    + exact Hti.
    + rewrite Ei. by apply Htr.
    + exists (Some r), s3. split; [exact E |]. split; [done |]. by apply (progress_next s1 _ i s2).
  - split; [done | apply progress_start].
  - exists s2. unfold auto_trace_disable. split; [exact E |]. intros c Hc. by apply (progress_done _ _ _ _ HP).
Qed.

(** The controller can make the call on every core, with the request block at
    [req], whose bytes are at the physical addresses [h]. *)
Definition ready (process_cr3 req : Z) (h : Z -> Z) (s : system) : Prop :=
  writable (memory s) process_cr3 req 16 h /\ forall c, (c < processors)%nat -> prepared process_cr3 s c.

(** Memory that differs in the range of the request block only. *)
Lemma writable_frame m m' cr3 va n g :
  (forall a, outside n g a -> m' a = m a) -> writable m cr3 va n g -> writable m' cr3 va n g.
Proof.
  intros Hf [Hg He Hmap Hap Hal]. split; try done.
  - intros i Hi. destruct (Hmap i Hi) as (H1 & H2 & rest & E). split; [done |]. split; [done |].
    exists rest. by rewrite (Hap m' Hf).
  - intros m2 H2 i Hi. rewrite (Hap m' Hf) by done. apply Hap; [| done]. intros a Ha. by rewrite H2, Hf.
Qed.

(** Configuring every core: the call succeeds exactly when each core takes the
    configuration, and the table of each core is then the configured one, also
    where another core refuses. *)
Lemma config_ept_transition_ok process_cr3 req h s scope addr cfg :
  (forall c a n, env_copy_fault (env c) a n = None) ->
  is_u64 addr -> cfg_ok cfg -> scope = 0 \/ scope = 1 -> ready process_cr3 req h s ->
  exists s', config_ept_transition process_cr3 req scope addr cfg s =
      Ok (s', forallb (fun c => fst (configure scope addr cfg (transitions (cores s c)))) (seq 0 processors)) /\
    ready process_cr3 req h s' /\
    forall c, (c < processors)%nat -> transitions (cores s' c) = snd (configure scope addr cfg (transitions (cores s c))).
Proof.
  intros Hnf Ha Hc Hscope [Hw Hp]. unfold config_ept_transition.
  pose proof (proj2 (proj2 (at_config_request_ok addr cfg Ha Hc))) as Hl.
  destruct (guest_store_ok (memory s) process_cr3 req (at_config_request addr cfg) h) as (m & Em & Hwr);
    [by rewrite Hl |]. rewrite Hl in Hwr. rewrite Em. cbn [obind].
  set (s0 := mk_system _ _ _ _ _ _).
  assert (guest_bytes m process_cr3 req 16 = Ok (at_config_request addr cfg)) as Hb.
  { pose proof (written_read_back (memory s) process_cr3 req 16 h (at_config_request addr cfg) m Hw ltac:(rewrite Hl; lia) Hwr) as E.
    unfold slice in E. rewrite drop_0, take_ge in E by (rewrite Hl; cbn; lia). exact E. }
  destruct (vmcall_each_ok (fun i s' ok =>
    ok = forallb (fun c => fst (configure scope addr cfg (transitions (cores s c)))) (seq 0 i) /\
    memory s' = m /\ (forall c, (c < processors)%nat -> prepared process_cr3 s' c) /\
    progress s0 (fun c v => transitions v = snd (configure scope addr cfg (transitions (cores s c)))) i s')
    succeeded at_config_ept_transition scope req 0 s0) as (s' & ok & E & Hok & Hm & Hp' & HP).
  - intros i s1 ok Hi (Hok & Hm & Hp1 & HP).
    assert (cores s1 i = cores s i) as Ei by (by apply (progress_rest _ _ _ _ HP)).
    pose proof (config_on_core process_cr3 s1 i scope req addr cfg (Hnf i) Ha Hc Hscope (Hp1 i Hi)
      (writable_start _ _ _ _ _ Hw) (writable_end _ _ _ _ _ Hw) ltac:(by rewrite Hm)) as H. rewrite Ei in H.
    destruct (configure scope addr cfg (transitions (cores s i))) as [b t] eqn:Eb.
    destruct H as (s2 & E & Hv2 & Ho & Hm2 & Ht & Hpi). exists (Some (b2z b)), s2. split; [exact E |].
    split; [| split; [congruence | split]].
    + rewrite seq_app, forallb_app. cbn [seq forallb]. rewrite <- Hok. cbn [Nat.add]. rewrite Eb. cbn [fst].
      by destruct ok, b.
    + intros c Hcc. destruct (decide (c = i)) as [-> | Hne]; [done |]. destruct (Hp1 c Hcc) as [H1 H2 H3].
      split; rewrite ?Hv2, ?Ho by done; done.
    + apply (progress_next s0 _ i s1); try done. by rewrite Eb.
  - split; [done |]. split; [done |]. split; [| apply progress_start]. intros c Hcc.
    by destruct (Hp c Hcc) as [H1 H2 H3].
  - exists s'. rewrite <- Hok. split; [exact E |]. split.
    + split; [| done]. apply (writable_frame (memory s)); [| done]. rewrite Hm. apply (written_frame _ _ _ _ _ _ Hwr).
    + by apply (progress_done _ _ _ _ HP).
Qed.
End system.

(** ** Examples *)

(** Two cores with a hook on frame 123H in both tables. *)
Definition tracing_system : system :=
  mk_system (fun _ => core tracing_caller) (fun _ => true) sample_tables (fun _ _ => 0) (fun _ => 0%nat)
    (shared tracing_caller).
Definition enabled_system : system :=
  match auto_trace_enable (fun _ => true) (fun _ => sample_env) 2 0x1000 4 tracing_system with
  | Ok (s, true) => s
  | _ => tracing_system
  end.

Lemma auto_trace_session_everywhere_witness :
  exists s2, auto_trace_disable (fun _ => true) (fun _ => sample_env) 2 enabled_system = Ok (s2, true) /\
    active (trace_buffer (cores enabled_system 1)) = 1 /\
    active (trace_buffer (cores s2 1)) = 0 /\ both hooks_armed (core tracing_caller) (cores s2 1).
Proof.
  destruct (auto_trace_session_everywhere (fun _ => true) (fun _ => sample_env) 2 tracing_system 0x1000 4 enabled_system)
    as (s2 & E & H).
  - intros c _. split; [reflexivity | exact tracing_caller_inv].
  - assert (match auto_trace_enable (fun _ => true) (fun _ => sample_env) 2 0x1000 4 tracing_system with
            | Ok (_, true) => true | _ => false end = true) as Hok by (vm_compute; reflexivity).
    unfold enabled_system.
    destruct (auto_trace_enable _ _ _ _ _ _) as [[s []] | |]; [reflexivity | discriminate Hok ..].
  - destruct (H 1%nat ltac:(lia)) as (H1 & H2 & _). exists s2. split; [exact E |].
    split; [vm_compute; reflexivity |]. split; [exact H2 | exact H1].
Defined.
