(* ===== verification/UmMemory.v ===== *)
(** * Memory of any process: [read_vmemory], [write_vmemory] and [flush_std_logs] of
    [revhv-um/hypercall.cpp]

    The controller moves a range in pieces of at most a page, with one hypercall each. The
    request is a block on its stack, which the hypervisor reads through the page tables of
    the controller, as it does the buffer. *)
From Stdlib Require Import ZArith Lia List Bool.
From stdpp Require Import base numbers list option functions.
From S2P Require Import Prelude Ia32 Memory Mtrr Paging Trace TransitionCfg Ept Vmcs Vcpu.
From S2P Require Import Introspection Logging Hv VmExit Hypercall System.

(** The two functions are the same but for the number of the call. *)
Inductive direction := reading | writing.
Definition vmem_number (dir : direction) : hypercall_number :=
  match dir with reading => read_vmem | writing => write_vmem end.

(** The bytes of a [vmem_request]. *)
Definition vmem_request (guest_buffer target_va size target_cr3 : Z) : list Z :=
  le_split 8 guest_buffer ++ le_split 8 target_va ++ le_split 8 size ++ le_split 8 target_cr3.

Section memory.
Context {ia32 : Ia32} {mtrr_layout : MtrrLayout} {exit_layout : ExitLayout}.
Variable supported : vmcs_field -> bool.
Variable env : nat -> environment.
(** The core the thread runs on, the page tables of the controller and the place of the
    request in its address space. *)
Variable cpu : nat.
Variables process_cr3 req : Z.

Definition with_memory (s : system) (m : mem) : system :=
  mk_system (cores s) (virtualized s) m (core_msrs s) (core_invepts s) (g_hv s).

(** The loop of both functions: the system and [total_read] or [total_written]. *)
Fixpoint vmem_loop (dir : direction) (fuel : nat) (target_va buffer size target_cr3 total : Z) (s : system)
    : outcome (system * Z) :=
  if negb (total <? size) then Ok (s, total) else
  match fuel with
  | O => Undefined
  | S fuel =>
      let chunk_size := Z.min (size - total) MAX_VMEM_CHUNK_SIZE in
      let! m := guest_store (memory s) process_cr3 req
        (vmem_request (buffer +64 total) (target_va +64 total) chunk_size target_cr3) in
      let! (r, s) := __vmcall supported env cpu (vmem_number dir) req 0 0 (with_memory s m) in
      match r with
      | None => Ok (s, total)
      | Some moved =>
          if moved =? 0 then Ok (s, total) else
          let total := total +64 moved in
          if moved <? chunk_size then Ok (s, total)
          else vmem_loop dir fuel target_va buffer size target_cr3 total s
      end
  end.

(** Every round but the last moves a page. *)
Definition vmem_fuel (size : Z) : nat := S (Z.to_nat (size / MAX_VMEM_CHUNK_SIZE)).

Definition read_vmemory (target_va out_buffer size target_cr3 : Z) (s : system) : outcome (system * Z) :=
  if (out_buffer =? 0) || (size =? 0) then Ok (s, 0)
  else vmem_loop reading (vmem_fuel size) target_va out_buffer size target_cr3 0 s.
Definition write_vmemory (target_va in_buffer size target_cr3 : Z) (s : system) : outcome (system * Z) :=
  if (in_buffer =? 0) || (size =? 0) then Ok (s, 0)
  else vmem_loop writing (vmem_fuel size) target_va in_buffer size target_cr3 0 s.

(** [flush_std_logs] with room for [max_messages]: the number of messages kept, or [None] when
    the call raised an exception. *)
Definition flush_std_logs (buffer max_messages : Z) (s : system) : outcome (system * option Z) :=
  let! (r, s) := __vmcall supported env cpu flush_standard_logs_number buffer max_messages 0 s in Ok (s, r).

(** ** Lemmas *)

Context `{!Ia32Ok ia32}.

Lemma u64_at_piece pre x post k : is_u64 x -> k = Z.of_nat (length pre) -> u64_at (pre ++ le_split 8 x ++ post) k = x.
Proof.
  intros Hx ->. unfold u64_at, slice. rewrite Nat2Z.id, drop_app_length.
  rewrite take_app_le by (by rewrite le_split_length). rewrite take_ge by (by rewrite le_split_length).
  by apply le_combine_split.
Qed.

Lemma vmem_request_fields a b c d :
  is_u64 a -> is_u64 b -> is_u64 c -> is_u64 d ->
  let r := vmem_request a b c d in
  length r = 32%nat /\ u64_at r 0 = a /\ u64_at r 8 = b /\ u64_at r 16 = c /\ u64_at r 24 = d.
Proof.
  intros Ha Hb Hc Hd. unfold vmem_request. split; [by rewrite !length_app, !le_split_length |].
  split; [exact (u64_at_piece [] a _ 0 Ha eq_refl) |]. split; [by apply (u64_at_piece (le_split 8 a) b) |].
  split; [rewrite app_assoc; by apply (u64_at_piece (_ ++ _) c) |].
  rewrite <- (app_nil_r (le_split 8 d)), !app_assoc, <- app_assoc. by apply (u64_at_piece (_ ++ _) d).
Qed.

(** A part of what can be read of a range. *)
Lemma guest_bytes_prefix m cr3 va n j bs :
  guest_bytes m cr3 va n = Ok bs -> (j <= n)%nat -> guest_bytes m cr3 va j = Ok (take j bs).
Proof.
  revert va n bs. induction j as [| j IH]; intros va n bs E Hj; [done |]. destruct n as [| n]; [lia |].
  cbn [guest_bytes] in *. destruct (guest_byte m cr3 va) as [[b |] | |]; cbn [obind] in *; [| by injection E as <- | done | done].
  destruct (guest_bytes m cr3 (va + 1) n) as [bs' | |] eqn:E'; cbn [obind] in E; [| done | done]. injection E as <-.
  rewrite (IH _ _ _ E') by lia. done.
Qed.

Lemma guest_bytes_part m cr3 va n k j bs :
  guest_bytes m cr3 va n = Ok bs -> (k <= length bs)%nat -> (k + j <= n)%nat ->
  guest_bytes m cr3 (va + Z.of_nat k) j = Ok (take j (drop k bs)).
Proof.
  revert va n bs. induction k as [| k IH]; intros va n bs E Hk Hj.
  - rewrite Z.add_0_r, drop_0. apply (guest_bytes_prefix _ _ _ n); [done | lia].
  - destruct n as [| n]; [lia |]. cbn [guest_bytes] in E.
    destruct (guest_byte m cr3 va) as [[b |] | |]; cbn [obind] in E; [| injection E as <-; cbn in Hk; lia | done | done].
    destruct (guest_bytes m cr3 (va + 1) n) as [bs' | |] eqn:E'; cbn [obind] in E; [| done | done]. injection E as <-.
    cbn [length drop] in *. replace (va + Z.of_nat (S k)) with (va + 1 + Z.of_nat k) by lia. apply (IH _ n); [done | lia | lia].
Qed.

(** The bytes of a range that can be written. *)
Lemma guest_bytes_writable m cr3 va n g :
  writable m cr3 va n g -> 0 <= n -> guest_bytes m cr3 va (Z.to_nat n) = Ok (map (fun i => m (g i)) (seqZ 0 n)).
Proof.
  intros Hw Hn. set (bs := map _ _). assert (length bs = Z.to_nat n) as Hl by (unfold bs; by rewrite length_map, length_seqZ).
  rewrite (written_read_back m cr3 va n g bs m Hw); [| lia |].
  - unfold slice. change (Z.to_nat 0) with 0%nat. by rewrite drop_0, take_ge by lia.
  - split; [| done]. intros i Hi. unfold bs. rewrite nth_lookup, list_lookup_fmap, lookup_seqZ_lt by lia. cbn.
    do 2 f_equal. lia.
Qed.

Lemma writable_part m cr3 va n g o k :
  writable m cr3 va n g -> 0 <= o -> o + k <= n -> writable m cr3 (va + o) k (fun i => g (o + i)).
Proof.
  intros [Hs He Hm Ha Hal] Ho Hk. split; [lia | lia | | |].
  - intros i Hi. rewrite <- Z.add_assoc. apply Hm. lia.
  - intros m' Hm' i Hi. rewrite <- !Z.add_assoc. apply Ha; [| lia]. intros a Hout. apply Hm'.
    intros j Hj. apply Hout. lia.
  - intros i j Hi Hj E. apply Hal in E; lia.
Qed.

Lemma take_length_take {A} n (l : list A) : take (length (take n l)) l = take n l.
Proof. revert n. induction l as [| x l IH]; intros [| n]; [done .. |]. cbn. by rewrite IH. Qed.

(** *** A transfer *)

Section transfer.
Variable dir : direction.
Variables (target_va buffer size target_cr3 : Z) (s0 : system).
(** The bytes to be moved, and the places of the destination and of the request. *)
Variables (bs : list Z) (g h : Z -> Z).

Definition target_space : Z := if target_cr3 =? 0 then system_cr3 (g_hv s0) else target_cr3.
Definition source : Z := match dir with reading => target_va | writing => buffer end.
Definition source_space : Z := match dir with reading => target_space | writing => process_cr3 end.
Definition destination : Z := match dir with reading => buffer | writing => target_va end.
Definition destination_space : Z := match dir with reading => process_cr3 | writing => target_space end.

(** Memory that differs from that of the start only in the destination and the request. *)
Definition agrees (m : mem) : Prop :=
  forall a, outside (Z.of_nat (length bs)) g a -> outside 32 h a -> m a = memory s0 a.

(** The source gives the bytes, up to the first one that is not mapped, the destination takes
    them, and neither they nor the request or the page tables lie in each other. *)
Record transfer_ok : Prop := {
  ok_source : forall m, agrees m -> guest_bytes m source_space source (Z.to_nat size) = Ok bs;
  ok_destination : forall m, agrees m -> writable m destination_space destination (Z.of_nat (length bs)) g;
  ok_request : forall m, agrees m -> writable m process_cr3 req 32 h;
  ok_apart : forall i j, 0 <= i < Z.of_nat (length bs) -> 0 <= j < 32 -> g i <> h j;
  ok_range : 0 < source /\ source + size <= 2 ^ 64 /\ 0 < destination /\ destination + size <= 2 ^ 64;
  ok_size : 0 < size < 2 ^ 64;
  ok_cr3 : is_u64 target_cr3
}.

(** [total] bytes have been moved. *)
Record moved (total : Z) (s : system) : Prop := {
  moved_range : 0 <= total <= Z.of_nat (length bs);
  moved_prepared : prepared supported process_cr3 s cpu;
  moved_cr3 : system_cr3 (g_hv s) = system_cr3 (g_hv s0);
  moved_frame : agrees (memory s);
  moved_bytes : forall i, 0 <= i < total -> memory s (g i) = nth (Z.to_nat i) bs 0;
  moved_others : forall d, d <> cpu -> cores s d = cores s0 d
}.

Hypothesis no_faults : forall a n, env_copy_fault (env cpu) a n = None.
Hypothesis ok : transfer_ok.

(** The handler on its part of the range. *)
Lemma handler_moves M b g' :
  quiet M -> guest_cr3 supported M = process_cr3 ->
  (if target_cr3 =? 0 then system_cr3 (shared M) else target_cr3) = target_space ->
  forall total chunk, 0 <= total -> 0 < chunk <= MAX_VMEM_CHUNK_SIZE -> total + chunk <= size ->
  gpr_of M rdx = req ->
  request_at supported M req sizeof_vmem_request (vmem_request (buffer + total) (target_va + total) chunk target_cr3) ->
  guest_bytes (physical_memory M) source_space (source + total) (Z.to_nat chunk) = Ok b ->
  (b <> [] -> writable (physical_memory M) destination_space (destination + total) (Z.of_nat (length b)) g') ->
  exists M' m, run_hypercall supported (env cpu) M (vmem_number dir) = Ok M' /\
    answered M (Z.of_nat (length b)) m M' /\
    guest_bytes m destination_space (destination + total) (length b) = Ok b /\
    (forall a, outside (Z.of_nat (length b)) g' a -> m a = physical_memory M a).
Proof.
  intros Hq Hcr Hsp total chunk Ht Hc Hend Hrdx Hreq Hb Hdst.
  destruct ok as [_ _ _ _ (R1 & R2 & R3 & R4) Hsize Hcr3].
  assert (is_u64 (buffer + total) /\ is_u64 (target_va + total) /\ is_u64 chunk) as (U1 & U2 & U3).
  { unfold source, destination, is_u64 in *. destruct dir; lia. }
  destruct (vmem_request_fields _ _ _ _ U1 U2 U3 Hcr3) as (Hl & F1 & F2 & F3 & F4).
  set (request := vmem_request _ _ _ _) in *. rewrite <- Hrdx in Hreq.
  assert (request_cr3 M request = target_space) as Er by (unfold request_cr3; by rewrite F4).
  unfold vmem_number, source, source_space, destination, destination_space in *. destruct dir; cbn [run_hypercall].
  - pose proof (vmem_read_spec supported (env cpu) no_faults M request b g' Hq Hreq) as H. cbv zeta in H.
    rewrite F1, F2, F3, Er, Hcr, Z.min_l in H by lia.
    destruct H as (M' & m & E & Ha & _ & Hg & Hf); [lia | lia | lia | exact Hb | exact Hdst |]. by exists M', m.
  - pose proof (vmem_write_spec supported (env cpu) no_faults M request b g' Hq Hreq) as H. cbv zeta in H.
    unfold guest_range in H. rewrite F1, F2, F3, Er, Hcr, Z.min_l in H by lia.
    destruct H as (M' & m & E & Ha & _ & Hg & Hf); [lia | lia | lia | exact Hb | exact Hdst |]. by exists M', m.
Qed.

(** The bytes that a round adds. *)
Lemma bytes_after total m m' piece :
  writable m' destination_space destination (Z.of_nat (length bs)) g ->
  0 <= total -> total + Z.of_nat (length piece) <= Z.of_nat (length bs) ->
  piece = take (length piece) (drop (Z.to_nat total) bs) ->
  guest_bytes m' destination_space (destination + total) (length piece) = Ok piece ->
  (forall a, outside (Z.of_nat (length piece)) (fun i => g (total + i)) a -> m' a = m a) ->
  (forall i, 0 <= i < total -> m (g i) = nth (Z.to_nat i) bs 0) ->
  forall i, 0 <= i < total + Z.of_nat (length piece) -> m' (g i) = nth (Z.to_nat i) bs 0.
Proof.
  intros Hw Ht Hl Hp Hg Hf Hb i Hi. destruct (Z.lt_ge_cases i total).
  - rewrite Hf; [apply Hb; lia |]. intros j Hj E. apply (writable_aliases _ _ _ _ _ Hw) in E; lia.
  - pose proof (guest_bytes_writable m' destination_space (destination + total) (Z.of_nat (length piece)) (fun i => g (total + i))) as E.
    rewrite Nat2Z.id, Hg in E. specialize (E (writable_part _ _ _ _ _ _ _ Hw Ht Hl) ltac:(lia)). injection E as E.
    assert (nth (Z.to_nat (i - total)) piece 0 = m' (g i)) as <-.
    { rewrite E, nth_lookup, list_lookup_fmap, lookup_seqZ_lt by lia. cbn. do 2 f_equal. lia. }
    rewrite Hp, !nth_lookup, lookup_take_lt, lookup_drop by lia. do 2 f_equal. lia.
Qed.

(** The system after a round. *)
Lemma moved_after total s m1 m2 piece buf :
  moved total s -> agrees m1 -> (forall a, outside 32 h a -> m1 a = memory s a) ->
  piece = take (length piece) (drop (Z.to_nat total) bs) -> total + Z.of_nat (length piece) <= Z.of_nat (length bs) ->
  guest_bytes m2 destination_space (destination + total) (length piece) = Ok piece ->
  (forall a, outside (Z.of_nat (length piece)) (fun i => g (total + i)) a -> m2 a = m1 a) ->
  moved (total + Z.of_nat (length piece)) (leave (with_memory s m1) cpu (advance supported
    ((set_rax (on_core (called (with_memory s m1) cpu (vmem_number dir) req 0 0) (fun v => v <| hypercall_local_buffer := buf |>))
       (Z.of_nat (length piece))) <| physical_memory := m2 |>))).
Proof.
  intros [[Ht0 Ht1] [Hv Hq Hcr] Hsys Hfr Hbytes Hoth] Hfr1 Hw1 Hp Hl Hg Hf.
  pose proof ok as [_ Hdst _ Hapart _ _ _].
  assert (agrees m2) as Hfr2.
  { intros a Ha Hh. rewrite Hf; [by apply Hfr1 |]. intros i Hi. apply Ha. lia. }
  split.
  - lia.
  - split; [exact Hv | rewrite leave_same; exact Hq |]. rewrite leave_same, advance_cr3. exact Hcr.
  - exact Hsys.
  - exact Hfr2.
  - apply (bytes_after total m1); try done; [by apply Hdst |]. intros i Hi. rewrite Hw1; [by apply Hbytes |].
    intros j Hj E. apply (Hapart i j); [lia | lia | done].
  - intros d Hd. rewrite leave_other; [by apply Hoth | done | done].
Qed.

(** One round. *)
Lemma round_moves total s :
  moved total s -> total < size ->
  let chunk := Z.min (size - total) MAX_VMEM_CHUNK_SIZE in
  let piece := take (Z.to_nat chunk) (drop (Z.to_nat total) bs) in
  exists m s', guest_store (memory s) process_cr3 req (vmem_request (buffer +64 total) (target_va +64 total) chunk target_cr3) = Ok m /\
    __vmcall supported env cpu (vmem_number dir) req 0 0 (with_memory s m) = Ok (Some (Z.of_nat (length piece)), s') /\
    moved (total + Z.of_nat (length piece)) s'.
Proof.
  intros Hmoved Hlt chunk piece. pose proof Hmoved as [[Ht0 Ht1] [Hv Hq Hcr] Hsys Hfr Hbytes Hoth].
  pose proof ok as [Hsrc Hdst Hreq Hapart (R1 & R2 & R3 & R4) [Hs0 Hs1] Hcr3].
  assert (0 < chunk <= MAX_VMEM_CHUNK_SIZE /\ total + chunk <= size) as [Hc Hend] by (unfold chunk, MAX_VMEM_CHUNK_SIZE; lia).
  assert (length piece = Nat.min (Z.to_nat chunk) (length bs - Z.to_nat total)) as Hpl
    by (unfold piece; by rewrite length_take, length_drop).
  assert (is_u64 (buffer + total) /\ is_u64 (target_va + total) /\ is_u64 chunk) as (U1 & U2 & U3).
  { unfold source, destination, is_u64 in *. destruct dir; lia. }
  unfold add64. rewrite (wrap_small 64 (buffer + total)), (wrap_small 64 (target_va + total)) by done.
  destruct (vmem_request_fields _ _ _ _ U1 U2 U3 Hcr3) as (Hl & _). set (request := vmem_request _ _ _ _) in *.
  destruct (guest_store_ok (memory s) process_cr3 req request h) as (m1 & E1 & Hw1).
  { rewrite Hl. by apply Hreq. }
  rewrite Hl in Hw1. exists m1. rewrite E1.
  assert (agrees m1) as Hfr1.
  { intros a Ha Hh. rewrite (written_frame _ _ _ _ _ _ Hw1) by done. by apply Hfr. }
  set (s1 := with_memory s m1). set (M := called s1 cpu (vmem_number dir) req 0 0).
  destruct (handler_moves M piece (fun i => g (total + i))) with (total := total) (chunk := chunk) as (M' & m2 & E2 & Ha2 & Hg2 & Hf2);
    try done.
  - unfold target_space. change (system_cr3 (shared M)) with (system_cr3 (g_hv s)). by rewrite Hsys.
  - fold request. pose proof (Hreq m1 Hfr1) as Hw. split; [apply (writable_start _ _ _ _ _ Hw) |].
    split; [apply (writable_end _ _ _ _ _ Hw) |]. split; [| by rewrite Hl]. unfold guest_range.
    change (guest_cr3 supported M) with (get_guest_cr3 supported (vcpu_vmcs (cores s cpu))). rewrite Hcr.
    change (physical_memory M) with m1. change (Z.to_nat sizeof_vmem_request) with (Z.to_nat 32).
    assert (0 <= 32 <= Z.of_nat (length request)) as Hlen by (rewrite Hl; lia).
    rewrite (written_read_back (memory s) process_cr3 req 32 h request m1 (Hreq _ Hfr) Hlen Hw1).
    unfold slice. rewrite drop_0, take_ge by (rewrite Hl; cbn; lia). done.
  - pose proof (guest_bytes_part m1 source_space source _ (Z.to_nat total) (Z.to_nat chunk) bs (Hsrc m1 Hfr1)) as E.
    rewrite Z2Nat.id in E by lia. apply E; lia.
  - intros _. apply (writable_part _ _ _ (Z.of_nat (length bs))); [by apply Hdst | lia | lia].
  - rewrite (vmcall_keyed supported env s1 cpu); [| exact Hv | by destruct dir]. fold M. rewrite E2. cbn [obind].
    destruct Ha2 as [buf ->]. eexists. split; [done |]. split; [f_equal |].
    apply (moved_after total s m1 m2 piece); [exact Hmoved | exact Hfr1 | exact (written_frame _ _ _ _ _ _ Hw1) | | lia | exact Hg2 | exact Hf2].
    symmetry. apply take_length_take.
Qed.

Lemma loop_moves fuel total s :
  moved total s -> size - total <= MAX_VMEM_CHUNK_SIZE * Z.of_nat fuel ->
  exists s', vmem_loop dir fuel target_va buffer size target_cr3 total s = Ok (s', Z.of_nat (length bs)) /\
    moved (Z.of_nat (length bs)) s'.
Proof.
  unfold MAX_VMEM_CHUNK_SIZE. revert total s. induction fuel as [| fuel IH]; intros total s Hm Hf; cbn [vmem_loop];
    pose proof (guest_bytes_length _ _ _ _ _ (ok_source ok _ (moved_frame _ _ Hm))) as Hl;
    pose proof (moved_range _ _ Hm) as Ht; pose proof (ok_size ok) as [Hs0 Hs1];
    (destruct (Z.ltb_spec total size) as [Hlt | Hge]; cbn [negb];
      [| assert (total = Z.of_nat (length bs)) as -> by lia; by exists s]); [lia |].
  destruct (round_moves total s Hm Hlt) as (m & s1 & Em & E & Hm1). rewrite Em. cbn [obind]. rewrite E. cbn [obind].
  set (chunk := Z.min (size - total) MAX_VMEM_CHUNK_SIZE) in *. set (piece := take _ _) in *.
  assert (length piece = Nat.min (Z.to_nat chunk) (length bs - Z.to_nat total)) as Hpl
    by (unfold piece; by rewrite length_take, length_drop).
  assert (0 < chunk) by (unfold chunk, MAX_VMEM_CHUNK_SIZE; lia).
  destruct (Z.eqb_spec (Z.of_nat (length piece)) 0) as [Hz | Hnz].
  { rewrite Hz, Z.add_0_r in Hm1. assert (total = Z.of_nat (length bs)) as -> by lia. by exists s1. }
  pose proof (moved_range _ _ Hm1) as Ht1. unfold add64. rewrite wrap_small by lia.
  destruct (Z.ltb_spec (Z.of_nat (length piece)) chunk).
  - assert (total + Z.of_nat (length piece) = Z.of_nat (length bs)) as <- by lia. by exists s1.
  - apply IH; [done |]. unfold chunk, MAX_VMEM_CHUNK_SIZE in *. lia.
Qed.
End transfer.

(** The two functions. *)
Definition move (dir : direction) : Z -> Z -> Z -> Z -> system -> outcome (system * Z) :=
  match dir with reading => read_vmemory | writing => write_vmemory end.

Lemma move_moves dir target_va buffer size target_cr3 s bs g h :
  (forall a n, env_copy_fault (env cpu) a n = None) -> prepared supported process_cr3 s cpu ->
  transfer_ok dir target_va buffer size target_cr3 s bs g h ->
  exists s', move dir target_va buffer size target_cr3 s = Ok (s', Z.of_nat (length bs)) /\
    moved s bs g h (Z.of_nat (length bs)) s'.
Proof.
  intros Hfaults Hprepared Hok. assert (moved s bs g h 0 s) as H0 by (split; (done || lia)).
  pose proof (ok_size _ _ _ _ _ _ _ _ _ Hok) as [Hs _].
  destruct (loop_moves dir target_va buffer size target_cr3 s bs g h Hfaults Hok (vmem_fuel size) 0 s H0) as (s' & E & Hm).
  { unfold vmem_fuel, MAX_VMEM_CHUNK_SIZE.
    pose proof (Z.div_mod size 0x1000 ltac:(lia)). pose proof (Z.mod_pos_bound size 0x1000 ltac:(lia)).
    pose proof (Z.div_pos size 0x1000 ltac:(lia) ltac:(lia)). lia. }
  exists s'. split; [| exact Hm]. pose proof (ok_range _ _ _ _ _ _ _ _ _ Hok) as (R1 & _ & R3 & _).
  unfold move, read_vmemory, write_vmemory, source, destination in *.
  assert (buffer =? 0 = false) as Ebuf by (destruct dir; lia). assert (size =? 0 = false) as Es by lia.
  by destruct dir; rewrite Ebuf, Es.
Qed.

(** All bytes have arrived. *)
Lemma moved_delivered dir target_va buffer size target_cr3 s bs g h s' :
  transfer_ok dir target_va buffer size target_cr3 s bs g h -> moved s bs g h (Z.of_nat (length bs)) s' ->
  guest_bytes (memory s') (destination_space dir target_cr3 s) (destination dir target_va buffer) (length bs) = Ok bs.
Proof.
  intros Hok [_ _ _ Hf Hb _].
  pose proof (guest_bytes_writable _ _ _ _ _ (ok_destination _ _ _ _ _ _ _ _ _ Hok _ Hf) ltac:(lia)) as Eg.
  rewrite Nat2Z.id in Eg. rewrite Eg. f_equal. apply (nth_ext _ _ 0 0); [by rewrite length_map, length_seqZ, Nat2Z.id |].
  intros i Hi. rewrite length_map, length_seqZ, Nat2Z.id in Hi.
  rewrite nth_lookup, list_lookup_fmap, lookup_seqZ_lt by lia. cbn. rewrite Hb by lia. f_equal. lia.
Qed.

(** (C33) [read_vmemory] and [write_vmemory] move a range of any length: all bytes of the source up to
    the first that is not mapped arrive at the destination, in the address space that was
    asked for or that of the system, and the result counts them; the loop ends, no other byte
    but the request changes, and no other core. *)
Theorem process_memory_moves dir target_va buffer size target_cr3 s bs g h
    (Hfaults : forall a n, env_copy_fault (env cpu) a n = None)
    (Hprepared : prepared supported process_cr3 s cpu)
    (Hok : transfer_ok dir target_va buffer size target_cr3 s bs g h) :
  exists s', move dir target_va buffer size target_cr3 s = Ok (s', Z.of_nat (length bs)) /\
    guest_bytes (memory s') (destination_space dir target_cr3 s) (destination dir target_va buffer) (length bs) = Ok bs /\
    (forall a, outside (Z.of_nat (length bs)) g a -> outside 32 h a -> memory s' a = memory s a) /\
    (forall d, d <> cpu -> cores s' d = cores s d) /\ prepared supported process_cr3 s' cpu.
Proof.
  destruct (move_moves dir target_va buffer size target_cr3 s bs g h Hfaults Hprepared Hok) as (s' & E & Hm).
  exists s'. split; [exact E |]. split; [by apply (moved_delivered _ _ _ size _ _ _ g h) |].
  split; [exact (moved_frame _ _ _ _ _ _ Hm) |]. split; [exact (moved_others _ _ _ _ _ _ Hm) | exact (moved_prepared _ _ _ _ _ _ Hm)].
Qed.
End memory.

(** ** Example: three bytes at 1300H of the sample address space, read into 1200H. *)
Definition reading_system : system :=
  mk_system (fun _ => core (sample_caller request_memory [])) (fun _ => true) request_memory (fun _ _ => 0) (fun _ => 0%nat)
    (zero_hypervisor <| vcpu_count := 2 |>).

Lemma reading_page m :
  agrees reading_system [0xAA; 0xBB; 0xCC] (fun i => 0x9000 + 0x200 + i) (fun i => 0x9000 + 0x100 + i) m ->
  (forall a, a < 0x9000 \/ 0xA000 <= a -> m a = sample_tables a) /\
  forall i, 0 <= i < 3 -> m (0x9000 + 0x300 + i) = request_memory (0x9300 + i).
Proof.
  intros Ha. split.
  - intros a Hr. rewrite Ha; [by apply request_memory_page | intros i Hi; cbn in Hi; lia | intros i Hi; lia].
  - intros i Hi. apply Ha; intros j Hj; cbn in Hj; lia.
Qed.

Lemma reading_ok :
  transfer_ok 0x1000 0x1100 reading 0x1300 0x1200 3 0x1000 reading_system [0xAA; 0xBB; 0xCC]
    (fun i => 0x9000 + 0x200 + i) (fun i => 0x9000 + 0x100 + i).
Proof.
  split.
  - intros m Ha. destruct (reading_page m Ha) as [Hp Hb].
    pose proof (guest_bytes_writable m 0x1000 0x1300 3 _ (sample_writable m 0x300 3 Hp ltac:(lia) ltac:(lia) ltac:(lia)) ltac:(lia)) as E.
    cbn [seqZ map] in E. etransitivity; [exact E |]. change (seqZ 0 3) with [0; 1; 2]. cbn [map]. rewrite !Hb by lia. reflexivity.
  - intros m Ha. by apply (sample_writable m 0x200 3 (proj1 (reading_page m Ha))).
  - intros m Ha. by apply (sample_writable m 0x100 32 (proj1 (reading_page m Ha))).
  - intros i j Hi Hj. cbn in Hi. lia.
  - cbn. lia.
  - lia.
  - by vm_compute.
Qed.

Lemma process_memory_moves_witness :
  exists s', move (fun _ => true) (fun _ => sample_env) 0 0x1000 0x1100 reading 0x1300 0x1200 3 0x1000 reading_system = Ok (s', 3) /\
    guest_bytes (memory s') 0x1000 0x1200 3 = Ok [0xAA; 0xBB; 0xCC].
Proof.
  destruct (process_memory_moves (fun _ => true) (fun _ => sample_env) 0 0x1000 0x1100 reading 0x1300 0x1200 3 0x1000
    reading_system [0xAA; 0xBB; 0xCC] (fun i => 0x9000 + 0x200 + i) (fun i => 0x9000 + 0x100 + i)) as (s' & E & Hb & _).
  - reflexivity.
  - split; vm_compute; reflexivity.
  - exact reading_ok.
  - exists s'. split; [exact E | exact Hb].
Defined.
