(* ===== verification/Runtime.v ===== *)
(** * The invariant of the running hypervisor

    What every exit handler may assume and has to leave behind: page tables, hooks,
    trace buffers, configurations and the scratch buffer of a core are well formed, no
    exception is pending, and the EPT pointer belongs to the table in use. Every exit
    keeps it, whatever the guest has done to its registers, its memory and its part of
    the VMCS; so does every run of all cores, from the start of the hypervisor on. *)
From Stdlib Require Import ZArith Lia List Bool.
From stdpp Require Import base numbers list option functions relations.
From S2P Require Import Prelude Ia32 Memory Mtrr Paging Trace TransitionCfg Ept EptUpdate Vmcs Vcpu Exception.
From S2P Require Import Introspection Logging Hv Segments VmcsSetup Lifecycle VmExit Hypercall System.

Section core.
Context {ia32 : Ia32}.
Variable supported : vmcs_field -> bool.

(** ** The invariant of a core *)

(** But for a pending exception. *)
Record core_wf (v : vcpu) : Prop := {
  wf_normal : ept_inv (ept_pages_normal v);
  wf_target : ept_inv (ept_pages_target v);
  wf_trace : ring_wf (trace_buffer v);
  wf_transitions : probes_ok (transitions v);
  wf_buffer : length (hypercall_local_buffer v) = Z.to_nat local_buffer_size;
  wf_eptps : is_u64 (eptp_normal_execution v) /\ is_u64 (eptp_target_execution v);
  wf_eptp : vmx_vmread supported (vcpu_vmcs v) VMCS_CTRL_EPT_POINTER =
    if in_normal_execution v then eptp_normal_execution v else eptp_target_execution v
}.
Definition quiet_core (v : vcpu) : Prop := exception_occurred (exn_info v) = false.
Definition core_inv (v : vcpu) : Prop := core_wf v /\ quiet_core v.

(** A core whose tables, buffers and EPT pointer are those of [v]. *)
Record still (v v' : vcpu) : Prop := {
  still_normal : ept_pages_normal v' = ept_pages_normal v;
  still_target : ept_pages_target v' = ept_pages_target v;
  still_trace : trace_buffer v' = trace_buffer v;
  still_transitions : transitions v' = transitions v;
  still_buffer : length (hypercall_local_buffer v') = length (hypercall_local_buffer v);
  still_eptps : eptp_normal_execution v' = eptp_normal_execution v /\ eptp_target_execution v' = eptp_target_execution v;
  still_execution : in_normal_execution v' = in_normal_execution v;
  still_eptp : vmx_vmread supported (vcpu_vmcs v') VMCS_CTRL_EPT_POINTER = vmx_vmread supported (vcpu_vmcs v) VMCS_CTRL_EPT_POINTER
}.

Lemma still_refl v : still v v.
Proof. by split. Qed.
Lemma still_trans v1 v2 v3 : still v1 v2 -> still v2 v3 -> still v1 v3.
Proof. intros [A1 A2 A3 A4 A5 [A6 A6'] A7 A8] [B1 B2 B3 B4 B5 [B6 B6'] B7 B8]. split; try split; congruence. Qed.
#[export] Instance still_preorder : PreOrder still.
Proof. split; [exact still_refl | exact still_trans]. Qed.

Lemma still_wf v v' : still v v' -> core_wf v -> core_wf v'.
Proof. intros [A1 A2 A3 A4 A5 [A6 A6'] A7 A8] []. split; rewrite ?A1, ?A2, ?A3, ?A4, ?A5, ?A6, ?A6', ?A7, ?A8; done. Qed.

Lemma still_inv v v' : still v v' -> quiet_core v' -> core_inv v -> core_inv v'.
Proof. intros Hs Hq [Hw _]. split; [by apply (still_wf v) | done]. Qed.

(** Changes of the VMCS that leave the EPT pointer. *)
Definition keeps_eptp (g : vmcs -> vmcs) : Prop :=
  forall m, vmx_vmread supported (g m) VMCS_CTRL_EPT_POINTER = vmx_vmread supported m VMCS_CTRL_EPT_POINTER.

Lemma still_vmcs v g : keeps_eptp g -> still v (with_vmcs v g).
Proof. intros H. split; try done. apply H. Qed.

Lemma keeps_vmwrite f x : f <> VMCS_CTRL_EPT_POINTER -> keeps_eptp (fun m => vmwrite supported m f x).
Proof. intros Hf m. by apply vmread_vmwrite_other. Qed.
Lemma keeps_compose g h : keeps_eptp g -> keeps_eptp h -> keeps_eptp (fun m => h (g m)).
Proof. intros Hg Hh m. by rewrite Hh, Hg. Qed.

Lemma eptp_after_write m f x : f <> VMCS_CTRL_EPT_POINTER ->
  vmx_vmread supported (vmwrite supported m f x) VMCS_CTRL_EPT_POINTER = vmx_vmread supported m VMCS_CTRL_EPT_POINTER.
Proof. apply vmread_vmwrite_other. Qed.

(** Routines that write other fields of the VMCS. *)
Ltac eptp_kept := intros ?; cbv beta zeta; repeat first [rewrite eptp_after_write by discriminate | case_match]; reflexivity.

Lemma keeps_inject_code vec code : keeps_eptp (fun m => inject_hw_exception_code supported m vec code).
Proof. unfold inject_hw_exception_code. eptp_kept. Qed.
Lemma keeps_inject vec : keeps_eptp (fun m => inject_hw_exception supported m vec).
Proof. unfold inject_hw_exception. eptp_kept. Qed.
Lemma keeps_inject_nmi : keeps_eptp (inject_nmi supported).
Proof. unfold inject_nmi. eptp_kept. Qed.
Lemma keeps_advance : keeps_eptp (advance_guest_rip supported).
Proof. unfold advance_guest_rip. eptp_kept. Qed.
Lemma keeps_clear : keeps_eptp (clear_vmentry_interrupt_info supported).
Proof. unfold clear_vmentry_interrupt_info. eptp_kept. Qed.
Lemma keeps_timer r n : keeps_eptp (fun m => enable_preemption_timer supported m r n).
Proof. unfold enable_preemption_timer. eptp_kept. Qed.
Lemma keeps_no_timer : keeps_eptp (disable_preemption_timer supported).
Proof. unfold disable_preemption_timer. eptp_kept. Qed.
Lemma keeps_window rdmsr b : keeps_eptp (fun m => set_nmi_window_exiting supported rdmsr m b).
Proof. intros m. unfold set_nmi_window_exiting, write_control_field. apply eptp_after_write. discriminate. Qed.
End core.

#[export] Hint Resolve keeps_inject_code keeps_inject keeps_inject_nmi keeps_advance keeps_clear keeps_timer keeps_no_timer keeps_window : still.

(** ** Guest memory from the host *)

Section faults.
Context {ia32 : Ia32} `{!Ia32Ok ia32}.
Variable supported : vmcs_field -> bool.
Variable rdmsr : Z -> Z.
Variable crash_in_progress : Z.
Variable copy_fault : Z -> Z -> option (Z * Z * Z).
(** A copy that faults has copied no more than was asked for. *)
Hypothesis fault_within : forall a n k vec code, copy_fault a n = Some (k, vec, code) -> 0 <= k <= n.

(** A wrapped instruction completes or leaves a pending exception, and nothing else. *)
Lemma run_wrapped_ensures r v :
  ensures (fun v' => v' = v \/ exists vec code, v' = record_exception v vec code) (run_wrapped supported rdmsr crash_in_progress r v).
Proof.
  destruct r as [| vec code]; [by left |].
  destruct (decide (vec = nmi)) as [-> |].
  - unfold run_wrapped. cbn. unfold handle_host_nmi, give_control_on_unrecoverable_error. by destruct (crash_in_progress =? 0).
  - rewrite run_wrapped_cases by (by intros ? ? [= <- <-]). destruct (survivable vec); [| done]. right. by exists vec, code.
Qed.

(** The core after an access to guest memory. *)
Definition accessed_by (v v' : vcpu) : Prop := quiet_core v' /\ (v' = v \/ v' = clear_exception_info v).

Lemma accessed_refl v : quiet_core v -> accessed_by v v.
Proof. split; [done | by left]. Qed.
Lemma accessed_trans v1 v2 v3 : accessed_by v1 v2 -> accessed_by v2 v3 -> accessed_by v1 v3.
Proof. intros [_ [-> | ->]] [H3 [-> | ->]]; split; auto. Qed.
Lemma accessed_still v v' : accessed_by v v' -> still supported v v'.
Proof. intros [_ [-> | ->]]; [reflexivity | by split]. Qed.

Lemma copy_from_ensures m v buf off hva n :
  quiet_core v -> 0 <= off -> 0 <= n -> off + n <= Z.of_nat (length buf) ->
  ensures (fun r => length r.1 = length buf /\ (r.2 = v \/ exists vec code, r.2 = record_exception v vec code))
    (copy_from supported rdmsr crash_in_progress copy_fault m v buf off hva n).
Proof.
  intros Hq H0 Hn Hl. unfold copy_from. destruct (in_window _ _); cbn [negb]; [| done].
  destruct (copy_fault hva n) as [[[k vec] code] |] eqn:E.
  - pose proof (fault_within _ _ _ _ _ E). eapply ensures_bind; [apply run_wrapped_ensures |]. intros v' Hv'. cbn. split; [| done].
    apply overlay_length; [lia |]. rewrite load_length. lia.
  - cbn. split; [| by left]. apply overlay_length; [lia |]. rewrite load_length. lia.
Qed.

Lemma read_loop_ensures fuel m v cr3 gva buf size total :
  quiet_core v -> 0 <= total -> size <= Z.of_nat (length buf) ->
  ensures (fun r => accessed_by v r.1.1 /\ length r.1.2 = length buf /\ 0 <= r.2 <= Z.max total size)
    (read_loop supported rdmsr crash_in_progress copy_fault fuel m v cr3 gva buf size total).
Proof.
  intros Hq. revert buf total. induction fuel as [| fuel IH]; intros buf total H0 Hl; cbn [read_loop];
    (destruct (Z.ltb_spec total size); cbn [negb]; [| cbn; split; [by apply accessed_refl | lia]]); [done |].
  destruct (gva_to_hva m cr3 _ 0) as [[hva n] | |] eqn:E; cbn [obind]; [| done | done].
  destruct (Z.eqb_spec hva 0) as [| Hne]; [cbn; split; [by apply accessed_refl | lia] |].
  assert (0 < n) as Hn.
  { rewrite gva_to_hva_eq in E. destruct (gva_to_gpa m cr3 _ 0) as [[gpa rest] | |] eqn:Eg; [| done | done].
    cbn [obind] in E. injection E as <- <-. destruct (Z.eqb_spec gpa 0); [done |]. by eapply rest_positive. }
  eapply ensures_bind; [apply copy_from_ensures; [done | lia | lia | lia] |].
  intros [buf' v'] [Hlen Hv]. cbn [fst snd] in Hlen, Hv. destruct Hv as [-> | (vec & code & ->)].
  - rewrite Hq. eapply ensures_impl; [| apply IH; lia]. intros [[v2 b2] k] (H1 & H2 & H3). cbn in *. split; [done |]. lia.
  - cbn. split; [by split; [| right] | lia].
Qed.

Lemma read_virtual_ensures m v cr3 gva buf size :
  quiet_core v -> size <= Z.of_nat (length buf) ->
  ensures (fun r => accessed_by v r.1.1 /\ length r.1.2 = length buf /\ 0 <= r.2 <= Z.max 0 size)
    (read_guest_virtual supported rdmsr crash_in_progress copy_fault m v cr3 gva buf size).
Proof.
  intros Hq Hs. unfold read_guest_virtual. destruct (_ || _); [cbn; split; [by apply accessed_refl | lia] |].
  eapply ensures_impl; [| apply read_loop_ensures; [done | lia | lia]]. intros r (H1 & H2 & H3). split; [done |]. lia.
Qed.

Lemma read_current_ensures m v gva buf size :
  quiet_core v -> size <= Z.of_nat (length buf) ->
  ensures (fun r => accessed_by v r.1.1 /\ length r.1.2 = length buf /\ 0 <= r.2 <= Z.max 0 size)
    (read_guest_virtual_current supported rdmsr crash_in_progress copy_fault m v gva buf size).
Proof.
  intros Hq Hs. unfold read_guest_virtual_current. destruct (_ || _); [cbn; split; [by apply accessed_refl | lia] |].
  by apply read_virtual_ensures.
Qed.

Lemma write_loop_ensures fuel m v cr3 gva buf size total :
  quiet_core v -> ensures (fun r => accessed_by v r.1.2)
    (write_loop supported rdmsr crash_in_progress copy_fault fuel m v cr3 gva buf size total).
Proof.
  intros Hq. revert m total. induction fuel as [| fuel IH]; intros m total; cbn [write_loop];
    (destruct (total <? size); cbn [negb]; [| by apply accessed_refl]); [done |].
  destruct (gva_to_hva m cr3 _ 0) as [[hva n] | |]; cbn [obind]; [| done | done].
  destruct (hva =? 0); [by apply accessed_refl |].
  eapply (ensures_bind (fun r => r.2 = v \/ exists vec code, r.2 = record_exception v vec code)).
  - unfold copy_to. destruct (in_window _ _); cbn [negb]; [| done].
    destruct (copy_fault _ _) as [[[k vec] code] |]; [| by left].
    eapply ensures_bind; [apply run_wrapped_ensures |]. by intros v' Hv'.
  - intros [m' v']. cbn [snd]. intros [-> | (vec & code & ->)]; [rewrite Hq; apply IH |].
    cbn. by split; [| right].
Qed.

Lemma write_virtual_ensures m v cr3 gva buf size :
  quiet_core v -> ensures (fun r => accessed_by v r.1.2)
    (write_guest_virtual supported rdmsr crash_in_progress copy_fault m v cr3 gva buf size).
Proof.
  intros Hq. unfold write_guest_virtual. destruct (_ || _); [by apply accessed_refl |]. by apply write_loop_ensures.
Qed.

Lemma write_current_ensures m v gva buf size :
  quiet_core v -> ensures (fun r => accessed_by v r.1.2)
    (write_guest_virtual_current supported rdmsr crash_in_progress copy_fault m v gva buf size).
Proof.
  intros Hq. unfold write_guest_virtual_current. destruct (_ || _); [by apply accessed_refl |]. by apply write_virtual_ensures.
Qed.

Lemma flush_logs_ensures m v l out_messages max_messages :
  quiet_core v -> logger_ok l -> 0 <= max_messages ->
  ensures (fun r => accessed_by v r.1.1.2 /\ logger_ok r.1.2)
    (flush_standard_logs supported rdmsr crash_in_progress copy_fault m v l out_messages max_messages).
Proof.
  intros Hq Hl Hm. unfold flush_standard_logs.
  destruct (_ || _); [by split; [apply accessed_refl |] |]. destruct (_ =? 0); [by split; [apply accessed_refl |] |].
  assert (forall m v' dst buf n, accessed_by v v' -> ensures (fun r => accessed_by v r.2)
    (let! (m, v, _) := write_guest_virtual_current supported rdmsr crash_in_progress copy_fault m v' dst buf n in
     Ok (m, v))) as Hw.
  { intros m' v' dst buf n Hv'. eapply ensures_bind; [apply write_current_ensures, Hv' |].
    intros [[m2 v2] k] E. cbn in *. by apply (accessed_trans v v'). }
  eapply ensures_bind; [apply Hw; by apply accessed_refl |]. intros [m1 v1] H1. cbn [snd] in H1.
  eapply (ensures_bind (fun r => accessed_by v r.2)); [destruct (_ <? _); [by apply Hw | done] |].
  intros [m2 v2] H2. cbn in H2 |- *. split; [done |]. destruct Hl as [L1 L2 L3]. split; cbn; [done | lia | done].
Qed.
End faults.

(** ** The invariant of an exit *)

Section exits.
Context {ia32 : Ia32} {mtrr_layout : MtrrLayout} {exit_layout : ExitLayout} `{!Ia32Ok ia32}.
Variable supported : vmcs_field -> bool.
Variable pfn_of_pd : bool -> Z -> Z.
Variable env : environment.
(** The number of cores. *)
Variable n : Z.
Hypothesis eptp_supported : supported VMCS_CTRL_EPT_POINTER = true.
Hypothesis fault_within : forall a k j vec code, env_copy_fault env a k = Some (j, vec, code) -> 0 <= j <= k.

(** The core, and what it shares with the others. *)
Record machine_inv (s : machine) : Prop := {
  mi_core : core_inv supported (core s);
  mi_count : vcpu_count (shared s) = n;
  mi_traces : forall c, 0 <= c < n -> ring_wf (vcpu_trace_buffers (shared s) c);
  mi_logger : logger_ok (logger (shared s))
}.

Definition invariantly {A} (state : A -> machine) : outcome A -> Prop := ensures (fun r => machine_inv (state r)).

Lemma inv_bind {A B} (P : A -> Prop) (state : B -> machine) m (k : A -> outcome B) :
  ensures P m -> (forall a, P a -> invariantly state (k a)) -> invariantly state (obind m k).
Proof. apply ensures_bind. Qed.

Lemma inv_framed s s' :
  machine_inv s -> still supported (core s) (core s') -> quiet_core (core s') -> shared s' = shared s -> machine_inv s'.
Proof. intros [Hc Hn Ht Hl] Hs Hq Hsh. split; rewrite ?Hsh; try done. by apply (still_inv supported (core s)). Qed.

Lemma inv_core s v :
  machine_inv s -> still supported (core s) v -> quiet_core v -> machine_inv (s <| core := v |>).
Proof. intros H Hs Hq. by apply (inv_framed s). Qed.

Lemma inv_on_core s f :
  machine_inv s -> still supported (core s) (f (core s)) -> quiet_core (f (core s)) -> machine_inv (on_core s f).
Proof. apply inv_core. Qed.

Lemma inv_quiet s : machine_inv s -> quiet_core (core s).
Proof. intros H. apply (mi_core s H). Qed.
Hint Resolve inv_quiet : still.

Lemma inv_vmcs s g :
  machine_inv s -> keeps_eptp supported g -> machine_inv (on_core s (fun v => with_vmcs v g)).
Proof. intros H Hg. apply inv_on_core; [done | by apply still_vmcs | exact (inv_quiet s H)]. Qed.

Lemma inv_set_rax s x : machine_inv s -> machine_inv (set_rax s x).
Proof. intros H. apply inv_on_core; [done | by split | exact (inv_quiet s H)]. Qed.

Lemma inv_memory s m : machine_inv s -> machine_inv (s <| physical_memory := m |>).
Proof. intros []. by split. Qed.
Lemma inv_invept s : machine_inv s -> machine_inv (invept s).
Proof. intros []. by split. Qed.

Lemma inv_advance s : machine_inv s -> machine_inv (advance supported s).
Proof. intros H. apply inv_vmcs; auto with still. Qed.

Lemma inv_inject_ud s : machine_inv s -> machine_inv (inject_ud supported s).
Proof. intros H. apply inv_vmcs; auto with still. Qed.
Lemma inv_inject_gp s : machine_inv s -> machine_inv (inject_gp supported s).
Proof. intros H. apply inv_vmcs; auto with still. Qed.

Lemma inv_accessed s v : machine_inv s -> accessed_by (core s) v -> machine_inv (s <| core := v |>).
Proof. intros H Ha. apply inv_core; [done | by apply accessed_still | apply Ha]. Qed.

(** *** Guest memory *)

Lemma read_guest_inv s gva k : machine_inv s -> 0 <= k -> invariantly (fun r => r.1.1) (read_guest supported env s gva k).
Proof.
  intros H Hk. eapply inv_bind; [apply read_current_ensures; [done | auto with still | rewrite repeat_length; lia] |].
  intros [[v buf] j] (Ha & _). by apply inv_accessed.
Qed.

Lemma write_guest_inv s gva buf k : machine_inv s -> invariantly fst (write_guest supported env s gva buf k).
Proof.
  intros H. eapply inv_bind; [apply write_current_ensures; auto with still |].
  intros [[m v] j] Ha. by apply inv_memory, inv_accessed.
Qed.

Lemma inv_local_buffer s buf :
  machine_inv s -> length buf = Z.to_nat local_buffer_size -> machine_inv (on_core s (fun v => v <| hypercall_local_buffer := buf |>)).
Proof.
  intros H Hb. apply inv_on_core; [done | | exact (inv_quiet s H)]. split; try done. cbn [hypercall_local_buffer set].
  rewrite (wf_buffer _ _ (proj1 (mi_core s H))). done.
Qed.

Lemma read_to_local_inv s cr3 gva k :
  machine_inv s -> k <= local_buffer_size ->
  ensures (fun r => machine_inv r.1 /\ 0 <= r.2 <= Z.max 0 k) (read_to_local supported env s cr3 gva k).
Proof.
  intros H Hk. pose proof (wf_buffer _ _ (proj1 (mi_core s H))) as Hb.
  eapply ensures_bind; [apply read_virtual_ensures; [done | auto with still | rewrite Hb; lia] |].
  intros [[v buf] j] (Ha & Hl & Hj). cbn [fst snd] in Ha, Hl, Hj. split; [| done]. cbn [fst].
  apply inv_core; [done | | apply Ha]. apply (still_trans _ _ v); [by apply accessed_still |].
  destruct (accessed_still supported _ _ Ha) as [_ _ _ _ Hbl _ _ _]. split; try done. cbn [hypercall_local_buffer set]. by rewrite Hl, Hbl.
Qed.

Lemma write_from_local_inv s cr3 gva k : machine_inv s -> invariantly fst (write_from_local supported env s cr3 gva k).
Proof.
  intros H. eapply inv_bind; [apply write_virtual_ensures; auto with still |].
  intros [[m v] j] Ha. by apply inv_memory, inv_accessed.
Qed.

Create HintDb inv.
Hint Resolve inv_set_rax inv_invept inv_advance read_guest_inv write_guest_inv write_from_local_inv : inv.

Lemma invariantly_rax s x : machine_inv s -> invariantly id (Ok (set_rax s x)).
Proof. apply inv_set_rax. Qed.
Hint Resolve invariantly_rax : inv.

Lemma vmem_read_inv s : machine_inv s -> invariantly id (handle_vmem_read supported env s).
Proof.
  intros H. unfold handle_vmem_read.
  assert (machine_inv (clear_local_buffer s)) as H0 by (apply inv_local_buffer; [done | by rewrite repeat_length]).
  eapply inv_bind; [by apply read_guest_inv |].
  intros [[s1 request] k] H1. cbn [fst] in H1. destruct (negb _); [auto with inv |].
  set (bytes := Z.min _ _). assert (bytes <= local_buffer_size) as Hb by (unfold bytes, local_buffer_size, MAX_VMEM_CHUNK_SIZE; lia).
  destruct (_ =? 0); [auto with inv |]. eapply inv_bind; [by apply read_to_local_inv |].
  intros [s2 j] [H2 _]. cbn [fst] in H2. destruct (_ =? 0); [auto with inv |].
  eapply inv_bind; [by apply write_guest_inv |]. intros [s3 w] H3. cbn [fst] in H3. destruct (negb _); auto with inv.
Qed.

Lemma vmem_write_inv s : machine_inv s -> invariantly id (handle_vmem_write supported env s).
Proof.
  intros H. unfold handle_vmem_write.
  assert (machine_inv (clear_local_buffer s)) as H0 by (apply inv_local_buffer; [done | by rewrite repeat_length]).
  eapply inv_bind; [by apply read_guest_inv |].
  intros [[s1 request] k] H1. cbn [fst] in H1. destruct (negb _); [auto with inv |].
  set (bytes := Z.min _ _). assert (bytes <= local_buffer_size) as Hb by (unfold bytes, local_buffer_size, MAX_VMEM_CHUNK_SIZE; lia).
  destruct (_ =? 0); [auto with inv |]. eapply inv_bind; [by apply read_to_local_inv |].
  intros [s2 j] [H2 _]. cbn [fst] in H2. destruct (_ =? 0); [auto with inv |].
  eapply inv_bind; [by apply write_from_local_inv |]. intros [s3 w] H3. cbn [fst] in H3. destruct (_ =? 0); auto with inv.
Qed.

Lemma inv_shared s h :
  machine_inv s -> vcpu_count h = vcpu_count (shared s) -> vcpu_trace_buffers h = vcpu_trace_buffers (shared s) ->
  logger_ok (logger h) -> machine_inv (s <| shared := h |>).
Proof. intros [Hc Hn Ht Hl] E1 E2 Hl'. split; cbn; rewrite ?E1, ?E2; done. Qed.

Lemma flush_standard_logs_inv s :
  machine_inv s -> 0 <= gpr_of s r8 -> invariantly id (handle_flush_standard_logs supported env s).
Proof.
  intros H H8. unfold handle_flush_standard_logs.
  eapply inv_bind; [apply flush_logs_ensures; [auto with still | apply (mi_logger s H) | done] |].
  intros [[[m v] l] k] [Ha Hl]. cbn [fst snd] in Ha, Hl. apply inv_set_rax.
  apply (inv_shared (s <| core := v |> <| physical_memory := m |>)); try done. by apply inv_memory, inv_accessed.
Qed.

(** *** Hooks and tracing *)

Lemma inv_tables s normal target :
  machine_inv s -> ept_inv normal -> ept_inv target ->
  machine_inv (on_core s (fun v => v <| ept_pages_normal := normal |> <| ept_pages_target := target |>)).
Proof. intros [[[] Hq] Hn Ht Hl] H1 H2. by split. Qed.

Lemma ept_hook_inv s : machine_inv s -> 0 <= gpr_of s rdx -> invariantly id (handle_ept_hook s).
Proof.
  intros H Hd. pose proof (mi_core s H) as [[Hno Hta _ _ _ _ _] _]. unfold handle_ept_hook.
  destruct (add_hook_ok _ (gpr_of s rdx) (gpr_of s r8) Hno Hd) as (normal & ok & -> & Hno' & _). cbn [obind].
  assert (machine_inv (on_core s (fun v => v <| ept_pages_normal := normal |>))) as H1 by exact (inv_tables s normal _ H Hno' Hta).
  set (s1 := on_core s _) in *. destruct ok; [| by apply inv_invept, inv_set_rax].
  change (ept_pages_target (core s1)) with (ept_pages_target (core s)).
  destruct (add_hook_ok _ (gpr_of s rdx) (gpr_of s r8) Hta Hd) as (target & ok & -> & Hta' & _). cbn [obind].
  apply inv_invept, inv_set_rax. exact (inv_tables s normal target H Hno' Hta').
Qed.

(** A function that keeps the invariant of a table. *)
Definition table_fn (f : ept_pages -> outcome ept_pages) : Prop :=
  forall p, ept_inv p -> exists p', f p = Ok p' /\ ept_inv p'.

Lemma on_tables_inv s f : table_fn f -> machine_inv s -> exists s', on_tables s f = Ok s' /\ machine_inv s' /\
  shared s' = shared s /\ guest_context (core s') = guest_context (core s).
Proof.
  intros Hf H. pose proof (mi_core s H) as [[Hno Hta _ _ _ _ _] _]. unfold on_tables.
  destruct (Hf _ Hno) as (normal & -> & Hno'). cbn [obind]. destruct (Hf _ Hta) as (target & -> & Hta'). cbn [obind].
  eexists. split; [done |]. by split; [apply inv_tables |].
Qed.

Lemma inv_switch_eptp s b : machine_inv s -> machine_inv (on_core s (fun v => switch_eptp supported v b)).
Proof.
  intros [[[] Hq] Hn Ht Hl]. split; try done. split; [split |]; try done.
  cbn [vcpu_vmcs in_normal_execution eptp_normal_execution eptp_target_execution switch_eptp with_vmcs set on_core core].
  unfold change_eptp. destruct wf_eptps0 as [U1 U2].
  destruct b; cbn; rewrite vmread_vmwrite_same by done; by apply wrap_small.
Qed.

Lemma inv_trace s (f : vcpu -> ring_buffer) : machine_inv s -> (ring_wf (trace_buffer (core s)) -> ring_wf (f (core s))) ->
  machine_inv (on_core s (fun v => v <| trace_buffer := f v |>)).
Proof. intros [[[] Hq] Hn Ht Hl] Hf. split; try done. split; [split; auto | done]. Qed.

Lemma enable_inv s : machine_inv s -> invariantly id (handle_enable_auto_trace supported s).
Proof.
  intros H. unfold handle_enable_auto_trace.
  destruct (on_tables_inv s deactivate_hooks deactivate_inv H) as (s1 & -> & H1 & _). cbn [obind].
  pose proof (mi_core s1 H1) as [[Hno Hta _ _ _ _ _] _].
  destruct (enable_auto_trace _ _ _ _ _) as [[[normal target] ok] | |] eqn:E; cbn [obind]; [| done | done].
  destruct (enable_auto_trace_inv _ _ _ _ _ _ _ _ Hno Hta E) as [Hno' Hta'].
  pose proof (inv_tables s1 normal target H1 Hno' Hta') as H2. set (s2 := on_core s1 _) in *. destruct ok.
  - apply inv_set_rax, inv_invept, inv_switch_eptp.
    apply (inv_trace s2 (fun v => (trace_buffer v) <| write_head := 0 |> <| read_tail := 0 |> <| active := 1 |>) H2). by split.
  - destruct (on_tables_inv s2 reactivate_hooks reactivate_inv H2) as (s3 & -> & H3 & _). cbn [obind].
    by apply inv_set_rax, inv_invept.
Qed.

Lemma disable_inv s : machine_inv s -> invariantly id (handle_disable_auto_trace supported s).
Proof.
  intros H. unfold handle_disable_auto_trace, restore_auto_trace.
  assert (machine_inv (on_core s (fun v => v <| trace_buffer := (trace_buffer v) <| active := 0 |> |>))) as H1
    by (apply (inv_trace s (fun v => (trace_buffer v) <| active := 0 |>) H); intros []; by split).
  set (s1 := on_core s _) in *.
  pose proof (mi_core s1 H1) as [[Hno Hta _ _ _ _ _] _].
  pose proof (inv_tables s1 _ _ H1 (set_all_permissions_inv _ true true true Hno) (set_all_permissions_inv _ true true true Hta)) as H2.
  set (s2 := on_core s1 _) in *. destruct (on_tables_inv s2 reactivate_hooks reactivate_inv H2) as (s3 & -> & H3 & _). cbn [obind].
  by apply inv_invept, inv_switch_eptp.
Qed.

(** *** The trace buffers *)

Lemma ring_of_inv s c : machine_inv s -> 0 <= c < n -> ring_wf (trace_buffer_of s c).
Proof.
  intros H Hc. unfold trace_buffer_of. destruct (_ =? _); [apply (mi_core s H) | by apply (mi_traces s H)].
Qed.

Lemma set_ring_inv s c b : machine_inv s -> ring_wf b -> machine_inv (set_trace_buffer_of s c b).
Proof.
  intros H Hb. unfold set_trace_buffer_of. destruct (_ =? _); [by apply (inv_trace s (fun _ => b)) |].
  destruct H as [Hc Hn Ht Hl]. split; cbn; try done. intros d Hd. unfold insert, fn_insert. case_decide; [done | by apply Ht].
Qed.

Lemma flush_loop_inv fuel s c guest_buffer max total :
  0 <= c < n -> machine_inv s -> invariantly fst (flush_loop supported env fuel s c guest_buffer max total).
Proof.
  intros Hc. revert s total. induction fuel as [| fuel IH]; intros s total H; cbn [flush_loop];
    (destruct (total <? max); cbn [negb]; [| exact H]); [done |].
  destruct (drain _ _) as [batch b] eqn:Ed.
  pose proof (drain_ok (trace_buffer_of s c) (Z.min (max - total) batch_capacity) (ring_of_inv s c H Hc)) as Hd.
  rewrite Ed in Hd. destruct Hd as (Hb & Hbatch & _).
  change batch_capacity with 64 in *.
  assert (Z.of_nat (length batch) <= 64) as Hlen by (rewrite Hbatch, length_take; lia).
  pose proof (set_ring_inv s c b H Hb) as H1. set (s1 := set_trace_buffer_of s c b) in *.
  set (s2 := on_core s1 _). assert (machine_inv s2) as H2.
  { apply (inv_local_buffer s1 (overlay (hypercall_local_buffer (core s1)) 0 (concat (map entry_bytes batch)))); [done |].
    pose proof (wf_buffer _ _ (proj1 (mi_core s1 H1))) as Hl. rewrite <- Hl. apply overlay_length; [lia |].
    rewrite (concat_length_const _ 64), length_map; [rewrite Hl; change (Z.to_nat local_buffer_size) with 4096%nat; lia |].
    apply Forall_map, Forall_true. intros e. apply entry_bytes_length. }
  destruct (_ =? 0); [exact H2 |]. eapply inv_bind; [by apply write_guest_inv |].
  intros [s3 w] H3. cbn [fst] in H3. destruct (negb _); [exact H3 | by apply IH].
Qed.

Lemma flush_trace_logs_inv s : machine_inv s -> 0 <= gpr_of s rdx -> invariantly id (handle_flush_trace_logs supported env s).
Proof.
  intros H Hd. unfold handle_flush_trace_logs. destruct (Z.leb_spec (vcpu_count (shared s)) (gpr_of s rdx)) as [| Hlt]; [auto with inv |].
  pose proof (mi_count s H) as Hn. eapply inv_bind; [apply flush_loop_inv; [lia | done] |].
  intros [s1 total] H1. auto with inv.
Qed.

(** *** The other hypercalls *)

Lemma inv_transitions s t : machine_inv s -> probes_ok t -> machine_inv (on_core s (fun v => v <| transitions := t |>)).
Proof. intros [[[] Hq] Hn Ht Hl] H1. by split. Qed.

Lemma at_config_inv s : machine_inv s -> invariantly id (handle_at_config_ept_transition supported env s).
Proof.
  intros H. unfold handle_at_config_ept_transition. eapply inv_bind; [by apply read_guest_inv |].
  intros [[s1 request] k] H1. cbn [fst] in H1. pose proof (wf_transitions _ _ (proj1 (mi_core s1 H1))) as Hp.
  destruct (negb _); [auto with inv |]. destruct (_ =? 0).
  { apply invariantly_rax. by apply (inv_transitions s1 ((transitions (core s1)) <| generic_transition_cfg := request_cfg request |>)). }
  destruct (_ =? 1); [| auto with inv].
  pose proof (insert_probes (transitions (core s1)) (u64_at request 0) (request_cfg request) Hp) as Hi.
  destruct (insert_exact_transition_cfg _ _ _) as [ok t]. apply invariantly_rax. by apply inv_transitions.
Qed.

Lemma apic_info_inv s : machine_inv s -> invariantly id (handle_get_apic_info supported env s).
Proof.
  intros H. unfold handle_get_apic_info. eapply inv_bind; [by apply write_guest_inv |]. intros [s1 k] H1. auto with inv.
Qed.

Lemma set_onload_inv s : machine_inv s -> invariantly id (handle_set_onload_target supported env s).
Proof.
  intros H. unfold handle_set_onload_target. eapply inv_bind; [by apply read_guest_inv |].
  intros [[s1 request] k] H1. cbn [fst] in H1. destruct (negb _); [auto with inv |].
  apply invariantly_rax. apply inv_shared; try done. apply (mi_logger s1 H1).
Qed.

Lemma clear_onload_inv s : machine_inv s -> machine_inv (handle_clear_onload_target s).
Proof. intros H. apply inv_set_rax. apply inv_shared; try done. apply (mi_logger s H). Qed.

(** The registers of a guest are 64-bit words. *)
Definition registers_ok (s : machine) : Prop := forall r, is_u64 (guest_context (core s) r).

Lemma hypercall_inv s k : machine_inv s -> registers_ok s -> invariantly id (run_hypercall supported env s k).
Proof.
  intros H Hr. assert (forall r, 0 <= gpr_of s r) as H0 by (intros r; apply Hr).
  destruct k; cbn [run_hypercall].
  - by apply inv_set_rax.
  - by apply flush_standard_logs_inv.
  - by apply vmem_read_inv.
  - by apply vmem_write_inv.
  - by apply ept_hook_inv.
  - by apply enable_inv.
  - by apply disable_inv.
  - by apply flush_trace_logs_inv.
  - by apply apic_info_inv.
  - done.
  - by apply at_config_inv.
  - by apply set_onload_inv.
  - by apply clear_onload_inv.
  - exact H.
Qed.

Lemma vmcall_inv s : machine_inv s -> registers_ok s ->
  invariantly id (handle_vmcall supported (handle_hypercall supported env) s).
Proof.
  intros H Hr. unfold handle_vmcall, handle_hypercall. destruct (negb _); cbn [obind]; [by apply inv_inject_ud |].
  destruct (run_hypercall supported env s _) as [s1 | |] eqn:E; cbn [obind]; [| done | done].
  apply inv_advance. pose proof (hypercall_inv s (hypercall_of (gpr_of s rcx)) H Hr) as H1. unfold invariantly in H1. by rewrite E in H1.
Qed.

(** *** Instructions *)

Lemma wrapped_ensures r s :
  ensures (fun s' => still supported (core s) (core s') /\ shared s' = shared s) (wrapped supported env r s).
Proof.
  eapply ensures_bind; [apply run_wrapped_ensures |]. intros v' Hv. split; [| done]. cbn.
  destruct Hv as [-> | (vec & code & ->)]; [reflexivity | by split].
Qed.

Lemma or_inject_inv s0 s k :
  machine_inv s0 -> still supported (core s0) (core s) -> shared s = shared s0 ->
  (machine_inv s -> machine_inv (k s)) -> machine_inv (or_inject supported s k).
Proof.
  intros H Hs Hsh Hk. unfold or_inject. destruct (exception_occurred (exn_info (core s))) eqn:Eq.
  - apply (inv_framed s0); [done | | done | done]. apply (still_trans _ _ (core s) _ Hs). cbn.
    unfold inject_host_hw_exception_to_guest.
    assert (forall g, keeps_eptp supported g -> still supported (core s) ((with_vmcs (core s) g) <| exn_info := no_exception |>)) as Hg.
    { intros g Hg. eapply still_trans; [by apply still_vmcs, Hg | by split]. }
    destruct (vector_has_error_code _); apply Hg; auto with still.
  - apply Hk. by apply (inv_framed s0).
Qed.

Lemma still_measured v : still supported v (measured env v).
Proof. by split. Qed.
Lemma still_regs v g : still supported v (v <| guest_context := g |>).
Proof. by split. Qed.

Lemma cpuid_inv s : machine_inv s -> machine_inv (handle_cpuid supported env s).
Proof.
  intros H. unfold handle_cpuid. destruct (env_cpuid env _ _) as [[[a b] c] d].
  apply inv_advance, inv_on_core; [| apply still_regs | exact (inv_quiet s H)].
  apply inv_on_core; [done | apply still_measured | exact (inv_quiet s H)].
Qed.

Lemma rdmsr_inv s : machine_inv s -> invariantly id (handle_rdmsr supported env s).
Proof.
  intros H. unfold handle_rdmsr.
  apply (inv_bind (fun r => still supported (core s) (core r.2) /\ shared r.2 = shared s)).
  - destruct (_ =? _); [by split |]. eapply ensures_bind; [apply wrapped_ensures |]. by intros s1 H1.
  - intros [x s1] [Hs Hsh]. cbn [snd] in Hs, Hsh. unfold invariantly, id. cbn [ensures].
    apply (or_inject_inv s); [done | by apply (still_trans _ _ _ _ Hs) | done |].
    intros H1. by apply inv_advance, inv_on_core; [| apply still_regs | exact (inv_quiet _ H1)].
Qed.

Lemma refresh_inv s : machine_inv s -> machine_inv (refresh_memory_types pfn_of_pd s).
Proof.
  intros [[[Hno Hta Htr Htt Hb Hep Hp] Hq] Hn Ht Hl]. apply inv_invept. split; [| exact Hn | exact Ht | exact Hl].
  split; [split; [| | exact Htr | exact Htt | exact Hb | exact Hep | exact Hp] | exact Hq].
  - apply (retyped_inv (ept_pages_normal (core s))); [apply update_retyped, inv_wf, Hno | exact Hno].
  - apply (retyped_inv (ept_pages_target (core s))); [apply update_retyped, inv_wf, Hta | exact Hta].
Qed.

Lemma store_msr_same r msr x s : core (store_msr r msr x s) = core s /\ shared (store_msr r msr x s) = shared s.
Proof. by destruct r. Qed.

Lemma wrmsr_inv s : machine_inv s -> invariantly id (handle_wrmsr supported pfn_of_pd env s).
Proof.
  intros H. unfold handle_wrmsr. eapply inv_bind; [apply wrapped_ensures |]. intros s1 [Hs Hsh].
  set (s2 := store_msr _ _ _ s1). destruct (store_msr_same (env_wrmsr env (read32 (guest_context (core s)) rcx) (edx_eax (core s)))
    (read32 (guest_context (core s)) rcx) (edx_eax (core s)) s1) as [E1 E2]. fold s2 in E1, E2.
  unfold invariantly, id. cbn [ensures]. apply (or_inject_inv s); [done | | by rewrite <- Hsh, <- E2 |].
  - apply (still_trans _ _ _ _ Hs). rewrite <- E1. by split.
  - intros H1. apply inv_advance. destruct (is_mtrr_msr _); [by apply refresh_inv | done].
Qed.

Lemma invd_inv s : machine_inv s -> invariantly id (handle_invd supported env s).
Proof.
  intros H. unfold handle_invd. eapply inv_bind; [apply wrapped_ensures |]. intros s1 [Hs Hsh].
  unfold invariantly, id. cbn [ensures]. by apply (or_inject_inv s); [| | | apply inv_advance].
Qed.

Lemma xsetbv_inv s : machine_inv s -> invariantly id (handle_xsetbv supported env s).
Proof.
  intros H. unfold handle_xsetbv. eapply inv_bind; [apply wrapped_ensures |]. intros s1 [Hs Hsh].
  unfold invariantly, id. cbn [ensures].
  apply (or_inject_inv s); [done | by apply (still_trans _ _ _ _ Hs) | done | apply inv_advance].
Qed.

(** *** NMIs *)

Lemma nmi_inv s : machine_inv s -> invariantly id (handle_nmi supported env s).
Proof.
  intros H. unfold handle_nmi. apply (inv_bind (fun v => v = core s)).
  - unfold give_control_on_unrecoverable_error. by destruct (negb _).
  - intros v ->. apply (inv_core s); [done | | exact (inv_quiet s H)].
    unfold enqueue_nmi. eapply still_trans; [| apply still_vmcs, keeps_window]. by split.
Qed.

Lemma nmi_window_inv s : machine_inv s -> machine_inv (handle_nmi_window supported s).
Proof.
  intros H. apply inv_on_core; [done | | ].
  - assert (still supported (core s) (with_vmcs ((core s) <| queued_nmi_count := u64 (queued_nmi_count (core s) - 1) |>) (inject_nmi supported))) as H1.
    { eapply still_trans; [| apply still_vmcs, keeps_inject_nmi]. by split. }
    cbv zeta. destruct (_ =? 0); [| exact H1].
    assert (forall v b, still supported v (with_vmcs v (fun m => set_nmi_window_exiting supported (msrs s) m b))) as Hw
      by (intros v b; apply still_vmcs, keeps_window).
    destruct (negb _); (eapply still_trans; [exact H1 |]); [eapply still_trans; [apply Hw | apply Hw] | apply Hw].
  - cbv zeta. destruct (_ =? 0); [destruct (negb _) |]; exact (inv_quiet s H).
Qed.

(** *** Control registers *)

Lemma write_or_crash_ensures m f x :
  f <> VMCS_CTRL_EPT_POINTER ->
  ensures (fun m' => vmx_vmread supported m' VMCS_CTRL_EPT_POINTER = vmx_vmread supported m VMCS_CTRL_EPT_POINTER) (write_or_crash supported m f x).
Proof.
  intros Hf. unfold write_or_crash. pose proof (vmread_vmwrite_other supported m f VMCS_CTRL_EPT_POINTER x Hf) as E. unfold vmwrite in E.
  destruct (vmx_vmwrite supported m f x) as [m' []]; [exact E | exact I].
Qed.

Lemma inv_with_vmcs s m :
  machine_inv s -> vmx_vmread supported m VMCS_CTRL_EPT_POINTER = vmx_vmread supported (vcpu_vmcs (core s)) VMCS_CTRL_EPT_POINTER ->
  machine_inv (on_core s (fun v => v <| vcpu_vmcs := m |>)).
Proof. intros H E. apply inv_on_core; [done | by split | exact (inv_quiet s H)]. Qed.

Lemma write_cr_inv s shadow reg x y f0 f1 :
  machine_inv s -> shadow <> VMCS_CTRL_EPT_POINTER -> reg <> VMCS_CTRL_EPT_POINTER -> invariantly id (write_cr supported s shadow reg x y f0 f1).
Proof.
  intros H H1 H2. unfold write_cr. eapply inv_bind; [by apply write_or_crash_ensures |]. intros m1 E1.
  eapply inv_bind; [by apply write_or_crash_ensures |]. intros m2 E2. apply inv_with_vmcs; [done | congruence].
Qed.

Lemma mov_to_cr_inv s q : machine_inv s -> invariantly id (handle_mov_to_cr supported env s q).
Proof.
  intros H. unfold handle_mov_to_cr. destruct (control_register_of q); [| | done].
  - destruct (cr0_faults _ _); [by apply inv_inject_gp |]. eapply inv_bind; [by apply write_cr_inv |].
    intros s1 H1. by apply inv_advance.
  - destruct (cr4_faults _ _ _ _ _); [by apply inv_inject_gp |]. eapply inv_bind; [by apply write_cr_inv |].
    intros s1 H1. by apply inv_advance.
Qed.

Lemma clts_inv s : machine_inv s -> invariantly id (handle_clts supported s).
Proof.
  intros H. unfold handle_clts. eapply inv_bind; [by apply write_or_crash_ensures |]. intros m1 E1.
  eapply inv_bind; [by apply write_or_crash_ensures |]. intros m2 E2. apply inv_with_vmcs; [done | congruence].
Qed.

Lemma lmsw_inv s q : machine_inv s -> invariantly id (handle_lmsw supported s q).
Proof.
  intros H. unfold handle_lmsw. eapply inv_bind; [by apply write_cr_inv |]. intros s1 H1. by apply inv_advance.
Qed.

Lemma cr_access_inv s : machine_inv s -> invariantly id (handle_cr_access supported env s).
Proof.
  intros H. unfold handle_cr_access. apply (inv_bind machine_inv).
  - destruct (access_type _); [by apply mov_to_cr_inv | by apply clts_inv | by apply lmsw_inv | done].
  - intros s1 H1. apply inv_on_core; [done | by split | exact (inv_quiet s1 H1)].
Qed.

(** *** EPT violations *)

Lemma resolve_field_inv s f rip rsp : machine_inv s -> invariantly fst (resolve_data_field supported env s f rip rsp).
Proof.
  intros H. assert (forall x : Z, invariantly fst (Ok (s, x))) as Hs by (intros x; exact H).
  destruct f; cbn [resolve_data_field trace_gpr]; try apply Hs. destruct (rsp =? 0); [apply Hs |].
  eapply inv_bind; [apply read_current_ensures; [done | auto with still | cbn; lia] |].
  intros [[v buf] k] (Ha & _). by apply inv_accessed.
Qed.

Lemma resolve_fields_inv s cfg rip rsp : machine_inv s -> invariantly fst (resolve_data_fields supported env s cfg rip rsp).
Proof.
  revert s. induction cfg as [| f cfg IH]; intros s H; [exact H |]. cbn [resolve_data_fields].
  eapply inv_bind; [by apply resolve_field_inv |]. intros [s1 x] H1. eapply inv_bind; [by apply IH |].
  by intros [s2 l] H2.
Qed.

Lemma trace_transition_inv s : machine_inv s -> invariantly id (trace_transition supported env s).
Proof.
  intros H. unfold trace_transition. eapply inv_bind; [by apply resolve_fields_inv |].
  intros [s1 data] H1. cbn [fst] in H1.
  apply (inv_trace s1 (fun v => emit _ _ _ _ _ _ _ _ _ _)); [done |]. intros Hw. by apply emit_ok.
Qed.

Lemma current_inv s : machine_inv s -> ept_inv (current_ept_pages (core s)).
Proof. intros H. pose proof (mi_core s H) as [[Hn Ht _ _ _ _ _] _]. unfold current_ept_pages. by destruct (in_normal_execution _). Qed.

Lemma inv_set_current s p : machine_inv s -> ept_inv p -> machine_inv (s <| core := set_current_ept_pages (core s) p |>).
Proof.
  intros [[[] Hq] Hn Ht Hl] Hp. split; try done.
  unfold set_current_ept_pages. cbn [core set]. destruct (in_normal_execution (core s)) eqn:E; (split; [split |]); try done; cbn; by rewrite E in *.
Qed.

Lemma ept_violation_inv s : machine_inv s -> invariantly id (handle_ept_violation supported env s).
Proof.
  intros H. unfold handle_ept_violation. set (fr := Z.shiftr _ 12). set (ex := execute_violation _).
  assert (invariantly id (if negb ex then Crash
    else if in_normal_execution (core s) then Ok (on_core s (fun v => switch_eptp supported v false))
    else trace_transition supported env (on_core s (fun v => switch_eptp supported v true)))) as Hsw.
  { destruct (negb ex); [done |]. destruct (in_normal_execution _); [by apply inv_switch_eptp |]. by apply trace_transition_inv, inv_switch_eptp. }
  destruct (get_hook_by_orig_pfn (current_ept_pages (core s)) fr) as [[orig hook [pte |]] |] eqn:E; [| exact Hsw | exact Hsw].
  pose proof (List.find_some _ _ E) as [Hin _].
  destruct (switch_view_inv _ _ pte ex (current_inv s H) Hin eq_refl) as (p' & -> & Hp & _). cbn [obind].
  by apply inv_invept, inv_set_current.
Qed.

Lemma preemption_timer_inv s : machine_inv s -> machine_inv (handle_preemption_timer supported s).
Proof.
  intros H. apply inv_on_core; [done | | exact (inv_quiet s H)]. cbv zeta. set (v1 := _ <| stealth := _ |>).
  apply (still_trans _ _ v1); [by split |].
  apply (still_trans _ _ (with_vmcs v1 (fun m => vmwrite supported m VMCS_CTRL_TSC_OFFSET 0))); [apply still_vmcs, keeps_vmwrite; discriminate |].
  eapply still_trans; [apply still_vmcs, keeps_no_timer |]. by split.
Qed.

(** ** The handler *)

Abbreviation dispatch' := (dispatch supported pfn_of_pd env (handle_hypercall supported env)).

Lemma dispatch_inv s r : machine_inv s -> registers_ok s -> invariantly id (dispatch' s r).
Proof.
  intros H Hr. destruct r; cbn [dispatch];
    first [ by apply inv_inject_ud | by apply cpuid_inv | by apply invd_inv | by apply rdmsr_inv | by apply wrmsr_inv
          | by apply xsetbv_inv | by apply nmi_window_inv | by apply nmi_inv | by apply vmcall_inv | by apply ept_violation_inv
          | by apply preemption_timer_inv | by apply cr_access_inv | done ].
Qed.

Lemma handler_inv s :
  machine_inv s -> registers_ok s -> invariantly fst (handler supported pfn_of_pd env (handle_hypercall supported env) s).
Proof.
  intros H Hr. unfold handler.
  assert (machine_inv (on_core s (fun v => v <| stealth := on_vmexit (stealth v) |>))) as H1
    by (apply inv_on_core; [done | by split | exact (inv_quiet s H)]).
  set (s1 := on_core s _) in *. set (reason := vmx_vmread _ _ _). clearbody reason.
  pose proof (inv_vmcs s1 _ H1 (keeps_clear supported)) as H2. set (s2 := on_core s1 _) in *.
  destruct (vm_entry_failure reason); [done |]. eapply inv_bind; [by apply (dispatch_inv s2) |].
  intros s3 H3. change (machine_inv s3) in H3. set (hide := _ && bench_completed _).
  destruct (hide && negb _); [| exact H3]. cbn [ensures invariantly fst].
  apply inv_on_core; [done | | exact (inv_quiet s3 H3)]. eapply still_trans; [apply still_vmcs, keeps_timer |]. by split.
Qed.

(** (C15) An exit of a core whose tables, buffers and EPT pointer are well formed leaves them
    so, with no exception pending, whatever the reason of the exit is and whatever the
    registers, the memory, the MSRs and the rest of the VMCS hold; the trace buffers of
    the other cores and the logger stay well formed, too. *)
Theorem exit_keeps_invariant s s' hide (Hinv : machine_inv s) (Hregs : registers_ok s)
    (Hexit : handler supported pfn_of_pd env (handle_hypercall supported env) s = Ok (s', hide)) :
  machine_inv s'.
Proof. pose proof (handler_inv s Hinv Hregs) as H. unfold invariantly in H. by rewrite Hexit in H. Qed.
End exits.

(** ** All cores *)

Section system.
Context {ia32 : Ia32} {mtrr_layout : MtrrLayout} {exit_layout : ExitLayout} `{!Ia32Ok ia32}.
Variable supported : vmcs_field -> bool.
Variable pfn_of_pd : nat -> bool -> Z -> Z.
(** The number of cores. *)
Variable processors : nat.
Hypothesis eptp_supported : supported VMCS_CTRL_EPT_POINTER = true.

(** A copy that faults has copied no more than was asked for. *)
Definition faults_within (env : environment) : Prop :=
  forall a k j vec code, env_copy_fault env a k = Some (j, vec, code) -> 0 <= j <= k.

(** What a guest may change until its next exit: the registers, the VMCS but for the EPT
    pointer, the memory and the MSRs. *)
Definition guest_moved (s : machine) (g : gprs) (f : vmcs) (m : mem) (r : Z -> Z) : machine :=
  mk_machine ((core s) <| guest_context := g |> <| vcpu_vmcs := f |>) m r (invepts s) (shared s).

(** A guest runs on a core until it exits, and the handler runs to its end; [env] is what the
    processor answers to the handler. *)
Inductive system_step (s : system) : system -> Prop :=
  | guest_exits cpu g f m r env s1 hide
      (Hcpu : (cpu < processors)%nat)
      (Hregs : forall q, is_u64 (g q))
      (Hfields : vmx_vmread supported f VMCS_CTRL_EPT_POINTER = vmx_vmread supported (vcpu_vmcs (cores s cpu)) VMCS_CTRL_EPT_POINTER)
      (Henv : faults_within env)
      (Hexit : handler supported (pfn_of_pd cpu) env (handle_hypercall supported env) (guest_moved (enter s cpu) g f m r) = Ok (s1, hide)) :
      system_step s (leave s cpu s1).

Record system_inv (s : system) : Prop := {
  system_cores : forall c, (c < processors)%nat -> virtualized s c = true /\ core_inv supported (cores s c);
  system_count : vcpu_count (g_hv s) = Z.of_nat processors;
  system_logger : logger_ok (logger (g_hv s))
}.

Lemma enter_inv s cpu : system_inv s -> (cpu < processors)%nat -> machine_inv supported (Z.of_nat processors) (enter s cpu).
Proof.
  intros [Hc Hn Hl] Hcpu. split; [apply (Hc cpu Hcpu) | done | | done].
  intros c Hr. cbn. apply (Hc (Z.to_nat c)). lia.
Qed.

Lemma guest_moved_inv n s g f m r :
  machine_inv supported n s ->
  vmx_vmread supported f VMCS_CTRL_EPT_POINTER = vmx_vmread supported (vcpu_vmcs (core s)) VMCS_CTRL_EPT_POINTER ->
  machine_inv supported n (guest_moved s g f m r).
Proof. intros [Hc Hn Ht Hl] Hf. split; try done. apply (still_inv supported (core s)); [by split | apply Hc | done]. Qed.

Lemma leave_inv s cpu s1 :
  system_inv s -> machine_inv supported (Z.of_nat processors) s1 -> system_inv (leave s cpu s1).
Proof.
  intros [Hc Hn Hl] [Hc1 Hn1 Ht1 Hl1]. split; [| exact Hn1 | exact Hl1].
  intros c Hr. destruct (Hc c Hr) as [Hv [Hw Hq]]. split; [done |]. cbn. case_decide; [done |].
  split; [| exact Hq]. destruct Hw. split; try done. apply Ht1. lia.
Qed.

(** What a tracing session on all cores asks of the system (auto_trace_session_everywhere of
    System.v), which can so be opened at any time after the start. *)
Lemma system_traceable s c :
  system_inv s -> (c < processors)%nat -> virtualized s c = true /\ tables_inv (enter s c).
Proof. intros Hs Hc. destruct (system_cores s Hs c Hc) as [Hv [[Hno Hta _ _ _ _ _] _]]. by split. Qed.

Lemma step_inv s s' : system_inv s -> system_step s s' -> system_inv s'.
Proof.
  intros Hs [cpu g f m r env s1 hide Hcpu Hregs Hfields Henv Hexit]. apply leave_inv; [done |].
  pose proof (handler_inv supported (pfn_of_pd cpu) env (Z.of_nat processors) eptp_supported Henv (guest_moved (enter s cpu) g f m r)) as H.
  unfold invariantly in H. rewrite Hexit in H. apply H; [| exact Hregs].
  apply guest_moved_inv; [by apply enter_inv | exact Hfields].
Qed.

Lemma runs_inv s s' : system_inv s -> rtc system_step s s' -> system_inv s'.
Proof. intros Hs Hr. induction Hr; [done |]. apply IHHr. by apply (step_inv x). Qed.

(** *** From the start on *)

(** The system when the hypervisor has started. *)
Definition started (cores' : nat -> core_state) (m : mem) (hv : hypervisor) : system :=
  mk_system (fun i => this (cores' i)) (fun i => launched (cores' i)) m (fun i => readmsr (proc (cores' i))) (fun _ => 0%nat) hv.

Lemma fresh_core_inv i addr cr3 env s s' :
  capable supported addr cr3 env (proc s) -> (forall normal, frames_ok (pfn_of_split_pt addr normal)) ->
  virtualize supported addr cr3 env (fresh i s) = (s', true) -> launched s' = true /\ core_inv supported (this s').
Proof.
  intros Hc Hf E. pose proof (virtualize_true supported addr cr3 env _ s' E) as Hv.
  pose proof (virtualized_ready i addr _ s' Hv eq_refl Hf) as [Hl [Hn _] [Ht _] Hex [Htr _] Hq _ _ _].
  split; [done |]. split; [| done].
  destruct (virtualized_eptps _ _ _ Hv) as [E1 E2]. split; try done.
  - rewrite (virtualized_trace _ _ _ Hv). vm_compute. intuition discriminate.
  - apply Htr.
  - rewrite (virtualized_buffer _ _ _ Hv). apply repeat_length.
  - rewrite E1, E2. split; apply make_eptp_u64.
  - rewrite Hex. by apply (virtualized_eptp supported addr cr3 env (fresh i s)).
Qed.

Lemma started_inv addr env pool maps cores cores' m hv
    (Hcapable : forall i, (i < processors)%nat -> capable supported (addr i) (readcr3 (proc (cores 0%nat))) (env i) (proc (cores i)))
    (Hframes : forall i normal, (i < processors)%nat -> frames_ok (pfn_of_split_pt (addr i) normal))
    (Hstart : start supported addr env processors pool maps cores = (cores', true))
    (Hcount : vcpu_count hv = Z.of_nat processors) (Hlogger : logger_ok (logger hv)) :
  system_inv (started cores' m hv).
Proof.
  split; [| done | done]. intros i Hi. cbn.
  apply (fresh_core_inv i (addr i) (readcr3 (proc (cores 0%nat))) (env i) (cores i)); [by apply Hcapable | intros b; by apply Hframes |].
  exact (start_virtualizes supported addr env processors pool maps cores cores' Hstart i Hi).
Qed.

(** (C14) Once the hypervisor has started on processors that can be virtualised, every system that any
    sequence of exits of its cores reaches has all cores virtualised, with well-formed page
    tables, hooks, configurations and trace buffers, no pending exception and the EPT pointer
    of the table in use, whatever the guests do between the exits. *)
Theorem reachable_systems_are_well_formed addr env pool maps cores cores' m hv s
    (Hcapable : forall i, (i < processors)%nat -> capable supported (addr i) (readcr3 (proc (cores 0%nat))) (env i) (proc (cores i)))
    (Hframes : forall i normal, (i < processors)%nat -> frames_ok (pfn_of_split_pt (addr i) normal))
    (Hstart : start supported addr env processors pool maps cores = (cores', true))
    (Hcount : vcpu_count hv = Z.of_nat processors) (Hlogger : logger_ok (logger hv))
    (Hruns : rtc system_step (started cores' m hv) s) :
  system_inv s.
Proof. apply (runs_inv (started cores' m hv)); [| done]. by apply (started_inv addr env pool maps cores). Qed.
End system.

(** *** Examples *)

(** A core on the identity map, at an RDMSR of an MSR that does not exist. *)
Definition rdmsr_core : vcpu :=
  ((((zero_vcpu <| ept_pages_normal := identity_pages |>) <| ept_pages_target := identity_pages |>)
    <| trace_buffer := zero_ring |>) <| guest_context := <[rcx := 0x1234]> (fun _ => 0) |>)
    <| vcpu_vmcs := sample_fields [(VMCS_EXIT_REASON, 0x1F); (VMCS_GUEST_RIP, 0x1000)] |>.

Lemma exit_keeps_invariant_witness :
  match handler (fun _ => true) (fun _ _ => 0) sample_env (handle_hypercall (fun _ => true) sample_env)
      (sample_machine rdmsr_core (fun _ => 0)) with
  | Ok (s', _) =>
      machine_inv (fun _ => true) 0 s' /\
      vmx_vmread (fun _ => true) (vcpu_vmcs (core s')) VMCS_CTRL_VMENTRY_INTERRUPTION_INFORMATION_FIELD = 0x80000B0D
  | _ => False
  end.
Proof.
  assert (match handler (fun _ => true) (fun _ _ => 0) sample_env (handle_hypercall (fun _ => true) sample_env)
      (sample_machine rdmsr_core (fun _ => 0)) with
    | Ok (s', _) => vmx_vmread (fun _ => true) (vcpu_vmcs (core s')) VMCS_CTRL_VMENTRY_INTERRUPTION_INFORMATION_FIELD
    | _ => 0 end = 0x80000B0D) as Hi by (vm_compute; reflexivity).
  destruct (handler _ _ _ _ _) as [[s' hide] | |] eqn:E; [| discriminate Hi ..]. split; [| exact Hi].
  apply (exit_keeps_invariant (fun _ => true) (fun _ _ => 0) sample_env 0 eq_refl ltac:(discriminate)
    (sample_machine rdmsr_core (fun _ => 0)) s' hide); [| | exact E].
  - split; [| reflexivity | intros c Hc; lia | apply zero_logger_ok].
    split; [split | reflexivity]; try apply identity_inv; try (vm_compute; intuition discriminate).
  - intros q. destruct q; vm_compute; intuition discriminate.
Defined.

Definition two_core_hypervisor : hypervisor := zero_hypervisor <| vcpu_count := 2 |>.

Lemma reachable_systems_are_well_formed_witness :
  exists cores', start (fun _ => true) (fun _ => sample_addresses) (fun _ => vmx_env) 2 true true (fun _ => vmx_core) =
      (cores', true) /\
    virtualized (started cores' (fun _ => 0) two_core_hypervisor) 1 = true /\
    core_inv (fun _ => true) (this (cores' 1%nat)).
Proof.
  destruct (start_succeeds (fun _ => true) (fun _ => sample_addresses) (fun _ => vmx_env) 2 (fun _ => vmx_core))
    as (cores' & E).
  { intros i _. apply vmx_cpu_capable. }
  exists cores'. split; [exact E |].
  apply (system_cores (fun _ => true) 2 _ (reachable_systems_are_well_formed (fun _ => true) (fun _ _ _ => 0) 2 eq_refl
    (fun _ => sample_addresses) (fun _ => vmx_env) true true (fun _ => vmx_core) cores' (fun _ => 0)
    two_core_hypervisor _ (fun i _ => vmx_cpu_capable _)
    (fun i normal _ => sample_frames_ok normal) E eq_refl zero_logger_ok (rtc_refl _ _)) 1%nat).
  lia.
Defined.
