(* ===== verification/HookCode.v ===== *)
(** * The jump of a hook: [write_absolute_jmp] of [revhv-km/hooks.cpp]

    The fourteen bytes that the driver writes over the start of a hooked function, and what a
    processor does that meets them. *)
From Stdlib Require Import ZArith Lia String Ascii List Bool.
From stdpp Require Import base numbers list option functions.
From S2P Require Import Prelude Ia32 Memory Vmcs Vcpu Asm.

Definition absolute_jump_size : Z := 14.

(** The halves of an address. *)
Definition low32 (target_address : Z) : Z := u32 target_address.
Definition high32 (target_address : Z) : Z := u32 (Z.shiftr target_address 32).

(** The bytes that [write_absolute_jmp] writes: PUSH imm32; MOV dword ptr [RSP+4], imm32;
    RET. *)
Definition absolute_jmp (target_address : Z) : list Z :=
  [0x68] ++ le_split 4 (low32 target_address) ++ le_split 4 0x042444C7 ++
  le_split 4 (high32 target_address) ++ [0xC3].

(** The three encodings that a processor meets in the bytes of [absolute_jmp]: the
    instruction at [rip] with its effect on the stack, and the next [rip]. *)
Definition code_step (code : mem) (rip : Z) (s : state) : option (Z * state) :=
  let byte i := code (rip +64 i) in
  let imm32 i := le_combine [byte i; byte (i + 1); byte (i + 2); byte (i + 3)] in
  if byte 0 =? 0x68 then Some (rip +64 5, push s (u64 (s32 (imm32 1))))
  else if (byte 0 =? 0xC7) && (byte 1 =? 0x44) && (byte 2 =? 0x24) && (byte 3 =? 4) then
    Some (rip +64 8, put_mem s 4 (sp s +64 4) (imm32 4))
  else if byte 0 =? 0xC3 then Some (top s, drop_top s)
  else None.
Fixpoint code_steps (n : nat) (code : mem) (rip : Z) (s : state) : option (Z * state) :=
  match n with
  | O => Some (rip, s)
  | S n => match code_step code rip s with Some (rip, s) => code_steps n code rip s | None => None end
  end.

Lemma le_combine_app l l' : le_combine (l ++ l') = le_combine l + 256 ^ Z.of_nat (length l) * le_combine l'.
Proof.
  induction l as [| b l IH]; [cbn; lia |]. cbn [app le_combine length]. rewrite IH, Nat2Z.inj_succ, Z.pow_succ_r by lia. lia.
Qed.

Lemma read_n_halves m a : read_n 8 m a = read_n 4 m a + 2 ^ 32 * read_n 4 m (a + 4).
Proof.
  unfold read_n. change (Z.of_nat 8) with (4 + 4). change (Z.of_nat 4) with 4.
  by rewrite load_app, le_combine_app, load_length by lia.
Qed.

Lemma le_split_app n k v : le_split (n + k) v = le_split n v ++ le_split k (v / 256 ^ Z.of_nat n).
Proof.
  revert v. induction n as [| n IH]; intros v; [cbn; by rewrite Z.div_1_r |].
  cbn [le_split app Nat.add]. by rewrite IH, Nat2Z.inj_succ, Z.pow_succ_r, Z.div_div by lia.
Qed.

Lemma le_combine_mod n v : le_combine (le_split n v) = v mod 256 ^ Z.of_nat n.
Proof.
  revert v. induction n as [| n IH]; intros v; [cbn; by rewrite Z.mod_1_r |].
  cbn [le_split le_combine]. rewrite IH, Nat2Z.inj_succ, Z.pow_succ_r, Z.rem_mul_r by lia. lia.
Qed.

(** The low half of a quadword. *)
Lemma read_4_write_8 m a v : read_n 4 (write_n 8 m a v) a = v mod 2 ^ 32.
Proof.
  unfold read_n, write_n. change 8%nat with (4 + 4)%nat. rewrite le_split_app.
  rewrite (load_ext _ (store m a (le_split 4 v)) a a).
  - rewrite load_store_same by (by rewrite le_split_length). apply le_combine_mod.
  - intros i Hi. rewrite store_app, store_out; [done |]. rewrite le_split_length. lia.
Qed.

(** A PUSH of the low half and a store of the high half over its sign make the address. *)
Lemma pushed_address m a t :
  is_u64 t -> read_n 8 (write_n 4 (write_n 8 m a (u64 (s32 (low32 t)))) (a + 4) (high32 t)) a = t.
Proof.
  intros Ht. rewrite read_n_halves, (read_n_same 4) by apply (wrap_range 32 _ ltac:(lia)).
  rewrite read_n_other by lia. rewrite read_4_write_8.
  assert (u64 (s32 (low32 t)) mod 2 ^ 32 = low32 t) as ->.
  { unfold signed, low32. rewrite wrap_wrap by lia. pose proof (wrap_range 32 t ltac:(lia)).
    unfold wrap at 1. rewrite <- Znumtheory.Zmod_div_mod by (lia || by exists (2 ^ 32)).
    destruct (_ <? _); [by apply Z.mod_small |]. replace (wrap 32 t - 2 ^ 32) with (wrap 32 t + -1 * 2 ^ 32) by lia.
    rewrite Z.mod_add by lia. by apply Z.mod_small. }
  unfold low32, high32, wrap, is_u64 in *. rewrite Z.shiftr_div_pow2 by lia.
  assert (0 <= t / 2 ^ 32 < 2 ^ 32) by (split; [apply Z.div_pos; lia | apply Z.div_lt_upper_bound; lia]).
  rewrite (Z.mod_small (t / 2 ^ 32)) by lia. pose proof (Z.div_mod t (2 ^ 32)). lia.
Qed.

Lemma add64_add64 a x y : (a +64 x) +64 y = a +64 (x + y).
Proof. unfold add64. rewrite wrap_add_l. f_equal. lia. Qed.

Lemma absolute_jmp_length t : length (absolute_jmp t) = 14%nat.
Proof. done. Qed.

(** The bytes that the four of a number are read back from. *)
Lemma imm32_combine v : 0 <= v < 2 ^ 32 -> le_combine (le_split 4 v) = v.
Proof. intros Hv. by apply le_combine_split. Qed.

(** The bytes [bs] from [a] on. *)
Definition code_at (code : mem) (a : Z) (bs : list Z) : Prop :=
  forall i, 0 <= i < Z.of_nat (length bs) -> code (a +64 i) = nth (Z.to_nat i) bs 0.

Lemma code_at_app code a bs bs' :
  code_at code a (bs ++ bs') -> code_at code a bs /\ code_at code (a +64 Z.of_nat (length bs)) bs'.
Proof.
  intros H. split; intros i Hi.
  - rewrite H by (rewrite length_app; lia). apply app_nth1. lia.
  - rewrite add64_add64, H by (rewrite length_app; lia). rewrite app_nth2 by lia. f_equal. lia.
Qed.

(** Immediates. *)
Lemma code_imm32 code a k v pre :
  0 <= v < 2 ^ 32 -> code_at code a (pre ++ le_split 4 v) -> k = Z.of_nat (length pre) ->
  le_combine [code (a +64 k); code (a +64 (k + 1)); code (a +64 (k + 2)); code (a +64 (k + 3))] = v.
Proof.
  intros Hv H ->. apply code_at_app in H as [_ H]. transitivity (le_combine (le_split 4 v)); [f_equal | by apply imm32_combine].
  rewrite <- !add64_add64. pose proof (H 0) as H0. rewrite add64_add64, Z.add_0_r in H0.
  rewrite H0, !H by (rewrite le_split_length; lia). done.
Qed.

Lemma code_step_push code a s v :
  0 <= v < 2 ^ 32 -> code_at code a (0x68 :: le_split 4 v) ->
  code_step code a s = Some (a +64 5, push s (u64 (s32 v))).
Proof.
  intros Hv H. unfold code_step. rewrite (code_imm32 code a 1 v [0x68] Hv H eq_refl).
  rewrite (H 0) by (cbn [length]; lia). done.
Qed.

Lemma code_step_store code a s v :
  0 <= v < 2 ^ 32 -> code_at code a ([0xC7; 0x44; 0x24; 4] ++ le_split 4 v) ->
  code_step code a s = Some (a +64 8, put_mem s 4 (sp s +64 4) v).
Proof.
  intros Hv H. unfold code_step. rewrite (code_imm32 code a 4 v [0xC7; 0x44; 0x24; 4] Hv H eq_refl).
  rewrite !H by (rewrite length_app, le_split_length; cbn [length]; lia). done.
Qed.

Lemma code_step_ret code a s : code_at code a [0xC3] -> code_step code a s = Some (top s, drop_top s).
Proof. intros H. unfold code_step. rewrite (H 0) by (cbn [length]; lia). done. Qed.

(** The stack of a PUSH, a store at offset 4 and a RET. *)
Lemma stack_after s lo hi :
  8 <= sp s < 2 ^ 64 ->
  let s2 := put_mem (push s lo) 4 (sp (push s lo) +64 4) hi in
  let m := write_n 4 (write_n 8 (memory s) (sp s - 8) lo) (sp s - 8 + 4) hi in
  top s2 = read_n 8 m (sp s - 8) /\ drop_top s2 = s <| memory := m |>.
Proof.
  intros Hsp. destruct s as [g a f m0 c x mx fb v l]. cbn [Asm.sp] in Hsp.
  unfold drop_top, top, put_mem, push, set. cbn -[write_n read_n add64 sub64 Z.add Z.sub].
  rewrite (sub64_eq a 8 _ eq_refl) by (unfold is_u64; lia). rewrite (add64_eq _ 4 _ eq_refl) by (unfold is_u64; lia).
  by rewrite (add64_eq _ 8 _ (Z.sub_add _ _)) by (unfold is_u64; lia).
Qed.

(** A processor that meets the bytes of the jump at [a] goes on at the target with all its
    registers, the stack pointer among them, as they were; only the quadword below the
    stack is overwritten. *)
Lemma absolute_jmp_steps code a t s :
  is_u64 t -> 8 <= sp s < 2 ^ 64 -> code_at code a (absolute_jmp t) ->
  exists m, code_steps 3 code a s = Some (t, s <| memory := m |>) /\
    forall x, x < sp s - 8 \/ sp s <= x -> m x = memory s x.
Proof.
  intros Ht Hsp Hcode.
  assert (0 <= low32 t < 2 ^ 32 /\ 0 <= high32 t < 2 ^ 32) as [Hlo Hhi] by (split; apply wrap_range; lia).
  change (absolute_jmp t) with
    ((0x68 :: le_split 4 (low32 t)) ++ ([0xC7; 0x44; 0x24; 4] ++ le_split 4 (high32 t)) ++ [0xC3]) in Hcode.
  apply code_at_app in Hcode as [H1 Hcode]. apply code_at_app in Hcode as [H2 H3].
  rewrite add64_add64 in H3. unfold code_steps.
  rewrite (code_step_push _ _ _ _ Hlo H1), (code_step_store _ _ _ _ Hhi H2), add64_add64, (code_step_ret _ _ _ H3).
  destruct (stack_after s (u64 (s32 (low32 t))) (high32 t) Hsp) as [-> ->]. rewrite pushed_address by done.
  eexists. split; [reflexivity |]. intros x Hx. by rewrite !write_n_out by lia.
Qed.
