(* ===== verification/Hooks.v ===== *)
(** * Hooks of the system image loader: [revhv-km/hooks.cpp], [get_image_size] of
    [revhv-km/pe.cpp]

    After the start the driver hooks MmLoadSystemImage with a second copy of its page, in
    which a jump leads to [hk_mm_load_system_image]. That routine starts a trace when the
    driver that a user asked for is loaded. Kernel memory is read and written through
    [physical], MmGetPhysicalAddress; the disassembler and what the kernel answers are
    arguments. Messages to the log are not modelled. *)
From Stdlib Require Import ZArith Lia String Ascii List Bool.
From stdpp Require Import base numbers list option functions.
From S2P Require Import Prelude Ia32 Memory Mtrr Paging Trace TransitionCfg Ept Vmcs Vcpu Asm HookCode.
From S2P Require Import Introspection Logging Hv VmExit Hypercall System.

(** ** Names *)

Definition to_lower_ascii (c : Z) : Z := if (chr "A" <=? c) && (c <=? chr "Z") then c + (chr "a" - chr "A") else c.

(** [names_match_nocase] on the bytes of two buffers; [None] for a read behind one. *)
Fixpoint names_match_nocase (a b : list Z) : option bool :=
  match a, b with
  | ca :: a, cb :: b =>
      if (ca =? 0) || (cb =? 0) then Some (ca =? cb)
      else if to_lower_ascii ca =? to_lower_ascii cb then names_match_nocase a b
      else Some false
  | _, _ => None
  end.

(** The index of the last backslash in the first [n] bytes, or -1. *)
Fixpoint separator_index (name : list Z) (n : nat) : Z :=
  match n with
  | O => -1
  | S i => if nth i name 0 =? 92 then Z.of_nat i else separator_index name i
  end.

Definition image_name_size : Z := 512.

(** [image_name]: the part of the name behind the last backslash, in a cleared buffer. *)
Definition image_name (ansi_name : list Z) : list Z :=
  let basename_offset := u16 (separator_index ansi_name (length ansi_name) + 1) in
  let basename_length := u16 (Z.of_nat (length ansi_name) - basename_offset) in
  overlay (repeat 0 (Z.to_nat image_name_size)) 0 (slice ansi_name basename_offset basename_length).

(** ** Lemmas on names *)

Lemma lower_zero c : c <> 0 -> to_lower_ascii c <> 0.
Proof. intros Hc. unfold to_lower_ascii. change (chr "A") with 65. destruct (_ && _) eqn:E; [| done]. change (chr "a") with 97. lia. Qed.

(** The comparison of two C strings that ignores the case of letters; the second must be
    terminated, and the first buffer may be a longer one without a terminator. *)
Lemma names_match_iff a b :
  In 0 b -> (length b <= length a)%nat ->
  exists r, names_match_nocase a b = Some r /\
    (r = true <-> map to_lower_ascii (cstr a) = map to_lower_ascii (cstr b)).
Proof.
  revert a. induction b as [| cb b IH]; intros a Hin Hl; [destruct Hin |].
  destruct a as [| ca a]; [cbn in Hl; lia |]. cbn [names_match_nocase cstr length] in *.
  destruct (Z.eqb_spec ca 0) as [-> | Ha], (Z.eqb_spec cb 0) as [-> | Hb]; cbn [orb].
  - by exists true.
  - exists false. split; [by destruct (Z.eqb_spec 0 cb) |]. by split.
  - exists false. split; [by destruct (Z.eqb_spec ca 0) |]. by split.
  - destruct (Z.eqb_spec (to_lower_ascii ca) (to_lower_ascii cb)) as [E | E].
    + destruct Hin as [H0 | Hin]; [by subst |]. destruct (IH a Hin ltac:(lia)) as (r & -> & Hr).
      exists r. split; [done |]. cbn [map]. rewrite Hr, E. split; [by intros -> | by intros [=]].
    + exists false. split; [done |]. cbn [map]. by split; [| intros [=]].
Qed.

Lemma separator_last dir base :
  Forall (fun c => c <> 92) base ->
  separator_index (dir ++ 92 :: base) (length (dir ++ 92 :: base)) = Z.of_nat (length dir).
Proof.
  intros Hb. rewrite length_app. cbn [length]. rewrite <- plus_n_Sm.
  assert (forall n, (n <= length base)%nat ->
    separator_index (dir ++ 92 :: base) (S (length dir + n)) = Z.of_nat (length dir)) as H.
  { induction n as [| n IH]; intros Hn; cbn [separator_index].
    - rewrite Nat.add_0_r, app_nth2, Nat.sub_diag by lia. done.
    - rewrite app_nth2 by lia. replace (length dir + S n - length dir)%nat with (S n) by lia. cbn [nth].
      rewrite List.Forall_forall in Hb. destruct (Z.eqb_spec (nth n base 0) 92) as [E |].
      + exfalso. apply (Hb 92); [| done]. rewrite <- E. apply nth_In. lia.
      + rewrite <- plus_n_Sm. apply IH. lia. }
  by apply H.
Qed.

Lemma separator_none base n :
  (n <= length base)%nat -> Forall (fun c => c <> 92) base -> separator_index base n = -1.
Proof.
  intros Hn Hb. induction n as [| n IH]; [done |]. cbn [separator_index].
  rewrite List.Forall_forall in Hb. destruct (Z.eqb_spec (nth n base 0) 92) as [E |]; [| apply IH; lia].
  exfalso. apply (Hb 92); [| done]. rewrite <- E. apply nth_In. lia.
Qed.

(** A path: nothing, or a directory with its backslash. *)
Inductive directory : list Z -> Prop :=
  | no_directory : directory []
  | directory_of dir : directory (dir ++ [92]).

Lemma image_name_of dir base :
  directory dir -> Forall (fun c => c <> 92) base -> (length (dir ++ base) <= 512)%nat ->
  image_name (dir ++ base) = base ++ repeat 0 (512 - length base).
Proof.
  intros Hd Hb Hl. unfold image_name.
  assert (separator_index (dir ++ base) (length (dir ++ base)) + 1 = Z.of_nat (length dir)) as ->.
  { destruct Hd as [| dir]; [by rewrite separator_none |]. rewrite <- app_assoc. cbn [app].
    rewrite separator_last by done. rewrite length_app. cbn [length]. lia. }
  rewrite length_app in *. rewrite (wrap_small 16 (Z.of_nat (length dir))) by lia.
  replace (Z.of_nat (length dir + length base) - Z.of_nat (length dir)) with (Z.of_nat (length base)) by lia.
  rewrite wrap_small by lia. unfold slice, overlay. rewrite !Nat2Z.id, drop_app_length, firstn_all.
  change (Z.to_nat 0) with 0%nat. rewrite take_0. cbn [app Nat.add]. f_equal. change (Z.to_nat image_name_size) with 512%nat.
  generalize (length base), 512%nat. induction n as [| n IH]; intros k; [by rewrite drop_0, Nat.sub_0_r |]. destruct k; [done | apply IH].
Qed.

Lemma image_name_length ansi : (length ansi <= 512)%nat -> length (image_name ansi) = 512%nat.
Proof.
  intros Hl. unfold image_name. rewrite overlay_length; [apply repeat_length | lia |]. rewrite repeat_length.
  unfold slice. rewrite length_take, length_drop. change (Z.to_nat image_name_size) with 512%nat. lia.
Qed.

Lemma cstr_zeros l k : cstr (l ++ repeat 0 k) = cstr l.
Proof.
  induction l as [| c l IH]; cbn [app cstr]; [by destruct k |]. destruct (c =? 0); [done |]. by rewrite IH.
Qed.

(** ** The hooks *)

Definition page_size : Z := 0x1000.

Section hooks.
Context {ia32 : Ia32} {mtrr_layout : MtrrLayout} {exit_layout : ExitLayout}.
Variable supported : vmcs_field -> bool.
Variable env : nat -> environment.
Variable processors : nat.
(** MmGetPhysicalAddress. *)
Variable physical : Z -> Z.
(** ZydisDecoderDecodeInstruction: the length of the instruction at an address, given the
    bytes that may be read; [None] when there is none. *)
Variable decode : mem -> Z -> Z -> option Z.

(** Kernel memory at virtual addresses. *)
Definition kernel_memory (m : mem) : mem := fun va => m (physical va).
Fixpoint kernel_store (m : mem) (va : Z) (bs : list Z) : mem :=
  match bs with
  | [] => m
  | b :: bs => kernel_store (<[physical va := b]> m) (va +64 1) bs
  end.

Definition write_absolute_jmp (m : mem) (target_buffer target_address : Z) : mem :=
  let m := kernel_store m target_buffer [0x68] in
  let m := kernel_store m (target_buffer +64 1) (le_split 4 (low32 target_address)) in
  let m := kernel_store m (target_buffer +64 5) (le_split 4 0x042444C7) in
  let m := kernel_store m (target_buffer +64 9) (le_split 4 (high32 target_address)) in
  kernel_store m (target_buffer +64 13) [0xC3].

(** RtlCopyMemory. *)
Definition kernel_copy (m : mem) (dst src n : Z) : mem :=
  kernel_store m dst (map (fun i => kernel_memory m (src +64 i)) (seqZ 0 n)).

(** The loop over the instructions that the jump overwrites. Each has a byte at least, so
    that [absolute_jump_size] rounds are enough. *)
Fixpoint overwritten (fuel : nat) (m : mem) (target_function overwritten_size : Z) : outcome (option Z) :=
  if negb (overwritten_size <? absolute_jump_size) then Ok (Some overwritten_size) else
  match fuel with
  | O => Undefined
  | S fuel =>
      let offset_into_page := Z.land target_function 0xFFF in
      match decode (kernel_memory m) (target_function +64 overwritten_size)
              (u64 (page_size - (offset_into_page + overwritten_size) - 1)) with
      | Some instruction_length => overwritten fuel m target_function (overwritten_size +64 instruction_length)
      | None => Ok None
      end
  end.

(** [vmx_vmcall]: without a hypervisor on the core nobody handles the exception in the
    kernel. *)
Definition vmx_vmcall (cpu : nat) (n : hypercall_number) (arg1 arg2 : Z) (s : system) : outcome (Z * system) :=
  let! (r, s) := __vmcall supported env cpu n arg1 arg2 0 s in
  match r with Some returned => Ok (returned, s) | None => Crash end.

(** The call on every core, and whether all succeeded. *)
Definition on_each_cpu (n : hypercall_number) (arg1 arg2 : Z) (s : system) : outcome (system * bool) :=
  for_each_cpu processors (fun cpu '(s, success) =>
    let! (ret, s) := vmx_vmcall cpu n arg1 arg2 s in Ok (s, success && negb (ret =? 0))) (s, true).

(** What the kernel answers to [ept_hook]. *)
Record kernel := mk_kernel {
  irql : Z;
  decoder_ready : bool;
  trampoline_pool : option Z;
  exec_page_pool : option Z
}.

Definition set_memory (s : system) (m : mem) : system :=
  mk_system (cores s) (virtualized s) m (core_msrs s) (core_invepts s) (g_hv s).

(** [ept_hook]; the last component is what it stored in [*original_function]. *)
Definition ept_hook (k : kernel) (target_function hook_function : Z) (original_function : Z) (s : system)
    : outcome (system * bool * Z) :=
  if 0 <? irql k then Ok (s, false, original_function) else
  if negb (decoder_ready k) then Ok (s, false, original_function) else
  let offset_into_page := Z.land target_function 0xFFF in
  let! n := overwritten (Z.to_nat absolute_jump_size) (memory s) target_function 0 in
  match n with
  | None => Ok (s, false, original_function)
  | Some overwritten_size =>
      if page_size - 1 <? offset_into_page + overwritten_size then Ok (s, false, original_function) else
      match trampoline_pool k with
      | None => Ok (s, false, original_function)
      | Some trampoline =>
          let m := kernel_copy (memory s) trampoline target_function overwritten_size in
          let m := write_absolute_jmp m (trampoline +64 overwritten_size) (target_function +64 overwritten_size) in
          let s := set_memory s m in
          match exec_page_pool k with
          | None => Ok (s, false, trampoline)
          | Some exec_page =>
              let m := kernel_copy m exec_page (Z.land target_function (not64 0xFFF)) page_size in
              let m := write_absolute_jmp m (exec_page +64 offset_into_page) hook_function in
              let target_pfn := Z.shiftr (physical target_function) 12 in
              let hook_pfn := Z.shiftr (physical exec_page) 12 in
              let! (s, success) := on_each_cpu ept_hook_number target_pfn hook_pfn (set_memory s m) in
              Ok (s, success, trampoline)
          end
      end
  end.

(** ** The hooked routine *)

(** [get_image_size]. *)
Definition kernel_read (m : mem) (va n : Z) : Z :=
  le_combine (map (fun i => kernel_memory m (va +64 i)) (seqZ 0 n)).
Definition get_image_size (m : mem) (image_base : Z) : Z :=
  if negb (kernel_read m image_base 2 =? 0x5A4D) then 0 else
  let nt_header := image_base +64 s32 (kernel_read m (image_base +64 60) 4) in
  if negb (kernel_read m nt_header 4 =? 0x4550) then 0 else
  kernel_read m (nt_header +64 80) 4.

(** [NT_SUCCESS]. *)
Definition nt_success (status : Z) : bool := 0 <=? s32 status.

Definition set_onload (s : system) (t : onload_target_state) : system :=
  mk_system (cores s) (virtualized s) (memory s) (core_msrs s) (core_invepts s) ((g_hv s) <| onload_target := t |>).

(** The section under the lock: whether the image is the one that was asked for, which
    it then no longer is. *)
Definition take_onload_target (name : list Z) (s : system) : outcome (system * bool) :=
  let t := onload_target (g_hv s) in
  if onload_active t then
    match names_match_nocase name (onload_name t) with
    | Some true => Ok (set_onload s (t <| onload_active := false |>), true)
    | Some false => Ok (s, false)
    | None => Undefined
    end
  else Ok (s, false).

(** The trace of the image at [base], [*base] of the code or [None] when [base] is null;
    [at_success] is false also when the routine gives up before. *)
Definition trigger_onload (base : option Z) (s : system) : outcome (system * bool) :=
  match base with
  | None | Some 0 => Ok (s, false)
  | Some base =>
      let image_size := get_image_size (memory s) base in
      if image_size =? 0 then Ok (s, false)
      else on_each_cpu enable_auto_trace_number base image_size s
  end.

(** [hk_mm_load_system_image], after the original routine has returned [result] and has
    left the system as [s]; [ansi_name] is the name of the image as
    RtlUnicodeStringToAnsiString gives it. *)
Definition hk_mm_load_system_image (result : Z) (base : option Z) (ansi_name : option (list Z)) (s : system)
    : outcome (Z * system) :=
  if negb (nt_success result) then Ok (result, s) else
  match ansi_name with
  | None => Ok (result, s)
  | Some ansi_name =>
      if image_name_size <? Z.of_nat (length ansi_name) then Ok (result, s) else
      let! (s, trigger) := take_onload_target (image_name ansi_name) s in
      if negb trigger then Ok (result, s) else
      let! (s, at_success) := trigger_onload base s in
      Ok (result, s)
  end.

(** [install_mm_load_system_image_hook], and [initialize], which drops its result.
    [routine] is what MmGetSystemRoutineAddress gives for "MmLoadSystemImage". *)
Definition install_mm_load_system_image_hook (k : kernel) (routine : option Z) (hk original : Z) (s : system)
    : outcome (system * bool * Z) :=
  match routine with
  | None => Ok (s, false, original)
  | Some mm_load_system_image => ept_hook k mm_load_system_image hk original s
  end.
Definition initialize (k : kernel) (routine : option Z) (hk original : Z) (s : system) : outcome (system * Z) :=
  let! (s, _, original) := install_mm_load_system_image_hook k routine hk original s in Ok (s, original).

(** ** Kernel memory *)

(** A block of [n] bytes from [va] whose bytes are at different places. *)
Definition block (va n : Z) : Prop :=
  forall i j, 0 <= i < n -> 0 <= j < n -> physical (va +64 i) = physical (va +64 j) -> i = j.
(** A place in physical memory outside of the block. *)
Definition outside (va n x : Z) : Prop := forall i, 0 <= i < n -> physical (va +64 i) <> x.
Definition apart (va n va' n' : Z) : Prop := forall i, 0 <= i < n' -> outside va n (physical (va' +64 i)).

Lemma add64_0 a : is_u64 a -> a +64 0 = a.
Proof. intros H. unfold add64. rewrite Z.add_0_r. by apply wrap_small. Qed.
Lemma add64_u64 a x : is_u64 (a +64 x).
Proof. apply wrap_range. lia. Qed.

Lemma kernel_store_app m va bs bs' :
  is_u64 va -> kernel_store m va (bs ++ bs') = kernel_store (kernel_store m va bs) (va +64 Z.of_nat (length bs)) bs'.
Proof.
  revert m va. induction bs as [| b bs IH]; intros m va Hva; cbn [app kernel_store length]; [by rewrite add64_0 |].
  rewrite IH, add64_add64 by apply add64_u64. do 2 f_equal. lia.
Qed.

Lemma kernel_store_outside m va bs x :
  is_u64 va -> outside va (Z.of_nat (length bs)) x -> kernel_store m va bs x = m x.
Proof.
  revert m va. induction bs as [| b bs IH]; intros m va Hva Hx; cbn [kernel_store length] in *; [done |].
  rewrite IH; [| apply add64_u64 |].
  - apply fn_lookup_insert_ne. rewrite <- (add64_0 va) by done. apply Hx. lia.
  - intros i Hi. rewrite add64_add64. apply Hx. lia.
Qed.

Lemma kernel_store_at m va bs i :
  is_u64 va -> block va (Z.of_nat (length bs)) -> 0 <= i < Z.of_nat (length bs) ->
  kernel_memory (kernel_store m va bs) (va +64 i) = nth (Z.to_nat i) bs 0.
Proof.
  unfold kernel_memory. revert m va i. induction bs as [| b bs IH]; intros m va i Hva Hb Hi; cbn [length] in *; [lia |].
  cbn [kernel_store]. destruct (decide (i = 0)) as [-> | Hne].
  - rewrite kernel_store_outside; [| apply add64_u64 |].
    + cbn [nth Z.to_nat]. rewrite add64_0 by done. apply fn_lookup_insert.
    + intros j Hj. rewrite add64_add64. intros E. apply Hb in E; lia.
  - replace i with (1 + (i - 1)) at 1 by lia. rewrite <- add64_add64, IH; [| apply add64_u64 | | lia].
    + replace (Z.to_nat i) with (S (Z.to_nat (i - 1))) by lia. done.
    + intros j j' Hj Hj'. rewrite !add64_add64. intros E. apply Hb in E; lia.
Qed.

Lemma write_absolute_jmp_eq m a t :
  is_u64 a -> write_absolute_jmp m a t = kernel_store m a (absolute_jmp t).
Proof.
  intros Ha. unfold absolute_jmp. rewrite !kernel_store_app by (done || apply add64_u64).
  by rewrite !add64_add64, !le_split_length.
Qed.

(** *** A copy with a patch *)

Lemma block_part va n o k : block va n -> 0 <= o -> o + k <= n -> block (va +64 o) k.
Proof. intros Hb Ho Hk i j Hi Hj. rewrite !add64_add64. intros E. apply Hb in E; lia. Qed.
Lemma outside_part va n o k x : outside va n x -> 0 <= o -> o + k <= n -> outside (va +64 o) k x.
Proof. intros Hx Ho Hk i Hi. rewrite add64_add64. apply Hx. lia. Qed.

Definition copied (m : mem) (src n : Z) : list Z := map (fun i => kernel_memory m (src +64 i)) (seqZ 0 n).
Lemma copied_length m src n : length (copied m src n) = Z.to_nat n.
Proof. unfold copied. by rewrite length_map, length_seqZ. Qed.
Lemma nth_copied m src n i : 0 <= i < n -> nth (Z.to_nat i) (copied m src n) 0 = kernel_memory m (src +64 i).
Proof.
  intros Hi. rewrite nth_lookup. unfold copied. rewrite list_lookup_fmap, lookup_seqZ_lt by lia. cbn. do 2 f_equal. lia.
Qed.

(** [n] bytes copied to [dst] with [bs] written over them from [o] on, in a block of [N]. *)
Lemma patched_at m dst src n o bs N i :
  is_u64 dst -> block dst N -> 0 <= n <= N -> 0 <= o -> o + Z.of_nat (length bs) <= N ->
  0 <= i < n \/ o <= i < o + Z.of_nat (length bs) ->
  kernel_memory (kernel_store (kernel_copy m dst src n) (dst +64 o) bs) (dst +64 i) =
    if (o <=? i) && (i <? o + Z.of_nat (length bs)) then nth (Z.to_nat (i - o)) bs 0
    else kernel_memory m (src +64 i).
Proof.
  intros Hd Hb Hn Ho Hl Hi. destruct (_ && _) eqn:E.
  - replace (dst +64 i) with (dst +64 o +64 (i - o)) by (rewrite add64_add64; f_equal; lia).
    apply kernel_store_at; [apply add64_u64 | apply (block_part _ N); [done | lia ..] | lia].
  - unfold kernel_memory at 1. rewrite kernel_store_outside; [| apply add64_u64 |].
    + unfold kernel_copy. fold (copied m src n). fold (kernel_memory (kernel_store m dst (copied m src n)) (dst +64 i)).
      assert (Z.of_nat (length (copied m src n)) = n) as El by (rewrite copied_length; lia).
      rewrite kernel_store_at; rewrite ?El; [apply nth_copied; lia | done | | lia].
      intros j j' Hj Hj'. apply Hb; lia.
    + intros j Hj. rewrite add64_add64. intros Ej. apply Hb in Ej; lia.
Qed.

Lemma patched_outside m dst src n o bs N x :
  is_u64 dst -> outside dst N x -> 0 <= n <= N -> 0 <= o -> o + Z.of_nat (length bs) <= N ->
  kernel_store (kernel_copy m dst src n) (dst +64 o) bs x = m x.
Proof.
  intros Hd Hx Hn Ho Hl. rewrite kernel_store_outside; [| apply add64_u64 | by apply (outside_part _ N)].
  apply kernel_store_outside; [done |]. fold (copied m src n). rewrite copied_length. intros i Hi. apply Hx. lia.
Qed.

(** *** The instructions that are overwritten *)

(** An instruction has 1 to 15 bytes, all of them among those that may be read. *)
Definition decoder_ok : Prop := forall m a n l, decode m a n = Some l -> 1 <= l <= 15 /\ l <= n.

Lemma overwritten_total m target_function :
  decoder_ok -> exists n, overwritten (Z.to_nat absolute_jump_size) m target_function 0 = Ok n /\
    forall k, n = Some k -> 14 <= k <= 28 /\ Z.land target_function 0xFFF + k <= page_size - 1.
Proof.
  intros Hd. assert (0 <= Z.land target_function 0xFFF < 4096) as Ho.
  { change 0xFFF with (Z.ones 12). rewrite Z.land_ones by lia. apply Z.mod_pos_bound. lia. }
  unfold page_size. set (offset := Z.land target_function 0xFFF) in *.
  assert (forall fuel k, 14 <= k + Z.of_nat fuel -> 0 <= k <= 28 -> offset + k <= 4095 ->
    exists n, overwritten fuel m target_function k = Ok n /\
      forall k', n = Some k' -> 14 <= k' <= 28 /\ offset + k' <= 4095) as H.
  { induction fuel as [| fuel IH]; intros k Hf Hk Hp; cbn [overwritten]; unfold absolute_jump_size;
      (destruct (Z.ltb_spec k 14); cbn [negb]; [| exists (Some k); split; [done |]; intros k' [= <-]; lia]); [lia |].
    destruct (decode _ _ _) as [l |] eqn:E; [| by exists None].
    apply Hd in E as [Hl1 Hl2]. fold offset in Hl2. unfold page_size in Hl2. rewrite wrap_small in Hl2 by lia.
    unfold add64. rewrite (wrap_small 64 (k + l)) by lia. apply IH; lia. }
  apply H; unfold absolute_jump_size; lia.
Qed.
Context `{!Ia32Ok ia32}.

(** *** The tables of a core *)

(** A table with a hook more. *)
Definition hook_added (orig hook : Z) (p p' : ept_pages) : Prop :=
  ept_inv p' /\
  (exists ptr, hooks p' = hooks p ++ [mk_hook (u32 orig) (u32 hook) (Some ptr)]) /\
  forall n, 0 <= n < page_count ->
    page_entry p' n = (if n =? u32 orig then with_execute false else id) <$> page_entry p n.

Lemma add_hook_active p orig hook p' :
  add_hook p orig hook = Ok (p', true) -> exists hs ptr, hooks p' = hs ++ [mk_hook (u32 orig) (u32 hook) (Some ptr)].
Proof.
  unfold add_hook. destruct (_ <=? _); [done |]. destruct (get_ept_pte _ _ _) as [p1 [ptr |]]; [| done].
  unfold update_pte. destruct (table_of _ _); [| done]. intros [= <-]. by exists (hooks p1), ptr.
Qed.

Lemma add_hook_added p orig hook :
  ept_inv p -> 0 <= orig ->
  exists p' ok, add_hook p orig hook = Ok (p', ok) /\ ept_inv p' /\ (ok = true -> hook_added orig hook p p').
Proof.
  intros Hp Ho. destruct (add_hook_ok p orig hook Hp Ho) as (p' & ok & E & Hi & H). exists p', ok.
  split; [exact E |]. split; [exact Hi |]. intros ->. destruct H as (Hh & _ & He). split; [exact Hi |]. split; [| exact He].
  destruct (add_hook_active _ _ _ _ E) as (hs & ptr & Eh). exists ptr. rewrite Hh in Eh |- *.
  by apply app_inj_tail in Eh as [_ ->].
Qed.

Lemma handle_ept_hook_ok m :
  tables_inv m -> 0 <= gpr_of m rdx ->
  exists m', handle_ept_hook m = Ok m' /\ tables_inv m' /\ shared m' = shared m /\
    physical_memory m' = physical_memory m /\
    (gpr_of m' rax <> 0 -> both (hook_added (gpr_of m rdx) (gpr_of m r8)) (core m) (core m')).
Proof.
  intros [Hno Hta] Hr. unfold handle_ept_hook.
  destruct (add_hook_added _ (gpr_of m rdx) (gpr_of m r8) Hno Hr) as (normal & ok1 & -> & Hno' & H1). cbn [obind].
  destruct ok1; cbn [obind].
  2: { eexists. split; [reflexivity |]. split; [by split |]. do 2 (split; [done |]). by intros []. }
  change (ept_pages_target (core (on_core m _))) with (ept_pages_target (core m)).
  destruct (add_hook_added _ (gpr_of m rdx) (gpr_of m r8) Hta Hr) as (target & ok2 & -> & Hta' & H2). cbn [obind].
  eexists. split; [reflexivity |]. split; [by split |]. split; [done |]. split; [done |].
  intros Hok. split; [by apply H1 |]. apply H2. by destruct ok2.
Qed.

Lemma hook_on_core s cpu orig hook :
  virtualized s cpu = true -> tables_inv (enter s cpu) -> 0 <= orig ->
  exists r s1, vmx_vmcall cpu ept_hook_number orig hook s = Ok (r, s1) /\
    virtualized s1 = virtualized s /\ memory s1 = memory s /\ (forall d, d <> cpu -> cores s1 d = cores s d) /\
    (r <> 0 -> both (hook_added orig hook) (cores s cpu) (cores s1 cpu)).
Proof.
  intros Hv Hi Ho. unfold vmx_vmcall. rewrite vmcall_keyed by done. cbn [run_hypercall].
  destruct (handle_ept_hook_ok (called s cpu ept_hook_number orig hook 0) Hi Ho) as (m & -> & Hi' & Hs & Hm & Hb).
  cbn [obind]. eexists _, _. split; [reflexivity |]. split; [done |]. split; [exact Hm |]. split.
  - intros d Hd. apply leave_other; [done |]. intros c. change (shared (advance supported m)) with (shared m). by rewrite Hs.
  - rewrite leave_same. intros Hok. destruct (Hb Hok) as [H1 H2]. by split.
Qed.

(** A hypercall on every core that returns on each. *)
Lemma on_each_cpu_ok (P : nat -> system -> bool -> Prop) n arg1 arg2 s :
  (forall i s b, (i < processors)%nat -> P i s b ->
    exists r s', vmx_vmcall i n arg1 arg2 s = Ok (r, s') /\ P (i + 1)%nat s' (b && negb (r =? 0))) ->
  P 0%nat s true -> exists s' b, on_each_cpu n arg1 arg2 s = Ok (s', b) /\ P processors s' b.
Proof.
  intros Hstep HP. unfold on_each_cpu.
  destruct (for_each_cpu_ok processors (fun i '(s, b) => P i s b)
    (fun cpu '(s, success) => let! (ret, s) := vmx_vmcall cpu n arg1 arg2 s in Ok (s, success && negb (ret =? 0))) (s, true))
    as ([s' b] & E & H); [| done | by exists s', b].
  intros i [s1 b] Hi H1. destruct (Hstep i s1 b Hi H1) as (r & s2 & E & H2).
  exists (s2, b && negb (r =? 0)). by rewrite E.
Qed.

(** One round of a loop over the cores that remembers whether all calls succeeded. *)
Lemma progress_round s (R : nat -> vcpu -> Prop) i s2 s3 ok r :
  progress s (fun c v => ok = true -> R c v) i s2 -> virtualized s3 = virtualized s2 ->
  (forall d, d <> i -> cores s3 d = cores s2 d) -> (r <> 0 -> R i (cores s3 i)) ->
  progress s (fun c v => ok && negb (r =? 0) = true -> R c v) (i + 1) s3.
Proof.
  intros [H1 H2 H3] Hv Ho Hd. apply (progress_next s _ i s2); [| done | done |].
  - split; [done | | done]. intros c Hc Hok. apply H2; [done |]. by apply andb_prop in Hok as [-> _].
  - intros Hok. apply andb_prop in Hok as [_ Hok]. apply Hd. by destruct (Z.eqb_spec r 0).
Qed.

Lemma hook_on_each s orig hook :
  (forall c, (c < processors)%nat -> virtualized s c = true /\ tables_inv (enter s c)) -> 0 <= orig ->
  exists s1 ok, on_each_cpu ept_hook_number orig hook s = Ok (s1, ok) /\ memory s1 = memory s /\
    (ok = true -> forall c, (c < processors)%nat -> both (hook_added orig hook) (cores s c) (cores s1 c)).
Proof.
  intros Hs Ho.
  destruct (on_each_cpu_ok (fun i s' ok => memory s' = memory s /\
      progress s (fun c v => ok = true -> both (hook_added orig hook) (cores s c) v) i s') ept_hook_number orig hook s)
    as (s1 & ok & E & Hm & HP).
  - intros i s2 ok Hi [Hm HP]. destruct (Hs i Hi) as [Hv Ht].
    assert (cores s2 i = cores s i) as Ei by (by apply (progress_rest _ _ _ _ HP)).
    destruct (hook_on_core s2 i orig hook) as (r & s3 & E & Hv3 & Hm3 & Ho3 & Hd).
    + by rewrite (progress_virtualized _ _ _ _ HP).
    + unfold tables_inv in *. cbn [enter core] in *. by rewrite Ei.
    + done.
    + exists r, s3. split; [exact E |]. split; [congruence |].
      apply (progress_round s _ i s2 s3 ok r HP Hv3 Ho3). intros Hok. rewrite <- Ei. by apply Hd.
  - split; [done | apply progress_start].
  - exists s1, ok. split; [exact E |]. split; [exact Hm |]. intros Hok c Hc. by apply (progress_done _ _ _ _ HP).
Qed.

(** *** A hook *)

Definition page_of (va : Z) : Z := Z.land va (not64 0xFFF).
Definition page_offset (va : Z) : Z := Z.land va 0xFFF.

(** The pool gives blocks of their own. *)
Record pools_fresh (k : kernel) (s : system) (target_function : Z) : Prop := {
  trampoline_fresh : forall a n, trampoline_pool k = Some a ->
    overwritten (Z.to_nat absolute_jump_size) (memory s) target_function 0 = Ok (Some n) ->
    is_u64 a /\ block a (n + absolute_jump_size) /\ apart a (n + absolute_jump_size) (page_of target_function) page_size;
  exec_page_fresh : forall a, exec_page_pool k = Some a ->
    is_u64 a /\ block a page_size /\ apart a page_size (page_of target_function) page_size /\
    forall b n, trampoline_pool k = Some b ->
      overwritten (Z.to_nat absolute_jump_size) (memory s) target_function 0 = Ok (Some n) ->
      apart a page_size b (n + absolute_jump_size)
}.

(** A hook is in place: [n] bytes of the function are in the trampoline in front of a jump to
    the rest of it, the other page is a copy with a jump to the hook over the start of the
    function, nothing else in memory has changed, and the tables of all cores have the
    hook. *)
Record hook_installed (target_function hook_function trampoline exec_page n : Z) (s s' : system) : Prop := {
  installed_size : absolute_jump_size <= n /\ page_offset target_function + n < page_size;
  installed_trampoline : code_at (kernel_memory (memory s')) trampoline
    (copied (memory s) target_function n ++ absolute_jmp (target_function +64 n));
  installed_page : forall i, 0 <= i < page_size ->
    kernel_memory (memory s') (exec_page +64 i) =
      if (page_offset target_function <=? i) && (i <? page_offset target_function + absolute_jump_size)
      then nth (Z.to_nat (i - page_offset target_function)) (absolute_jmp hook_function) 0
      else kernel_memory (memory s) (page_of target_function +64 i);
  installed_rest : forall x, outside trampoline (n + absolute_jump_size) x -> outside exec_page page_size x ->
    memory s' x = memory s x;
  installed_tables : forall c, (c < processors)%nat ->
    both (hook_added (Z.shiftr (physical target_function) 12) (Z.shiftr (physical exec_page) 12)) (cores s c) (cores s' c)
}.

Lemma nth_app_at (l l' : list Z) i :
  0 <= i < Z.of_nat (length l + length l') ->
  nth (Z.to_nat i) (l ++ l') 0 =
    if (Z.of_nat (length l) <=? i) && (i <? Z.of_nat (length l) + Z.of_nat (length l'))
    then nth (Z.to_nat (i - Z.of_nat (length l))) l' 0 else nth (Z.to_nat i) l 0.
Proof.
  intros Hi. destruct (_ && _) eqn:E.
  - rewrite app_nth2 by lia. f_equal. lia.
  - apply app_nth1. lia.
Qed.

(** The two blocks. *)
Lemma hook_memory m target_function hook_function a b n :
  let m1 := kernel_store (kernel_copy m a target_function n) (a +64 n) (absolute_jmp (target_function +64 n)) in
  let m2 := kernel_store (kernel_copy m1 b (page_of target_function) page_size)
              (b +64 page_offset target_function) (absolute_jmp hook_function) in
  absolute_jump_size <= n -> 0 <= page_offset target_function -> page_offset target_function + n < page_size ->
  is_u64 a -> block a (n + absolute_jump_size) -> apart a (n + absolute_jump_size) (page_of target_function) page_size ->
  is_u64 b -> block b page_size -> apart b page_size a (n + absolute_jump_size) ->
  code_at (kernel_memory m2) a (copied m target_function n ++ absolute_jmp (target_function +64 n)) /\
  (forall i, 0 <= i < page_size -> kernel_memory m2 (b +64 i) =
     if (page_offset target_function <=? i) && (i <? page_offset target_function + absolute_jump_size)
     then nth (Z.to_nat (i - page_offset target_function)) (absolute_jmp hook_function) 0
     else kernel_memory m (page_of target_function +64 i)) /\
  forall x, outside a (n + absolute_jump_size) x -> outside b page_size x -> m2 x = m x.
Proof.
  intros m1 m2 Hn Ho Hp Ha Hba Hpa Hb Hbb Hab. unfold absolute_jump_size, page_size in *.
  assert (forall x, outside b 4096 x -> m2 x = m1 x) as H2.
  { intros x Hx. apply (patched_outside _ _ _ _ _ _ 4096); rewrite ?absolute_jmp_length; unfold page_size; [done | done | lia ..]. }
  assert (forall x, outside a (n + 14) x -> m1 x = m x) as H1.
  { intros x Hx. apply (patched_outside _ _ _ _ _ _ (n + 14)); rewrite ?absolute_jmp_length; [done | done | lia ..]. }
  split; [| split].
  - intros i Hi. rewrite length_app, copied_length, absolute_jmp_length in Hi.
    unfold kernel_memory at 1. rewrite H2 by (apply Hab; lia). fold (kernel_memory m1 (a +64 i)).
    rewrite nth_app_at by (rewrite copied_length, absolute_jmp_length; lia).
    rewrite copied_length, Z2Nat.id by lia. unfold m1.
    rewrite (patched_at _ _ _ _ _ _ (n + 14)) by (rewrite ?absolute_jmp_length; done || lia).
    destruct (_ && _) eqn:E; [done |]. rewrite absolute_jmp_length in E.
    assert (i < n) by (destruct (Z.leb_spec n i), (Z.ltb_spec i (n + Z.of_nat 14)); first [done | lia]).
    by rewrite nth_copied by lia.
  - intros i Hi. unfold m2. rewrite (patched_at _ _ _ _ _ _ 4096)
      by (rewrite ?absolute_jmp_length; unfold page_size; done || lia).
    rewrite absolute_jmp_length. change (Z.of_nat 14) with 14. destruct (_ && _); [done |].
    unfold kernel_memory. apply H1, Hpa. lia.
  - intros x Hx Hx'. by rewrite H2, H1.
Qed.

(** When no answer of the kernel is missing, [ept_hook] writes the two blocks and calls the
    hypervisor on all cores; when it reports success the hook is in place. *)
Lemma ept_hook_ok k target_function hook_function original s
    (Hdecode : decoder_ok) (Hphysical : forall va, 0 <= physical va)
    (Hcores : forall c, (c < processors)%nat -> virtualized s c = true /\ tables_inv (enter s c))
    (Hpools : pools_fresh k s target_function) :
  exists s' ok original', ept_hook k target_function hook_function original s = Ok (s', ok, original') /\
    (ok = true -> exists n exec_page, trampoline_pool k = Some original' /\ exec_page_pool k = Some exec_page /\
       hook_installed target_function hook_function original' exec_page n s s').
Proof.
  unfold ept_hook. destruct (0 <? irql k); [by exists s, false, original |].
  destruct (decoder_ready k); cbn [negb]; [| by exists s, false, original].
  destruct (overwritten_total (memory s) target_function Hdecode) as (n & E & Hn). rewrite E. cbn [obind].
  destruct n as [n |]; [| by exists s, false, original]. destruct (Hn n eq_refl) as [Hsize Hpage].
  destruct (_ <? _); [by exists s, false, original |].
  destruct (trampoline_pool k) as [a |] eqn:Ea; [| by exists s, false, original].
  destruct (exec_page_pool k) as [b |] eqn:Eb; [| by eexists _, false, a].
  cbn [obind memory set_memory]. rewrite !write_absolute_jmp_eq by apply add64_u64.
  destruct (trampoline_fresh _ _ _ Hpools a n Ea E) as (Ha & Hba & Hpa).
  destruct (exec_page_fresh _ _ _ Hpools b Eb) as (Hb & Hbb & Hpb & Hab). specialize (Hab a n Ea E).
  fold (page_of target_function) (page_offset target_function).
  set (m1 := kernel_store (kernel_copy (memory s) a target_function n) _ _).
  set (m2 := kernel_store (kernel_copy m1 b _ page_size) _ _).
  change (set_memory (set_memory s m1) m2) with (set_memory s m2).
  destruct (hook_on_each (set_memory s m2) (Z.shiftr (physical target_function) 12) (Z.shiftr (physical b) 12))
    as (s1 & ok & -> & Hm & Hc); [exact Hcores | by apply Z.shiftr_nonneg |]. cbn [obind].
  exists s1, ok, a. split; [done |]. intros Hok. exists n, b. do 2 (split; [done |]).
  unfold page_size in Hpage. fold (page_offset target_function) in Hpage.
  assert (0 <= page_offset target_function) as Ho by (apply Z.land_nonneg; right; lia).
  destruct (hook_memory (memory s) target_function hook_function a b n) as (H1 & H2 & H3);
    [unfold absolute_jump_size, page_size; first [done | lia] .. |].
  split; rewrite ?Hm; [unfold absolute_jump_size, page_size; lia | exact H1 | exact H2 | exact H3 | exact (Hc Hok)].
Qed.

(** What a processor fetches from the page of [va] through an entry of a table. *)
Definition fetched (m : mem) (e : ept_leaf) : mem := fun va => m (Z.shiftl (leaf_pfn e) 12 + page_offset va).

Lemma find_hook_last (hs : list Ept.ept_hook) h pfn :
  List.find (fun h => orig_pfn h =? pfn) hs = None -> orig_pfn h = pfn ->
  List.find (fun h => orig_pfn h =? pfn) (hs ++ [h]) = Some h.
Proof.
  intros Hn Hh. induction hs as [| h' hs IH]; cbn in *; [by rewrite Hh, Z.eqb_refl |].
  destruct (orig_pfn h' =? pfn); [done | by apply IH].
Qed.

(** A fetch from the frame of a table to which its first hook was added. *)
Lemma fetch_switches M frame hook p :
  hook_added frame hook p (current_ept_pages (core M)) -> get_hook_by_orig_pfn p frame = None ->
  0 <= frame < 2 ^ 32 -> 0 <= hook < 2 ^ 32 -> violation_frame supported M = frame -> is_execute supported M = true ->
  exists M' e, handle_ept_violation supported (env 0) M = Ok M' /\
    page_entry (current_ept_pages (core M')) frame = Some e /\ execute_access e = true /\ leaf_pfn e = hook.
Proof.
  intros (Hinv & (ptr & Hh) & He) Hfree Hframe Hhook Hviol Hexec.
  rewrite (wrap_small 32 frame), (wrap_small 32 hook) in Hh by done. rewrite (wrap_small 32 frame) in He by done. set (p' := current_ept_pages (core M)) in *.
  assert (get_hook_by_orig_pfn p' frame = Some (mk_hook frame hook (Some ptr))) as Hget.
  { unfold get_hook_by_orig_pfn. rewrite Hh. by apply find_hook_last. }
  pose proof (List.find_some _ _ Hget) as [Hin _].
  destruct (switch_view_inv p' _ ptr true Hinv Hin eq_refl) as (p2 & E & Hinv2 & He2). cbn [orig_pfn] in He2.
  assert (0 <= frame < page_count) as Hn.
  { pose proof (inv_hooks _ Hinv) as Hk. rewrite List.Forall_forall in Hk. by destruct (proj2 (Hk _ Hin) ptr eq_refl). }
  destruct (page_entry_is_some p' frame (inv_wf _ Hinv) Hn) as [e0 Ee].
  specialize (He2 frame Hn). rewrite Z.eqb_refl, Ee in He2.
  unfold violation_frame, violation_address, is_execute in *.
  unfold handle_ept_violation. fold p'. cbv zeta. rewrite Hviol, Hget, Hexec, E. cbn [obind].
  eexists _, _. split; [reflexivity |]. cbn [core invept set]. unfold set. cbn [core].
  rewrite (proj1 (set_current_same (core M) p2)). split; [exact He2 |]. split; [done |].
  by apply to_pfn_u32.
Qed.

Lemma page_offset_add va i : 0 <= i -> page_offset va + i < 4096 -> page_offset (va +64 i) = page_offset va + i.
Proof.
  intros Hi Ho. unfold page_offset in *. change 0xFFF with (Z.ones 12) in *. rewrite !Z.land_ones in * by lia.
  unfold add64, wrap. rewrite <- Znumtheory.Zmod_div_mod by (lia || by exists (2 ^ 52)).
  change (2 ^ 12) with 4096 in *. pose proof (Z.mod_pos_bound va 4096 ltac:(lia)).
  rewrite <- Z.add_mod_idemp_l by lia. by rewrite Z.mod_small by lia.
Qed.

(** (C16) A function that was hooked with success runs the hook: where a core that has not yet
    fetched from the hooked page does so, the handler of the violation gives it a page in
    which the start of the function leads to the hook, with all registers and the stack
    pointer as at the call. *)
Theorem hooked_function_runs_hook k target_function hook_function original s s' trampoline c M
    (Hdecode : decoder_ok) (Hphysical : forall va, 0 <= physical va < 2 ^ 44)
    (Hcores : forall c, (c < processors)%nat -> virtualized s c = true /\ tables_inv (enter s c))
    (Hpools : pools_fresh k s target_function)
    (Hpage : forall a, exec_page_pool k = Some a -> forall i, 0 <= i < page_size ->
       physical (a +64 i) = Z.shiftl (Z.shiftr (physical a) 12) 12 + i)
    (Htarget : is_u64 target_function) (Hhook : is_u64 hook_function)
    (Hsuccess : ept_hook k target_function hook_function original s = Ok (s', true, trampoline))
    (Hc : (c < processors)%nat)
    (Hfree : get_hook_by_orig_pfn (ept_pages_normal (cores s c)) (Z.shiftr (physical target_function) 12) = None /\
             get_hook_by_orig_pfn (ept_pages_target (cores s c)) (Z.shiftr (physical target_function) 12) = None)
    (Htables : ept_pages_normal (core M) = ept_pages_normal (cores s' c) /\
               ept_pages_target (core M) = ept_pages_target (cores s' c))
    (Hviolation : violation_frame supported M = Z.shiftr (physical target_function) 12)
    (Hexecute : is_execute supported M = true) :
  exists M' e, handle_ept_violation supported (env 0) M = Ok M' /\
    page_entry (current_ept_pages (core M')) (Z.shiftr (physical target_function) 12) = Some e /\
    execute_access e = true /\
    forall st, 8 <= sp st < 2 ^ 64 ->
      exists m, code_steps 3 (fetched (memory s') e) target_function st = Some (hook_function, st <| Asm.memory := m |>).
Proof.
  destruct (ept_hook_ok k target_function hook_function original s Hdecode (fun va => proj1 (Hphysical va)) Hcores Hpools)
    as (s2 & ok & o & E & H). rewrite Hsuccess in E. injection E as <- <- <-.
  destruct (H eq_refl) as (n & a & _ & Ea & [Hn _ Hp _ Ht]). destruct (Ht c Hc) as [Hno Hta].
  assert (forall va, 0 <= Z.shiftr (physical va) 12 < 2 ^ 32) as Hframe.
  { intros va. rewrite Z.shiftr_div_pow2 by lia. specialize (Hphysical va).
    split; [apply Z.div_pos; lia | apply Z.div_lt_upper_bound; lia]. }
  destruct (fetch_switches M (Z.shiftr (physical target_function) 12) (Z.shiftr (physical a) 12)
      (if in_normal_execution (core M) then ept_pages_normal (cores s c) else ept_pages_target (cores s c)))
    as (M' & e & EM & Ee & Hx & Hl); [| | apply Hframe | apply Hframe | done | done |].
  - unfold current_ept_pages. destruct Htables as [-> ->]. by destruct (in_normal_execution _).
  - by destruct (in_normal_execution _), Hfree.
  - exists M', e. do 3 (split; [done |]). intros st Hst.
    destruct (absolute_jmp_steps (fetched (memory s') e) target_function hook_function st Hhook Hst) as (m & Em & _);
      [| by exists m]. intros i Hi. rewrite absolute_jmp_length in Hi. unfold absolute_jump_size, page_size in *.
    assert (0 <= page_offset target_function) as Ho by (apply Z.land_nonneg; right; lia).
    unfold fetched. rewrite Hl, page_offset_add, <- (Hpage a Ea) by lia.
    fold (kernel_memory (memory s') (a +64 (page_offset target_function + i))). rewrite Hp by lia.
    destruct (_ && _) eqn:E; [f_equal; lia |].
    destruct (Z.leb_spec (page_offset target_function) (page_offset target_function + i)), (Z.ltb_spec (page_offset target_function + i) (page_offset target_function + 14)); first [done | lia].
Qed.

(** *** The trace of a loaded image *)

(** The tables of the kernel can be walked: no address leads out of the physical window. *)
Definition walkable (s : system) : Prop :=
  forall va, exists r, gva_to_gpa (memory s) (system_cr3 (g_hv s)) va 0 = Ok r.

Lemma auto_trace_loop_total g n normal target va :
  ept_wf normal -> ept_wf target -> (forall va, exists gpa, g va = Ok gpa) ->
  exists r, auto_trace_loop g normal target va n = Ok r.
Proof.
  intros Hwn Hwt Hg. revert normal target va Hwn Hwt. induction n as [| n IH]; intros normal target va Hwn Hwt; [by eexists |].
  cbn [auto_trace_loop]. destruct (Hg va) as [gpa ->]. cbn [obind]. destruct (gpa =? 0); [by apply IH |].
  destruct (get_ept_pte normal gpa true) as [n1 [pn |]] eqn:En; destruct (get_ept_pte target gpa true) as [t1 [pt |]] eqn:Et;
    [| by eexists ..].
  destruct (get_ept_pte_ok _ _ _ _ _ Hwn En) as (Hwn1 & _ & _ & Hfr & tn & Hpn & ->).
  destruct (get_ept_pte_ok _ _ _ _ _ Hwt Et) as (Hwt1 & _ & _ & _ & tt & Hpt & ->).
  destruct (update_pte_ok n1 _ _ (fun e => e <| execute_access := false |>) Hwn1 Hfr Hpn) as (n2 & -> & Hwn2 & _).
  destruct (update_pte_ok t1 _ _ (fun e => e <| execute_access := true |>) Hwt1 Hfr Hpt) as (t2 & -> & Hwt2 & _).
  cbn [obind]. by apply IH.
Qed.

Lemma on_tables_total m f :
  tables_inv m -> (forall p, ept_inv p -> exists p', f p = Ok p' /\ ept_inv p') ->
  exists normal target, on_tables m f =
    Ok (on_core m (fun v => v <| ept_pages_normal := normal |> <| ept_pages_target := target |>)) /\
    ept_inv normal /\ ept_inv target.
Proof.
  intros [Hn Ht] Hf. unfold on_tables. destruct (Hf _ Hn) as (n & -> & Hn'), (Hf _ Ht) as (t & -> & Ht'). by exists n, t.
Qed.

Lemma handle_enable_total m :
  tables_inv m -> (forall va, exists gpa, system_gva_to_gpa m va = Ok gpa) ->
  exists m', handle_enable_auto_trace supported m = Ok m' /\ physical_memory m' = physical_memory m.
Proof.
  intros Hi Hg. unfold handle_enable_auto_trace.
  destruct (on_tables_total m deactivate_hooks Hi deactivate_inv) as (n1 & t1 & -> & Hn1 & Ht1). cbn [obind].
  set (m1 := on_core m _).
  destruct (auto_trace_loop_total (system_gva_to_gpa m1) (Z.to_nat (trace_page_count (gpr_of m rdx) (gpr_of m r8)))
    n1 (set_all_permissions t1 true true false) (page_aligned_va (gpr_of m rdx)) (inv_wf _ Hn1)
    (inv_wf _ (set_all_permissions_inv _ true true false Ht1)) Hg) as [[[n2 t2] ok] E].
  change (ept_pages_normal (core m1)) with n1. change (ept_pages_target (core m1)) with t1.
  unfold enable_auto_trace. rewrite E. cbn [obind].
  destruct (enable_auto_trace_inv (system_gva_to_gpa m1) n1 t1 _ _ n2 t2 ok Hn1 Ht1 E) as [Hn2 Ht2].
  destruct ok; [by eexists |].
  set (m2 := on_core m1 _). assert (tables_inv m2) as H2 by (split; [exact Hn2 | exact Ht2]).
  destruct (on_tables_total m2 reactivate_hooks H2 reactivate_inv) as (n3 & t3 & -> & _). by eexists.
Qed.

Lemma trace_on_core s cpu va size :
  virtualized s cpu = true -> tables_inv (enter s cpu) -> walkable s ->
  exists r s1, vmx_vmcall cpu enable_auto_trace_number va size s = Ok (r, s1) /\
    virtualized s1 = virtualized s /\ memory s1 = memory s /\ system_cr3 (g_hv s1) = system_cr3 (g_hv s) /\
    onload_target (g_hv s1) = onload_target (g_hv s) /\ (forall d, d <> cpu -> cores s1 d = cores s d) /\
    (r <> 0 -> both traced (cores s cpu) (cores s1 cpu)).
Proof.
  intros Hv Hi Hw. unfold vmx_vmcall.
  destruct (handle_enable_total (called s cpu enable_auto_trace_number va size 0) Hi) as (m & E & Hm).
  { intros va'. unfold system_gva_to_gpa.
    change (gva_to_gpa (physical_memory _) _ va' 0) with (gva_to_gpa (memory s) (system_cr3 (g_hv s)) va' 0).
    destruct (Hw va') as [[gpa off] ->]. by exists gpa. }
  pose proof (enable_shared _ _ _ E) as [Hsh _].
  assert (__vmcall supported env cpu enable_auto_trace_number va size 0 s =
    Ok (Some (gpr_of m rax), leave s cpu (advance supported m))) as Ec.
  { rewrite vmcall_keyed by done. cbn [run_hypercall]. by rewrite E. }
  rewrite Ec. cbn [obind]. destruct (enable_on_core supported env s cpu va size _ _ Hv Hi Ec) as (Hv1 & Ho1 & Hb).
  eexists _, _. split; [reflexivity |]. split; [exact Hv1 |]. split; [exact Hm |].
  cbn [leave g_hv]. change (shared (advance supported m)) with (shared m). rewrite Hsh.
  do 2 (split; [done |]). split; [exact Ho1 |]. intros Hr. apply Hb. cbn [succeeded]. by destruct (Z.eqb_spec (gpr_of m rax) 0).
Qed.

(** Every core is asked to trace; where all report success all do. *)
Lemma trace_on_each s va size :
  (forall c, (c < processors)%nat -> virtualized s c = true /\ tables_inv (enter s c)) -> walkable s ->
  exists s1 ok, on_each_cpu enable_auto_trace_number va size s = Ok (s1, ok) /\
    onload_target (g_hv s1) = onload_target (g_hv s) /\
    (ok = true -> forall c, (c < processors)%nat -> both traced (cores s c) (cores s1 c)).
Proof.
  intros Hs Hw.
  destruct (on_each_cpu_ok (fun i s' ok => (memory s' = memory s /\ system_cr3 (g_hv s') = system_cr3 (g_hv s) /\
        onload_target (g_hv s') = onload_target (g_hv s)) /\
      progress s (fun c v => ok = true -> both traced (cores s c) v) i s') enable_auto_trace_number va size s)
    as (s1 & ok & E & (_ & _ & Hl) & HP).
  - intros i s2 ok Hi [(Hm & Hr & Hl) HP]. destruct (Hs i Hi) as [Hv Ht].
    assert (cores s2 i = cores s i) as Ei by (by apply (progress_rest _ _ _ _ HP)).
    destruct (trace_on_core s2 i va size) as (r & s3 & E & Hv3 & Hm3 & Hr3 & Hl3 & Ho3 & Hd).
    + by rewrite (progress_virtualized _ _ _ _ HP).
    + unfold tables_inv in *. cbn [enter core] in *. by rewrite Ei.
    + intros a. rewrite Hm, Hr. apply Hw.
    + exists r, s3. split; [exact E |]. split; [by rewrite Hm3, Hr3, Hl3 |].
      apply (progress_round s _ i s2 s3 ok r HP Hv3 Ho3). intros Hok. rewrite <- Ei. by apply Hd.
  - split; [done | apply progress_start].
  - exists s1, ok. split; [exact E |]. split; [exact Hl |]. intros Hok c Hc. by apply (progress_done _ _ _ _ HP).
Qed.

End hooks.


(** ** Examples *)

(** Physical memory behind a kernel whose addresses are those of physical memory; the hooked
    function is at 5010H, a page whose instructions have five bytes each. *)
Definition flat (va : Z) : Z := va mod 2 ^ 44.
Definition five_bytes (m : mem) (a n : Z) : option Z := if 5 <=? n then Some 5 else None.
Definition two_pools : kernel := mk_kernel 0 true (Some 0x20000) (Some 0x30000).

Lemma flat_add a i : 0 <= a -> 0 <= i -> a + i < 2 ^ 44 -> flat (a +64 i) = a + i.
Proof. intros Ha Hi Hl. unfold flat, add64. rewrite (wrap_small 64) by lia. apply Z.mod_small. lia. Qed.
Lemma flat_block a n : 0 <= a -> a + n <= 2 ^ 44 -> block flat a n.
Proof. intros Ha Hl i j Hi Hj. rewrite !flat_add by lia. lia. Qed.
Lemma flat_apart a n a' n' :
  0 <= a -> a + n <= 2 ^ 44 -> 0 <= a' -> a' + n' <= 2 ^ 44 -> a + n <= a' \/ a' + n' <= a -> apart flat a n a' n'.
Proof. intros Ha Hl Ha' Hl' Hd i Hi j Hj. rewrite !flat_add by lia. lia. Qed.

Lemma five_bytes_ok : decoder_ok five_bytes.
Proof. intros m a n l. unfold five_bytes. destruct (Z.leb_spec 5 n); [intros [= <-]; lia | done]. Qed.

Lemma two_pools_fresh s : pools_fresh flat five_bytes two_pools s 0x5010.
Proof.
  assert (forall n, overwritten flat five_bytes (Z.to_nat absolute_jump_size) (memory s) 0x5010 0 = Ok (Some n) -> n = 15)
    as Hn by (intros n; vm_compute; by intros [= <-]).
  split; unfold absolute_jump_size, page_size in *; change (page_of 0x5010) with 0x5000.
  - intros a n [= <-] ->%Hn. split; [by vm_compute |]. split; [apply flat_block; lia |]. apply flat_apart; lia.
  - intros a [= <-]. split; [by vm_compute |]. split; [apply flat_block; lia |]. split; [apply flat_apart; lia |].
    intros b n [= <-] ->%Hn. apply flat_apart; lia.
Qed.

(** The fetch at 5010H. *)
Definition fetching (v : vcpu) : machine :=
  sample_machine (v <| vcpu_vmcs := sample_fields [(VMCS_EXIT_QUALIFICATION, 0x104); (VMCS_GUEST_PHYSICAL_ADDRESS, 0x5010)] |>)
    (fun _ => 0).

Lemma hooked_function_runs_hook_witness :
  exists s' M' e, ept_hook (fun _ => true) (fun _ => sample_env) 1 flat five_bytes two_pools 0x5010 0xFFFFF80000001000 0
      tracing_system = Ok (s', true, 0x20000) /\
    handle_ept_violation (fun _ => true) sample_env (fetching (cores s' 0%nat)) = Ok M' /\
    page_entry (current_ept_pages (core M')) 5 = Some e /\ execute_access e = true.
Proof.
  assert (match ept_hook (fun _ => true) (fun _ => sample_env) 1 flat five_bytes two_pools 0x5010 0xFFFFF80000001000 0
      tracing_system with Ok (_, ok, t) => ok && (t =? 0x20000) | _ => false end = true) as Hok by (vm_compute; reflexivity).
  destruct (ept_hook _ _ _ _ _ _ _ _ _ _) as [[[s' ok] t] | |] eqn:E; [| discriminate Hok ..].
  apply andb_prop in Hok as [-> ->%Z.eqb_eq].
  destruct (hooked_function_runs_hook (fun _ => true) (fun _ => sample_env) 1 flat five_bytes two_pools 0x5010
    0xFFFFF80000001000 0 tracing_system s' 0x20000 0%nat (fetching (cores s' 0%nat))) as (M' & e & E1 & E2 & E3 & _).
  - apply five_bytes_ok.
  - intros va. apply Z.mod_pos_bound. lia.
  - intros c _. split; [reflexivity | exact tracing_caller_inv].
  - apply two_pools_fresh.
  - intros a [= <-] i Hi. unfold page_size in Hi. rewrite flat_add by lia. reflexivity.
  - by vm_compute.
  - by vm_compute.
  - exact E.
  - lia.
  - split; vm_compute; reflexivity.
  - split; reflexivity.
  - vm_compute. reflexivity.
  - vm_compute. reflexivity.
  - exists s', M', e. by rewrite <- E1.
Defined.

(** An image of 1000H bytes at 10000H, and a request for "Drv.sys". *)
Definition image_memory : mem :=
  store (store (store (fun _ => 0) 0x10000 (le_split 2 0x5A4D)) 0x1003C (le_split 4 0x80)) 0x10080
    (le_split 4 0x4550 ++ repeat 0 76 ++ le_split 4 0x1000).
Definition awaiting_system : system :=
  mk_system (fun _ => core tracing_caller) (fun _ => true) image_memory (fun _ _ => 0) (fun _ => 0%nat)
    (zero_hypervisor <| onload_target := mk_onload true (bytes "Drv.sys" ++ repeat 0 57) |>).

Lemma awaiting_walkable : walkable awaiting_system.
Proof.
  intros va. exists (0, 0). change (memory awaiting_system) with image_memory. change (system_cr3 _) with 0.
  unfold gva_to_gpa, address_of_page_directory. unfold pml4_idx.
  rewrite host_read64_entry by apply idx_range.
  change (bits 0 12 pfn_width) with 0. change (frame_address 0) with 0.
  assert (read64 image_memory (0 + bits va 39 9 * 8) = 0) as E.
  { pose proof (idx_range va 39). unfold read64, image_memory. rewrite !load_store_other by (cbn; lia).
    by rewrite (load_ext _ (fun _ => 0) _ 0). }
  by rewrite E.
Qed.

