(* ===== verification/StdFormat.v ===== *)
(** * Formatting of unsigned integers by the C++ library

    What the controller uses of [std::format]: [{}], [{:x}] and [{:016x}], and,
    for the placeholders of a display format, [std::vformat] with a format
    specification typed by the user. Also [std::stoull] with base 16, which reads
    the digits back. *)
From Stdlib Require Import ZArith Lia String Ascii List Bool.
From stdpp Require Import base numbers list option functions.
From S2P Require Import Prelude Memory.

(** ** Digits *)

Definition digit_char (upper : bool) (d : Z) : Z :=
  nth (Z.to_nat d) (bytes (if upper then "0123456789ABCDEF" else "0123456789abcdef")) 0.

(** The digits of [v], most significant first, in front of [acc]; 64 digits are
    enough for a 64-bit number in any base. *)
Fixpoint digits_acc (fuel : nat) (upper : bool) (base v : Z) (acc : list Z) : list Z :=
  match fuel with
  | O => acc
  | S fuel =>
      let acc := digit_char upper (v mod base) :: acc in
      if v / base =? 0 then acc else digits_acc fuel upper base (v / base) acc
  end.
Definition number (upper : bool) (base v : Z) : list Z := digits_acc 64 upper base v [].

(** [{:x}], [{}], and padding with zeros to a width. *)
Definition hex (v : Z) : list Z := number false 16 v.
Definition dec (v : Z) : list Z := number false 10 v.
Definition pad_left (fill : Z) (n : nat) (s : list Z) : list Z := repeat fill (n - length s) ++ s.
Definition hex16 (v : Z) : list Z := pad_left (chr "0") 16 (hex v).

(** ** Format specifications

    [[fill]align] [sign] [#] [0] [width] [.precision] [L] [type], one byte per
    character; a precision and a nested width are errors for an integer argument
    that is the only one, and the locale is the classic one. *)

Inductive alignment := align_default | align_left | align_right | align_center.

Record std_spec := mk_spec {
  sp_fill : Z; sp_align : alignment; sp_sign : Z; sp_alt : bool; sp_zero : bool;
  sp_width : Z; sp_type : Z
}.

Definition align_of (c : Z) : option alignment :=
  if c =? chr "<" then Some align_left
  else if c =? chr ">" then Some align_right
  else if c =? chr "^" then Some align_center else None.

Definition take_align (s : list Z) : option (Z * alignment * list Z) :=
  match s with
  | f :: a :: rest =>
      match align_of a with
      | Some al => if (f =? chr "{") || (f =? chr "}") then None else Some (f, al, rest)
      | None => match align_of f with
                | Some al => Some (32, al, a :: rest)
                | None => Some (32, align_default, s)
                end
      end
  | [f] => match align_of f with
           | Some al => Some (32, al, [])
           | None => Some (32, align_default, s)
           end
  | [] => Some (32, align_default, [])
  end.

Definition take_flag (c : Z) (s : list Z) : bool * list Z :=
  match s with
  | d :: rest => if d =? c then (true, rest) else (false, s)
  | [] => (false, [])
  end.

Definition is_digit (c : Z) : bool := (chr "0" <=? c) && (c <=? chr "9").

(** A width, at most [INT_MAX]. *)
Fixpoint take_width (s : list Z) (w : Z) : option (Z * list Z) :=
  match s with
  | c :: rest =>
      if is_digit c then
        let w := w * 10 + (c - chr "0") in
        if 2 ^ 31 <=? w then None else take_width rest w
      else Some (w, s)
  | [] => Some (w, [])
  end.

(** It does not start with a zero. *)
Definition parse_width (s : list Z) : option (Z * list Z) :=
  match s with
  | c :: _ => if c =? chr "0" then Some (0, s) else take_width s 0
  | [] => Some (0, [])
  end.

(** The sign character, 0 when there is none. *)
Definition take_sign (s : list Z) : Z * list Z :=
  match s with
  | c :: rest => if (c =? chr "+") || (c =? chr "-") || (c =? 32) then (c, rest) else (0, s)
  | [] => (0, [])
  end.

Definition parse_spec (s : list Z) : option std_spec :=
  match take_align s with
  | None => None
  | Some (fill, al, s) =>
      let '(sign, s) := take_sign s in
      let '(alt, s) := take_flag (chr "#") s in
      let '(zero, s) := take_flag (chr "0") s in
      match parse_width s with
      | None => None
      | Some (width, s) =>
          let '(_, s) := take_flag (chr "L") s in
          match s with
          | [] => Some (mk_spec fill al sign alt zero width (chr "d"))
          | [ty] => Some (mk_spec fill al sign alt zero width ty)
          | _ => None
          end
      end
  end.

(** The prefix and the digits of a presentation type. *)
Definition present (sp : std_spec) (v : Z) : option (list Z * list Z) :=
  let ty := sp_type sp in
  let prefix p := if sp_alt sp then bytes p else [] in
  if ty =? chr "d" then Some ([], number false 10 v)
  else if ty =? chr "x" then Some (prefix "0x"%string, number false 16 v)
  else if ty =? chr "X" then Some (prefix "0X"%string, number true 16 v)
  else if ty =? chr "b" then Some (prefix "0b"%string, number false 2 v)
  else if ty =? chr "B" then Some (prefix "0B"%string, number false 2 v)
  else if ty =? chr "o" then Some (if v =? 0 then [] else prefix "0"%string, number false 8 v)
  else None.

Definition pad (sp : std_spec) (default : alignment) (s : list Z) : list Z :=
  let n := (Z.to_nat (sp_width sp) - length s)%nat in
  match (match sp_align sp with align_default => default | a => a end) with
  | align_left => s ++ repeat (sp_fill sp) n
  | align_center => repeat (sp_fill sp) (n / 2) ++ s ++ repeat (sp_fill sp) (n - n / 2)
  | _ => repeat (sp_fill sp) n ++ s
  end.

(** [std::vformat("{:" + spec + "}", make_format_args(v))] of a [uint64_t];
    [None] where it throws. *)
Definition vformat (spec : list Z) (v : Z) : option (list Z) :=
  match parse_spec spec with
  | None => None
  | Some sp =>
      if sp_type sp =? chr "c" then
        if sp_alt sp || sp_zero sp || negb (sp_sign sp =? 0) || (127 <? v) then None
        else Some (pad sp align_left [v])
      else
        match present sp v with
        | None => None
        | Some (prefix, digits) =>
            let sign := if (sp_sign sp =? 0) || (sp_sign sp =? chr "-") then [] else [sp_sign sp] in
            match sp_zero sp, sp_align sp with
            | true, align_default =>
                Some (sign ++ prefix ++
                      pad_left (chr "0") (Z.to_nat (sp_width sp) - length (sign ++ prefix)) digits)
            | _, _ => Some (pad sp align_right (sign ++ prefix ++ digits))
            end
        end
  end.

(** ** Reading hexadecimal digits: [std::stoull(s, nullptr, 16)] *)

Definition hex_digit (c : Z) : option Z :=
  if is_digit c then Some (c - chr "0")
  else if (chr "a" <=? c) && (c <=? chr "f") then Some (c - chr "a" + 10)
  else if (chr "A" <=? c) && (c <=? chr "F") then Some (c - chr "A" + 10)
  else None.

(** The digits at the front: whether there are any, and their value. *)
Fixpoint hex_digits (s : list Z) (any : bool) (v : Z) : bool * Z :=
  match s with
  | c :: s => match hex_digit c with Some d => hex_digits s true (v * 16 + d) | None => (any, v) end
  | [] => (any, v)
  end.

Fixpoint skip_space (s : list Z) : list Z :=
  match s with
  | c :: rest => if (c =? 32) || ((9 <=? c) && (c <=? 13)) then skip_space rest else s
  | [] => []
  end.

(** An optional [0x], which counts when a digit follows. *)
Definition skip_0x (s : list Z) : list Z :=
  match s with
  | z :: x :: d :: rest =>
      if (z =? chr "0") && ((x =? chr "x") || (x =? chr "X")) &&
         (match hex_digit d with Some _ => true | None => false end)
      then d :: rest else s
  | _ => s
  end.

(** [None] where it throws: no digits, or a number that does not fit. *)
Definition stoull16 (s : list Z) : option Z :=
  let s := skip_space s in
  let '(negative, s) :=
    match s with
    | c :: rest => if c =? chr "-" then (true, rest) else if c =? chr "+" then (false, rest) else (false, s)
    | [] => (false, [])
    end in
  let '(any, v) := hex_digits (skip_0x s) false 0 in
  if negb any then None
  else if 2 ^ 64 <=? v then None
  else Some (if negative then u64 (- v) else v).

(** ** Lemmas *)

Lemma digits_acc_app fuel upper base v acc :
  digits_acc fuel upper base v acc = digits_acc fuel upper base v [] ++ acc.
Proof.
  revert v acc. induction fuel as [| fuel IH]; intros v acc; cbn [digits_acc]; [done |].
  destruct (_ =? 0); [done |]. rewrite (IH _ (_ :: acc)), (IH _ [_]), <- app_assoc. done.
Qed.

(** The last digit, and the ones before it. *)
Lemma digits_acc_snoc fuel upper base v :
  digits_acc (S fuel) upper base v [] =
    (if v / base =? 0 then [] else digits_acc fuel upper base (v / base) []) ++ [digit_char upper (v mod base)].
Proof. cbn [digits_acc]. destruct (_ =? 0); [done |]. apply digits_acc_app. Qed.

Lemma digits_acc_nonempty fuel upper base v acc : digits_acc (S fuel) upper base v acc <> [].
Proof. rewrite digits_acc_app, digits_acc_snoc. intros E. apply (f_equal (@length Z)) in E. rewrite !length_app in E. cbn in E. lia. Qed.

Lemma hex_digit_char upper d : 0 <= d < 16 -> hex_digit (digit_char upper d) = Some d.
Proof.
  intros Hd. rewrite <- (Z2Nat.id d) by lia. assert (Z.to_nat d < 16)%nat as Hn by lia. revert Hn.
  generalize (Z.to_nat d) as n. intros n Hn. destruct upper; (do 16 (destruct n as [| n]; [reflexivity |])); lia.
Qed.

(** Reading back the hexadecimal digits of a number. *)
Lemma hex_digits_number fuel upper v s any a :
  0 <= v < 16 ^ Z.of_nat (S fuel) ->
  hex_digits (digits_acc (S fuel) upper 16 v [] ++ s) any a =
    hex_digits s true (a * 16 ^ Z.of_nat (length (digits_acc (S fuel) upper 16 v [])) + v).
Proof.
  revert v s any a. induction fuel as [| fuel IH]; intros v s any a Hv; rewrite digits_acc_snoc;
    pose proof (Z.div_mod v 16 ltac:(lia)); pose proof (Z.mod_pos_bound v 16 ltac:(lia)).
  - assert (v / 16 = 0) as E by (apply Z.div_small; cbn in Hv; lia). rewrite E. cbn [Z.eqb app hex_digits length].
    rewrite hex_digit_char by done. f_equal. lia.
  - destruct (Z.eqb_spec (v / 16) 0) as [E | E]; cbn [app].
    + cbn [hex_digits length]. rewrite hex_digit_char by done. f_equal. lia.
    + rewrite <- app_assoc, IH.
      * cbn [app hex_digits]. rewrite hex_digit_char by done. f_equal.
        rewrite length_app. cbn [length].
        rewrite Nat2Z.inj_add, Z.pow_add_r by lia. lia.
      * split; [apply Z.div_pos; lia |]. apply Z.div_lt_upper_bound; [lia |].
        rewrite <- Z.pow_succ_r by lia. rewrite Nat2Z.inj_succ in Hv. lia.
Qed.

(** Every digit is a hexadecimal digit. *)
Lemma number_digits fuel upper v :
  0 <= v -> Forall (fun c => exists d, hex_digit c = Some d) (digits_acc fuel upper 16 v []).
Proof.
  revert v. induction fuel as [| fuel IH]; intros v Hv; [constructor |].
  rewrite digits_acc_snoc. apply Forall_app. split.
  - destruct (_ =? 0); [constructor |]. apply IH, Z.div_pos; lia.
  - constructor; [| constructor]. exists (v mod 16). apply hex_digit_char, Z.mod_pos_bound. lia.
Qed.

Lemma hex_digit_range c d : hex_digit c = Some d -> 48 <= c <= 57 \/ 97 <= c <= 102 \/ 65 <= c <= 70.
Proof.
  unfold hex_digit, is_digit.
  change (chr "0") with 48. change (chr "9") with 57. change (chr "a") with 97. change (chr "f") with 102.
  change (chr "A") with 65. change (chr "F") with 70. intros H.
  destruct (Z.leb_spec 48 c), (Z.leb_spec c 57), (Z.leb_spec 97 c), (Z.leb_spec c 102),
    (Z.leb_spec 65 c), (Z.leb_spec c 70); cbn in H; try done; lia.
Qed.

Definition hex_text (s : list Z) : Prop := Forall (fun c => exists d, hex_digit c = Some d) s.

Lemma skip_space_hex s rest : hex_text s -> s <> [] -> skip_space (s ++ rest) = s ++ rest.
Proof.
  intros H Hne. destruct s as [| c s]; [done |]. inversion_clear H as [| ? ? [d Hd] _]. apply hex_digit_range in Hd.
  cbn [app skip_space]. destruct (Z.eqb_spec c 32), (Z.leb_spec 9 c), (Z.leb_spec c 13); done || lia.
Qed.

(** What may follow a number. *)
Definition ends_number (rest : list Z) : Prop :=
  match rest with [] => True | c :: _ => hex_digit c = None /\ c <> chr "x" /\ c <> chr "X" end.

Lemma skip_0x_other z x s : x <> chr "x" -> x <> chr "X" -> skip_0x (z :: x :: s) = z :: x :: s.
Proof.
  intros H1 H2. destruct s as [| d s]; [done |]. unfold skip_0x.
  destruct (Z.eqb_spec x (chr "x")), (Z.eqb_spec x (chr "X")); try done. by rewrite andb_false_r.
Qed.

Lemma skip_0x_hex s rest : hex_text s -> s <> [] -> ends_number rest -> skip_0x (s ++ rest) = s ++ rest.
Proof.
  intros H Hne Hr. destruct s as [| z [| x s]]; [done | |].
  - destruct rest as [| x rest]; [done |]. destruct Hr as (_ & H1 & H2). by apply skip_0x_other.
  - inversion_clear H as [| ? ? _ H1]. inversion_clear H1 as [| ? ? [d' Hd'] _]. apply hex_digit_range in Hd'.
    apply skip_0x_other; [change (chr "x") with 120 | change (chr "X") with 88]; lia.
Qed.

(** [stoull] reads back what [{:x}] and [std::hex] print, also before other text. *)
Lemma stoull16_hex_then v rest : is_u64 v -> ends_number rest -> stoull16 (hex v ++ rest) = Some v.
Proof.
  intros Hv Hr. unfold is_u64 in Hv. pose proof (number_digits 64 false v ltac:(lia)) as HF.
  fold (hex_text (digits_acc 64 false 16 v [])) in HF. unfold stoull16.
  change (hex v) with (digits_acc 64 false 16 v []).
  assert (digits_acc 64 false 16 v [] <> []) as Hne by apply digits_acc_nonempty.
  rewrite skip_space_hex by done.
  destruct (digits_acc 64 false 16 v []) as [| c s] eqn:E; [done |].
  assert (c <> chr "-" /\ c <> chr "+") as [H1 H2].
  { inversion_clear HF as [| ? ? [d Hd] _]. apply hex_digit_range in Hd.
    change (chr "-") with 45. change (chr "+") with 43. lia. }
  cbn [app]. destruct (Z.eqb_spec c (chr "-")); [done |]. destruct (Z.eqb_spec c (chr "+")); [done |].
  change (c :: s ++ rest) with ((c :: s) ++ rest). rewrite skip_0x_hex by done. rewrite <- E.
  rewrite hex_digits_number by lia. rewrite Z.mul_0_l, Z.add_0_l.
  destruct rest as [| x rest]; cbn [hex_digits].
  - cbn [negb]. destruct (Z.leb_spec (2 ^ 64) v); [lia | done].
  - destruct Hr as (-> & _ & _). cbn [negb]. destruct (Z.leb_spec (2 ^ 64) v); [lia | done].
Qed.

Lemma stoull16_hex v : is_u64 v -> stoull16 (hex v) = Some v.
Proof. intros Hv. rewrite <- (app_nil_r (hex v)). by apply stoull16_hex_then. Qed.

Example vformat_examples :
  vformat (bytes "x") 0xAB12 = Some (bytes "ab12") /\ vformat (bytes "#010X") 0xAB12 = Some (bytes "0X0000AB12") /\
  vformat (bytes "*^9d") 1234 = Some (bytes "**1234***") /\ vformat (bytes ".3") 5 = None /\
  vformat (bytes "+o") 8 = Some (bytes "+10") /\ vformat (bytes "c") 65 = Some (bytes "A").
Proof. by vm_compute. Qed.
