(* ===== verification/Pe.v ===== *)
(** * PE images in the controller: [revhv-um/pe.cpp], [pe.hpp],
    [pdb_parser.cpp]

    A PE file mapped from disk is read through addresses of the loaded image:
    [from_file] builds the translation, [parse] reads the headers, the sections
    and the name of the PDB, whose symbols [get_closest_symbol] searches. Reading
    the PDB itself is the work of raw_pdb and is a parameter, as is the download. *)
From Stdlib Require Import ZArith Lia String Ascii List Bool.
From stdpp Require Import base numbers list option functions sorting.
From S2P Require Import Prelude Memory StdFormat.

(** ** Data *)

Record symbol_info := mk_symbol { sym_name : list Z; sym_rva : Z }.
Record section := mk_section { sect_name : list Z; sect_va : Z; sect_rva : Z; sect_size : Z }.

(** The order by address. *)
Definition sym_le (a b : symbol_info) : Prop := sym_rva a <= sym_rva b.
#[export] Instance sym_le_dec : RelDecision sym_le := fun a b => decide (sym_rva a <= sym_rva b).

(** [section_mapping]. *)
Record section_mapping := mk_mapping {
  virtual_address : Z; virtual_size : Z; raw_offset : Z; raw_size : Z }.

(** Offsets and sizes of the structures of the Windows SDK. *)
Definition sizeof_dos_header : Z := 64.
Definition sizeof_nt_headers : Z := 264.
Definition sizeof_file_header : Z := 20.
Definition sizeof_section_header : Z := 40.
Definition sizeof_debug_directory : Z := 28.
Definition IMAGE_DOS_SIGNATURE : Z := 0x5A4D.
Definition IMAGE_NT_SIGNATURE : Z := 0x4550.
Definition IMAGE_DEBUG_TYPE_CODEVIEW : Z := 2.
Definition codeview_rsds_signature : Z := 0x53445352.
Definition sizeof_rsds : Z := 24.

(** A member of a structure: [n] bytes at [off]. *)
Definition member (b : list Z) (off n : Z) : Z := le_combine (slice b off n).
Definition e_magic (dos : list Z) : Z := member dos 0 2.
Definition e_lfanew (dos : list Z) : Z := s32 (member dos 60 4).
Definition nt_signature (nt : list Z) : Z := member nt 0 4.
Definition NumberOfSections (nt : list Z) : Z := member nt 6 2.
Definition SizeOfOptionalHeader (nt : list Z) : Z := member nt 20 2.
Definition SizeOfHeaders (nt : list Z) : Z := member nt 84 4.
(** [OptionalHeader.DataDirectory[IMAGE_DIRECTORY_ENTRY_DEBUG]]. *)
Definition debug_VirtualAddress (nt : list Z) : Z := member nt 184 4.
Definition debug_Size (nt : list Z) : Z := member nt 188 4.

Definition read_section_mapping (sh : list Z) : section_mapping :=
  mk_mapping (member sh 12 4) (member sh 8 4) (member sh 20 4) (member sh 16 4).

(** ** Reading a mapped file *)

Section pe.
(** The file, whose [file_size] bytes are mapped at [mapped_view], and the address
    the image is taken to be loaded at. *)
Variable file : list Z.
Variable mapped_view image_base : Z.

Definition file_size : Z := Z.of_nat (length file).

(** An access to the mapped view at a 64-bit offset from its start. *)
Definition view (off n : Z) : outcome (list Z) :=
  if off + n <=? file_size then Ok (slice file off n) else Undefined.

(** The section table of [from_file]: [n] entries from the [i]th. *)
Fixpoint section_table (table : Z) (i : Z) (n : nat) : outcome (list section_mapping) :=
  match n with
  | O => Ok []
  | S n =>
      let entry_off := table +64 (i * sizeof_section_header) in
      if file_size <? (entry_off +64 sizeof_section_header) then Ok []
      else
        let! sh := view entry_off sizeof_section_header in
        let! rest := section_table table (i + 1) n in
        Ok (read_section_mapping sh :: rest)
  end.

(** The translation [pe::from_file] builds: the size of the headers and the
    sections, nothing when the file is not a PE image. *)
Definition from_file : outcome (Z * list section_mapping) :=
  if file_size <? sizeof_dos_header then Ok (0, []) else
  let! dos := view 0 sizeof_dos_header in
  if negb (e_magic dos =? IMAGE_DOS_SIGNATURE) then Ok (0, []) else
  let nt_offset := u64 (e_lfanew dos) in
  if file_size <? (nt_offset +64 sizeof_nt_headers) then Ok (0, []) else
  let! nt := view nt_offset sizeof_nt_headers in
  if negb (nt_signature nt =? IMAGE_NT_SIGNATURE) then Ok (0, []) else
  let! sections :=
    section_table (nt_offset +64 (4 + sizeof_file_header + SizeOfOptionalHeader nt)) 0
      (Z.to_nat (NumberOfSections nt)) in
  Ok (SizeOfHeaders nt, sections).

Definition effective_base : Z := if image_base =? 0 then mapped_view else image_base.

(** The section of an address. *)
Definition in_section (rva : Z) (s : section_mapping) : bool :=
  (virtual_address s <=? rva) && (rva <? u32 (virtual_address s + Z.max (virtual_size s) (raw_size s))).

(** [local_read]: [None] where it returns false. *)
Definition local_read (hdr_size : Z) (sections : list section_mapping) (source n : Z)
    : outcome (option (list Z)) :=
  if (source =? 0) || (n =? 0) then Ok None else
  let rva := source -64 effective_base in
  let copy off := let! bs := view off n in Ok (Some bs) in
  if rva <? hdr_size then
    if file_size <? (rva +64 n) then Ok None else copy rva
  else
    match List.find (in_section rva) sections with
    | Some s =>
        let file_offset := raw_offset s +64 (rva -64 virtual_address s) in
        if file_size <? (file_offset +64 n) then Ok None else copy file_offset
    | None => if (rva +64 n) <=? file_size then copy rva else Ok None
    end.
End pe.

(** ** Parsing *)

Section parse.
(** The read function, the base and the size of the object. *)
Variable read : Z -> Z -> outcome (option (list Z)).
Variable m_base m_size : Z.

(** Symbols of the PDB with a file name and a symbol id, in any order; [None] when
    it cannot be found, downloaded or read. *)
Variable pdb_symbols : list Z -> list Z -> option (list symbol_info).

(** Reading in a body whose failures ([throw], [return false]) all lead to the
    same result. *)
Definition try_bind {A B} (m : outcome (option A)) (k : A -> outcome (option B)) : outcome (option B) :=
  let! r := m in match r with Some a => k a | None => Ok None end.
Local Notation "'let?' x ':=' m 'in' k" := (try_bind m (fun x => k))
  (at level 10, x pattern, m at level 100, k at level 200).

(** [validate_and_read_headers], with the offset of the section table. *)
Definition validate_and_read_headers : outcome (option (list Z * Z)) :=
  if (m_base =? 0) || (m_size <? sizeof_dos_header) then Ok None else
  let? dos := read m_base sizeof_dos_header in
  if negb (e_magic dos =? IMAGE_DOS_SIGNATURE) then Ok None else
  if e_lfanew dos <? 0 then Ok None else
  let nt_offset := e_lfanew dos in
  if (m_size <? nt_offset) || (m_size - nt_offset <? sizeof_nt_headers) then Ok None else
  let? nt := read (m_base +64 nt_offset) sizeof_nt_headers in
  if negb (nt_signature nt =? IMAGE_NT_SIGNATURE) then Ok None else
  Ok (Some (nt, nt_offset + (4 + sizeof_file_header) + SizeOfOptionalHeader nt)).

Definition read_section (sh : list Z) : section :=
  let rva := member sh 12 4 in
  mk_section (cstr (slice sh 0 8)) (m_base +64 rva) rva
    (if member sh 8 4 =? 0 then member sh 16 4 else member sh 8 4).

Fixpoint read_section_loop (table i : Z) (n : nat) : outcome (option (list section)) :=
  match n with
  | O => Ok (Some [])
  | S n =>
      let? sh := read (m_base +64 (table + i * sizeof_section_header)) sizeof_section_header in
      let? rest := read_section_loop table (i + 1) n in
      Ok (Some (read_section sh :: rest))
  end.

(** [read_sections]. *)
Definition read_sections (nt : list Z) (table : Z) : outcome (option (list section)) :=
  let count := NumberOfSections nt in
  if m_size <? table then Ok None else
  if (0 <? count) && (m_size - table <? count * sizeof_section_header) then Ok None else
  read_section_loop table 0 (Z.to_nat count).

(** [std::filesystem::path(p).filename()]: what follows the last separator, or a
    drive name at the front. *)
Definition is_separator (c : Z) : bool := (c =? chr "\") || (c =? chr "/").
Fixpoint after_separator (p : list Z) : option (list Z) :=
  match p with
  | [] => None
  | c :: p => match after_separator p with
              | Some f => Some f
              | None => if is_separator c then Some p else None
              end
  end.
Definition filename (p : list Z) : list Z :=
  match after_separator p with
  | Some f => f
  | None => match p with _ :: c :: rest => if c =? chr ":" then rest else p | _ => p end
  end.

(** [codeview_info]: the GUID as its bytes, the age and the file name. *)
Record codeview_info := mk_codeview { guid : list Z; age : Z; pdb_file_name : list Z }.

(** An RSDS record: [None] is a [continue]. *)
Definition read_codeview (data : list Z) : option codeview_info :=
  if negb (member data 0 4 =? codeview_rsds_signature) then None else
  let path := drop (Z.to_nat sizeof_rsds) data in
  let full_path := cstr path in
  if (length full_path =? 0)%nat || (length full_path =? length path)%nat then None else
  let name := filename full_path in
  match name with
  | [] => None
  | _ => Some (mk_codeview (slice data 4 16) (member data 20 4) name)
  end.

(** The loop of [try_extract_codeview_info] over the debug directory. *)
Fixpoint codeview_loop (debug_rva i : Z) (n : nat) : outcome (option (option codeview_info)) :=
  match n with
  | O => Ok (Some None)
  | S n =>
      let next := codeview_loop debug_rva (i + 1) n in
      let? entry := read (m_base +64 (debug_rva + i * sizeof_debug_directory)) sizeof_debug_directory in
      let rva := member entry 20 4 in
      let size := member entry 16 4 in
      if negb (member entry 12 4 =? IMAGE_DEBUG_TYPE_CODEVIEW) then next
      else if (rva =? 0) || (size <? sizeof_rsds) then next
      else if (m_size <? rva) || (m_size - rva <? size) then next
      else
        let! data := read (m_base +64 rva) size in
        match data with
        | None => next
        | Some data => match read_codeview data with Some info => Ok (Some (Some info)) | None => next end
        end
  end.

(** [try_extract_codeview_info]: [None] where it throws, [Some None] where it
    returns false. *)
Definition try_extract_codeview_info (nt : list Z) : outcome (option (option codeview_info)) :=
  let rva := debug_VirtualAddress nt in
  let size := debug_Size nt in
  if (rva =? 0) || (size <? sizeof_debug_directory) then Ok (Some None) else
  if (m_size <? rva) || (m_size - rva <? size) then Ok (Some None) else
  codeview_loop rva 0 (Z.to_nat (size / sizeof_debug_directory)).

(** [build_symbol_id]. *)
Definition HEX (n : nat) (v : Z) : list Z := pad_left (chr "0") n (number true 16 v).
Definition build_symbol_id (g : list Z) (a : Z) : list Z :=
  HEX 8 (member g 0 4) ++ HEX 4 (member g 4 2) ++ HEX 4 (member g 6 2) ++
  concat (map (HEX 2) (drop 8 g)) ++ number true 16 a.

(** [pdb::load_symbols] sorts what it reads. *)
Definition load_symbols (cv : codeview_info) : list symbol_info :=
  match pdb_symbols (pdb_file_name cv) (build_symbol_id (guid cv) (age cv)) with
  | Some symbols => merge_sort sym_le symbols
  | None => []
  end.

(** A [pe] that has been parsed. *)
Record pe := mk_pe { m_valid : bool; m_sections : list section; m_symbols : list symbol_info }.
Definition invalid_pe : pe := mk_pe false [] [].

(** [pe::parse] of an object that is not yet parsed. *)
Definition parse : outcome pe :=
  let! headers := validate_and_read_headers in
  match headers with
  | None => Ok invalid_pe
  | Some (nt, table) =>
      let! sections := read_sections nt table in
      match sections with
      | None => Ok invalid_pe
      | Some sections =>
          let! cv := try_extract_codeview_info nt in
          match cv with
          | None => Ok (mk_pe false sections [])
          | Some None => Ok (mk_pe true sections [])
          | Some (Some cv) => Ok (mk_pe true sections (load_symbols cv))
          end
      end
  end.
End parse.

(** [from_file] and [parse]. *)
Definition load_pe (file : list Z) (mapped_view image_base : Z)
    (pdb_symbols : list Z -> list Z -> option (list symbol_info)) : outcome pe :=
  let! (hdr_size, sections) := from_file file in
  parse (local_read file mapped_view image_base hdr_size sections)
    (effective_base mapped_view image_base) (file_size file) pdb_symbols.

(** ** Searching the symbols *)

(** [std::upper_bound]: the first index in [[first, first + count)] whose symbol
    lies above [rva]; halving takes [fuel] steps at most. *)
Fixpoint upper_bound (symbols : list symbol_info) (rva : Z) (fuel : nat) (first count : nat) : nat :=
  match fuel with
  | O => first
  | S fuel =>
      if (count =? 0)%nat then first
      else
        let step := (count / 2)%nat in
        let mid := (first + step)%nat in
        if rva <? sym_rva (nth mid symbols (mk_symbol [] 0)) then upper_bound symbols rva fuel first step
        else upper_bound symbols rva fuel (S mid) (count - (S step))
  end.

(** [pe::get_closest_symbol]. *)
Definition get_closest_symbol (symbols : list symbol_info) (rva : Z) : option symbol_info :=
  match symbols with
  | [] => None
  | _ =>
      match upper_bound symbols rva (S (length symbols)) 0 (length symbols) with
      | O => None
      | S i => symbols !! i
      end
  end.

(** ** Lemmas *)

Definition file_ok (file : list Z) : Prop :=
  Forall (fun b => 0 <= b < 256) file /\ file_size file < 2 ^ 62.

Lemma slice_bytes file off n : Forall (fun b => 0 <= b < 256) file -> Forall (fun b => 0 <= b < 256) (slice file off n).
Proof. intros H. unfold slice. by apply Forall_take, Forall_drop. Qed.

Lemma member_range b off n :
  Forall (fun b => 0 <= b < 256) b -> 0 <= n -> 0 <= member b off n < 256 ^ n.
Proof.
  intros Hb Hn. unfold member. pose proof (le_combine_range (slice b off n) (slice_bytes b off n Hb)) as [H0 H1].
  split; [done |]. eapply Z.lt_le_trans; [exact H1 |]. apply Z.pow_le_mono_r; [lia |].
  unfold slice. rewrite length_take. lia.
Qed.

Section safety.
Variable file : list Z.
Variable mapped_view image_base : Z.
Hypothesis Hfile : file_ok file.

Abbreviation ebase := (effective_base mapped_view image_base).

Definition bytes_ok (r : option (list Z)) : Prop :=
  match r with Some bs => Forall (fun b => 0 <= b < 256) bs | None => True end.

Lemma view_ok off n : off + n <= file_size file ->
  exists bs, view file off n = Ok bs /\ Forall (fun b => 0 <= b < 256) bs.
Proof.
  intros H. unfold view. destruct (Z.leb_spec (off + n) (file_size file)); [| lia].
  eexists. split; [reflexivity |]. apply slice_bytes, Hfile.
Qed.

Definition mapping_ok (m : section_mapping) : Prop :=
  0 <= virtual_address m < 2 ^ 32 /\ 0 <= raw_offset m < 2 ^ 32.

(** A read at an offset of the image that does not wrap around is inside the
    mapped file, or fails. *)
Lemma local_read_ok hdr sections off n :
  0 <= hdr < 2 ^ 32 -> Forall mapping_ok sections ->
  0 <= off -> 0 <= n <= 2 ^ 62 -> off + n <= 2 ^ 63 ->
  exists r, local_read file mapped_view image_base hdr sections (ebase +64 off) n = Ok r /\ bytes_ok r.
Proof.
  intros Hhdr Hsec Hoff Hn Hsum. unfold local_read.
  destruct (_ || _); [by exists None |].
  assert ((ebase +64 off) -64 ebase = off) as ->.
  { unfold sub64, add64. rewrite wrap_sub_l. replace (ebase + off - ebase) with off by lia.
    unfold wrap. apply Z.mod_small. lia. }
  assert (forall x, 0 <= x -> x + n < 2 ^ 64 -> x +64 n <= file_size file ->
    exists r, (let! bs := view file x n in Ok (Some bs)) = Ok r /\ bytes_ok r) as Hcopy.
  { intros x Hx Hlt Hle. unfold add64, wrap in Hle. rewrite Z.mod_small in Hle by lia.
    destruct (view_ok x n Hle) as (bs & -> & Hbs). by exists (Some bs). }
  destruct (Z.ltb_spec off hdr).
  - destruct (Z.ltb_spec (file_size file) (off +64 n)); [by exists None |]. apply Hcopy; lia.
  - destruct (find (in_section off) sections) as [m |] eqn:Ef.
    + apply find_some in Ef as [Hin Hm]. rewrite List.Forall_forall in Hsec. destruct (Hsec m Hin) as [Hva Hro].
      unfold in_section in Hm. apply andb_prop in Hm as [Hle Hlt].
      apply Z.leb_le in Hle. apply Z.ltb_lt in Hlt.
      pose proof (wrap_range 32 (virtual_address m + Z.max (virtual_size m) (raw_size m)) ltac:(lia)).
      assert (raw_offset m +64 (off -64 virtual_address m) = raw_offset m + (off - virtual_address m)) as E.
      { unfold add64, sub64, wrap. rewrite (Z.mod_small (off - _)), Z.mod_small by lia. done. }
      rewrite E. destruct (Z.ltb_spec (file_size file) ((raw_offset m + (off - virtual_address m)) +64 n));
        [by exists None |]. apply Hcopy; lia.
    + destruct (Z.leb_spec (off +64 n) (file_size file)); [apply Hcopy; lia | by exists None].
Qed.

(** The address of the NT headers in the DOS header, if there is one, does not
    point in front of the file. *)
Definition lfanew_ok : Prop :=
  sizeof_dos_header <= file_size file -> e_magic (slice file 0 64) = IMAGE_DOS_SIGNATURE ->
  0 <= e_lfanew (slice file 0 64).

Lemma section_table_ok table i n :
  0 <= table < 2 ^ 63 -> 0 <= i -> i + Z.of_nat n < 2 ^ 32 ->
  exists ms, section_table file table i n = Ok ms /\ Forall mapping_ok ms.
Proof.
  revert i. induction n as [| n IH]; intros i Ht Hi Hn; cbn [section_table]; [by exists [] |].
  unfold sizeof_section_header. unfold add64, wrap. rewrite (Z.mod_small (table + i * 40)) by lia.
  rewrite Z.mod_small by lia.
  destruct (Z.ltb_spec (file_size file) (table + i * 40 + 40)); [by exists [] |].
  destruct (view_ok (table + i * 40) 40) as (sh & -> & Hsh); [lia |].
  destruct (IH (i + 1)) as (ms & E & Hms); [lia | lia | lia |]. cbn [obind]. rewrite E.
  eexists. split; [reflexivity |]. constructor; [| done].
  split; [apply (member_range sh 12 4 Hsh); lia | apply (member_range sh 20 4 Hsh); lia].
Qed.

Lemma from_file_ok : lfanew_ok ->
  exists hdr ms, from_file file = Ok (hdr, ms) /\ 0 <= hdr < 2 ^ 32 /\ Forall mapping_ok ms.
Proof.
  intros Hl. unfold from_file. destruct Hfile as [Hb Hs].
  destruct (Z.ltb_spec (file_size file) sizeof_dos_header); [by exists 0, [] |].
  unfold view at 1. destruct (Z.leb_spec (0 + sizeof_dos_header) (file_size file)); [| lia]. cbn [obind].
  change (slice file 0 sizeof_dos_header) with (slice file 0 64).
  destruct (Z.eqb_spec (e_magic (slice file 0 64)) IMAGE_DOS_SIGNATURE) as [Em |]; cbn [negb]; [| by exists 0, []].
  specialize (Hl ltac:(done) Em).
  assert (e_lfanew (slice file 0 64) < 2 ^ 31) as Hlt.
  { unfold e_lfanew, signed. pose proof (wrap_range 32 (member (slice file 0 64) 60 4) ltac:(lia)).
    destruct (Z.ltb_spec (wrap 32 (member (slice file 0 64) 60 4)) (2 ^ (32 - 1))); lia. }
  set (o := e_lfanew (slice file 0 64)) in *.
  assert (u64 o = o) as -> by (unfold wrap; apply Z.mod_small; lia).
  assert (o +64 sizeof_nt_headers = o + 264) as -> by (unfold add64, wrap, sizeof_nt_headers; apply Z.mod_small; lia).
  destruct (Z.ltb_spec (file_size file) (o + 264)); [by exists 0, [] |].
  destruct (view_ok o sizeof_nt_headers) as (nt & -> & Hnt); [unfold sizeof_nt_headers; lia |]. cbn [obind].
  destruct (Z.eqb_spec (nt_signature nt) IMAGE_NT_SIGNATURE); cbn [negb]; [| by exists 0, []].
  pose proof (member_range nt 20 2 Hnt ltac:(lia)) as Hm1. pose proof (member_range nt 6 2 Hnt ltac:(lia)) as Hm2.
  pose proof (member_range nt 84 4 Hnt ltac:(lia)) as Hm3.
  unfold SizeOfOptionalHeader, NumberOfSections, SizeOfHeaders, sizeof_file_header.
  assert (o +64 (4 + 20 + member nt 20 2) = o + (24 + member nt 20 2)) as ->
    by (unfold add64, wrap; rewrite Z.mod_small; lia).
  destruct (section_table_ok (o + (24 + member nt 20 2)) 0 (Z.to_nat (member nt 6 2))) as (ms & -> & Hms); [lia..|].
  by exists (member nt 84 4), ms.
Qed.
End safety.

(** [parse] over any read function that returns, for addresses in the image. *)
Section parse_safety.
Variable read : Z -> Z -> outcome (option (list Z)).
Variable m_base m_size : Z.
Variable pdb_symbols : list Z -> list Z -> option (list symbol_info).
Hypothesis Hbase : is_u64 m_base.
Hypothesis Hsize : m_size < 2 ^ 62.
Hypothesis Hread : forall off n, 0 <= off -> 0 <= n <= 2 ^ 62 -> off + n <= 2 ^ 63 ->
  exists r, read (m_base +64 off) n = Ok r /\ bytes_ok r.

Lemma validate_ok :
  exists r, validate_and_read_headers read m_base m_size = Ok r /\
    match r with
    | Some (nt, table) => Forall (fun b => 0 <= b < 256) nt /\ 0 <= table < 2 ^ 62 + 2 ^ 32
    | None => True
    end.
Proof.
  unfold validate_and_read_headers, try_bind. destruct (_ || _); [by exists None |].
  destruct (Hread 0 sizeof_dos_header) as (r & E & Hr); [done..|].
  assert (m_base +64 0 = m_base) as E0 by (unfold add64, wrap; rewrite Z.add_0_r; by apply Z.mod_small).
  rewrite E0 in E. rewrite E. cbn [obind]. destruct r as [dos |]; [| by exists None].
  destruct (negb _); [by exists None |]. destruct (Z.ltb_spec (e_lfanew dos) 0); [by exists None |].
  destruct (Z.ltb_spec m_size (e_lfanew dos)); [by exists None |]. cbn [orb].
  destruct (_ <? sizeof_nt_headers); [by exists None |].
  destruct (Hread (e_lfanew dos) sizeof_nt_headers) as (r & -> & Hr'); [lia | done | unfold sizeof_nt_headers; lia |].
  cbn [obind]. destruct r as [nt |]; [| by exists None]. destruct (negb _); [by exists None |].
  eexists. split; [reflexivity |]. split; [done |].
  pose proof (member_range nt 20 2 Hr' ltac:(lia)). unfold SizeOfOptionalHeader, sizeof_file_header. lia.
Qed.

Lemma read_section_loop_ok table i n :
  0 <= table < 2 ^ 62 + 2 ^ 32 -> 0 <= i -> i + Z.of_nat n < 2 ^ 32 ->
  is_ok (read_section_loop read m_base table i n).
Proof.
  revert i. induction n as [| n IH]; intros i Ht Hi Hn; cbn [read_section_loop]; [by eexists |].
  unfold try_bind, sizeof_section_header.
  destruct (Hread (table + i * 40) 40) as (r & -> & _); [lia | lia | lia |]. cbn [obind].
  destruct r as [sh |]; [| by eexists]. destruct (IH (i + 1)) as [[ss |] ->]; [lia..| |]; by eexists.
Qed.

Lemma codeview_loop_ok rva i n :
  0 <= rva < 2 ^ 32 -> 0 <= i -> i + Z.of_nat n < 2 ^ 32 ->
  is_ok (codeview_loop read m_base m_size rva i n).
Proof.
  revert i. induction n as [| n IH]; intros i Ht Hi Hn; cbn [codeview_loop]; [by eexists |].
  unfold try_bind, sizeof_debug_directory.
  destruct (Hread (rva + i * 28) 28) as (r & -> & Hr); [lia | lia | lia |]. cbn [obind].
  destruct r as [e |]; [| by eexists].
  assert (is_ok (codeview_loop read m_base m_size rva (i + 1) n)) as Hnext by (apply IH; lia).
  pose proof (member_range e 20 4 Hr ltac:(lia)). pose proof (member_range e 16 4 Hr ltac:(lia)).
  destruct (negb _); [done |]. destruct (_ || _); [done |]. destruct (_ || _); [done |].
  destruct (Hread (member e 20 4) (member e 16 4)) as (r & -> & _); [lia | lia | lia |]. cbn [obind].
  destruct r as [data |]; [| done]. destruct (read_codeview data); [by eexists | done].
Qed.

Lemma parse_ok : is_ok (parse read m_base m_size pdb_symbols).
Proof.
  unfold parse. destruct validate_ok as (r & -> & Hr). cbn [obind].
  destruct r as [[nt table] |]; [| by eexists]. destruct Hr as [Hnt Htable].
  assert (is_ok (read_sections read m_base m_size nt table)) as [r ->].
  { unfold read_sections. destruct (_ <? _); [by eexists |]. destruct (_ && _); [by eexists |].
    pose proof (member_range nt 6 2 Hnt ltac:(lia)). unfold NumberOfSections. apply read_section_loop_ok; lia. }
  cbn [obind]. destruct r as [ss |]; [| by eexists].
  assert (is_ok (try_extract_codeview_info read m_base m_size nt)) as [r ->].
  { unfold try_extract_codeview_info. destruct (_ || _); [by eexists |]. destruct (_ || _); [by eexists |].
    pose proof (member_range nt 184 4 Hnt ltac:(lia)). pose proof (member_range nt 188 4 Hnt ltac:(lia)).
    unfold debug_VirtualAddress, debug_Size, sizeof_debug_directory.
    pose proof (Z.div_pos (member nt 188 4) 28 ltac:(lia) ltac:(lia)).
    pose proof (Z.div_le_upper_bound (member nt 188 4) 28 (member nt 188 4) ltac:(lia) ltac:(lia)).
    apply codeview_loop_ok; lia. }
  cbn [obind]. destruct r as [[cv |] |]; by eexists.
Qed.
End parse_safety.

(** Loading a PE file of any contents returns and reads nothing outside of the
    mapped file, as long as a DOS header does not place the NT headers in front
    of the file. *)
Theorem load_pe_in_bounds file mapped_view image_base pdb_symbols
    (Hfile : file_ok file) (Hlfanew : lfanew_ok file)
    (Hview : is_u64 mapped_view) (Hbase : is_u64 image_base) :
  exists p, load_pe file mapped_view image_base pdb_symbols = Ok p.
Proof.
  unfold load_pe. destruct (from_file_ok file Hfile Hlfanew) as (hdr & ms & -> & Hhdr & Hms). cbn [obind].
  apply parse_ok.
  - unfold effective_base. by destruct (image_base =? 0).
  - apply Hfile.
  - intros off n H1 H2 H3. by apply local_read_ok.
Qed.

(** ** Searching *)

(** Symbols in the order [load_symbols] leaves them in. *)
Definition symbols_sorted (symbols : list symbol_info) : Prop :=
  forall i j a b, (i <= j)%nat -> symbols !! i = Some a -> symbols !! j = Some b -> sym_rva a <= sym_rva b.

Lemma upper_bound_ok symbols rva fuel first count :
  symbols_sorted symbols -> (count < fuel)%nat -> (first + count <= length symbols)%nat ->
  (forall i a, (i < first)%nat -> symbols !! i = Some a -> sym_rva a <= rva) ->
  (forall i a, (first + count <= i)%nat -> symbols !! i = Some a -> rva < sym_rva a) ->
  let k := upper_bound symbols rva fuel first count in
  (k <= length symbols)%nat /\
  (forall i a, (i < k)%nat -> symbols !! i = Some a -> sym_rva a <= rva) /\
  (forall i a, (k <= i)%nat -> symbols !! i = Some a -> rva < sym_rva a).
Proof.
  intros Hs. revert first count. induction fuel as [| fuel IH]; intros first count Hf Hlen Hlo Hhi; [lia |].
  cbn [upper_bound]. destruct (Nat.eqb_spec count 0) as [-> | Hc].
  { rewrite Nat.add_0_r in *. auto. }
  pose proof (Nat.div_lt count 2 ltac:(lia) ltac:(lia)) as Hhalf. set (step := (count / 2)%nat) in *.
  destruct (lookup_lt_is_Some_2 symbols (first + step)) as [m Hm]; [lia |].
  rewrite nth_lookup, Hm. cbn [from_option id]. destruct (Z.ltb_spec rva (sym_rva m)) as [Hlt | Hge].
  - apply IH; [lia | lia | done |]. intros i a Hi Ha. pose proof (Hs (first + step)%nat i m a Hi Hm Ha). lia.
  - apply IH; [lia | lia | | intros i a Hi Ha; apply (Hhi i); [lia | done]].
    intros i a Hi Ha. pose proof (Hs i (first + step)%nat a m ltac:(lia) Ha Hm). lia.
Qed.

(** The binary search finds the symbol an address belongs to: the last one at or
    below it, none exactly when all symbols lie above it. *)
Theorem get_closest_symbol_spec symbols rva (Hs : symbols_sorted symbols) :
  match get_closest_symbol symbols rva with
  | Some s => In s symbols /\ sym_rva s <= rva /\
              forall t, In t symbols -> sym_rva t <= rva -> sym_rva t <= sym_rva s
  | None => forall t, In t symbols -> rva < sym_rva t
  end.
Proof.
  unfold get_closest_symbol. destruct symbols as [| s0 symbols']; [done |].
  set (symbols := s0 :: symbols') in *.
  destruct (upper_bound_ok symbols rva (S (length symbols)) 0 (length symbols) Hs) as (Hk & Hlo & Hhi);
    [lia | lia | intros; lia | |].
  { intros i a Hi Ha. apply lookup_lt_Some in Ha. lia. }
  destruct (upper_bound symbols rva (S (length symbols)) 0 (length symbols)) as [| k].
  - intros t [i Ht]%list_elem_of_In%list_elem_of_lookup. apply (Hhi i t); [lia | done].
  - destruct (lookup_lt_is_Some_2 symbols k) as [s Es]; [lia |]. rewrite Es.
    split; [apply list_elem_of_In; by apply list_elem_of_lookup_2 with k |]. split; [apply (Hlo k s); [lia | done] |].
    intros t [i Ht]%list_elem_of_In%list_elem_of_lookup Hle.
    destruct (Nat.lt_ge_cases k i); [pose proof (Hhi i t ltac:(lia) Ht); lia |]. by apply (Hs i k).
Qed.

(** [load_symbols] sorts, so the search applies to what it returns. *)
Lemma load_symbols_sorted pdb_symbols cv : symbols_sorted (load_symbols pdb_symbols cv).
Proof.
  unfold load_symbols. destruct (pdb_symbols _ _) as [symbols |]; [| intros i j a b _ Ha; done].
  assert (StronglySorted sym_le (merge_sort sym_le symbols)) as HS.
  { apply Sorted_StronglySorted; [intros a b c; unfold sym_le; lia |].
    apply Sorted_merge_sort. intros a b. unfold sym_le. lia. }
  induction HS as [| s l HS IH Hall]; intros i j a b Hij Ha Hb; [done |].
  destruct i as [| i], j as [| j]; cbn in Ha, Hb; [| | lia |].
  - assert (a = b) as -> by congruence. lia.
  - injection Ha as <-. rewrite List.Forall_forall in Hall. apply Hall.
    apply list_elem_of_In. by apply list_elem_of_lookup_2 with j.
  - apply (IH i j); [lia | done..].
Qed.

(** ** Witnesses and examples *)

(** A DOS header with an [e_lfanew]. *)
Definition dos_header (lfanew : Z) : list Z := le_split 2 IMAGE_DOS_SIGNATURE ++ repeat 0 58 ++ le_split 4 lfanew.
(** An image with one section, [.text] at 1000H. *)
Definition sample_image : list Z :=
  dos_header 64 ++
  le_split 4 IMAGE_NT_SIGNATURE ++ le_split 2 0x8664 ++ le_split 2 1 ++ repeat 0 12 ++ le_split 2 240 ++
  repeat 0 62 ++ le_split 4 0x200 ++ repeat 0 176 ++
  bytes ".text" ++ repeat 0 3 ++ le_split 4 0x800 ++ le_split 4 0x1000 ++ le_split 4 0x800 ++ le_split 4 0x200 ++
  repeat 0 16.

Lemma file_ok_check file :
  forallb (fun b => (0 <=? b) && (b <? 256)) file = true -> file_size file < 2 ^ 62 -> file_ok file.
Proof.
  intros H Hs. split; [| done]. apply List.Forall_forall. intros b Hb.
  rewrite forallb_forall in H. specialize (H b Hb). lia.
Qed.

Lemma load_pe_in_bounds_witness :
  load_pe sample_image 0x10000 0x140000000 (fun _ _ => None) =
    Ok (mk_pe true [mk_section (bytes ".text") 0x140001000 0x1000 0x800] []).
Proof.
  destruct (load_pe_in_bounds sample_image 0x10000 0x140000000 (fun _ _ => None)) as [p E].
  - by apply file_ok_check.
  - intros _ _. vm_compute. discriminate.
  - unfold is_u64. lia.
  - unfold is_u64. lia.
  - rewrite E. revert E. vm_compute. congruence.
Defined.

Lemma get_closest_symbol_spec_witness :
  get_closest_symbol [mk_symbol (bytes "A") 16; mk_symbol (bytes "B") 32] 40 = Some (mk_symbol (bytes "B") 32).
Proof.
  pose proof (get_closest_symbol_spec [mk_symbol (bytes "A") 16; mk_symbol (bytes "B") 32] 40) as H.
  destruct H as [_ _]; [| reflexivity].
  intros i j a b Hij Ha Hb. destruct i as [| [| i]], j as [| [| j]]; cbn in Ha, Hb; try done; try lia;
    injection Ha as <-; injection Hb as <-; cbn; lia.
Defined.

(** [from_file] takes [e_lfanew] for unsigned and its bound check wraps around:
    with -16 it reads the NT headers from 16 bytes in front of the mapping. *)
Theorem negative_lfanew_reads_outside :
  from_file (dos_header (2 ^ 32 - 16) ++ repeat 0 200) = Undefined.
Proof. by vm_compute. Qed.
