(* ===== verification/UmFiles.v ===== *)
(** * Files in the controller: [map_file] of [revhv-um/utils.hpp], the ownership of mapped
    images in [pe.cpp], [pdb_parser.cpp]

    The process has open handles and mapped views. A [pe] that was made from a file owns
    one of each and gives them back when it is destroyed, also after it has been moved.
    The symbols of a PDB come out of the streams of the file, which raw_pdb reads. *)
From Stdlib Require Import ZArith Lia String Ascii List Bool.
From stdpp Require Import base numbers list option gmap sets sorting.
From S2P Require Import Prelude Memory StdFormat Pe.

(** ** Windows *)

(** The handles and views of the process; [bad_releases] counts the releases of what is not
    open, which on a real system may hit an object of somebody else. *)
Record process := mk_process { handles : gset Z; views : gset Z; bad_releases : nat }.
#[export] Instance eta_process : Eta process := fun p => mk_process (handles p) (views p) (bad_releases p).

Definition INVALID_HANDLE_VALUE : Z := 2 ^ 64 - 1.

(** What the calls give, from what is open; [None] is a failure. *)
Class FileApi := {
  CreateFileA : list Z -> gset Z -> option Z;
  CreateFileMappingW : Z -> gset Z -> option Z;
  MapViewOfFile : Z -> gset Z -> option Z;
  (** [nFileSizeHigh] and [nFileSizeLow]. *)
  GetFileInformationByHandle : Z -> option (Z * Z)
}.
Class FileApiOk `{FileApi} := {
  CreateFileA_fresh path s x : CreateFileA path s = Some x -> x ∉ s /\ x <> 0 /\ x <> INVALID_HANDLE_VALUE;
  CreateFileMappingW_fresh f s x : CreateFileMappingW f s = Some x -> x ∉ s;
  MapViewOfFile_fresh m s x : MapViewOfFile m s = Some x -> x ∉ s /\ x <> 0
}.

Definition open_handle (x : Z) (p : process) : process := p <| handles := {[x]} ∪ handles p |>.
Definition open_view (x : Z) (p : process) : process := p <| views := {[x]} ∪ views p |>.
Definition CloseHandle (x : Z) (p : process) : process :=
  if decide (x ∈ handles p) then p <| handles := handles p ∖ {[x]} |> else p <| bad_releases := S (bad_releases p) |>.
Definition UnmapViewOfFile (x : Z) (p : process) : process :=
  if decide (x ∈ views p) then p <| views := views p ∖ {[x]} |> else p <| bad_releases := S (bad_releases p) |>.

(** ** Mapped files *)

Section files.
Context `{FileApi}.

(** [map_file]: handle, base and size. *)
Definition map_file (path : list Z) (p : process) : process * option (Z * Z * Z) :=
  match CreateFileA path (handles p) with
  | None => (p, None)
  | Some file =>
      let p := open_handle file p in
      match CreateFileMappingW file (handles p) with
      | None => (CloseHandle file p, None)
      | Some fileMapping =>
          let p := open_handle fileMapping p in
          match MapViewOfFile fileMapping (views p) with
          | None => (CloseHandle file (CloseHandle fileMapping p), None)
          | Some baseAddress =>
              let p := open_view baseAddress p in
              let p := CloseHandle fileMapping p in
              match GetFileInformationByHandle file with
              | None => (CloseHandle file (CloseHandle fileMapping (UnmapViewOfFile baseAddress p)), None)
              | Some (high, low) => (p, Some (file, baseAddress, Z.lor (shl64 high 32) low))
              end
          end
      end
  end.
Definition unmap_file (fileHandle baseAddress : Z) (p : process) : process :=
  CloseHandle fileHandle (UnmapViewOfFile baseAddress p).

(** ** The objects of class [pe] *)

Record pe_object := mk_object {
  m_base : Z; m_size : Z; m_parsed : bool; m_valid : bool;
  m_owns_mapping : bool; m_mapping_base : Z; m_mapping_handle : Z;
  m_sections : list section; m_symbols : list symbol_info
}.
Definition unparsed (base size : Z) : pe_object := mk_object base size false false false 0 0 [] [].

(** The body of the destructor. *)
Definition release (o : pe_object) (p : process) : process :=
  if m_owns_mapping o then
    let p := if negb (m_mapping_base o =? 0) then UnmapViewOfFile (m_mapping_base o) p else p in
    if negb (m_mapping_handle o =? 0) && negb (m_mapping_handle o =? INVALID_HANDLE_VALUE)
    then CloseHandle (m_mapping_handle o) p else p
  else p.

(** What a move leaves behind. *)
Definition moved_from (o : pe_object) : pe_object :=
  mk_object 0 0 (m_parsed o) (m_valid o) false 0 0 [] [].

(** [from_file]: the local object is moved into the result and destroyed. *)
Definition from_file (path : list Z) (image_base : Z) (p : process) : process * option pe_object :=
  match map_file path p with
  | (p, None) => (p, None)
  | (p, Some (file_handle, base, file_size)) =>
      let result := mk_object (effective_base base image_base) file_size false false true base file_handle [] [] in
      (release (moved_from result) p, Some result)
  end.

(** A program over variables of the class. [None] for one that C++ refuses: a variable is
    made twice, or used where it does not exist. *)
Inductive operation :=
  | construct (v : nat) (base size : Z)
  | construct_from_file (v : nat) (path : list Z) (image_base : Z)
  | move_construct (v w : nat)
  | move_assign (v w : nat)
  | destroy (v : nat).
Abbreviation store := (gmap nat pe_object).

Definition step (op : operation) (st : process * store) : option (process * store) :=
  let '(p, s) := st in
  match op with
  | construct v base size =>
      match s !! v with None => Some (p, <[v := unparsed base size]> s) | Some _ => None end
  | construct_from_file v path image_base =>
      match s !! v with
      | Some _ => None
      | None => let '(p, o) := from_file path image_base p in
                Some (p, match o with Some o => <[v := o]> s | None => s end)
      end
  | move_construct v w =>
      match s !! v, s !! w with
      | None, Some other => Some (p, <[v := other]> (<[w := moved_from other]> s))
      | _, _ => None
      end
  | move_assign v w =>
      match s !! v, s !! w with
      | Some this, Some other =>
          if (v =? w)%nat then Some (p, s)
          else Some (release this p, <[v := other]> (<[w := moved_from other]> s))
      | _, _ => None
      end
  | destroy v => match s !! v with Some o => Some (release o p, delete v s) | None => None end
  end.
Fixpoint run (ops : list operation) (st : process * store) : option (process * store) :=
  match ops with [] => Some st | op :: ops => st ← step op st; run ops st end.

(** *** Lemmas *)

(** [v] is the owner of the resource [x], of the kind that [f] names. *)
Definition owner (f : pe_object -> Z) (s : store) (x : Z) (v : nat) : Prop :=
  exists o, s !! v = Some o /\ m_owns_mapping o = true /\ f o = x.
(** The set has the resources that are owned, each by one variable. *)
Record tracks (f : pe_object -> Z) (xs : gset Z) (s : store) : Prop := {
  tracks_exact x : x ∈ xs <-> exists v, owner f s x v;
  tracks_unique x v v' : owner f s x v -> owner f s x v' -> v = v'
}.
Definition idle (s : store) (v : nat) : Prop := forall o, s !! v = Some o -> m_owns_mapping o = false.

Lemma owner_insert f s x v w o :
  owner f (<[v := o]> s) x w <-> (w = v /\ m_owns_mapping o = true /\ f o = x) \/ (w <> v /\ owner f s x w).
Proof.
  unfold owner. destruct (decide (w = v)) as [-> | Hw].
  - rewrite lookup_insert_eq. naive_solver.
  - rewrite lookup_insert_ne by done. naive_solver.
Qed.

Lemma owner_delete f s x v w : owner f (delete v s) x w <-> w <> v /\ owner f s x w.
Proof.
  unfold owner. destruct (decide (w = v)) as [-> | Hw].
  - rewrite lookup_delete_eq. naive_solver.
  - rewrite lookup_delete_ne by done. naive_solver.
Qed.

Lemma tracks_idle f xs s v o : tracks f xs s -> idle s v -> m_owns_mapping o = false -> tracks f xs (<[v := o]> s).
Proof.
  intros [He Hu] Hv Ho. assert (forall x w, owner f (<[v := o]> s) x w <-> owner f s x w) as E.
  { intros x w. rewrite owner_insert. split; [naive_solver congruence |]. intros Hw. right. split; [| done].
    intros ->. destruct Hw as (o' & E & Eo & _). specialize (Hv _ E). congruence. }
  split; [| intros x w w'; rewrite !E; apply Hu]. intros x. rewrite He. by setoid_rewrite E.
Qed.

Lemma tracks_new f xs s v o :
  tracks f xs s -> s !! v = None -> m_owns_mapping o = true -> f o ∉ xs -> tracks f ({[f o]} ∪ xs) (<[v := o]> s).
Proof.
  intros [He Hu] Hv Ho Hx. split.
  - intros x. rewrite elem_of_union, elem_of_singleton, He. setoid_rewrite owner_insert. split.
    + intros [-> | [w Hw]]; [by exists v; left |]. exists w. right. split; [| done]. intros ->. destruct Hw as (? & ? & _). congruence.
    + naive_solver.
  - intros x w w'. rewrite !owner_insert. intros [(-> & _ & <-) | [Hw H1]] [(-> & _ & Ex) | [Hw' H2]]; [done | | | by apply (Hu x)].
    + exfalso. apply Hx, He. by exists w'.
    + exfalso. apply Hx, He. exists w. by rewrite Ex.
Qed.

Lemma tracks_release f xs s v o :
  tracks f xs s -> s !! v = Some o -> m_owns_mapping o = true -> f o ∈ xs /\ tracks f (xs ∖ {[f o]}) (delete v s).
Proof.
  intros [He Hu] Hv Ho. assert (owner f s (f o) v) as Hov by (by exists o). split; [apply He; by exists v |]. split.
  - intros x. rewrite elem_of_difference, elem_of_singleton, He. setoid_rewrite owner_delete. split.
    + intros [[w Hw] Hne]. exists w. split; [| done]. intros ->. destruct Hw as (o' & E & _ & Ex). congruence.
    + intros (w & Hw & H1). split; [by exists w |]. intros ->. by apply Hw, (Hu (f o)).
  - intros x w w'. rewrite !owner_delete. intros [_ H1] [_ H2]. by apply (Hu x).
Qed.

Lemma tracks_delete_idle f xs s v : tracks f xs s -> idle s v -> tracks f xs (delete v s).
Proof.
  intros [He Hu] Hv. assert (forall x w, owner f (delete v s) x w <-> owner f s x w) as E.
  { intros x w. rewrite owner_delete. split; [by intros [_ ?] |]. intros Hw. split; [| done].
    intros ->. destruct Hw as (o' & E & Eo & _). specialize (Hv _ E). congruence. }
  split; [| intros x w w'; rewrite !E; apply Hu]. intros x. rewrite He. by setoid_rewrite E.
Qed.

(** A move hands a resource over. *)
Lemma tracks_move f xs s v w o :
  tracks f xs s -> s !! v = None -> s !! w = Some o -> tracks f xs (<[v := o]> (<[w := moved_from o]> s)).
Proof.
  intros [He Hu] Hv Hw. assert (v <> w) as Hne by congruence.
  assert (forall x u, owner f (<[v := o]> (<[w := moved_from o]> s)) x u <->
    (u = v /\ owner f s x w) \/ (u <> w /\ owner f s x u)) as E.
  { intros x u. rewrite !owner_insert. unfold owner at 2 3. rewrite Hw. cbn. split.
    - intros [(-> & H1 & H2) | (Hu1 & [(_ & ? & _) | (Hu2 & H1)])]; [left; naive_solver | done | by right].
    - intros [(-> & o' & [= <-] & H1 & H2) | (Hu1 & H1)]; [by left | right].
      split; [intros ->; destruct H1 as (o' & E' & _); congruence |]. by right. }
  split.
  - intros x. rewrite He. setoid_rewrite E. split.
    + intros [u Hu1]. destruct (decide (u = w)) as [-> | Hn]; [exists v; by left | exists u; by right].
    + intros (u & [[_ ?] | [_ ?]]); [by exists w | by exists u].
  - intros x u u'. rewrite !E. intros [(-> & H1) | (N1 & H1)] [(-> & H2) | (N2 & H2)]; [done | | | by apply (Hu x)].
    + exfalso. by apply N2, (Hu x).
    + exfalso. by apply N1, (Hu x).
Qed.

(** Nothing is open but what a variable owns, each by one, and nothing was released twice. *)
Record clean (p : process) (s : store) : Prop := {
  clean_handles : tracks m_mapping_handle (handles p) s;
  clean_views : tracks m_mapping_base (views p) s;
  clean_owners v o : s !! v = Some o -> m_owns_mapping o = true ->
    m_mapping_handle o <> 0 /\ m_mapping_handle o <> INVALID_HANDLE_VALUE /\ m_mapping_base o <> 0;
  clean_releases : bad_releases p = 0%nat
}.

Lemma CloseHandle_open x p : x ∈ handles p -> CloseHandle x p = p <| handles := handles p ∖ {[x]} |>.
Proof. intros Hx. unfold CloseHandle. by rewrite decide_True. Qed.
Lemma UnmapViewOfFile_open x p : x ∈ views p -> UnmapViewOfFile x p = p <| views := views p ∖ {[x]} |>.
Proof. intros Hx. unfold UnmapViewOfFile. by rewrite decide_True. Qed.

(** Opening and closing at once. *)
Lemma close_opened x (s : gset Z) : x ∉ s -> ({[x]} ∪ s) ∖ {[x]} = s.
Proof. set_solver. Qed.

Lemma close_new x hs vs b : x ∈ hs -> CloseHandle x (mk_process hs vs b) = mk_process (hs ∖ {[x]}) vs b.
Proof. intros Hx. by rewrite CloseHandle_open. Qed.

Lemma clean_release p s v o : clean p s -> s !! v = Some o -> clean (release o p) (delete v s).
Proof.
  intros [Hh Hw Ho Hb] Hv. unfold release. destruct (m_owns_mapping o) eqn:Eo.
  - destruct (Ho v o Hv Eo) as (N1 & N2 & N3).
    destruct (tracks_release _ _ _ _ _ Hh Hv Eo) as [Ih Th]. destruct (tracks_release _ _ _ _ _ Hw Hv Eo) as [Iw Tw].
    destruct (Z.eqb_spec (m_mapping_base o) 0), (Z.eqb_spec (m_mapping_handle o) 0), (Z.eqb_spec (m_mapping_handle o) INVALID_HANDLE_VALUE); try done.
    cbn [negb andb]. rewrite UnmapViewOfFile_open by done. rewrite CloseHandle_open by done.
    split; [exact Th | exact Tw | | exact Hb]. intros u o' E. apply lookup_delete_Some in E as [_ E]. by apply (Ho u).
  - assert (idle s v) as Hi by (intros o' E; congruence).
    split; [by apply tracks_delete_idle .. | | done]. intros u o' E. apply lookup_delete_Some in E as [_ E]. by apply (Ho u).
Qed.

Lemma clean_move p s v w o :
  clean p s -> s !! v = None -> s !! w = Some o -> clean p (<[v := o]> (<[w := moved_from o]> s)).
Proof.
  intros [Hh Hv Ho Hb] Ev Ew. split; [by apply tracks_move .. | | done].
  intros u o' E Eo. apply lookup_insert_Some in E as [[<- <-] | [_ E]]; [by apply (Ho w) |].
  apply lookup_insert_Some in E as [[<- <-] | [_ E]]; [done | by apply (Ho u)].
Qed.

Context `{!FileApiOk}.

(** A file that was mapped, when its size can be asked for: one handle and one view more. *)
Lemma map_file_ok path p :
  (forall x, is_Some (GetFileInformationByHandle x)) ->
  (exists file base size, map_file path p = (open_view base (open_handle file p), Some (file, base, size)) /\
     file ∉ handles p /\ file <> 0 /\ file <> INVALID_HANDLE_VALUE /\ base ∉ views p /\ base <> 0) \/
  map_file path p = (p, None).
Proof.
  intros Hinfo. unfold map_file. destruct (CreateFileA path (handles p)) as [file |] eqn:Ef; [| by right].
  destruct (CreateFileA_fresh _ _ _ Ef) as (F1 & F2 & F3).
  destruct p as [hs vs b]. change (open_handle file (mk_process hs vs b)) with (mk_process ({[file]} ∪ hs) vs b).
  cbn [handles views] in *. destruct (CreateFileMappingW file _) as [m |] eqn:Em.
  2: { right. rewrite close_new by set_solver. by rewrite close_opened. }
  apply CreateFileMappingW_fresh in Em.
  change (open_handle m (mk_process ({[file]} ∪ hs) vs b)) with (mk_process ({[m]} ∪ ({[file]} ∪ hs)) vs b).
  cbn [views]. destruct (MapViewOfFile m vs) as [base |] eqn:Eb.
  2: { right. rewrite close_new by set_solver. rewrite close_opened by done. rewrite close_new by set_solver. by rewrite close_opened. }
  destruct (MapViewOfFile_fresh _ _ _ Eb) as [B1 B2]. left.
  change (open_view base (mk_process ({[m]} ∪ ({[file]} ∪ hs)) vs b)) with (mk_process ({[m]} ∪ ({[file]} ∪ hs)) ({[base]} ∪ vs) b).
  rewrite close_new by set_solver. rewrite close_opened by done. destruct (Hinfo file) as [[high low] ->].
  by exists file, base, (Z.lor (shl64 high 32) low).
Qed.

Lemma clean_open p s v file base size o :
  clean p s -> s !! v = None -> file ∉ handles p -> file <> 0 -> file <> INVALID_HANDLE_VALUE -> base ∉ views p -> base <> 0 ->
  o = mk_object (m_base o) size false false true base file [] [] ->
  clean (open_view base (open_handle file p)) (<[v := o]> s).
Proof.
  intros [Hh Hv Ho Hb] Ev F1 F2 F3 B1 B2 Eo.
  assert (m_owns_mapping o = true /\ m_mapping_handle o = file /\ m_mapping_base o = base) as (E1 & E2 & E3) by (by rewrite Eo).
  split.
  - pose proof (tracks_new _ _ _ v o Hh Ev E1) as T. rewrite E2 in T. exact (T F1).
  - pose proof (tracks_new _ _ _ v o Hv Ev E1) as T. rewrite E3 in T. exact (T B1).
  - intros u o' E Eu. apply lookup_insert_Some in E as [[_ <-] | [_ E]]; [by rewrite E2, E3 | by apply (Ho u)].
  - exact Hb.
Qed.

Lemma step_clean op p s p' s' :
  (forall x, is_Some (GetFileInformationByHandle x)) -> clean p s -> step op (p, s) = Some (p', s') -> clean p' s'.
Proof.
  intros Hinfo Hc. destruct op as [v base size | v path image_base | v w | v w | v]; cbn [step].
  - destruct (s !! v) as [o |] eqn:Ev; intros [= <- <-]. destruct Hc as [Hh Hv Ho Hb].
    assert (idle s v) as Hi by (intros o' E; congruence).
    split; [by apply tracks_idle .. | | done].
    intros u o' E Eu. apply lookup_insert_Some in E as [[_ <-] | [_ E]]; [done | by apply (Ho u)].
  - destruct (s !! v) as [o |] eqn:Ev; [done |]. unfold from_file.
    destruct (map_file_ok path p Hinfo) as [(file & base & size & E & F1 & F2 & F3 & B1 & B2) | E]; rewrite E; intros [= <- <-]; [| done].
    by apply (clean_open _ _ _ file base size).
  - destruct (s !! v) as [o |] eqn:Ev; [done |]. destruct (s !! w) as [other |] eqn:Ew; intros [= <- <-]. by apply clean_move.
  - destruct (s !! v) as [this |] eqn:Ev, (s !! w) as [other |] eqn:Ew; try done.
    destruct (Nat.eqb_spec v w) as [-> | Hne]; intros [= <- <-]; [done |].
    rewrite <- (insert_delete_eq (<[w := moved_from other]> s) v). rewrite delete_insert_ne by done.
    apply clean_move; [by apply clean_release | by rewrite lookup_delete_eq | by rewrite lookup_delete_ne].
  - destruct (s !! v) as [o |] eqn:Ev; intros [= <- <-]. by apply clean_release.
Qed.

End files.

(** When the size cannot be asked for, the handle of the mapping, which is closed already, is
    closed again. *)
Lemma map_file_closes_twice `{FileApiOk} path p file m base :
  CreateFileA path (handles p) = Some file -> CreateFileMappingW file ({[file]} ∪ handles p) = Some m ->
  MapViewOfFile m (views p) = Some base -> GetFileInformationByHandle file = None ->
  map_file path p = (p <| bad_releases := S (bad_releases p) |>, None).
Proof.
  intros Ef Em Eb Ei. unfold map_file. rewrite Ef.
  destruct (CreateFileA_fresh _ _ _ Ef) as (F1 & _). pose proof (CreateFileMappingW_fresh _ _ _ Em) as M1.
  destruct (MapViewOfFile_fresh _ _ _ Eb) as [B1 _]. destruct p as [hs vs b]. cbn [handles views] in *.
  change (open_handle file (mk_process hs vs b)) with (mk_process ({[file]} ∪ hs) vs b). cbn [handles]. rewrite Em.
  change (open_handle m (mk_process ({[file]} ∪ hs) vs b)) with (mk_process ({[m]} ∪ ({[file]} ∪ hs)) vs b). cbn [views]. rewrite Eb.
  change (open_view base (mk_process ({[m]} ∪ ({[file]} ∪ hs)) vs b)) with (mk_process ({[m]} ∪ ({[file]} ∪ hs)) ({[base]} ∪ vs) b).
  rewrite close_new by set_solver. rewrite close_opened, Ei by done.
  rewrite UnmapViewOfFile_open by (cbn; set_solver).
  change ((mk_process ({[file]} ∪ hs) ({[base]} ∪ vs) b) <| views := _ |>) with (mk_process ({[file]} ∪ hs) (({[base]} ∪ vs) ∖ {[base]}) b).
  rewrite close_opened by done. unfold CloseHandle at 2. rewrite decide_False by done.
  change ((mk_process ({[file]} ∪ hs) vs b) <| bad_releases := _ |>) with (mk_process ({[file]} ∪ hs) vs (S b)).
  rewrite close_new by set_solver. by rewrite close_opened.
Qed.

(** ** Symbols of a PDB: [pdb_parser.cpp] *)

(** The codes of raw_pdb. *)
Inductive ErrorCode := Success | InvalidSuperBlock | InvalidFreeBlockMap | InvalidStream | InvalidSignature
  | InvalidStreamIndex | InvalidDataSize | UnknownVersion.
Definition is_error (e : ErrorCode) : bool := match e with Success => false | _ => true end.

(** Symbol records; [other_kind] stands for all that the code passes over. *)
Inductive symbol_kind := S_PUB32 | S_GDATA32 | S_GTHREAD32 | S_LDATA32 | S_LTHREAD32
  | S_LPROC32 | S_GPROC32 | S_LPROC32_ID | S_GPROC32_ID | other_kind.
Record symbol_record := mk_record { kind : symbol_kind; record_name : list Z; record_section : Z; record_offset : Z }.

(** What raw_pdb finds in a file: the results of its checks, the records of the streams in
    order, where a module may have none, and the address of an offset in a section, 0 when
    there is none. *)
Record pdb_file := mk_pdb {
  ValidateFile : ErrorCode;
  HasValidDBIStream : ErrorCode;
  UsesDebugFastLink : bool;
  dbi_streams : list ErrorCode;
  public_records : list symbol_record;
  global_records : list symbol_record;
  module_records : list (option (list symbol_record));
  ConvertSectionOffsetToRVA : Z -> Z -> Z
}.

(** The five streams, in the order of the tests. *)
Definition has_valid_dbi_streams (f : pdb_file) : bool := forallb (fun e => negb (is_error e)) (dbi_streams f).

Definition public_kind (k : symbol_kind) : bool := match k with S_PUB32 => true | _ => false end.
Definition global_kind (k : symbol_kind) : bool :=
  match k with S_GDATA32 | S_GTHREAD32 | S_LDATA32 | S_LTHREAD32 => true | _ => false end.
Definition module_kind (k : symbol_kind) : bool :=
  match k with S_LPROC32 | S_GPROC32 | S_LPROC32_ID | S_GPROC32_ID | S_LDATA32 | S_LTHREAD32 => true | _ => false end.

(** The body of each of the three loops: nothing for a record of another kind or without an
    address. *)
Definition symbol_of (f : pdb_file) (wanted : symbol_kind -> bool) (r : symbol_record) : list symbol_info :=
  if negb (wanted (kind r)) then [] else
  let rva := ConvertSectionOffsetToRVA f (record_section r) (record_offset r) in
  if rva =? 0 then [] else [mk_symbol (record_name r) rva].

(** [get_symbols]. *)
Definition get_symbols (f : pdb_file) : list symbol_info :=
  flat_map (symbol_of f public_kind) (public_records f) ++
  flat_map (symbol_of f global_kind) (global_records f) ++
  flat_map (fun m => match m with Some rs => flat_map (symbol_of f module_kind) rs | None => [] end) (module_records f).

(** [std::sort] with the order by address: symbols at one address may come in any order. *)
Class SortSymbols := { sort_symbols : list symbol_info -> list symbol_info }.
Class SortSymbolsOk `{SortSymbols} := {
  sort_sorted l : symbols_sorted (sort_symbols l);
  sort_permutes l : Permutation (sort_symbols l) l
}.

Section pdb.
Context `{FileApi} `{SortSymbols}.
(** What raw_pdb makes of the file at a path. *)
Variable read_pdb : list Z -> pdb_file.

(** [load_symbols]. *)
Definition load_symbols (pdb_path : list Z) (p : process) : process * option (list symbol_info) :=
  match map_file pdb_path p with
  | (p, None) => (p, None)
  | (p, Some (file_handle, base_address, file_size)) =>
      let f := read_pdb pdb_path in
      if is_error (ValidateFile f) then (p, None)
      else if is_error (HasValidDBIStream f) then (p, None)
      else if UsesDebugFastLink f then (p, None)
      else if negb (has_valid_dbi_streams f) then (p, None)
      else (unmap_file file_handle base_address p, Some (sort_symbols (get_symbols f)))
  end.

(** The tests that a PDB passes. *)
Definition readable (f : pdb_file) : bool :=
  negb (is_error (ValidateFile f)) && negb (is_error (HasValidDBIStream f)) && negb (UsesDebugFastLink f) && has_valid_dbi_streams f.

Lemma get_symbols_elem f s :
  In s (get_symbols f) <->
    exists wanted rs r, (wanted = public_kind /\ rs = public_records f \/ wanted = global_kind /\ rs = global_records f \/
        wanted = module_kind /\ In (Some rs) (module_records f)) /\
      In r rs /\ wanted (kind r) = true /\
      s = mk_symbol (record_name r) (ConvertSectionOffsetToRVA f (record_section r) (record_offset r)) /\ sym_rva s <> 0.
Proof.
  assert (forall wanted rs, In s (flat_map (symbol_of f wanted) rs) <-> exists r, In r rs /\ wanted (kind r) = true /\
    s = mk_symbol (record_name r) (ConvertSectionOffsetToRVA f (record_section r) (record_offset r)) /\ sym_rva s <> 0) as E.
  { intros wanted rs. rewrite in_flat_map. unfold symbol_of. split.
    - intros (r & Hr & Hs). exists r. destruct (wanted (kind r)); [| done]. cbn [negb] in Hs.
      destruct (Z.eqb_spec (ConvertSectionOffsetToRVA f (record_section r) (record_offset r)) 0); [done |].
      destruct Hs as [<- | []]. done.
    - intros (r & Hr & Hw & -> & Hz). exists r. split; [done |]. rewrite Hw. cbn [negb sym_rva] in *.
      destruct (Z.eqb_spec (ConvertSectionOffsetToRVA f (record_section r) (record_offset r)) 0); [done | by left]. }
  unfold get_symbols. rewrite !in_app_iff, !E. split.
  - intros [(r & Hr) | [(r & Hr) | Hm]].
    + exists public_kind, (public_records f), r. split; [by left | exact Hr].
    + exists global_kind, (global_records f), r. split; [by right; left | exact Hr].
    + apply in_flat_map in Hm as ([rs |] & Hin & Hm); [| done]. apply E in Hm as (r & Hr).
      exists module_kind, rs, r. split; [by right; right | exact Hr].
  - intros (wanted & rs & r & [[-> ->] | [[-> ->] | [-> Hin]]] & Hr); [left; by exists r | right; left; by exists r | right; right].
    apply in_flat_map. exists (Some rs). split; [exact Hin |]. apply E. by exists r.
Qed.

Context `{!FileApiOk} `{!SortSymbolsOk}.

(** Reading a PDB either gives its symbols in the order of their addresses, exactly those of
    the records with an address, among which the search finds the closest one below any
    address, and leaves nothing open; or it fails: with nothing open when the file could not
    be mapped, but with the file still open and mapped when it is not a PDB it can read. *)
Theorem load_symbols_spec path p
    (Hinfo : forall x, is_Some (GetFileInformationByHandle x)) :
  let f := read_pdb path in
  match load_symbols path p with
  | (p', Some symbols) =>
      readable f = true /\ p' = p /\ Permutation symbols (get_symbols f) /\
      forall rva, match get_closest_symbol symbols rva with
        | Some s => In s (get_symbols f) /\ sym_rva s <= rva /\
                    forall t, In t (get_symbols f) -> sym_rva t <= rva -> sym_rva t <= sym_rva s
        | None => forall t, In t (get_symbols f) -> rva < sym_rva t
        end
  | (p', None) =>
      p' = p \/ readable f = false /\
        exists file base, file ∉ handles p /\ base ∉ views p /\ p' = open_view base (open_handle file p)
  end.
Proof.
  cbv zeta. unfold load_symbols, readable.
  destruct (map_file_ok path p Hinfo) as [(file & base & size & -> & F1 & _ & _ & B1 & _) | ->]; [| by left].
  destruct (is_error (ValidateFile _)); [right; split; [done |]; by exists file, base |].
  destruct (is_error (HasValidDBIStream _)); [right; split; [done |]; by exists file, base |].
  destruct (UsesDebugFastLink _); [right; split; [done |]; by exists file, base |].
  destruct (has_valid_dbi_streams _); cbn [negb]; [| right; split; [done |]; by exists file, base].
  split; [done |]. pose proof (sort_permutes (get_symbols (read_pdb path))) as Hp. split; [| split; [exact Hp |]].
  - unfold unmap_file. destruct p as [hs vs b]. cbn [handles views] in *.
    change (open_view base (open_handle file (mk_process hs vs b))) with (mk_process ({[file]} ∪ hs) ({[base]} ∪ vs) b).
    rewrite UnmapViewOfFile_open by (cbn; set_solver).
    change ((mk_process ({[file]} ∪ hs) ({[base]} ∪ vs) b) <| views := _ |>) with (mk_process ({[file]} ∪ hs) (({[base]} ∪ vs) ∖ {[base]}) b).
    rewrite close_new by set_solver. by rewrite !close_opened.
  - intros rva. pose proof (get_closest_symbol_spec _ rva (sort_sorted (get_symbols (read_pdb path)))) as Hc.
    assert (forall t, In t (sort_symbols (get_symbols (read_pdb path))) <-> In t (get_symbols (read_pdb path))) as Hi.
    { intros t. split; apply Permutation_in; [exact Hp | by symmetry]. }
    destruct (get_closest_symbol _ rva) as [s |].
    + destruct Hc as (Hs & Hle & Hmax). split; [by apply Hi |]. split; [exact Hle |]. intros t Ht. by apply Hmax, Hi.
    + intros t Ht. by apply Hc, Hi.
Qed.
End pdb.

(** ** Instances *)

(** An address above all that are open. *)
Definition above (s : gset Z) : Z := 4 + set_fold Z.max 0 s.
Lemma above_fresh s : above s ∉ s /\ 0 < above s.
Proof.
  assert (forall x, x ∈ s -> x <= set_fold Z.max 0 s) as Hle.
  { apply (set_fold_ind_L (fun r s => forall x, x ∈ s -> x <= r)); [set_solver |].
    intros x X r _ IH y [->%elem_of_singleton | Hy]%elem_of_union; [lia | pose proof (IH y Hy); lia]. }
  assert (0 <= set_fold Z.max 0 s) as H0.
  { apply (set_fold_ind_L (fun r s => 0 <= r)); [lia |]. intros x X r _ Hr. lia. }
  unfold above. split; [intros Hx; apply Hle in Hx; lia | lia].
Qed.

(** Windows with two files, numbering handles and views upwards. *)
Definition first_handle (s : gset Z) : option Z := if above s <? INVALID_HANDLE_VALUE then Some (above s) else None.
#[export] Instance sample_files : FileApi := {|
  CreateFileA path s := if bool_decide (path = bytes "a.sys") || bool_decide (path = bytes "a.pdb") then first_handle s else None;
  CreateFileMappingW _ s := first_handle s;
  MapViewOfFile _ s := Some (above s);
  GetFileInformationByHandle _ := Some (0, 0x3000)
|}.
#[export] Instance sample_files_ok : FileApiOk.
Proof.
  assert (forall s x, first_handle s = Some x -> x ∉ s /\ x <> 0 /\ x <> INVALID_HANDLE_VALUE) as Hf.
  { intros s x. unfold first_handle. destruct (Z.ltb_spec (above s) INVALID_HANDLE_VALUE); [| done].
    intros [= <-]. destruct (above_fresh s). split; [done |]. lia. }
  split.
  - intros path s x. cbn. destruct (_ || _); [apply Hf | done].
  - intros f s x E. by apply (Hf s x).
  - intros m s x [= <-]. destruct (above_fresh s). split; [done | lia].
Qed.

#[export] Instance merge_sort_symbols : SortSymbols := {| sort_symbols := merge_sort sym_le |}.
#[export] Instance merge_sort_symbols_ok : SortSymbolsOk.
Proof.
  split.
  - intros l. exact (load_symbols_sorted (fun _ _ => Some l) (mk_codeview [] 0 [])).
  - intros l. apply merge_sort_Permutation.
Qed.

(** Two images from files, one moved over the other, and both variables gone. *)
Definition sample_program : list operation :=
  [construct_from_file 0 (bytes "a.sys") 0; construct_from_file 1 (bytes "a.pdb") 0; construct_from_file 2 (bytes "none") 0;
   move_construct 3 0; move_assign 3 1; destroy 0; destroy 3; destroy 1].


Definition sample_pdb : pdb_file :=
  mk_pdb Success Success false (repeat Success 5)
    [mk_record S_PUB32 (bytes "entry") 1 0x500; mk_record other_kind (bytes "x") 1 0]
    [mk_record S_GDATA32 (bytes "state") 2 0; mk_record S_LDATA32 (bytes "lost") 9 0]
    [None; Some [mk_record S_GPROC32 (bytes "init") 1 0x100]]
    (fun s o => if s <=? 2 then 0x1000 * s + o else 0).

Lemma load_symbols_spec_witness :
  match load_symbols (fun _ => sample_pdb) (bytes "a.pdb") (mk_process ∅ ∅ 0) with
  | (p', Some symbols) => p' = mk_process ∅ ∅ 0 /\
      match get_closest_symbol symbols 0x1200 with
      | Some s => sym_rva s <= 0x1200 /\ symbols = [mk_symbol (bytes "init") 0x1100; mk_symbol (bytes "entry") 0x1500; mk_symbol (bytes "state") 0x2000]
      | None => False
      end
  | _ => False
  end.
Proof.
  pose proof (load_symbols_spec (fun _ => sample_pdb) (bytes "a.pdb") (mk_process ∅ ∅ 0)) as H.
  assert (snd (load_symbols (fun _ => sample_pdb) (bytes "a.pdb") (mk_process ∅ ∅ 0)) =
    Some [mk_symbol (bytes "init") 0x1100; mk_symbol (bytes "entry") 0x1500; mk_symbol (bytes "state") 0x2000]) as E by (vm_compute; reflexivity).
  destruct (load_symbols _ _ _) as [p' symbols]. cbn [snd] in E. subst symbols.
  destruct H as (_ & Hp & _ & Hc); [by eexists |]. split; [exact Hp |]. specialize (Hc 0x1200).
  assert (get_closest_symbol [mk_symbol (bytes "init") 0x1100; mk_symbol (bytes "entry") 0x1500; mk_symbol (bytes "state") 0x2000] 0x1200 =
    Some (mk_symbol (bytes "init") 0x1100)) as E by (vm_compute; reflexivity).
  rewrite E in Hc |- *. destruct Hc as (_ & Hle & _). by split.
Defined.
