(* ===== verification/KModules.v ===== *)
(** * Kernel modules: [revhv-um/kmodules.cpp], [kmodules.h]

    The list of the loaded kernel modules, the cache of their parsed images, and
    the two directions of symbol resolution: an address to a text such as
    [ntoskrnl!KeBugCheckEx+1f | ntoskrnl:.text+4c1f], and a text to an address. *)
From Stdlib Require Import ZArith Lia String Ascii List Bool.
From stdpp Require Import base numbers list option gmap.
From S2P Require Import Prelude Memory StdFormat TraceFiles Pe.

(** ** Data *)

(** A record of [SystemModuleInformation]. *)
Record raw_module := mk_raw { ImageBase : Z; ImageSize : Z; FullPathName : list Z; OffsetToFileName : Z }.

(** A parsed image, with [get_base()] and [get_size()]. *)
Record parsed_pe := mk_parsed { pe_base : Z; pe_size : Z; pe_image : pe }.

Record kmodule_context := mk_context {
  m_modules : list module_info;
  m_parsed_modules : gmap (list Z) parsed_pe
}.
#[export] Instance eta_kmodule_context : Eta kmodule_context :=
  fun c => mk_context (m_modules c) (m_parsed_modules c).

Definition empty_context : kmodule_context := mk_context [] ∅.

(** ** Text *)

(** What stands before the last [c], if there is one. *)
Fixpoint before_last (c : Z) (s : list Z) : option (list Z) :=
  match s with
  | [] => None
  | x :: s =>
      match before_last c s with
      | Some p => Some (x :: p)
      | None => if x =? c then Some [] else None
      end
  end.

Definition is_module_separator (c : Z) : bool := (c =? chr "!") || (c =? chr ":") || (c =? chr "+").

(** The split at the first separator. *)
Fixpoint split_symbol (s : list Z) : list Z * option (Z * list Z) :=
  match s with
  | [] => ([], None)
  | c :: rest =>
      if is_module_separator c then ([], Some (c, rest))
      else let '(m, r) := split_symbol rest in (c :: m, r)
  end.

(** The split at the first plus. *)
Fixpoint split_plus (s : list Z) : list Z * option (list Z) :=
  match s with
  | [] => ([], None)
  | c :: rest =>
      if c =? chr "+" then ([], Some rest)
      else let '(n, r) := split_plus rest in (c :: n, r)
  end.

Definition tolower (c : Z) : Z := if (chr "A" <=? c) && (c <=? chr "Z") then c + 32 else c.

Definition known_exts : list (list Z) := [bytes ".sys"; bytes ".dll"; bytes ".exe"].
Definition has_ext (s ext : list Z) : bool :=
  (length ext <? length s)%nat &&
  bool_decide (map tolower (drop (length s - length ext) s) = ext).
Definition strip_ext (s : list Z) : list Z :=
  match List.find (has_ext s) known_exts with
  | Some ext => take (length s - length ext) s
  | None => s
  end.
Definition strip_dot (s : list Z) : list Z :=
  match s with c :: rest => if c =? chr "." then rest else s | [] => [] end.

(** ** Operations *)

(** A module of the list; [None] where [std::string::erase] throws, for a name
    without an extension. *)
Definition module_of_raw (NtSystemRoot : list Z) (r : raw_module) : option module_info :=
  let full := cstr (FullPathName r) in
  let nm := cstr (drop (Z.to_nat (OffsetToFileName r)) (FullPathName r)) in
  let full_path :=
    if starts_with (bytes "\SystemRoot\") full then NtSystemRoot ++ drop 11 full else full in
  nm ← before_last (chr ".") nm;
  Some (mk_module (ImageBase r) (ImageSize r) nm full_path).

(** Whether a cached image is still the one of a module of the list. *)
Definition still_current (modules : list module_info) (e : list Z * parsed_pe) : bool :=
  match List.find (fun m => bool_decide (name m = fst e)) modules with
  | Some m => (base m =? pe_base (snd e)) && (size m =? pe_size (snd e))
  | None => false
  end.

(** [refresh], with what NtQuerySystemInformation returns, if it succeeds; [None]
    where it throws. *)
Definition refresh (NtSystemRoot : list Z) (query : option (list raw_module)) (c : kmodule_context)
    : option kmodule_context :=
  match query with
  | None => Some c
  | Some raws =>
      new_modules ← mapM (module_of_raw NtSystemRoot) raws;
      Some (mk_context new_modules
              (filter (fun e => still_current new_modules e = true) (m_parsed_modules c)))
  end.

Definition get_module_by_name (c : kmodule_context) (n : list Z) : option module_info :=
  List.find (fun m => bool_decide (name m = n)) (m_modules c).

Section kmodules.
(** [hv::is_present()]; the memory of the kernel through the hypervisor, a range
    or nothing; the file at the path of a module, with its contents and the
    address it is mapped at; and the symbols of a PDB. *)
Variable is_present : bool.
Variable read_vmemory : Z -> Z -> option (list Z).
Variable open_file : list Z -> option (list Z * Z).
Variable pdb_symbols : list Z -> list Z -> option (list symbol_info).

(** [read_via_hypercall]. *)
Definition read_via_hypercall (source n : Z) : outcome (option (list Z)) :=
  if (source =? 0) || (n =? 0) then Ok None else Ok (read_vmemory source n).

Definition valid (p : parsed_pe) : option pe := if m_valid (pe_image p) then Some (pe_image p) else None.

(** [ensure_parsed]. *)
Definition ensure_parsed (c : kmodule_context) (m : module_info) : outcome (kmodule_context * option pe) :=
  let cache p := c <| m_parsed_modules := <[name m := p]> (m_parsed_modules c) |> in
  match m_parsed_modules c !! name m with
  | Some p => Ok (c, valid p)
  | None =>
      if is_present then
        let! image := parse read_via_hypercall (base m) (size m) pdb_symbols in
        let p := mk_parsed (base m) (size m) image in
        Ok (cache p, valid p)
      else
        match open_file (full_path m) with
        | None => Ok (c, None)
        | Some (file, mapped_view) =>
            let! image := load_pe file mapped_view (base m) pdb_symbols in
            let p := mk_parsed (effective_base mapped_view (base m)) (file_size file) image in
            if m_valid image then Ok (cache p, Some image) else Ok (c, None)
        end
  end.

Definition in_kmodule (a : Z) (m : module_info) : bool := negb ((a <? base m) || (base m +64 size m <=? a)).
Definition in_ksection (rva : Z) (s : section) : bool := (sect_rva s <=? rva) && (rva <? (sect_rva s +64 sect_size s)).

(** [section_suffix] and [append_section]. *)
Definition section_suffix (m : module_info) (p : pe) (rva : Z) : list Z :=
  match List.find (in_ksection rva) (m_sections p) with
  | Some s => name m ++ bytes ":" ++ sect_name s ++ bytes "+" ++ hex (rva - sect_rva s)
  | None => []
  end.
Definition append_section (result suffix : list Z) : list Z :=
  match suffix with [] => result | _ => result ++ bytes " | " ++ suffix end.

(** The text for an address inside a parsed module, not at its start. *)
Definition symbol_text (m : module_info) (p : pe) (rva : Z) : list Z :=
  append_section
    (match get_closest_symbol (m_symbols p) rva with
     | None => name m ++ bytes "+" ++ hex rva
     | Some sym =>
         let offset := rva - sym_rva sym in
         if offset =? 0 then name m ++ bytes "!" ++ sym_name sym
         else name m ++ bytes "!" ++ sym_name sym ++ bytes "+" ++ hex offset
     end) (section_suffix m p rva).

(** [resolve_address]. *)
Definition resolve_address (c : kmodule_context) (address : Z) : outcome (kmodule_context * list Z) :=
  match List.find (in_kmodule address) (m_modules c) with
  | None => Ok (c, hex address)
  | Some m =>
      let rva := address - base m in
      if rva =? 0 then Ok (c, name m)
      else
        let! (c, parsed) := ensure_parsed c m in
        match parsed with
        | None => Ok (c, name m ++ bytes "+" ++ hex rva)
        | Some p => Ok (c, symbol_text m p rva)
        end
  end.

(** [parse_hex_offset]. *)
Definition parse_hex_offset (s : list Z) : option Z := match s with [] => None | _ => stoull16 s end.

(** [resolve_symbol]. *)
Definition resolve_symbol (c : kmodule_context) (symbol_str : list Z) : outcome (kmodule_context * option Z) :=
  match symbol_str with
  | [] => Ok (c, None)
  | _ =>
      let '(module_part, rest) := split_symbol symbol_str in
      let module_part := strip_ext module_part in
      let module_part := if bool_decide (module_part = bytes "nt") then bytes "ntoskrnl" else module_part in
      match get_module_by_name c module_part with
      | None => Ok (c, None)
      | Some m =>
          match rest with
          | None => Ok (c, Some (base m))
          | Some (separator, rest) =>
              if separator =? chr "+" then
                Ok (c, (fun offset => base m +64 offset) <$> parse_hex_offset rest)
              else
                let '(name_part, offset) := split_plus rest in
                match (match offset with None => Some 0 | Some o => parse_hex_offset o end) with
                | None => Ok (c, None)
                | Some trailing_offset =>
                    let! (c, parsed) := ensure_parsed c m in
                    match parsed with
                    | None => Ok (c, None)
                    | Some p =>
                        let at_rva rva := base m +64 rva +64 trailing_offset in
                        if separator =? chr ":" then
                          Ok (c, (fun s => at_rva (sect_rva s)) <$>
                                 List.find (fun s => bool_decide (strip_dot (sect_name s) = strip_dot name_part))
                                   (m_sections p))
                        else
                          Ok (c, (fun s => at_rva (sym_rva s)) <$>
                                 List.find (fun s => bool_decide (sym_name s = name_part)) (m_symbols p))
                    end
                end
          end
      end
  end.

(** ** Lemmas *)

Lemma add64_small x y : is_u64 (x + y) -> x +64 y = x + y.
Proof. apply wrap_small. Qed.

(** A text without the characters of [bad]. *)
Definition free_of (bad : Z -> bool) (s : list Z) : Prop := Forall (fun c => bad c = false) s.

Lemma split_symbol_free s c rest :
  free_of is_module_separator s -> is_module_separator c = true ->
  split_symbol (s ++ c :: rest) = (s, Some (c, rest)).
Proof.
  intros Hs Hc. induction Hs as [| x s Hx Hs IH]; cbn [app split_symbol]; [by rewrite Hc |].
  by rewrite Hx, IH.
Qed.

Lemma split_symbol_none s : free_of is_module_separator s -> split_symbol s = (s, None).
Proof. induction 1 as [| x s Hx Hs IH]; cbn [split_symbol]; [done |]. by rewrite Hx, IH. Qed.

Lemma split_plus_free s rest :
  free_of (fun c => c =? chr "+") s -> split_plus (s ++ chr "+" :: rest) = (s, Some rest).
Proof. induction 1 as [| x s Hx Hs IH]; cbn [app split_plus]; [done |]. by rewrite Hx, IH. Qed.

Lemma split_plus_none s : free_of (fun c => c =? chr "+") s -> split_plus s = (s, None).
Proof. induction 1 as [| x s Hx Hs IH]; cbn [split_plus]; [done |]. by rewrite Hx, IH. Qed.

(** A module that its name stands for in an expression. *)
Record plain_module (c : kmodule_context) (m : module_info) : Prop := {
  plain_listed : In m (m_modules c);
  plain_unique : forall m', In m' (m_modules c) -> name m' = name m -> m' = m;
  plain_nonempty : name m <> [];
  plain_free : free_of is_module_separator (name m);
  plain_ext : strip_ext (name m) = name m;
  plain_alias : name m <> bytes "nt";
  plain_base : is_u64 (base m)
}.

Lemma plain_lookup c m : plain_module c m -> get_module_by_name c (name m) = Some m.
Proof.
  intros [Hin Hu _ _ _ _ _]. unfold get_module_by_name.
  destruct (List.find _ _) as [m' |] eqn:E.
  - apply find_some in E as [Hin' En]. apply bool_decide_eq_true in En. f_equal. by apply Hu.
  - pose proof (find_none _ _ E m Hin) as Hn. cbv beta in Hn. by rewrite bool_decide_eq_true_2 in Hn.
Qed.

(** An expression that starts with the name of a plain module. *)
Lemma resolve_module c m sep rest :
  plain_module c m -> is_module_separator sep = true ->
  resolve_symbol c (name m ++ sep :: rest) =
    if sep =? chr "+" then Ok (c, (fun offset => base m +64 offset) <$> parse_hex_offset rest)
    else
      let '(name_part, offset) := split_plus rest in
      match (match offset with None => Some 0 | Some o => parse_hex_offset o end) with
      | None => Ok (c, None)
      | Some trailing_offset =>
          let! (c, parsed) := ensure_parsed c m in
          match parsed with
          | None => Ok (c, None)
          | Some p =>
              let at_rva rva := base m +64 rva +64 trailing_offset in
              if sep =? chr ":" then
                Ok (c, (fun s => at_rva (sect_rva s)) <$>
                       List.find (fun s => bool_decide (strip_dot (sect_name s) = strip_dot name_part)) (m_sections p))
              else
                Ok (c, (fun s => at_rva (sym_rva s)) <$>
                       List.find (fun s => bool_decide (sym_name s = name_part)) (m_symbols p))
          end
      end.
Proof.
  intros Hm Hsep. unfold resolve_symbol. destruct (name m ++ sep :: rest) eqn:E; [by apply app_nil in E as [_ ?] |].
  rewrite <- E, split_symbol_free by (done || apply (plain_free _ _ Hm)).
  rewrite (plain_ext _ _ Hm), bool_decide_eq_false_2 by apply (plain_alias _ _ Hm).
  by rewrite (plain_lookup c m Hm).
Qed.

Lemma parse_hex_offset_then v rest : is_u64 v -> ends_number rest -> parse_hex_offset (hex v ++ rest) = Some v.
Proof.
  intros Hv Hr. unfold parse_hex_offset. rewrite stoull16_hex_then by done.
  destruct (hex v ++ rest) eqn:E; [| done]. apply app_nil in E as [E _]. by apply digits_acc_nonempty in E.
Qed.

(** A section may follow after a bar, which ends a number. *)
Lemma append_section_ends suffix : exists rest, ends_number rest /\ forall r, append_section r suffix = r ++ rest.
Proof.
  destruct suffix as [| x l]; [exists []; split; [done |]; intros r; by rewrite app_nil_r |].
  exists (bytes " | " ++ x :: l). split; [by vm_compute | done].
Qed.

(** The cache has an answer once it was asked. *)
Lemma ensure_parsed_modules c m c' p : ensure_parsed c m = Ok (c', p) -> m_modules c' = m_modules c.
Proof.
  unfold ensure_parsed. destruct (_ !! _); [by intros [= <- _] |]. destruct is_present.
  - destruct (parse _ _ _ _) as [i | |]; cbn [obind]; [| done | done]. by intros [= <- _].
  - destruct (open_file _) as [[file view] |]; [| by intros [= <- _]].
    destruct (load_pe _ _ _ _) as [i | |]; cbn [obind]; [| done | done]. destruct (m_valid i); by intros [= <- _].
Qed.

Lemma ensure_parsed_again c m c' p : ensure_parsed c m = Ok (c', Some p) -> ensure_parsed c' m = Ok (c', Some p).
Proof.
  unfold ensure_parsed. destruct (m_parsed_modules c !! name m) as [q |] eqn:E.
  { intros [= <- Hq]. by rewrite E, Hq. }
  destruct is_present.
  - destruct (parse _ _ _ _) as [i | |]; cbn [obind]; [| done | done]. intros [= <- Hq].
    cbn [m_parsed_modules set]. unfold set. cbn [m_parsed_modules]. by rewrite lookup_insert_eq, Hq.
  - destruct (open_file _) as [[file view] |]; [| done].
    destruct (load_pe _ _ _ _) as [i | |]; cbn [obind]; [| done | done]. destruct (m_valid i) eqn:Ev; [| done].
    intros [= <- <-]. unfold set. cbn [m_parsed_modules]. rewrite lookup_insert_eq. unfold valid. cbn. by rewrite Ev.
Qed.

Lemma plain_same_modules c c' m : m_modules c' = m_modules c -> plain_module c m -> plain_module c' m.
Proof. intros E [H1 H2 H3 H4 H5 H6 H7]. split; try done; by rewrite E. Qed.

(** The symbol of an address can be told by its name, and it is not one that the
    text puts in front of its own section. *)
Record plain_symbol (p : pe) (rva : Z) (s : symbol_info) : Prop := {
  symbol_free : free_of (fun c => c =? chr "+") (sym_name s);
  symbol_first : List.find (fun s' => bool_decide (sym_name s' = sym_name s)) (m_symbols p) = Some s;
  symbol_below : 0 <= sym_rva s <= rva;
  symbol_inside : sym_rva s = rva -> List.find (in_ksection rva) (m_sections p) = None
}.

(** The expression for an address inside a module resolves to it. *)
Lemma symbol_text_resolves c m p c' a :
  plain_module c m -> ensure_parsed c m = Ok (c', Some p) -> is_u64 a -> base m < a ->
  (forall s, get_closest_symbol (m_symbols p) (a - base m) = Some s -> plain_symbol p (a - base m) s) ->
  exists c'', resolve_symbol c' (symbol_text m p (a - base m)) = Ok (c'', Some a).
Proof.
  intros Hm Hp Ha Hlt Hsym. pose proof (plain_base _ _ Hm) as Hb. unfold is_u64 in *.
  apply (plain_same_modules c c') in Hm; [| by apply (ensure_parsed_modules c m c' (Some p))].
  assert (base m +64 (a - base m) = a) as Hsum by (rewrite add64_small; unfold is_u64; lia).
  set (rva := a - base m) in *. unfold symbol_text.
  destruct (append_section_ends (section_suffix m p rva)) as (rest & Hrest & Happ).
  destruct (get_closest_symbol (m_symbols p) rva) as [sym |].
  - destruct (Hsym sym eq_refl) as [Hfree Hfirst Hbelow Hin].
    destruct (Z.eqb_spec (rva - sym_rva sym) 0) as [Hz | Hz].
    + assert (sym_rva sym = rva) as E by lia. specialize (Hin E). unfold section_suffix. rewrite Hin. cbn [append_section].
      exists c'. change (bytes "!") with [chr "!"]. cbn [app]. rewrite resolve_module by done.
      change (chr "!" =? chr "+") with false. change (chr "!" =? chr ":") with false. cbv iota.
      rewrite split_plus_none by done. rewrite (ensure_parsed_again c m c' p Hp). cbn [obind]. rewrite Hfirst. cbn [fmap option_fmap option_map].
      rewrite E, Hsum. by rewrite add64_small, Z.add_0_r by (unfold is_u64; lia).
    + exists c'. rewrite Happ. change (bytes "!") with [chr "!"]. change (bytes "+") with [chr "+"].
      rewrite <- !app_assoc. cbn [app]. rewrite resolve_module by done.
      change (chr "!" =? chr "+") with false. change (chr "!" =? chr ":") with false. cbv iota.
      rewrite split_plus_free by done. rewrite parse_hex_offset_then by (done || unfold is_u64; lia).
      rewrite (ensure_parsed_again c m c' p Hp). cbn [obind]. rewrite Hfirst. cbn [fmap option_fmap option_map].
      rewrite !add64_small by (unfold is_u64 in *; rewrite ?add64_small; unfold is_u64; lia). do 3 f_equal. lia.
  - exists c'. rewrite Happ. change (bytes "+") with [chr "+"]. rewrite <- !app_assoc. cbn [app].
    rewrite resolve_module by done. change (chr "+" =? chr "+") with true. cbv iota.
    rewrite parse_hex_offset_then by (done || unfold is_u64; lia). cbn [fmap option_fmap option_map]. by rewrite Hsum.
Qed.

(** ** Properties *)

End kmodules.

(** ** Examples *)

Definition nt_module : module_info :=
  mk_module 0xFFFFF80000000000 0x100000 (bytes "ntoskrnl") (bytes "\SystemRoot\system32\ntoskrnl.exe").
Definition nt_image : pe :=
  mk_pe true [mk_section (bytes ".text") 0xFFFFF80000001000 0x1000 0x2000]
    [mk_symbol (bytes "KeBugCheckEx") 0x1000; mk_symbol (bytes "MmCopyMemory") 0x1800].
Definition nt_context : kmodule_context :=
  mk_context [nt_module] {[ bytes "ntoskrnl" := mk_parsed 0xFFFFF80000000000 0x100000 nt_image ]}.

Lemma nt_plain : plain_module nt_context nt_module.
Proof.
  split; try done.
  - by left.
  - intros m' [<- | []]; done.
  - repeat constructor.
Qed.


(** The text for an address that is exactly a symbol in a section names the
    section after the symbol, and is not an expression for the address. *)
Theorem exact_symbol_text_unreadable :
  resolve_address true (fun _ _ => None) (fun _ => None) (fun _ _ => None) nt_context 0xFFFFF80000001800 =
    Ok (nt_context, bytes "ntoskrnl!MmCopyMemory | ntoskrnl:.text+800") /\
  resolve_symbol true (fun _ _ => None) (fun _ => None) (fun _ _ => None) nt_context
    (bytes "ntoskrnl!MmCopyMemory | ntoskrnl:.text+800") = Ok (nt_context, None).
Proof. split; vm_compute; reflexivity. Qed.

(** One module whose file has no extension makes the whole refresh throw. *)
Theorem refresh_throws_without_extension root c raws r
    (Hin : In r raws)
    (Hname : before_last (chr ".") (cstr (drop (Z.to_nat (OffsetToFileName r)) (FullPathName r))) = None) :
  refresh root (Some raws) c = None.
Proof.
  unfold refresh. assert (mapM (module_of_raw root) raws = None) as ->; [| done].
  induction raws as [| r' raws IH]; [done |]. cbn [mapM]. destruct Hin as [-> | Hin].
  - unfold module_of_raw. by rewrite Hname.
  - destruct (module_of_raw root r'); [| done]. cbn [mbind option_bind]. by rewrite IH.
Qed.

(** A cached image is dropped by a refresh unless it has the base and the size of
    the first module with its name; an image parsed from disk has the size of its
    file, which is not that of the image in memory. *)
Theorem refresh_keeps_same_size root raws c c' n p
    (Hrefresh : refresh root (Some raws) c = Some c') :
  m_parsed_modules c' !! n = Some p <->
  m_parsed_modules c !! n = Some p /\
  exists m, List.find (fun m => bool_decide (name m = n)) (m_modules c') = Some m /\
    base m = pe_base p /\ size m = pe_size p.
Proof.
  unfold refresh in Hrefresh. destruct (mapM _ raws) as [ms |]; [| done]. injection Hrefresh as <-.
  cbn [m_parsed_modules m_modules]. rewrite map_lookup_filter_Some. unfold still_current. cbn [fst snd].
  split; intros [H1 H2]; (split; [done |]).
  - destruct (List.find _ ms) as [m |]; [| done]. exists m. apply andb_prop in H2 as [H2 H3].
    apply Z.eqb_eq in H2, H3. done.
  - destruct H2 as (m & -> & -> & ->). by rewrite !Z.eqb_refl.
Qed.
