(* ===== verification/TraceParser.v ===== *)
(** * The offline trace parser: [revhv-um/trace_parser.hpp]

    The entries of all cores are merged by their time stamps and each is written
    as a line of text: addresses become symbols of the modules, whose PE files
    are loaded on demand, and the layout of an entry comes from the configuration
    it was captured with. The files the parser reads are those of [TraceFiles];
    the heap of the merge is [std::priority_queue], of which the model uses what
    the standard promises. *)
From Stdlib Require Import ZArith Lia String Ascii List Bool.
From stdpp Require Import base numbers list option functions gmap sets sorting.
From S2P Require Import Prelude Memory Trace TransitionCfg Vmcs Vcpu VmExit TraceFiles StdFormat Pe.

(** ** Names of the data fields *)

Definition named_fields : list (ept_transition_data_field * string) :=
  [(guest_rip, "rip"); (guest_rsp, "rsp"); (guest_rax, "rax"); (guest_rbx, "rbx");
   (guest_rcx, "rcx"); (guest_rdx, "rdx"); (guest_rsi, "rsi"); (guest_rdi, "rdi");
   (guest_rbp, "rbp"); (guest_r8, "r8"); (guest_r9, "r9"); (guest_r10, "r10");
   (guest_r11, "r11"); (guest_r12, "r12"); (guest_r13, "r13"); (guest_r14, "r14");
   (guest_r15, "r15"); (guest_retaddr, "retaddr")]%string.

(** [data_field_name] and [parse_field_type], the latter also as
    [parse_data_field_name] of commands.cpp. *)
Definition data_field_name (f : ept_transition_data_field) : list Z :=
  match List.find (fun p => bool_decide (fst p = f)) named_fields with
  | Some (_, n) => bytes n
  | None => bytes "?"
  end.
Definition parse_field_type (n : list Z) : ept_transition_data_field :=
  match List.find (fun p => bool_decide (bytes (snd p) = n)) named_fields with
  | Some (f, _) => f
  | None => field_none
  end.

Section parser.
(** What [pe::from_file] and [pe::parse] make of the file of a module, [None] when
    it is missing or not valid; the modules; and the configuration. *)
Variable load : module_info -> option pe.
Variable m_modules : list module_info.
Variable cfg : parser_cfg.

(** ** Symbols *)

(** The PE files loaded so far, and the names of the modules tried. *)
Record pe_cache := mk_cache { m_pe_cache : gmap (list Z) pe; m_pe_attempted : gset (list Z) }.
Definition empty_cache : pe_cache := mk_cache ∅ ∅.

Definition get_or_load_pe (st : pe_cache) (m : module_info) : pe_cache * option pe :=
  match m_pe_cache st !! name m with
  | Some p => (st, Some p)
  | None =>
      if decide (name m ∈ m_pe_attempted st) then (st, None)
      else
        let attempted := {[ name m ]} ∪ m_pe_attempted st in
        match full_path m with
        | [] => (mk_cache (m_pe_cache st) attempted, None)
        | _ =>
            match load m with
            | Some p => (mk_cache (<[name m := p]> (m_pe_cache st)) attempted, Some p)
            | None => (mk_cache (m_pe_cache st) attempted, None)
            end
        end
  end.

Definition in_module (a : Z) (m : module_info) : bool := negb ((a <? base m) || (base m +64 size m <=? a)).
Definition in_sect (rva : Z) (s : section) : bool := (sect_rva s <=? rva) && (rva <? (sect_rva s +64 sect_size s)).

(** The text of an address inside a module, from its PE. *)
Definition module_text (m : module_info) (rva : Z) (p : option pe) : list Z :=
  let offset x := bytes "+" ++ hex x in
  match p with
  | None => name m ++ offset rva
  | Some p =>
      if negb (m_valid p) then name m ++ offset rva else
      match get_closest_symbol (m_symbols p) rva with
      | None =>
          match List.find (in_sect rva) (m_sections p) with
          | Some s => name m ++ bytes ":" ++ sect_name s ++ offset (rva - sect_rva s)
          | None => name m ++ offset rva
          end
      | Some sym =>
          name m ++ bytes "!" ++ sym_name sym ++
          (if rva - sym_rva sym =? 0 then [] else offset (rva - sym_rva sym))
      end
  end.

(** [resolve_address]. *)
Definition resolve_address (st : pe_cache) (a : Z) : pe_cache * list Z :=
  match List.find (in_module a) m_modules with
  | None => (st, hex16 a)
  | Some m =>
      let rva := a - base m in
      if rva =? 0 then (st, name m)
      else let '(st, p) := get_or_load_pe st m in (st, module_text m rva p)
  end.

(** ** Formatting an entry *)

(** The text before the first [c], and after it. *)
Fixpoint split_at (c : Z) (s : list Z) : option (list Z * list Z) :=
  match s with
  | [] => None
  | d :: s =>
      if d =? c then Some ([], s)
      else match split_at c s with Some (a, b) => Some (d :: a, b) | None => None end
  end.

(** A placeholder: the name of the field and the format specification. *)
Definition split_placeholder (p : list Z) : list Z * list Z :=
  match split_at (chr ":") p with Some (f, s) => (f, s) | None => (p, []) end.

(** [e.data[slot]], 0 when the configuration does not have the field. *)
Definition placeholder_value (c : ept_transition_cfg) (e : entry) (field : list Z) : Z :=
  let slot := find_data_slot c (parse_field_type field) in
  if 0 <=? slot then entry_data e (Z.to_nat slot) else 0.

Definition placeholder_text (st : pe_cache) (c : ept_transition_cfg) (e : entry) (p : list Z)
    : pe_cache * list Z :=
  let '(field, spec) := split_placeholder p in
  let val := placeholder_value c e field in
  match spec with
  | [] => resolve_address st val
  | _ => (st, default (bytes "?") (vformat spec val))
  end.

(** The loop of [apply_custom_format] from a position: [fuel] bounds what is left
    of the format string. *)
Fixpoint custom_loop (fuel : nat) (st : pe_cache) (c : ept_transition_cfg) (e : entry) (fmt : list Z)
    : pe_cache * list Z :=
  match fuel, fmt with
  | O, _ | _, [] => (st, [])
  | S fuel, x :: rest =>
      let literal l rest := let '(st, t) := custom_loop fuel st c e rest in (st, l :: t) in
      match rest with
      | y :: rest' =>
          if (x =? chr "{") && (y =? chr "{") then literal (chr "{") rest'
          else if (x =? chr "}") && (y =? chr "}") then literal (chr "}") rest'
          else if negb (x =? chr "{") then literal x rest
          else
            match split_at (chr "}") rest with
            | None => (st, fmt)
            | Some (p, rest) =>
                let '(st, t) := placeholder_text st c e p in
                let '(st, t') := custom_loop fuel st c e rest in
                (st, t ++ t')
            end
      | [] => (st, [x])
      end
  end.
Definition apply_custom_format (st : pe_cache) (fmt : list Z) (e : entry) (c : ept_transition_cfg)
    : pe_cache * list Z := custom_loop (length fmt) st c e fmt.

(** The configuration and the custom format an entry is shown with. *)
Definition select_cfg (e : entry) : ept_transition_cfg * option (list Z) :=
  let generic_fmt := match m_generic_fmt cfg with [] => None | f => Some f end in
  if (0 <=? m_rip_slot cfg) && negb (bool_decide (m_exact_cfgs cfg = [])) then
    let rip := entry_data e (Z.to_nat (m_rip_slot cfg)) in
    match List.find (fun x => ex_addr x =? rip) (m_exact_cfgs cfg) with
    | Some x => (ex_cfg x, match ex_fmt x with [] => generic_fmt | f => Some f end)
    | None => (m_generic_cfg cfg, generic_fmt)
    end
  else (m_generic_cfg cfg, generic_fmt).

(** The default display: [field=value] for every field of the configuration. *)
Fixpoint default_fields (st : pe_cache) (e : entry) (i : nat) (c : ept_transition_cfg)
    : pe_cache * list Z :=
  match c with
  | [] => (st, [])
  | f :: c =>
      match f with
      | field_none => default_fields st e (S i) c
      | _ =>
          let val := entry_data e i in
          let '(st, t) :=
            match f with
            | guest_rip | guest_retaddr => resolve_address st val
            | _ => (st, hex16 val)
            end in
          let '(st, rest) := default_fields st e (S i) c in
          (st, data_field_name f ++ bytes "=" ++ t ++ bytes " " ++ rest)
      end
  end.

Definition raw_data (e : entry) : list Z :=
  bytes "data=[" ++ hex (data0 e) ++ bytes "," ++ hex (data1 e) ++ bytes "," ++ hex (data2 e) ++
  bytes "," ++ hex (data3 e) ++ bytes "," ++ hex (data4 e) ++ bytes "," ++ hex (data5 e) ++ bytes "]".

(** [format_entry]. *)
Definition format_entry (st : pe_cache) (e : entry) : pe_cache * list Z :=
  if format_id e =? fmt_ept_target_transition then
    let '(c, custom_fmt) := select_cfg e in
    let '(st, t) :=
      match custom_fmt with
      | Some f => apply_custom_format st f e c
      | None =>
          if forallb (fun f => bool_decide (f = field_none)) c then (st, raw_data e)
          else default_fields st e 0 c
      end in
    (st, bytes "[core " ++ dec (core_id e) ++ bytes "] " ++ t ++ [10])
  else
    (st, bytes "[" ++ dec (timestamp e) ++ bytes "] core " ++ dec (core_id e) ++
         bytes " unknown format_id=" ++ dec (format_id e) ++ bytes " " ++ raw_data e ++ [10]).
End parser.

(** ** Lemmas: names *)

Definition named (f : ept_transition_data_field) : Prop := In f (map fst named_fields).

Lemma parse_data_field_name f : named f -> parse_field_type (data_field_name f) = f.
Proof.
  intros Hf. repeat (destruct Hf as [<- | Hf]; [vm_compute; reflexivity |]). done.
Qed.

(** ** The cache of PE files *)

Section cache.
Variable load : module_info -> option pe.
Variable m_modules : list module_info.
Variable cfg : parser_cfg.

(** The PE of a module, whatever the order of lookups. *)
Definition open_pe (m : module_info) : option pe :=
  match full_path m with [] => None | _ => load m end.

(** The modules have different names, by which the cache knows them. *)
Hypothesis distinct_names : forall m m', In m m_modules -> In m' m_modules -> name m = name m' -> m = m'.

(** What is cached or known to fail is what the files give. *)
Definition cache_ok (st : pe_cache) : Prop :=
  forall m, In m m_modules ->
    match m_pe_cache st !! name m with
    | Some p => open_pe m = Some p
    | None => name m ∈ m_pe_attempted st -> open_pe m = None
    end.

Lemma get_or_load_pe_ok st m :
  cache_ok st -> In m m_modules ->
  cache_ok (fst (get_or_load_pe load st m)) /\ snd (get_or_load_pe load st m) = open_pe m.
Proof.
  intros Hst Hm. pose proof (Hst m Hm) as Hc. unfold get_or_load_pe.
  destruct (m_pe_cache st !! name m) as [p |] eqn:Ec; [by rewrite Hc |].
  destruct (decide (name m ∈ m_pe_attempted st)) as [Ha | Ha]; [by rewrite Hc |].
  set (attempted := {[name m]} ∪ m_pe_attempted st).
  assert (open_pe m = None -> cache_ok (mk_cache (m_pe_cache st) attempted)) as Hnone.
  { intros Hn m' Hm'. specialize (Hst m' Hm'). cbn. destruct (m_pe_cache st !! name m') eqn:E; [done |].
    intros Hin. destruct (decide (name m' = name m)) as [En | En].
    - by rewrite (distinct_names m' m Hm' Hm En).
    - apply Hst. unfold attempted in Hin. set_solver. }
  unfold open_pe in *. destruct (full_path m) eqn:Ep; [by split; [apply Hnone |] |].
  destruct (load m) as [p |] eqn:El; [| by split; [apply Hnone |]].
  split; [| done]. intros m' Hm'. cbn. destruct (decide (name m' = name m)) as [En | En].
  - rewrite (distinct_names m' m Hm' Hm En), lookup_insert_eq. unfold open_pe. by rewrite Ep.
  - rewrite lookup_insert_ne by congruence. specialize (Hst m' Hm').
    destruct (m_pe_cache st !! name m') eqn:E; [done |]. intros Hin. apply Hst. unfold attempted in Hin. set_solver.
Qed.

(** What an address resolves to. *)
Definition symbol_text (a : Z) : list Z :=
  match List.find (in_module a) m_modules with
  | None => hex16 a
  | Some m => if a - base m =? 0 then name m else module_text m (a - base m) (open_pe m)
  end.

Lemma resolve_address_ok st a :
  cache_ok st ->
  cache_ok (fst (resolve_address load m_modules st a)) /\
  snd (resolve_address load m_modules st a) = symbol_text a.
Proof.
  intros Hst. unfold resolve_address, symbol_text.
  destruct (find (in_module a) m_modules) as [m |] eqn:Ef; [| done].
  apply find_some in Ef as [Hm _]. destruct (_ =? 0); [done |].
  destruct (get_or_load_pe_ok st m Hst Hm) as [H1 H2].
  destruct (get_or_load_pe load st m) as [st' p]. cbn in *. by subst p.
Qed.

(** A computation that keeps the cache and whose text does not depend on it. *)
Definition pure_text (f : pe_cache -> pe_cache * list Z) (t : list Z) : Prop :=
  forall st, cache_ok st -> cache_ok (fst (f st)) /\ snd (f st) = t.

Lemma pure_ret t : pure_text (fun st => (st, t)) t.
Proof. by intros st Hst. Qed.

Lemma pure_bind f t g u k :
  pure_text f t -> pure_text g u ->
  pure_text (fun st => let '(st, x) := f st in let '(st, y) := g st in (st, k x y)) (k t u).
Proof.
  intros Hf Hg st Hst. destruct (Hf st Hst) as [H1 H2]. destruct (f st) as [st1 x]. cbn in *. subst x.
  destruct (Hg st1 H1) as [H3 H4]. destruct (g st1) as [st2 y]. cbn in *. by subst y.
Qed.

Lemma pure_map f t k : pure_text f t -> pure_text (fun st => let '(st, x) := f st in (st, k x)) (k t).
Proof. intros Hf st Hst. destruct (Hf st Hst) as [H1 H2]. destruct (f st) as [st1 x]. cbn in *. by subst x. Qed.

Lemma pure_resolve a : pure_text (fun st => resolve_address load m_modules st a) (symbol_text a).
Proof. intros st Hst. by apply resolve_address_ok. Qed.

(** The texts of a placeholder, of a format, and of the default display. *)
Definition hole_text (c : ept_transition_cfg) (e : entry) (p : list Z) : list Z :=
  let '(field, spec) := split_placeholder p in
  let val := placeholder_value c e field in
  match spec with [] => symbol_text val | _ => default (bytes "?") (vformat spec val) end.

Lemma pure_placeholder c e p :
  pure_text (fun st => placeholder_text load m_modules st c e p) (hole_text c e p).
Proof.
  intros st Hst. unfold placeholder_text, hole_text. destruct (split_placeholder p) as [field spec].
  destruct spec as [| x spec]; [by apply resolve_address_ok | done].
Qed.

(** ** Display formats *)

(** A format as its author means it: text, in which braces are doubled, and
    placeholders. *)
Inductive item := text_item (l : list Z) | hole_item (p : list Z).

Fixpoint escape (l : list Z) : list Z :=
  match l with
  | [] => []
  | x :: l => if (x =? chr "{") || (x =? chr "}") then x :: x :: escape l else x :: escape l
  end.
Definition item_format (i : item) : list Z :=
  match i with text_item l => escape l | hole_item p => [chr "{"] ++ p ++ [chr "}"] end.
Definition item_text (c : ept_transition_cfg) (e : entry) (i : item) : list Z :=
  match i with text_item l => l | hole_item p => hole_text c e p end.
(** A placeholder ends at the first closing brace, and two opening braces are
    text. *)
Definition item_ok (i : item) : Prop :=
  match i with
  | text_item _ => True
  | hole_item p => Forall (fun x => x <> chr "}") p /\ match p with x :: _ => x <> chr "{" | [] => True end
  end.

Lemma split_at_app x p rest : Forall (fun y => y <> x) p -> split_at x (p ++ x :: rest) = Some (p, rest).
Proof.
  induction 1 as [| y p Hy Hp IH]; cbn [app split_at]; [by rewrite Z.eqb_refl |].
  destruct (Z.eqb_spec y x); [done |]. by rewrite IH.
Qed.

Lemma pure_literal fuel x c e rest t :
  pure_text (fun st => custom_loop load m_modules fuel st c e rest) t ->
  pure_text (fun st => let '(st, t) := custom_loop load m_modules fuel st c e rest in (st, x :: t)) (x :: t).
Proof. apply pure_map. Qed.

(** A character of a text: it is copied, or it is a brace and stands twice. *)
Lemma custom_loop_char x fuel c e rest t :
  (forall fuel, (length rest <= fuel)%nat -> pure_text (fun st => custom_loop load m_modules fuel st c e rest) t) ->
  (length (escape [x] ++ rest) <= fuel)%nat ->
  pure_text (fun st => custom_loop load m_modules fuel st c e (escape [x] ++ rest)) (x :: t).
Proof.
  intros Hrest Hf. cbn [escape] in *.
  destruct (Z.eqb_spec x (chr "{")) as [-> | Ho]; [| destruct (Z.eqb_spec x (chr "}")) as [-> | Hc]];
    cbn [orb app length] in *.
  - destruct fuel as [| fuel]; [lia |]. cbn. apply pure_literal, Hrest. lia.
  - destruct fuel as [| fuel]; [lia |]. cbn. apply pure_literal, Hrest. lia.
  - destruct fuel as [| fuel]; [lia |]. cbn [custom_loop]. destruct rest as [| y rest].
    + intros st Hst. destruct (Hrest 0%nat ltac:(cbn; lia) st Hst) as [_ H]. cbn in H. by subst t.
    + rewrite (proj2 (Z.eqb_neq x (chr "{")) Ho), (proj2 (Z.eqb_neq x (chr "}")) Hc). cbn [andb negb].
      apply pure_literal, Hrest. cbn in *. lia.
Qed.

Lemma escape_cons x l rest : escape (x :: l) ++ rest = escape [x] ++ (escape l ++ rest).
Proof. cbn [escape]. by destruct (_ || _). Qed.

Lemma custom_loop_text l fuel c e rest t :
  (forall fuel, (length rest <= fuel)%nat -> pure_text (fun st => custom_loop load m_modules fuel st c e rest) t) ->
  (length (escape l ++ rest) <= fuel)%nat ->
  pure_text (fun st => custom_loop load m_modules fuel st c e (escape l ++ rest)) (l ++ t).
Proof.
  intros Hrest. revert fuel. induction l as [| x l IH]; intros fuel Hf; [by apply Hrest |].
  rewrite escape_cons in *. apply (custom_loop_char x fuel c e _ (l ++ t)); done.
Qed.

Lemma custom_loop_hole p fuel c e rest t :
  item_ok (hole_item p) ->
  (forall fuel, (length rest <= fuel)%nat -> pure_text (fun st => custom_loop load m_modules fuel st c e rest) t) ->
  (length (item_format (hole_item p) ++ rest) <= fuel)%nat ->
  pure_text (fun st => custom_loop load m_modules fuel st c e (item_format (hole_item p) ++ rest))
    (hole_text c e p ++ t).
Proof.
  intros [Hp1 Hp2] Hrest Hf. cbn [item_format app] in *. rewrite <- app_assoc in *. cbn [app length] in *.
  rewrite length_app in Hf. cbn [length] in Hf.
  destruct fuel as [| fuel]; [lia |]. cbn [custom_loop].
  assert (exists y q, p ++ chr "}" :: rest = y :: q /\ y <> chr "{") as (y & q & Eq & Hy).
  { destruct p as [| y p]; [by exists (chr "}"), rest | by exists y, (p ++ chr "}" :: rest)]. }
  rewrite Eq. rewrite (proj2 (Z.eqb_neq y (chr "{")) Hy). rewrite <- Eq, split_at_app by done. cbn [andb negb Z.eqb].
  apply (pure_bind _ _ _ _ (fun a b => a ++ b)); [apply pure_placeholder | apply Hrest; lia].
Qed.

(** A display format shows what its author means: text as it is, also with
    braces in it, and in the place of a placeholder the value of the field in the
    slot where the configuration keeps it, as a symbol or as [std::format] prints
    it with the specification, a question mark when it rejects that. The modules
    loaded so far do not matter. *)
Theorem apply_custom_format_spec st items c e
    (Hst : cache_ok st) (Hitems : Forall item_ok items) :
  let '(st', t) := apply_custom_format load m_modules st (concat (map item_format items)) e c in
  cache_ok st' /\ t = concat (map (item_text c e) items).
Proof.
  unfold apply_custom_format.
  assert (forall fuel, (length (concat (map item_format items)) <= fuel)%nat ->
    pure_text (fun st => custom_loop load m_modules fuel st c e (concat (map item_format items)))
      (concat (map (item_text c e) items))) as H.
  { induction Hitems as [| i items Hi Hitems IH]; intros fuel Hf.
    - cbn. destruct fuel; apply pure_ret.
    - cbn [map concat] in *. destruct i as [l | p].
      + by apply custom_loop_text.
      + by apply custom_loop_hole. }
  specialize (H _ (le_n _) st Hst). cbv beta in H.
  by destruct (custom_loop load m_modules _ st c e _) as [st' t].
Qed.

(** *** Every entry *)

Lemma pure_custom fuel c e fmt :
  exists t, pure_text (fun st => custom_loop load m_modules fuel st c e fmt) t.
Proof.
  revert fmt. induction fuel as [| fuel IH]; intros fmt; [exists []; apply pure_ret |].
  destruct fmt as [| x rest]; [exists []; apply pure_ret |]. cbn [custom_loop].
  destruct rest as [| y rest]; [exists [x]; apply pure_ret |].
  destruct (_ && _); [destruct (IH rest) as [t Ht]; eexists; by apply pure_literal |].
  destruct (_ && _); [destruct (IH rest) as [t Ht]; eexists; by apply pure_literal |].
  destruct (negb _); [destruct (IH (y :: rest)) as [t Ht]; eexists; by apply pure_literal |].
  destruct (split_at _ _) as [[p rest'] |]; [| eexists; apply pure_ret].
  destruct (IH rest') as [t Ht]. exists (hole_text c e p ++ t).
  apply (pure_bind _ _ _ _ (fun a b => a ++ b)); [apply pure_placeholder | exact Ht].
Qed.

Lemma pure_default e i c : exists t, pure_text (fun st => default_fields load m_modules st e i c) t.
Proof.
  revert i. induction c as [| f c IH]; intros i; [exists []; apply pure_ret |]. cbn [default_fields].
  destruct (IH (S i)) as [t Ht].
  set (g := fun st => match f with
                      | guest_rip | guest_retaddr => resolve_address load m_modules st (entry_data e i)
                      | _ => (st, hex16 (entry_data e i))
                      end).
  assert (exists a, pure_text g a) as [a Ha]
    by (destruct f; eexists; first [apply pure_resolve | apply pure_ret]).
  pose proof (pure_bind g a _ t (fun a b => data_field_name f ++ bytes "=" ++ a ++ bytes " " ++ b) Ha Ht) as H.
  destruct f; first [exists t; exact Ht | eexists; exact H].
Qed.

(** The line of an entry depends on the entry, the configuration and the files,
    not on what was shown before it. *)
Lemma format_entry_pure e : exists t, pure_text (fun st => format_entry load m_modules cfg st e) t.
Proof.
  unfold format_entry. destruct (_ =? _); [| eexists; apply pure_ret].
  destruct (select_cfg cfg e) as [c f].
  assert (exists t, pure_text (fun st => match f with
      | Some f => apply_custom_format load m_modules st f e c
      | None => if forallb (fun f => bool_decide (f = field_none)) c then (st, raw_data e)
                else default_fields load m_modules st e 0 c end) t) as [t Ht].
  { destruct f as [f |]; [apply pure_custom |]. destruct (forallb _ _); [eexists; apply pure_ret | apply pure_default]. }
  eexists. exact (pure_map _ t (fun t => bytes "[core " ++ dec (core_id e) ++ bytes "] " ++ t ++ [10]) Ht).
Qed.

Lemma empty_cache_ok : cache_ok empty_cache.
Proof. clear distinct_names. intros m Hm. cbn. rewrite lookup_empty. set_solver. Qed.
End cache.

(** The line of an entry, formatted on its own. *)
Definition format_line (load : module_info -> option pe) (m_modules : list module_info) (cfg : parser_cfg)
    (e : entry) : list Z := snd (format_entry load m_modules cfg empty_cache e).

Lemma format_entry_line load m_modules cfg st e :
  (forall m m', In m m_modules -> In m' m_modules -> name m = name m' -> m = m') ->
  cache_ok load m_modules st ->
  cache_ok load m_modules (fst (format_entry load m_modules cfg st e)) /\
  snd (format_entry load m_modules cfg st e) = format_line load m_modules cfg e.
Proof.
  intros Hd Hst. destruct (format_entry_pure load m_modules cfg Hd e) as [t Ht].
  destruct (Ht st Hst) as [H1 H2]. split; [done |]. unfold format_line.
  destruct (Ht empty_cache (empty_cache_ok load m_modules)) as [_ H3]. congruence.
Qed.

(** ** The merge *)

(** [heap_elem]. *)
Record heap_elem := mk_elem { el_timestamp : Z; stream_index : nat }.

(** [std::priority_queue<heap_elem, std::vector<heap_elem>, std::greater<>>]: the
    elements come out by their time stamps; which of several with the same stamp
    comes first is up to the implementation. *)
Class MinHeap := {
  heap : Type;
  heap_empty : heap;
  heap_push : heap_elem -> heap -> heap;
  heap_pop : heap -> option (heap_elem * heap);
  heap_elems : heap -> list heap_elem;
  heap_empty_elems : heap_elems heap_empty = [];
  heap_push_elems x h : heap_elems (heap_push x h) ≡ₚ x :: heap_elems h;
  heap_pop_none h : heap_pop h = None -> heap_elems h = [];
  heap_pop_some h x h' : heap_pop h = Some (x, h') ->
    heap_elems h ≡ₚ x :: heap_elems h' /\
    forall y, In y (heap_elems h) -> el_timestamp x <= el_timestamp y
}.

Section merge.
Context {mh : MinHeap}.
Variable load : module_info -> option pe.
Variable m_modules : list module_info.
Variable cfg : parser_cfg.

Definition done (s : core_stream) : bool := (length (stream_entries s) <=? cursor s)%nat.
Definition current (s : core_stream) : entry := nth (cursor s) (stream_entries s) zero_entry.
Definition zero_stream : core_stream := mk_stream 0 [] 0.

(** The first entry of each stream, pushed in order. *)
Fixpoint init_heap (streams : list core_stream) (i : nat) (h : heap) : heap :=
  match streams with
  | [] => h
  | s :: streams =>
      init_heap streams (S i) (if done s then h else heap_push (mk_elem (timestamp (current s)) i) h)
  end.

(** The loop of [merge_format_write]: the cache, what has been written so far with
    the index of its stream (a ghost), and the text. *)
Fixpoint merge_loop (fuel : nat) (h : heap) (streams : list core_stream) (st : pe_cache)
    (written : list (nat * entry)) (out : list Z) : option (list (nat * entry) * list Z) :=
  match fuel with
  | O => None
  | S fuel =>
      match heap_pop h with
      | None => Some (written, out)
      | Some (mk_elem _ si, h) =>
          let stream := nth si streams zero_stream in
          let e := current stream in
          let '(st, line) := format_entry load m_modules cfg st e in
          let stream := stream <| cursor := S (cursor stream) |> in
          let h := if done stream then h else heap_push (mk_elem (timestamp (current stream)) si) h in
          merge_loop fuel h (<[si := stream]> streams) st (written ++ [(si, e)]) (out ++ line)
      end
  end.

Definition merge_format_write (fuel : nat) (streams : list core_stream) : option (list (nat * entry) * list Z) :=
  merge_loop fuel (init_heap streams 0 heap_empty) streams empty_cache [] [].

(** *** Its invariant *)

(** What is left of a stream, and of all. *)
Definition rest (s : core_stream) : list entry := drop (cursor s) (stream_entries s).
Definition left (streams : list core_stream) : list entry := concat (map rest streams).

(** The elements the heap should have. *)
Definition front (s : core_stream) (i : nat) : list heap_elem :=
  if done s then [] else [mk_elem (timestamp (current s)) i].
Fixpoint fronts (streams : list core_stream) (i : nat) : list heap_elem :=
  match streams with
  | [] => []
  | s :: streams => front s i ++ fronts streams (S i)
  end.

Lemma rest_cases s : (done s = true /\ rest s = []) \/ (done s = false /\ exists r, rest s = current s :: r).
Proof.
  unfold done, rest, current. destruct (Nat.leb_spec (length (stream_entries s)) (cursor s)) as [H | H].
  - left. split; [reflexivity |]. by apply drop_ge.
  - right. split; [reflexivity |]. destruct (lookup_lt_is_Some_2 _ _ H) as [e He].
    exists (drop (S (cursor s)) (stream_entries s)). rewrite nth_lookup, He. by apply drop_S.
Qed.

Lemma rest_next s : done s = false -> rest s = current s :: rest (s <| cursor := S (cursor s) |>).
Proof.
  intros Hd. unfold done, rest, current in *. cbn [stream_entries cursor set].
  destruct (Nat.leb_spec (length (stream_entries s)) (cursor s)) as [| H]; [done |].
  destruct (lookup_lt_is_Some_2 _ _ H) as [e He]. rewrite nth_lookup, He. by apply drop_S.
Qed.

Lemma init_heap_elems streams i h :
  heap_elems (init_heap streams i h) ≡ₚ fronts streams i ++ heap_elems h.
Proof.
  revert i h. induction streams as [| s streams IH]; intros i h; cbn [init_heap fronts]; [done |].
  rewrite IH. unfold front. destruct (done s); [done |].
  rewrite heap_push_elems. cbn [app]. by rewrite Permutation_middle.
Qed.

Lemma fronts_update streams i k s :
  streams !! i = Some s ->
  exists l, fronts streams k ≡ₚ front s (k + i) ++ l /\
            forall s', fronts (<[i := s']> streams) k ≡ₚ front s' (k + i) ++ l.
Proof.
  revert i k. induction streams as [| s0 streams IH]; intros i k Hi; [done |].
  destruct i as [| i]; cbn in Hi.
  - injection Hi as ->. exists (fronts streams (S k)). rewrite Nat.add_0_r. cbn. done.
  - destruct (IH i (S k) Hi) as (l & H1 & H2). exists (front s0 k ++ l).
    replace (k + S i)%nat with (S k + i)%nat by lia. split.
    + cbn [fronts]. rewrite H1, !app_assoc. by rewrite (Permutation_app_comm (front s0 k)).
    + intros s'. cbn [insert list_insert fronts]. rewrite H2, !app_assoc.
      by rewrite (Permutation_app_comm (front s0 k)).
Qed.

Lemma fronts_elem streams k x :
  In x (fronts streams k) ->
  exists i s, streams !! i = Some s /\ stream_index x = (k + i)%nat /\ front s (k + i) = [x].
Proof.
  revert k. induction streams as [| s streams IH]; intros k Hx; [done |]. cbn [fronts] in Hx.
  apply in_app_or in Hx as [Hx | Hx].
  - exists 0%nat, s. rewrite Nat.add_0_r. unfold front in *. destruct (done s); [done |].
    destruct Hx as [<- | []]. done.
  - destruct (IH (S k) Hx) as (i & s' & H1 & H2 & H3). exists (S i), s'.
    replace (k + S i)%nat with (S k + i)%nat by lia. done.
Qed.

Lemma left_update streams i s s' e :
  streams !! i = Some s -> rest s = e :: rest s' -> left streams ≡ₚ e :: left (<[i := s']> streams).
Proof.
  intros Hi Hr. revert i Hi. induction streams as [| s0 streams IH]; intros i Hi; [done |].
  destruct i as [| i]; cbn in Hi.
  - injection Hi as ->. unfold left. cbn. by rewrite Hr.
  - unfold left in *. cbn [map concat insert list_insert]. rewrite (IH i Hi). by rewrite Permutation_middle.
Qed.

Lemma fronts_nil streams k : fronts streams k = [] -> forall i s, streams !! i = Some s -> rest s = [].
Proof.
  revert k. induction streams as [| s0 streams IH]; intros k Hf i s Hi; [done |]. cbn [fronts] in Hf.
  apply app_eq_nil in Hf as [H1 H2]. destruct i as [| i]; cbn in Hi; [| by eapply IH].
  injection Hi as ->. unfold front in H1. destruct (rest_cases s) as [[_ E] | [Hd _]]; [done |]. by rewrite Hd in H1.
Qed.

(** The entries written from stream [i]. *)
Definition from_stream (i : nat) (w : list (nat * entry)) : list entry :=
  map snd (List.filter (fun p => (fst p =? i)%nat) w).
Definition ts_le (a b : entry) : Prop := timestamp a <= timestamp b.
Definition ascending (l : list entry) : Prop := StronglySorted ts_le l.

Lemma in_left streams e : In e (left streams) <-> exists i s, streams !! i = Some s /\ In e (rest s).
Proof.
  unfold left. rewrite in_concat. split.
  - intros (l & (s & <- & Hs)%in_map_iff & He). apply list_elem_of_In, list_elem_of_lookup in Hs as [i Hi]. eauto.
  - intros (i & s & Hi & He). exists (rest s). split; [| done]. apply in_map_iff. exists s. split; [done |].
    apply list_elem_of_In. by apply list_elem_of_lookup_2 with i.
Qed.

(** The entry the heap gives comes first. *)
Lemma popped_least streams h x h' e :
  heap_elems h ≡ₚ fronts streams 0 -> heap_pop h = Some (x, h') -> el_timestamp x = timestamp e ->
  (forall i s, streams !! i = Some s -> ascending (rest s)) ->
  forall y, In y (left streams) -> ts_le e y.
Proof.
  intros Hh Hpop Hx Hasc y Hy. apply in_left in Hy as (i & s & Hi & Hy).
  destruct (heap_pop_some h x h' Hpop) as [_ Hmin].
  destruct (rest_cases s) as [[_ E] | [Hd (r & E)]]; [by rewrite E in Hy |].
  assert (In (mk_elem (timestamp (current s)) i) (heap_elems h)) as Hin.
  { rewrite Hh. destruct (fronts_update streams i 0 s Hi) as (l & Hl & _). rewrite Hl. unfold front. rewrite Hd. by left. }
  specialize (Hmin _ Hin). cbn in Hmin. unfold ts_le. rewrite Hx in Hmin.
  specialize (Hasc i s Hi). rewrite E in Hasc, Hy. apply StronglySorted_inv in Hasc as [_ Hall].
  destruct Hy as [<- | Hy]; [done |]. rewrite List.Forall_forall in Hall. specialize (Hall y Hy).
  unfold ts_le in Hall. lia.
Qed.

Hypothesis distinct_names : forall m m', In m m_modules -> In m' m_modules -> name m = name m' -> m = m'.

(** The text of what was written. *)
Definition lines (w : list (nat * entry)) : list Z :=
  concat (map (fun p => format_line load m_modules cfg (snd p)) w).

(** What the loop writes from a state: everything that is left, each stream in
    its order, and all in the order of the time stamps when each stream is. *)
Record merged (streams : list core_stream) (w : list (nat * entry)) : Prop := {
  merged_all : map snd w ≡ₚ left streams;
  merged_order : forall i s, streams !! i = Some s -> from_stream i w = rest s;
  merged_ascending : (forall i s, streams !! i = Some s -> ascending (rest s)) -> ascending (map snd w)
}.

(** The state after the front of stream [i] was taken. *)
Lemma merged_step streams i s w h x h' :
  heap_elems h ≡ₚ fronts streams 0 -> heap_pop h = Some (x, h') ->
  streams !! i = Some s -> done s = false -> el_timestamp x = timestamp (current s) ->
  merged (<[i := s <| cursor := S (cursor s) |>]> streams) w -> merged streams ((i, current s) :: w).
Proof.
  intros Hh Hpop Hi Hd Hx [Hall Hord Hasc]. pose proof (rest_next s Hd) as Hr.
  set (s' := s <| cursor := S (cursor s) |>) in *.
  assert (i < length streams)%nat as Hlt by (by eapply lookup_lt_Some).
  split.
  - cbn [map snd]. rewrite Hall. symmetry. by apply left_update with s.
  - intros j t Hj. unfold from_stream in *. cbn [List.filter fst]. destruct (Nat.eqb_spec i j) as [<- | Hne].
    + rewrite Hi in Hj. injection Hj as <-. cbn [map snd]. rewrite Hr. f_equal.
      apply (Hord i s'). by apply list_lookup_insert_eq.
    + apply Hord. by rewrite list_lookup_insert_ne.
  - intros H. cbn [map snd]. constructor.
    + apply Hasc. intros j t Hj. destruct (decide (i = j)) as [<- | Hne].
      * rewrite list_lookup_insert_eq in Hj by done. injection Hj as <-.
        specialize (H i s Hi). rewrite Hr in H. by apply StronglySorted_inv in H as [? _].
      * rewrite list_lookup_insert_ne in Hj by done. by eapply H.
    + apply List.Forall_forall. intros y Hy. apply (popped_least streams h x h'); try done.
      rewrite (left_update streams i s s' (current s) Hi Hr). right. by rewrite <- Hall.
Qed.

Lemma merge_loop_ok fuel h streams st written out :
  heap_elems h ≡ₚ fronts streams 0 -> (length (left streams) < fuel)%nat -> cache_ok load m_modules st ->
  exists w, merge_loop fuel h streams st written out = Some (written ++ w, out ++ lines w) /\
            merged streams w.
Proof.
  revert h streams st written out. induction fuel as [| fuel IH]; intros h streams st written out Hh Hf Hst; [lia |].
  cbn [merge_loop]. destruct (heap_pop h) as [[[ts si] h'] |] eqn:Hpop.
  - destruct (heap_pop_some h _ h' Hpop) as [Hperm _].
    assert (In (mk_elem ts si) (fronts streams 0)) as Hin by (rewrite <- Hh, Hperm; by left).
    destruct (fronts_elem streams 0 _ Hin) as (i & s & Hi & Ei & Ef). cbn in Ei, Ef. subst si.
    assert (done s = false /\ ts = timestamp (current s)) as [Hd ->].
    { unfold front in Ef. destruct (done s); [done |]. by injection Ef as <-. }
    assert (nth i streams zero_stream = s) as -> by (by rewrite nth_lookup, Hi).
    destruct (format_entry_line load m_modules cfg st (current s) distinct_names Hst) as [Hst' Hline].
    destruct (format_entry load m_modules cfg st (current s)) as [st' line]. cbn in Hst', Hline. subst line.
    set (s' := s <| cursor := S (cursor s) |>) in *.
    destruct (IH (if done s' then h' else heap_push (mk_elem (timestamp (current s')) i) h')
      (<[i := s']> streams) st' (written ++ [(i, current s)]) (out ++ format_line load m_modules cfg (current s)))
      as (w & E & Hw).
    + destruct (fronts_update streams i 0 s Hi) as (l & Hl & Hl'). rewrite Hl'.
      rewrite Hh, Hl in Hperm. cbn [Nat.add] in *. rewrite Ef in Hperm. apply Permutation_cons_inv in Hperm.
      unfold front. destruct (done s'); [by rewrite Hperm |]. rewrite heap_push_elems. by rewrite Hperm.
    + rewrite (left_update streams i s s' (current s) Hi (rest_next s Hd)) in Hf. cbn in Hf. lia.
    + done.
    + exists ((i, current s) :: w). split.
      * rewrite E. f_equal. unfold lines. cbn [map snd concat]. by rewrite <- !app_assoc.
      * by apply (merged_step streams i s w h (mk_elem (timestamp (current s)) i) h').
  - apply heap_pop_none in Hpop. rewrite Hpop in Hh. apply Permutation_nil in Hh.
    exists []. split; [by rewrite !app_nil_r |].
    pose proof (fronts_nil streams 0 Hh) as Hr. split.
    + cbn. assert (left streams = []) as ->; [| done].
      destruct (left streams) as [| e l] eqn:El; [done |].
      assert (In e (left streams)) as Hin by (rewrite El; by left).
      apply in_left in Hin as (i & s & Hi & He). by rewrite (Hr i s Hi) in He.
    + intros i s Hi. by rewrite (Hr i s Hi).
    + intros _. constructor.
Qed.

Lemma merge_ok streams :
  Forall (fun s => cursor s = 0%nat) streams ->
  exists w out,
    merge_format_write (S (length (concat (map stream_entries streams)))) streams = Some (w, out) /\
    map snd w ≡ₚ concat (map stream_entries streams) /\
    (forall i s, streams !! i = Some s -> from_stream i w = stream_entries s) /\
    (Forall (fun s => ascending (stream_entries s)) streams -> ascending (map snd w)) /\
    out = concat (map (format_line load m_modules cfg) (map snd w)).
Proof.
  intros Hnew.
  assert (forall i s, streams !! i = Some s -> rest s = stream_entries s) as Hrest.
  { intros i s Hi. unfold rest. rewrite List.Forall_forall in Hnew.
    rewrite (Hnew s); [done |]. apply list_elem_of_In. by apply list_elem_of_lookup_2 with i. }
  assert (left streams = concat (map stream_entries streams)) as Hleft.
  { unfold left. f_equal. apply map_ext_in. intros s Hs. apply list_elem_of_In, list_elem_of_lookup in Hs as [i Hi].
    by apply (Hrest i). }
  destruct (merge_loop_ok (S (length (concat (map stream_entries streams)))) (init_heap streams 0 heap_empty)
    streams empty_cache [] []) as (w & E & [Hall Hord Hasc]).
  - rewrite init_heap_elems, heap_empty_elems. by rewrite app_nil_r.
  - rewrite Hleft. lia.
  - by apply empty_cache_ok.
  - exists w, (lines w). split; [exact E |]. split; [by rewrite <- Hleft |]. split; [| split].
    + intros i s Hi. by rewrite (Hord i s Hi), (Hrest i s Hi).
    + intros H. apply Hasc. intros i s Hi. rewrite (Hrest i s Hi). rewrite List.Forall_forall in H.
      apply H. apply list_elem_of_In. by apply list_elem_of_lookup_2 with i.
    + unfold lines. by rewrite map_map.
Qed.

(** The merge ends after as many rounds as there are entries. It writes every
    entry of every core once, those of a core in their order, all in the order of
    their time stamps when each core's are (of entries with the same stamp either
    may come first); and the text is that of the entries one by one. *)
Theorem merge_writes_all_in_order streams
    (Hnew : Forall (fun s => cursor s = 0%nat) streams) :
  exists w out,
    merge_format_write (S (length (concat (map stream_entries streams)))) streams = Some (w, out) /\
    map snd w ≡ₚ concat (map stream_entries streams) /\
    (forall i s, streams !! i = Some s -> from_stream i w = stream_entries s) /\
    (Forall (fun s => ascending (stream_entries s)) streams -> ascending (map snd w)) /\
    out = concat (map (format_line load m_modules cfg) (map snd w)).
Proof. by apply merge_ok. Qed.
End merge.

(** ** A run of the parser *)

(** [parser::run]: the module list, the directory with its trace files, and the
    configuration in it; the text of the log, [None] where it returns false.
    [fuel] bounds the entries. *)
Definition run `{MinHeap} (load : module_info -> option pe) (fuel : nat) (modules : option (list Z))
    (trace_dir : option (list (list Z * option (list Z)))) (trace_cfg : option (list Z)) : option (list Z) :=
  match modules ≫= load_modules with
  | None => None
  | Some m_modules =>
      let cfg := load_trace_cfg trace_cfg in
      match trace_dir ≫= open_trace_streams with
      | None => None
      | Some streams => snd <$> merge_format_write load m_modules cfg fuel streams
      end
  end.

(** The files of a session: a name, a core and its entries. *)
Definition session := list (list Z * Z * list entry).
Definition session_dir (s : session) : list (list Z * option (list Z)) :=
  map (fun '(fname, core, es) => (fname, Some (trace_header core ++ concat (map entry_bytes es)))) s.
Definition session_ok (s : session) : Prop :=
  Forall (fun '(fname, core, es) => is_trace_file fname = true /\ es <> [] /\ Forall entry_ok es) s.
Definition session_entries (s : session) : list entry := concat (map snd s).

Lemma open_session s :
  s <> [] -> session_ok s ->
  open_trace_streams (session_dir s) = Some (map (fun '(_, core, es) => mk_stream (u16 core) es 0) s).
Proof.
  intros Hne Hok. unfold open_trace_streams.
  assert (omap (fun '(fname, f) => if is_trace_file fname then f ≫= open_stream else None) (session_dir s) =
          map (fun '(_, core, es) => mk_stream (u16 core) es 0) s) as ->.
  { clear Hne. induction Hok as [| [[fname core] es] s (Hf & Hes & Hall) Hok IH]; [done |].
    cbn [session_dir map omap list_omap]. rewrite Hf. cbn [mbind option_bind].
    rewrite open_stream_ok by done. f_equal. exact IH. }
  by destruct s.
Qed.

(** (C7) A trace session, from the files the controller leaves to the log: the parser
    succeeds, and the log has the line of every saved entry, in the order of the
    time stamps when those of each core ascend; the lines are those for the
    exported modules and the saved configuration. *)
Theorem parse_session `{MinHeap} load ms generic fmt exact s
    (Hms : ms <> []) (Hcount : Z.of_nat (length ms) < 2 ^ 32) (Hmods : Forall module_ok ms)
    (Hnames : forall m m', In m ms -> In m' ms -> take 63 (name m) = take 63 (name m') -> m = m')
    (Hgen : cfg_ok generic) (Hfmt : nonzero fmt) (Hexact : Forall exact_ok exact)
    (Hexacts : Z.of_nat (length exact) < 2 ^ 32) (Hs : s <> []) (Hsession : session_ok s) :
  let cfg := mk_parser_cfg generic (take 255 fmt) (map clip_exact exact) (find_data_slot generic guest_rip) in
  exists es,
    run load (S (length (session_entries s))) (export_modules ms) (Some (session_dir s))
      (Some (export_trace_config generic fmt exact)) =
      Some (concat (map (format_line load (map clip_module ms) cfg) es)) /\
    es ≡ₚ session_entries s /\
    (Forall (fun '(_, _, l) => ascending l) s -> ascending es).
Proof.
  intros cfg. unfold run. destruct (export_load_modules_ok ms Hms Hcount Hmods) as (f & -> & Ef).
  cbn [mbind option_bind]. rewrite Ef, export_load_trace_cfg_ok, open_session by done. fold cfg.
  set (streams := map (fun '(_, core, es) => mk_stream (u16 core) es 0) s).
  assert (map stream_entries streams = map snd s) as E.
  { unfold streams. rewrite map_map. apply map_ext. by intros [[? ?] ?]. }
  destruct (merge_ok load (map clip_module ms) cfg) with (streams := streams) as (w & out & Em & Hall & _ & Hasc & Ho).
  - intros m m' (a & <- & Ha)%in_map_iff (b & <- & Hb)%in_map_iff En. f_equal. by apply Hnames.
  - apply List.Forall_forall. intros x (y & <- & _)%in_map_iff. by destruct y as [[? ?] ?].
  - rewrite E in *. unfold session_entries. rewrite Em. cbn. exists (map snd w). rewrite Ho.
    split; [done |]. split; [done |]. intros H1. apply Hasc. unfold streams.
    apply Forall_map. eapply Forall_impl; [exact H1 |]. by intros [[? ?] ?].
Qed.

(** ** The configuration of an entry *)

(** An entry captured with a configuration: [value] is what a field stood for. *)
Definition captured (value : ept_transition_data_field -> Z) (c : ept_transition_cfg) (e : entry) : Prop :=
  forall i, (i < 6)%nat -> entry_data e i = nth i (map value c) 0.

Lemma transition_entry_captured supported env s ret :
  let m := vcpu_vmcs (core s) in
  let rip := vmx_vmread supported m VMCS_GUEST_RIP in
  captured (field_value (guest_context (core s)) rip (vmx_vmread supported m VMCS_GUEST_RSP) ret)
    (lookup_transition_cfg (transitions (core s)) rip) (transition_entry supported env s ret).
Proof.
  intros m rip i Hi. unfold transition_entry. do 6 (destruct i as [| i]; [reflexivity |]). lia.
Qed.

Lemma find_slot_ok c f i :
  find_slot c f i = -1 \/ (exists k, find_slot c f i = i + Z.of_nat k /\ (k < length c)%nat /\ nth k c field_none = f).
Proof.
  revert i. induction c as [| g c IH]; intros i; [by left |]. cbn [find_slot].
  case_decide as E; [right; exists 0%nat; cbn; split; [lia | split; [lia | done]] |].
  destruct (IH (i + 1)) as [H | (k & H1 & H2 & H3)]; [by left |].
  right. exists (S k). cbn. split; [lia |]. split; [lia | done].
Qed.

Lemma find_data_slot_ok c f :
  0 <= find_data_slot c f ->
  exists k, find_data_slot c f = Z.of_nat k /\ (k < length c)%nat /\ nth k c field_none = f.
Proof.
  intros H. unfold find_data_slot in *. destruct (find_slot_ok c f 0) as [E | (k & E & Hk)]; [lia |].
  exists k. by rewrite E.
Qed.

Lemma find_slot_present c f i : In f c -> i <= find_slot c f i.
Proof.
  revert i. induction c as [| g c IH]; intros i Hin; [done |]. cbn [find_slot].
  case_decide as E; [lia |]. destruct Hin as [-> | Hin]; [done |]. specialize (IH (i + 1) Hin). lia.
Qed.

(** What an entry holds in the slot of a field. *)
Lemma captured_slot value c e f :
  captured value c e -> length c = 6%nat -> 0 <= find_data_slot c f ->
  entry_data e (Z.to_nat (find_data_slot c f)) = value f.
Proof.
  intros Hc Hl Hs. destruct (find_data_slot_ok c f Hs) as (k & E & Hk & Hf). rewrite E, Nat2Z.id.
  rewrite Hc by lia. rewrite nth_indep with (d' := value field_none) by (rewrite length_map; lia).
  by rewrite map_nth, Hf.
Qed.

(** The parser's copy of the exact configurations agrees with the table of a core. *)
Definition same_configurations (t : transition_table) (cfg : parser_cfg) : Prop :=
  exists m, table_wf t /\ table_models t m /\ m_generic_cfg cfg = generic_transition_cfg t /\
    forall a, a <> 0 -> m !! a = ex_cfg <$> List.find (fun x => ex_addr x =? a) (m_exact_cfgs cfg).

(** Every configuration keeps the instruction pointer in the slot where the
    generic one has it. *)
Definition rip_slot_agrees (cfg : parser_cfg) : Prop :=
  0 <= m_rip_slot cfg /\
  Forall (fun c => length c = 6%nat /\ find_data_slot c guest_rip = m_rip_slot cfg)
    (m_generic_cfg cfg :: map ex_cfg (m_exact_cfgs cfg)).

Lemma parser_uses_captured_configuration_ok t cfg value e
    (Hsame : same_configurations t cfg) (Hslot : rip_slot_agrees cfg) (Hrip : value guest_rip <> 0)
    (Hcap : captured value (lookup_transition_cfg t (value guest_rip)) e) :
  let c := fst (select_cfg cfg e) in
  c = lookup_transition_cfg t (value guest_rip) /\
  forall f, named f -> In f c -> placeholder_value c e (data_field_name f) = value f.
Proof.
  destruct Hsame as (m & Hwf & Hm & Hg & Hex). destruct Hslot as [Hge Hall].
  rewrite (lookup_transition_cfg_ok t m) in * by done. rewrite Hex in * by done.
  set (c := default _ _) in Hcap.
  assert (length c = 6%nat /\ find_data_slot c guest_rip = m_rip_slot cfg) as [Hlen Hslot].
  { rewrite List.Forall_forall in Hall. apply Hall. unfold c.
    destruct (find _ (m_exact_cfgs cfg)) as [x |] eqn:Ef; [| left; by rewrite Hg].
    apply find_some in Ef as [Hin _]. right. cbn. by apply in_map. }
  assert (entry_data e (Z.to_nat (m_rip_slot cfg)) = value guest_rip) as Hr.
  { rewrite <- Hslot. apply (captured_slot _ c); [done | done | lia]. }
  assert (fst (select_cfg cfg e) = c) as Hsel.
  { unfold select_cfg, c. rewrite Hr. destruct (Z.leb_spec 0 (m_rip_slot cfg)); [| lia]. cbn [andb].
    case_bool_decide as En; cbn [negb fst].
    - rewrite En. cbn. by rewrite Hg.
    - destruct (find _ (m_exact_cfgs cfg)); cbn; [done | by rewrite Hg]. }
  cbv zeta. rewrite Hsel. split; [done |]. intros f Hf Hin. unfold placeholder_value.
  rewrite parse_data_field_name by done.
  pose proof (find_slot_present c f 0 Hin) as H0. fold (find_data_slot c f) in H0.
  destruct (Z.leb_spec 0 (find_data_slot c f)); [| lia]. by apply captured_slot.
Qed.

(** The parser shows an entry with the configuration the hypervisor captured it
    with, and every placeholder with the value its field had, provided that all
    configurations keep the instruction pointer in the same slot. *)
Theorem parser_uses_captured_configuration t cfg value e
    (Hsame : same_configurations t cfg) (Hslot : rip_slot_agrees cfg) (Hrip : value guest_rip <> 0)
    (Hcap : captured value (lookup_transition_cfg t (value guest_rip)) e) :
  let c := fst (select_cfg cfg e) in
  c = lookup_transition_cfg t (value guest_rip) /\
  forall f, named f -> In f c -> placeholder_value c e (data_field_name f) = value f.
Proof. by apply (parser_uses_captured_configuration_ok t). Qed.

(** ** A heap, and examples *)

(** The least element of a list and the others. *)
Fixpoint take_least (x : heap_elem) (l : list heap_elem) : heap_elem * list heap_elem :=
  match l with
  | [] => (x, [])
  | y :: l =>
      if el_timestamp y <? el_timestamp x then let '(m, r) := take_least y l in (m, x :: r)
      else let '(m, r) := take_least x l in (m, y :: r)
  end.

Lemma take_least_ok x l :
  let '(m, r) := take_least x l in
  x :: l ≡ₚ m :: r /\ forall y, In y (x :: l) -> el_timestamp m <= el_timestamp y.
Proof.
  revert x. induction l as [| y l IH]; intros x; cbn [take_least].
  - split; [reflexivity |]. intros y [<- | []]. lia.
  - destruct (Z.ltb_spec (el_timestamp y) (el_timestamp x)).
    + specialize (IH y). destruct (take_least y l) as [m r]. destruct IH as [H1 H2]. split.
      * rewrite H1. apply perm_swap.
      * intros z [<- | Hz]; [specialize (H2 y ltac:(by left)); lia | by apply H2].
    + specialize (IH x). destruct (take_least x l) as [m r]. destruct IH as [H1 H2]. split.
      * rewrite perm_swap, H1. apply perm_swap.
      * intros z [<- | [<- | Hz]]; [apply H2; by left | specialize (H2 x ltac:(by left)); lia | apply H2; by right].
Qed.

#[export] Instance list_heap : MinHeap.
Proof.
  refine {| heap := list heap_elem; heap_empty := []; heap_push := cons;
            heap_pop := fun h => match h with [] => None | x :: l => Some (take_least x l) end;
            heap_elems := fun h => h |}.
  - done.
  - done.
  - by intros [| x l].
  - intros [| x l] m r H; [done |]. injection H as H. pose proof (take_least_ok x l) as Hl. by rewrite H in Hl.
Defined.

Definition no_pe : module_info -> option pe := fun _ => None.
Definition sample_cfg : parser_cfg := mk_parser_cfg default_generic_cfg [] [] 0.

Definition sample_items : list item :=
  [text_item (bytes "a{b"); text_item (bytes "} "); hole_item (bytes "rip"); text_item (bytes " ");
   hole_item (bytes "retaddr:#x")].
Definition rip_entry : entry := mk_entry 1 0 0 5 0xFFFFF80000000010 0xBEEF 0 0 0 0.

Lemma apply_custom_format_spec_witness :
  snd (apply_custom_format no_pe [sample_module] empty_cache (concat (map item_format sample_items))
    rip_entry default_generic_cfg) =
  bytes "a{b} ntoskrnl+10 0xbeef".
Proof.
  assert (forall m m', In m [sample_module] -> In m' [sample_module] -> name m = name m' -> m = m') as Hd
    by (intros m m' [<- | []] [<- | []]; reflexivity).
  assert (Forall item_ok sample_items) as Hok by (repeat constructor; vm_compute; discriminate).
  pose proof (apply_custom_format_spec no_pe [sample_module] Hd empty_cache sample_items
    default_generic_cfg rip_entry (empty_cache_ok no_pe [sample_module]) Hok) as H.
  destruct (apply_custom_format no_pe _ _ _ _ _) as [st' t]. rewrite (proj2 H). vm_compute. reflexivity.
Defined.

Definition two_streams : list core_stream :=
  [mk_stream 0 [sample_entry 5; sample_entry 9] 0; mk_stream 1 [sample_entry 3; sample_entry 7] 0].

Lemma merge_writes_all_in_order_witness :
  exists w out, merge_format_write no_pe [] sample_cfg 5 two_streams = Some (w, out) /\
    map (fun e => timestamp (snd e)) w = [3; 5; 7; 9].
Proof.
  destruct (merge_writes_all_in_order no_pe [] sample_cfg ltac:(done) two_streams) as (w & out & E & _).
  - by repeat constructor.
  - exists w, out. split; [exact E |]. revert E. vm_compute. intros [= <- _]. reflexivity.
Defined.

Lemma parse_session_witness :
  exists es, run no_pe 3 (export_modules [sample_module])
      (Some (session_dir [(bytes "trace_core_3.bin", 3, [sample_entry 7; sample_entry 9])]))
      (Some (export_trace_config default_generic_cfg [] [])) =
    Some (concat (map (format_line no_pe [clip_module sample_module]
            (mk_parser_cfg default_generic_cfg [] [] 0)) es)) /\
    es ≡ₚ [sample_entry 7; sample_entry 9].
Proof.
  destruct (parse_session no_pe [sample_module] default_generic_cfg [] []
    [(bytes "trace_core_3.bin", 3, [sample_entry 7; sample_entry 9])]) as (es & E & Hp & _).
  - done.
  - done.
  - apply Forall_singleton. unfold module_ok, is_u64. cbn. repeat split; try lia; by apply nonzero_check.
  - by intros m m' [<- | []] [<- | []].
  - split; [done |]. by repeat constructor.
  - constructor.
  - constructor.
  - done.
  - done.
  - apply Forall_singleton. split; [by vm_compute |]. split; [done |].
    repeat constructor; apply sample_entry_ok; unfold is_u64; lia.
  - exists es. by split.
Defined.

(** Exact configurations with the instruction pointer in the first slot, where
    the default configuration has it, and in the second. *)
Definition exact_cfg : ept_transition_cfg := [guest_rip; guest_rcx; field_none; field_none; field_none; field_none].
Definition moved_cfg : ept_transition_cfg := [guest_rcx; guest_rip; field_none; field_none; field_none; field_none].

(** The table of the hypervisor and the parser's copy with one of them. *)
Definition one_exact (c : ept_transition_cfg) : transition_table :=
  snd (insert_exact_transition_cfg
    (empty_table <| generic_transition_cfg := default_generic_cfg |>) 0x5008 c).
Definition one_exact_cfg (c : ept_transition_cfg) : parser_cfg :=
  mk_parser_cfg default_generic_cfg [] [mk_exact_cfg 0x5008 c []] (find_data_slot default_generic_cfg guest_rip).

Lemma one_exact_same c : same_configurations (one_exact c) (one_exact_cfg c).
Proof.
  pose proof (insert_exact_transition_cfg_ok
    (empty_table <| generic_transition_cfg := default_generic_cfg |>) ∅ 0x5008 c) as H.
  exists (<[0x5008 := c]> ∅).
  assert (fst (insert_exact_transition_cfg
    (empty_table <| generic_transition_cfg := default_generic_cfg |>) 0x5008 c) = true) as Ht by reflexivity.
  unfold one_exact. destruct (insert_exact_transition_cfg _ _ _) as [[] t]; [| done].
  destruct H as (Hwf & Hm & Hg); [| | done |].
  - destruct empty_table_wf as [[? ?] _]. by split.
  - exact (proj2 empty_table_wf).
  - cbn [snd]. split_and!; [done | done | by rewrite Hg |].
    intros a _. cbn [one_exact_cfg m_exact_cfgs List.find ex_addr].
    destruct (Z.eqb_spec 0x5008 a) as [<- | Hn]; [by rewrite lookup_insert_eq |].
    by rewrite lookup_insert_ne by done.
Qed.

(** An instruction pointer and, in every other field, a number. *)
Definition sample_value (f : ept_transition_data_field) : Z := if decide (f = guest_rip) then 0x5008 else 7.
Definition capture (value : ept_transition_data_field -> Z) (c : ept_transition_cfg) : entry :=
  let d i := nth i (map value c) 0 in
  mk_entry 1 0 0 5 (d 0%nat) (d 1%nat) (d 2%nat) (d 3%nat) (d 4%nat) (d 5%nat).

Lemma capture_captured value c : captured value c (capture value c).
Proof. intros i Hi. do 6 (destruct i as [| i]; [reflexivity |]). lia. Qed.

Lemma parser_uses_captured_configuration_witness :
  fst (select_cfg (one_exact_cfg exact_cfg) (capture sample_value exact_cfg)) = exact_cfg.
Proof.
  destruct (parser_uses_captured_configuration (one_exact exact_cfg) (one_exact_cfg exact_cfg) sample_value
    (capture sample_value exact_cfg)) as [E _].
  - apply one_exact_same.
  - split; [by vm_compute |]. repeat constructor; by vm_compute.
  - by vm_compute.
  - apply capture_captured.
  - rewrite E. reflexivity.
Defined.

(** Nothing makes the configurations keep the instruction pointer in one slot, and
    with one that moves it the parser shows an entry with the wrong configuration. *)
Theorem moved_instruction_pointer_misread :
  ~ (forall t cfg value e, same_configurations t cfg -> value guest_rip <> 0 ->
      m_rip_slot cfg = find_data_slot (m_generic_cfg cfg) guest_rip ->
      captured value (lookup_transition_cfg t (value guest_rip)) e ->
      fst (select_cfg cfg e) = lookup_transition_cfg t (value guest_rip)).
Proof.
  intros H. specialize (H (one_exact moved_cfg) (one_exact_cfg moved_cfg) sample_value
    (capture sample_value moved_cfg) (one_exact_same moved_cfg) ltac:(by vm_compute) eq_refl
    (capture_captured sample_value moved_cfg)).
  vm_compute in H. discriminate H.
Qed.
