(* ===== verification/Commands.v ===== *)
(** * The command line of the controller: [revhv-um/commands.cpp], [commands.h]

    A line is cut into tokens and dispatched to a handler, which reads memory,
    resolves symbols, configures and runs traces. The handlers work on the engine
    and on the system; what they print is kept where it is data (dumps, lists,
    resolved addresses), as an event otherwise. An exception ends the command and
    is reported by [execute_line], so a handler that meets one stops there with
    that event. *)
From Stdlib Require Import ZArith Lia String Ascii List Bool.
From stdpp Require Import base numbers list option gmap functions.
From S2P Require Import Prelude Ia32 Memory Mtrr Paging Trace TransitionCfg Vmcs Vcpu Introspection Hv VmExit Hypercall.
From S2P Require Import TraceFiles StdFormat Pe TraceParser System KModules.

(** ** Tokens and numbers *)

Definition isspace (c : Z) : bool := (c =? 32) || ((9 <=? c) && (c <=? 13)).
Definition quote : Z := 34.

Definition to_lower (s : list Z) : list Z := map tolower s.

(** Where [tokenize] is: between tokens, in a quoted one, in a plain one. *)
Inductive tokenizer := between | quoted (tok : list Z) | plain (tok : list Z).

Fixpoint tokenize_from (mode : tokenizer) (line : list Z) : list (list Z) :=
  match line with
  | [] => match mode with between => [] | quoted tok | plain tok => [tok] end
  | c :: line =>
      match mode with
      | between =>
          if isspace c then tokenize_from between line
          else if c =? quote then tokenize_from (quoted []) line
          else tokenize_from (plain [c]) line
      | quoted tok =>
          if c =? quote then tok :: tokenize_from between line
          else tokenize_from (quoted (tok ++ [c])) line
      | plain tok =>
          if isspace c then tok :: tokenize_from between line
          else tokenize_from (plain (tok ++ [c])) line
      end
  end.

(** [engine::tokenize]. *)
Definition tokenize (line : list Z) : list (list Z) := tokenize_from between line.

(** [join_tokens]. *)
Definition join_tokens (tokens : list (list Z)) (start_index : nat) : list Z :=
  fold_left (fun r t => (match r with [] => [] | _ => r ++ [32] end) ++ t) (drop start_index tokens) [].

(** [std::from_chars] in base 16 over the whole text. *)
Fixpoint from_chars16 (s : list Z) (v : Z) : option Z :=
  match s with
  | [] => Some v
  | c :: s => match hex_digit c with Some d => from_chars16 s (v * 16 + d) | None => None end
  end.

Definition is_grouping (c : Z) : bool := (c =? chr "`") || (c =? chr "'") || (c =? chr "_").
Definition has_0x (s : list Z) : bool :=
  match s with
  | z :: x :: _ :: _ => (z =? chr "0") && ((x =? chr "x") || (x =? chr "X"))
  | _ => false
  end.
Definition ends_in_h (s : list Z) : bool :=
  match rev s with c :: _ => (c =? chr "h") || (c =? chr "H") | [] => false end.

(** [engine::parse_u64_token]; the base is 16 on every branch. *)
Definition parse_u64_token (token : list Z) : option Z :=
  let sanitized := List.filter (fun c => negb (is_grouping c)) token in
  match sanitized with
  | [] => None
  | _ =>
      let digits :=
        if has_0x sanitized then drop 2 sanitized
        else if ends_in_h sanitized then removelast sanitized else sanitized in
      match digits with
      | [] => None
      | _ => match from_chars16 digits 0 with
             | Some v => if 2 ^ 64 <=? v then None else Some v
             | None => None
             end
      end
  end.

(** [parse_data_field_name], with the body of the parser's [parse_field_type]. *)
Definition parse_data_field_name (n : list Z) : ept_transition_data_field := parse_field_type n.

(** ** State *)

Inductive dump_kind := d_bytes | d_words | d_dwords | d_qwords | d_pointers.
Definition unit_size_for (k : dump_kind) : Z :=
  match k with d_bytes => 1 | d_words => 2 | d_dwords => 4 | d_qwords | d_pointers => 8 end.
Definition default_count (k : dump_kind) : Z :=
  match k with d_bytes => 0x40 | d_words => 0x20 | d_dwords => 0x10 | d_qwords | d_pointers => 8 end.

(** What a command prints or writes. *)
Inductive output :=
  | text (l : list Z)
  | noted
  | warned
  | failed
  | helped (command : list Z)
  | wrote (path contents : list Z).

Record engine := mk_engine {
  modules : kmodule_context;
  poller_running : bool;
  poller_dir : list Z;
  snapshot_thread : option (list Z * list Z);
  m_generic_transition_cfg : ept_transition_cfg;
  m_generic_transition_fmt : list Z;
  m_exact_transition_cfgs : list exact_cfg_entry
}.
#[export] Instance eta_engine : Eta engine := fun e =>
  mk_engine (modules e) (poller_running e) (poller_dir e) (snapshot_thread e)
    (m_generic_transition_cfg e) (m_generic_transition_fmt e) (m_exact_transition_cfgs e).

Record world := mk_world { eng : engine; sys : system; outs : list output }.
#[export] Instance eta_world : Eta world := fun w => mk_world (eng w) (sys w) (outs w).

Definition emit_out (o : output) (w : world) : world := w <| outs := outs w ++ [o] |>.
Definition on_eng (f : engine -> engine) (w : world) : world := w <| eng := f (eng w) |>.

Definition arg (args : list (list Z)) (i : nat) : list Z := nth i args [].
Definition is_text (s : list Z) (t : string) : bool := bool_decide (s = bytes t).
(** [std::filesystem::path(dir) / file]. *)
Definition path_join (dir : list Z) (file : string) : list Z :=
  match rev dir with
  | [] => bytes file
  | c :: rest =>
      if is_separator c || ((c =? chr ":") && (length rest =? 1)%nat) then dir ++ bytes file
      else dir ++ bytes "\" ++ bytes file
  end.

(** [export_trace_config] of the engine's mirror of the configuration. *)
Definition exported_config (e : engine) : list Z :=
  export_trace_config (m_generic_transition_cfg e) (m_generic_transition_fmt e) (m_exact_transition_cfgs e).

(** ** Commands *)

Section commands.
Context {ia32 : Ia32} {mtrr_layout : MtrrLayout} {exit_layout : ExitLayout}.
Variable supported : vmcs_field -> bool.
Variable env : nat -> environment.
Variable processors : nat.

(** The address space of the controller, and where its request block is. *)
Variables process_cr3 req : Z.

(** [hv::is_present()]; the list of modules Windows reports, and its root; the
    bytes [read_vmemory] delivers of a range; files that can be read and written;
    the symbols of a PDB; and the allocations that succeed. *)
Variable is_present : bool.
Variable query : option (list raw_module).
Variable NtSystemRoot : list Z.
Variable read_vmemory : Z -> Z -> Z -> list Z.
Variable open_file : list Z -> option (list Z * Z).
Variable can_write : list Z -> bool.
Variable pdb_symbols : list Z -> list Z -> option (list symbol_info).
Variable can_allocate : Z -> bool.

Abbreviation on_system f w :=
  (let! (s, ok) := f (sys w) in Ok (w <| sys := s |>, ok)).

(** The read a parsed image makes: the whole range or nothing. *)
Definition read_all (source n : Z) : option (list Z) :=
  let bs := read_vmemory source n 0 in if Z.of_nat (length bs) =? n then Some bs else None.

Definition resolve_symbol_of (w : world) (s : list Z) : outcome (world * option Z) :=
  let! (c, r) := resolve_symbol is_present read_all open_file pdb_symbols (modules (eng w)) s in
  Ok (on_eng (fun e => e <| modules := c |>) w, r).
Definition resolve_address_of (w : world) (a : Z) : outcome (world * list Z) :=
  let! (c, r) := resolve_address is_present read_all open_file pdb_symbols (modules (eng w)) a in
  Ok (on_eng (fun e => e <| modules := c |>) w, r).

(** [parse_expression]. *)
Definition parse_expression (w : world) (token : list Z) : outcome (world * option Z) :=
  match parse_u64_token token with
  | Some v => Ok (w, Some v)
  | None => resolve_symbol_of w token
  end.

(** A refresh of the modules, which may throw. *)
Definition with_refresh (w : world) (k : world -> outcome world) : outcome world :=
  match refresh NtSystemRoot query (modules (eng w)) with
  | None => Ok (emit_out failed w)
  | Some c => k (on_eng (fun e => e <| modules := c |>) w)
  end.

Definition wants_help (args : list (list Z)) : bool :=
  (2 <=? length args)%nat && is_text (to_lower (arg args 1)) "help".

(** The usage of a command after a warning. *)
Definition warn_help (command : list Z) (w : world) : outcome world :=
  Ok (emit_out (helped command) (emit_out warned w)).

(** *** Memory dumps *)

Definition cell (kind : dump_kind) (bs : list Z) : list Z :=
  pad_left (chr "0") (Z.to_nat (unit_size_for kind * 2)) (hex (le_combine bs)).

(** The cells of a line: blank where the bytes read end. *)
Fixpoint cells (kind : dump_kind) (n : nat) (line : list Z) : list Z :=
  match n with
  | O => []
  | S n =>
      let u := Z.to_nat (unit_size_for kind) in
      (if (u <=? length line)%nat then cell kind (take u line) ++ [32]
       else repeat 32 (2 * u) ++ [32]) ++ cells kind n (drop u line)
  end.

Definition printable (c : Z) : bool := (32 <=? c) && (c <=? 126).
Definition dump_line (kind : dump_kind) (address : Z) (line : list Z) : list Z :=
  hex16 address ++ bytes "  " ++ cells kind (Z.to_nat (16 / unit_size_for kind)) line ++
  match kind with
  | d_bytes => bytes " |" ++ map (fun c => if printable c then c else chr ".") line ++ bytes "|"
  | _ => []
  end ++ [10].

(** The loop over the lines of 16 bytes; [fuel] lines at most. *)
Fixpoint dump_lines (fuel : nat) (kind : dump_kind) (address : Z) (buffer : list Z) : list (list Z) :=
  match fuel, buffer with
  | O, _ | _, [] => []
  | S fuel, _ =>
      dump_line kind address (take 16 buffer) :: dump_lines fuel kind (address +64 16) (drop 16 buffer)
  end.

(** The lines of a pointer dump, with the symbols of the values. *)
Fixpoint dump_pointers (n : nat) (address : Z) (buffer : list Z) (w : world) : outcome world :=
  match n with
  | O => Ok w
  | S n =>
      let value := le_combine (take 8 buffer) in
      let! (w, symbol) := resolve_address_of w value in
      let line := hex16 address ++ bytes "  " ++ hex16 value ++ bytes "  " ++ symbol ++ [10] in
      dump_pointers n (address +64 8) (drop 8 buffer) (emit_out (text line) w)
  end.

Definition handle_dump (args : list (list Z)) (kind : dump_kind) (w : world) : outcome world :=
  let command := arg args 0 in
  if wants_help args then Ok (emit_out (helped command) w) else
  if negb is_present then Ok (emit_out failed w) else
  if (length args <? 2)%nat then warn_help command w else
  with_refresh w (fun w =>
    let! (w, start) := parse_expression w (arg args 1) in
    match start with
    | None => warn_help command w
    | Some start_address =>
        match (if (3 <=? length args)%nat then parse_u64_token (arg args 2) else Some (default_count kind)) with
        | None => warn_help command w
        | Some count =>
            if count =? 0 then warn_help command w else
            match (if (4 <=? length args)%nat then parse_u64_token (arg args 3) else Some 0) with
            | None => warn_help command w
            | Some target_cr3 =>
                if (4 <? length args)%nat then warn_help command w else
                let unit_size := unit_size_for kind in
                if (2 ^ 64 - 1) / unit_size <? count then Ok (emit_out failed w) else
                let byte_count := count * unit_size in
                if negb (can_allocate byte_count) then Ok (emit_out failed w) else
                let buffer := read_vmemory start_address byte_count target_cr3 in
                let bytes_read := Z.of_nat (length buffer) in
                if bytes_read =? 0 then Ok (emit_out failed w) else
                let partial w := Ok (if bytes_read <? byte_count then emit_out warned w else w) in
                match kind with
                | d_pointers =>
                    let pointer_count := (length buffer / 8)%nat in
                    let! w := dump_pointers pointer_count start_address buffer w in
                    partial (if (pointer_count =? 0)%nat then emit_out warned w else w)
                | _ =>
                    partial (fold_left (fun w l => emit_out (text l) w)
                      (dump_lines (length buffer) kind start_address buffer) w)
                end
            end
        end
    end).

(** *** Symbols and modules *)

(** The line for a resolved expression. *)
Definition print_resolved (a : Z) (w : world) : outcome world :=
  let! (w, symbol) := resolve_address_of w a in
  Ok (emit_out (text (hex16 a ++ bytes "  " ++ symbol ++ [10])) w).

Definition handle_ln (args : list (list Z)) (w : world) : outcome world :=
  if wants_help args then Ok (emit_out (helped (bytes "ln")) w) else
  if negb (length args =? 2)%nat then warn_help (bytes "ln") w else
  with_refresh w (fun w =>
    let! (w, a) := parse_expression w (arg args 1) in
    match a with
    | None => warn_help (bytes "ln") w
    | Some a => print_resolved a w
    end).

Definition matches_filter (filter : list Z) (m : module_info) : bool :=
  match filter with
  | [] => true
  | _ => contains filter (to_lower (name m)) || contains filter (to_lower (full_path m))
  end.
Definition module_line (m : module_info) : list Z :=
  hex16 (base m) ++ [32] ++ hex16 (base m +64 size m) ++ [32] ++
  name m ++ repeat 32 (24 - length (name m)) ++ [32] ++ full_path m ++ [10].

(** A file, or an error when it cannot be opened or nothing is to be written. *)
Definition save (path : list Z) (contents : option (list Z)) (otherwise : output) (w : world) : world :=
  match contents with
  | Some c => if can_write path then emit_out noted (emit_out (wrote path c) w) else emit_out otherwise w
  | None => emit_out otherwise w
  end.

Definition handle_lm (args : list (list Z)) (w : world) : outcome world :=
  if wants_help args then Ok (emit_out (helped (bytes "lm")) w) else
  with_refresh w (fun w =>
    if (2 <=? length args)%nat && is_text (to_lower (arg args 1)) "export" then
      if negb (length args =? 3)%nat then warn_help (bytes "lm") w
      else Ok (save (arg args 2) (export_modules (KModules.m_modules (modules (eng w)))) failed w)
    else
      let filter := to_lower (join_tokens args 1) in
      let matching := List.filter (matches_filter filter) (KModules.m_modules (modules (eng w))) in
      match matching with
      | [] => Ok (emit_out warned w)
      | _ => Ok (fold_left (fun w m => emit_out (text (module_line m)) w) matching w)
      end).

(** *** Trace configuration *)

Definition find_exact (addr : Z) (l : list exact_cfg_entry) : option exact_cfg_entry :=
  List.find (fun e => ex_addr e =? addr) l.

(** The first entry of an address changed. *)
Fixpoint update_exact (addr : Z) (f : exact_cfg_entry -> exact_cfg_entry) (l : list exact_cfg_entry)
    : list exact_cfg_entry :=
  match l with
  | [] => []
  | e :: l => if ex_addr e =? addr then f e :: l else e :: update_exact addr f l
  end.

Definition set_fmt (fmt : list Z) (e : exact_cfg_entry) : exact_cfg_entry := mk_exact_cfg (ex_addr e) (ex_cfg e) fmt.
Definition set_cfg (cfg : ept_transition_cfg) (e : exact_cfg_entry) : exact_cfg_entry :=
  mk_exact_cfg (ex_addr e) cfg (ex_fmt e).

(** The format of an address set, or a warning when it has no configuration. *)
Definition set_exact_fmt (addr : Z) (fmt : list Z) (w : world) : world :=
  match find_exact addr (m_exact_transition_cfgs (eng w)) with
  | Some _ =>
      emit_out noted (on_eng (fun e => e <| m_exact_transition_cfgs :=
        update_exact addr (set_fmt fmt) (m_exact_transition_cfgs e) |>) w)
  | None => emit_out warned w
  end.

(** [at config fmt]. *)
Definition handle_at_config_fmt (args : list (list Z)) (w : world) : outcome world :=
  if (length args <? 4)%nat then Ok (emit_out (helped (bytes "at")) w) else
  let fmt_target := to_lower (arg args 3) in
  if is_text fmt_target "clear" then
    if (length args <? 5)%nat then Ok (emit_out warned w) else
    let clear_scope := to_lower (arg args 4) in
    if is_text clear_scope "generic" then
      Ok (emit_out noted (on_eng (fun e => e <| m_generic_transition_fmt := [] |>) w))
    else if is_text clear_scope "exact" then
      if (length args <? 6)%nat then Ok (emit_out warned w) else
      let! (w, addr) := parse_expression w (arg args 5) in
      match addr with
      | None => Ok (emit_out warned w)
      | Some addr => Ok (set_exact_fmt addr [] w)
      end
    else Ok (emit_out warned w)
  else if is_text fmt_target "generic" then
    if negb (length args =? 5)%nat then Ok (emit_out warned w)
    else Ok (emit_out noted (on_eng (fun e => e <| m_generic_transition_fmt := arg args 4 |>) w))
  else if is_text fmt_target "exact" then
    if negb (length args =? 6)%nat then Ok (emit_out warned w) else
    let! (w, addr) := parse_expression w (arg args 4) in
    match addr with
    | None => Ok (emit_out warned w)
    | Some addr => Ok (set_exact_fmt addr (arg args 5) w)
    end
  else Ok (emit_out warned w).

(** The data map of a request, from the names given: unnamed slots stay unused. *)
Definition parse_data_map (names : list (list Z)) : ept_transition_cfg :=
  let fields := map (fun n => parse_data_field_name (to_lower n)) (take 6 names) in
  fields ++ repeat field_none (6 - length fields).

(** The engine's copy of a configuration the cores have taken. *)
Definition mirror (scope addr : Z) (cfg : ept_transition_cfg) (e : engine) : engine :=
  if scope =? 0 then e <| m_generic_transition_cfg := cfg |>
  else
    match find_exact addr (m_exact_transition_cfgs e) with
    | Some _ => e <| m_exact_transition_cfgs := update_exact addr (set_cfg cfg) (m_exact_transition_cfgs e) |>
    | None => e <| m_exact_transition_cfgs := m_exact_transition_cfgs e ++ [mk_exact_cfg addr cfg []] |>
    end.

(** The end of [handle_at_config]: the request and the mirror. *)
Definition apply_config (scope addr : Z) (cfg : ept_transition_cfg) (w : world) : outcome world :=
  let! (w, ok) := on_system (config_ept_transition supported env processors process_cr3 req scope addr cfg) w in
  if negb ok then Ok (emit_out failed w)
  else Ok (emit_out noted (on_eng (mirror scope addr cfg) w)).

Definition handle_at_config (args : list (list Z)) (w : world) : outcome world :=
  if (length args <? 3)%nat then Ok (emit_out (helped (bytes "at")) w) else
  let scope_str := to_lower (arg args 2) in
  if is_text scope_str "export" then
    if negb (length args =? 4)%nat then warn_help (bytes "at") w
    else Ok (save (arg args 3) (Some (exported_config (eng w))) failed w)
  else if is_text scope_str "fmt" then handle_at_config_fmt args w
  else if negb is_present then Ok (emit_out failed w)
  else if is_text scope_str "generic" then apply_config 0 0 (parse_data_map (drop 3 args)) w
  else if is_text scope_str "exact" then
    if (length args <? 4)%nat then Ok (emit_out warned w) else
    let! (w, addr) := parse_expression w (arg args 3) in
    match addr with
    | None => Ok (emit_out warned w)
    | Some addr => apply_config 1 addr (parse_data_map (drop 4 args)) w
    end
  else Ok (emit_out warned w).

(** The constructor of the engine: the default configuration goes to the cores,
    whatever they had been told before. *)
Definition engine_start (ctx : kmodule_context) (s : system) : outcome world :=
  let e := mk_engine ctx false [] None default_generic_cfg [] [] in
  if is_present then
    let! (s, _) := config_ept_transition supported env processors process_cr3 req 0 0 default_generic_cfg s in
    Ok (mk_world e s [])
  else Ok (mk_world e s []).

(** *** Tracing *)

(** [poller::start] and [stop_trace_poller], which waits for the snapshot thread. *)
Definition poller_start (output_dir : list Z) (e : engine) : engine :=
  if poller_running e then e else e <| poller_running := true |> <| poller_dir := output_dir |>.
Definition stop_trace_poller (e : engine) : engine :=
  e <| poller_running := false |> <| snapshot_thread := None |>.

Definition save_config (w : world) : world :=
  save (path_join (poller_dir (eng w)) "trace_cfg.bin") (Some (exported_config (eng w))) warned w.

Definition handle_at_enable (args : list (list Z)) (w : world) : outcome world :=
  if (length args <? 4)%nat || (5 <? length args)%nat then warn_help (bytes "at") w else
  with_refresh w (fun w =>
    let! (w, address) := parse_expression w (arg args 2) in
    match address with
    | None => Ok (emit_out warned w)
    | Some address =>
        match parse_u64_token (arg args 3) with
        | None => Ok (emit_out warned w)
        | Some size =>
            if size =? 0 then Ok (emit_out warned w) else
            let output_dir := if (length args =? 5)%nat then arg args 4 else bytes "." in
            let! (w, ok) := on_system (auto_trace_enable supported env processors address size) w in
            if negb ok then Ok (emit_out failed w) else
            with_refresh (on_eng (poller_start output_dir) w) (fun w =>
              let w := save (path_join (poller_dir (eng w)) "modules.bin")
                         (export_modules (KModules.m_modules (modules (eng w)))) warned w in
              Ok (emit_out noted (save_config w)))
        end
    end).

Definition handle_at_disable (args : list (list Z)) (w : world) : outcome world :=
  if negb (length args =? 2)%nat then warn_help (bytes "at") w else
  let w := on_eng stop_trace_poller w in
  let! (w, ok) := on_system (auto_trace_disable supported env processors) w in
  Ok (emit_out (if (ok : bool) then noted else failed) w).

(** [onload_target_set] and [onload_target_clear]: the request holds the name cut
    to its buffer. *)
Definition onload_request (driver_name : list Z) : list Z :=
  let n := take 63 (cstr driver_name) in n ++ repeat 0 (64 - length n).
Definition onload_target_set (cpu : nat) (driver_name : list Z) (s : system) : outcome (system * bool) :=
  match cstr driver_name with
  | [] => Ok (s, false)
  | _ =>
      let! m := guest_store (memory s) process_cr3 req (onload_request driver_name) in
      let s := mk_system (cores s) (virtualized s) m (core_msrs s) (core_invepts s) (g_hv s) in
      let! (r, s) := __vmcall supported env cpu set_onload_target req 0 0 s in
      Ok (s, succeeded r)
  end.
Definition onload_target_clear (cpu : nat) (s : system) : outcome (system * bool) :=
  let! (r, s) := __vmcall supported env cpu clear_onload_target 0 0 0 s in Ok (s, succeeded r).

(** The core the main thread runs on. *)
Variable current_cpu : nat.

Definition handle_at_onload (args : list (list Z)) (w : world) : outcome world :=
  if (length args <? 3)%nat then Ok (emit_out (helped (bytes "at")) w) else
  let sub := to_lower (arg args 2) in
  if is_text sub "clear" then
    if negb (length args =? 3)%nat then Ok (emit_out warned w) else
    let w := on_eng stop_trace_poller w in
    let! (w, ok) := on_system (onload_target_clear current_cpu) w in
    Ok (emit_out (if (ok : bool) then noted else failed) w)
  else if bool_decide (sub = []) then warn_help (bytes "at") w
  else if (64 <=? length sub)%nat then Ok (emit_out warned w)
  else if (4 <? length args)%nat then warn_help (bytes "at") w
  else
    let output_dir := if (length args =? 4)%nat then arg args 3 else bytes "." in
    let w := if poller_running (eng w) || bool_decide (snapshot_thread (eng w) <> None)
             then on_eng stop_trace_poller w else w in
    let! (w, ok) := on_system (onload_target_set current_cpu sub) w in
    if negb ok then Ok (emit_out failed w) else
    let lookup_name := default sub (before_last (chr ".") sub) in
    let w := save_config (on_eng (poller_start output_dir) w) in
    let snapshot_path := path_join (poller_dir (eng w)) "modules.bin" in
    Ok (emit_out noted (on_eng (fun e => e <| snapshot_thread := Some (lookup_name, snapshot_path) |>) w)).

(** A round of the snapshot thread once trace data has arrived; true when another
    round follows. It ends when the driver is in the list of modules or the poller
    has stopped; an exception ends the program. *)
Definition snapshot_round (w : world) : outcome (world * bool) :=
  match snapshot_thread (eng w) with
  | None => Ok (w, false)
  | Some (lookup_name, path) =>
      if negb (poller_running (eng w)) then Ok (emit_out warned w, false) else
      match refresh NtSystemRoot query (modules (eng w)) with
      | None => Crash
      | Some c =>
          let w := on_eng (fun e => e <| modules := c |>) w in
          let ms := KModules.m_modules c in
          if existsb (fun m => bool_decide (to_lower (name m) = lookup_name)) ms then
            Ok (save path (export_modules ms) warned w, false)
          else Ok (w, true)
      end
  end.

Definition handle_at (args : list (list Z)) (w : world) : outcome world :=
  if wants_help args then Ok (emit_out (helped (bytes "at")) w) else
  if negb is_present then Ok (emit_out failed w) else
  if (length args <? 2)%nat then warn_help (bytes "at") w else
  let subcommand := to_lower (arg args 1) in
  if is_text subcommand "config" then handle_at_config args w
  else if is_text subcommand "onload" then handle_at_onload args w
  else if is_text subcommand "disable" then handle_at_disable args w
  else if is_text subcommand "enable" then handle_at_enable args w
  else warn_help (bytes "at") w.

(** *** Parsing traces, the APIC, the double-fault test *)

Context `{MinHeap}.
(** Files and directories, and the images the parser finds. *)
Variable read_file : list Z -> option (list Z).
Variable list_dir : list Z -> option (list (list Z * option (list Z))).
Variable load : module_info -> option pe.

(** More rounds than there are entries in the files. *)
Definition entries_bound (dir : option (list (list Z * option (list Z)))) : nat :=
  S (list_sum (map (fun f => length (default [] (snd f))) (default [] dir))).

Definition handle_trace_parse (args : list (list Z)) (w : world) : outcome world :=
  if wants_help args then Ok (emit_out (helped (bytes "trace")) w) else
  if (length args <? 2)%nat || negb (is_text (to_lower (arg args 1)) "parse") then warn_help (bytes "trace") w else
  if (length args <? 4)%nat || (5 <? length args)%nat then warn_help (bytes "trace") w else
  let trace_dir := arg args 3 in
  let output_path := if (length args =? 5)%nat then arg args 4 else path_join trace_dir "trace_formatted.log" in
  let dir := list_dir trace_dir in
  match TraceParser.run load (entries_bound dir) (read_file (arg args 2)) dir
          (read_file (trace_dir ++ bytes "/trace_cfg.bin")) with
  | Some log => Ok (save output_path (Some log) failed w)
  | None => Ok (emit_out failed w)
  end.

(** [retrieve_apic_info], with its result block at [req]. *)
Definition retrieve_apic_info (s : system) : outcome (system * option (Z * bool)) :=
  let! m := guest_store (memory s) process_cr3 req (repeat 0 16) in
  let s := mk_system (cores s) (virtualized s) m (core_msrs s) (core_invepts s) (g_hv s) in
  let! (r, s) := __vmcall supported env current_cpu get_apic_info req 0 0 s in
  if negb (succeeded r) then Ok (s, None) else
  let! info := Introspection.guest_bytes (memory s) process_cr3 req 16 in
  Ok (s, Some (le_combine (take 8 info), negb (nth 8 info 0 =? 0))).

Definition handle_apic_info (args : list (list Z)) (w : world) : outcome world :=
  if wants_help args then Ok (emit_out (helped (arg args 0)) w) else
  if negb is_present then Ok (emit_out failed w) else
  let! (s, info) := retrieve_apic_info (sys w) in
  let w := w <| sys := s |> in
  match info with
  | Some (lapic_mmio_phys_base, x2apic) =>
      Ok (emit_out (text (bytes "APIC Information:" ++ [10] ++
        bytes "  x2APIC enabled             : " ++ (if x2apic then bytes "Yes" else bytes "No") ++ [10] ++
        bytes "  LAPIC MMIO physical base   : 0x" ++ hex16 lapic_mmio_phys_base ++ [10])) w)
  | None => Ok (emit_out failed w)
  end.

(** [handle_test_df], with the answer to its question. *)
Definition handle_test_df (args : list (list Z)) (response : list Z) (w : world) : outcome world :=
  if wants_help args then Ok (emit_out (helped (arg args 0)) w) else
  if negb is_present then Ok (emit_out failed w) else
  let response := to_lower response in
  if is_text response "y" || is_text response "yes" then
    let! (r, s) := __vmcall supported env current_cpu test_host_df 0 0 0 (sys w) in
    Ok (emit_out noted (w <| sys := s |>))
  else Ok (emit_out noted w).

(** *** The dispatcher *)

(** The line read after the question of [df]. *)
Variable response : list Z.

(** [execute_line]; false ends the program. *)
Definition execute_line (line : list Z) (w : world) : outcome (world * bool) :=
  let tokens := tokenize line in
  match tokens with
  | [] => Ok (w, true)
  | t :: _ =>
      let cmd := to_lower t in
      let run (m : outcome world) := let! w := m in Ok (w, true) in
      if is_text cmd "help" || is_text cmd "?" then
        Ok (emit_out (helped (arg tokens 1)) w, true)
      else if is_text cmd "q" || is_text cmd "quit" || is_text cmd "exit" then Ok (w, false)
      else if is_text cmd "d" || is_text cmd "db" || is_text cmd "hex" then run (handle_dump tokens d_bytes w)
      else if is_text cmd "dw" then run (handle_dump tokens d_words w)
      else if is_text cmd "dd" then run (handle_dump tokens d_dwords w)
      else if is_text cmd "dq" then run (handle_dump tokens d_qwords w)
      else if is_text cmd "dp" then run (handle_dump tokens d_pointers w)
      else if is_text cmd "ln" then run (handle_ln tokens w)
      else if is_text cmd "lm" then run (handle_lm tokens w)
      else if is_text cmd "at" then run (handle_at tokens w)
      else if is_text cmd "trace" then run (handle_trace_parse tokens w)
      else if is_text cmd "apic" then run (handle_apic_info tokens w)
      else if is_text cmd "df" then run (handle_test_df tokens response w)
      else
        run (with_refresh w (fun w =>
          let! (w, a) := parse_expression w (join_tokens tokens 0) in
          match a with
          | Some a => print_resolved a w
          | None => Ok (emit_out (helped []) (emit_out warned w))
          end))
  end.
End commands.

(** ** Tokens: lemmas and properties *)

(** A token as it is typed: in quotes, or as it is when it has no spaces and does
    not start with a quote. *)
Definition bare (t : list Z) : Prop :=
  t <> [] /\ Forall (fun c => isspace c = false) t /\ hd quote t <> quote.
Inductive typed : list Z -> list Z -> Prop :=
  | typed_bare t : bare t -> typed t t
  | typed_quoted t : Forall (fun c => c <> quote) t -> typed t (quote :: t ++ [quote]).

(** The line of typed tokens with any spaces between and around them. *)
Inductive typed_line : list (list Z) -> list Z -> Prop :=
  | typed_end sp : Forall (fun c => isspace c = true) sp -> typed_line [] sp
  | typed_last sp t s : Forall (fun c => isspace c = true) sp -> typed t s -> typed_line [t] (sp ++ s)
  | typed_cons sp t s c ts rest :
      Forall (fun c => isspace c = true) sp -> typed t s -> isspace c = true -> typed_line ts (c :: rest) ->
      typed_line (t :: ts) (sp ++ s ++ c :: rest).

Lemma tokenize_spaces sp line :
  Forall (fun c => isspace c = true) sp -> tokenize_from between (sp ++ line) = tokenize_from between line.
Proof. induction 1 as [| c sp Hc Hsp IH]; cbn [app tokenize_from]; [done |]. by rewrite Hc. Qed.

Lemma tokenize_plain tok t line :
  Forall (fun c => isspace c = false) t -> tokenize_from (plain tok) (t ++ line) = tokenize_from (plain (tok ++ t)) line.
Proof.
  intros Ht. revert tok. induction Ht as [| c t Hc Ht IH]; intros tok; cbn [app tokenize_from]; [by rewrite app_nil_r |].
  by rewrite Hc, IH, <- app_assoc.
Qed.

Lemma tokenize_quoted tok t line :
  Forall (fun c => c <> quote) t ->
  tokenize_from (quoted tok) (t ++ quote :: line) = (tok ++ t) :: tokenize_from between line.
Proof.
  intros Ht. revert tok. induction Ht as [| c t Hc Ht IH]; intros tok; cbn [app tokenize_from].
  - rewrite Z.eqb_refl. by rewrite app_nil_r.
  - apply Z.eqb_neq in Hc. rewrite Hc, IH. by rewrite <- app_assoc.
Qed.

(** A typed token in front of a space or the end. *)
Lemma tokenize_typed t s line :
  typed t s -> (forall c rest, line = c :: rest -> isspace c = true) ->
  tokenize_from between (s ++ line) = t :: tokenize_from between line.
Proof.
  intros Ht Hl. destruct Ht as [t (Hne & Hsp & Hq) | t Ht].
  - destruct t as [| x t]; [done |]. cbn [hd] in Hq. inversion_clear Hsp as [| ? ? Hx Ht].
    cbn [app tokenize_from]. apply Z.eqb_neq in Hq. rewrite Hx, Hq, tokenize_plain by done. cbn [app].
    destruct line as [| c line]; cbn [tokenize_from]; [done |]. by rewrite (Hl c line eq_refl).
  - cbn [app tokenize_from]. change (isspace quote) with false. rewrite Z.eqb_refl. cbv iota.
    rewrite <- app_assoc. cbn [app]. by rewrite tokenize_quoted.
Qed.

(** A line is cut into the tokens that were typed. *)
Theorem tokenize_typed_line ts line (Hline : typed_line ts line) : tokenize line = ts.
Proof.
  unfold tokenize. induction Hline as [sp Hsp | sp t s Hsp Ht | sp t s c ts rest Hsp Ht Hc Hr IH].
  - rewrite <- (app_nil_r sp). by rewrite tokenize_spaces.
  - rewrite tokenize_spaces by done. rewrite <- (app_nil_r s). by rewrite (tokenize_typed t) by done.
  - rewrite tokenize_spaces, (tokenize_typed t), IH; [done | done | | done]. by intros ? ? [= <- _].
Qed.

(** *** Numbers *)

Lemma from_chars16_hex s v any a : hex_text s -> hex_digits s any a = (any || negb (length s =? 0)%nat, v) ->
  from_chars16 s a = Some v.
Proof.
  intros Hs. revert any a. induction Hs as [| c s [d Hd] Hs IH]; intros any a; cbn [hex_digits from_chars16].
  - by intros [= _ ->].
  - rewrite Hd. intros E. apply (IH true). rewrite E. f_equal. cbn. by rewrite orb_true_r.
Qed.

Lemma from_chars16_number v : is_u64 v -> from_chars16 (hex v) 0 = Some v.
Proof.
  intros Hv. unfold is_u64 in Hv. change (hex v) with (digits_acc 64 false 16 v []).
  apply (from_chars16_hex _ v false 0).
  - apply number_digits. lia.
  - rewrite <- (app_nil_r (digits_acc 64 false 16 v [])) at 1.
    rewrite hex_digits_number by lia. cbn [hex_digits]. rewrite Z.mul_0_l, Z.add_0_l. f_equal.
    destruct (digits_acc 64 false 16 v []) eqn:E; [by apply digits_acc_nonempty in E | done].
Qed.

(** Leading zeros do not matter. *)
Lemma from_chars16_zeros n s : from_chars16 (repeat (chr "0") n ++ s) 0 = from_chars16 s 0.
Proof. induction n as [| n IH]; [done |]. exact IH. Qed.

(** The digits of a number, with zeros in front. *)
Definition digits_of (v : Z) (s : list Z) : Prop := exists n, s = repeat (chr "0") n ++ hex v.

Lemma digits_of_ok v s : is_u64 v -> digits_of v s -> from_chars16 s 0 = Some v /\ s <> [] /\ hex_text s.
Proof.
  intros Hv [n ->]. rewrite from_chars16_zeros, from_chars16_number by done. split; [done |]. split.
  - intros E. apply app_nil in E as [_ E]. by apply digits_acc_nonempty in E.
  - apply Forall_app. split.
    + apply List.Forall_forall. intros c ->%repeat_spec. by exists 0.
    + apply number_digits. unfold is_u64 in Hv. lia.
Qed.

Lemma has_0x_digits v s : is_u64 v -> digits_of v s -> has_0x s = false.
Proof.
  intros Hv Hd. destruct (digits_of_ok v s Hv Hd) as (_ & _ & Hh). destruct s as [| z [| x [| y s]]]; try done.
  inversion_clear Hh as [| ? ? _ H1]. inversion_clear H1 as [| ? ? [d H2] _]. apply hex_digit_range in H2.
  unfold has_0x. change (chr "x") with 120. change (chr "X") with 88.
  destruct (Z.eqb_spec x 120), (Z.eqb_spec x 88); try lia; by rewrite ?andb_false_r.
Qed.

Lemma ends_in_h_digits v s : is_u64 v -> digits_of v s -> ends_in_h s = false.
Proof.
  intros Hv Hd. destruct (digits_of_ok v s Hv Hd) as (_ & _ & Hh). unfold ends_in_h.
  destruct (rev s) as [| c r] eqn:E; [done |].
  assert (In c s) as Hin by (apply in_rev; rewrite E; by left).
  unfold hex_text in Hh. rewrite List.Forall_forall in Hh. destruct (Hh c Hin) as [d Hc]. apply hex_digit_range in Hc.
  change (chr "h") with 104. change (chr "H") with 72.
  by destruct (Z.eqb_spec c 104), (Z.eqb_spec c 72); try lia.
Qed.

(** However a 64-bit number is written, with leading zeros as the dumps print it,
    with a prefix or a suffix, and with grouping marks anywhere, it is read back. *)
Theorem parse_u64_token_reads token v digits (Hv : is_u64 v) (Hd : digits_of v digits) (Htok :
    let sanitized := List.filter (fun c => negb (is_grouping c)) token in
    sanitized = digits \/ sanitized = bytes "0x" ++ digits \/ sanitized = bytes "0X" ++ digits \/
    sanitized = digits ++ bytes "h" \/ sanitized = digits ++ bytes "H") :
  parse_u64_token token = Some v.
Proof.
  destruct (digits_of_ok v digits Hv Hd) as (E & Hne & Hh).
  assert (forall s, s <> [] -> (if has_0x s then drop 2 s else if ends_in_h s then removelast s else s) = digits ->
    List.filter (fun c => negb (is_grouping c)) token = s -> parse_u64_token token = Some v) as H.
  { intros s Hs Hp Hf. unfold parse_u64_token. rewrite Hf. destruct s as [| c s]; [done |]. rewrite Hp.
    destruct digits as [| d digits]; [done |]. rewrite E. unfold is_u64 in Hv.
    destruct (Z.leb_spec (2 ^ 64) v); [lia | done]. }
  assert (forall h, (h =? chr "h") || (h =? chr "H") = true -> digits ++ [h] <> [] /\
    (if has_0x (digits ++ [h]) then drop 2 (digits ++ [h])
     else if ends_in_h (digits ++ [h]) then removelast (digits ++ [h]) else digits ++ [h]) = digits) as Hsuffix.
  { intros h Hhh. split; [by intros [_ ?]%app_nil |].
    assert (has_0x (digits ++ [h]) = false) as ->.
    { destruct digits as [| z [| x digits]]; [done | done |]. inversion_clear Hh as [| ? ? _ H1].
      inversion_clear H1 as [| ? ? [d H2] _]. apply hex_digit_range in H2.
      assert (exists y r, digits ++ [h] = y :: r) as (y & r & Ey) by (destruct digits; cbn; eauto).
      cbn [app]. unfold has_0x. rewrite Ey. change (chr "x") with 120. change (chr "X") with 88.
      destruct (Z.eqb_spec x 120), (Z.eqb_spec x 88); try lia; by rewrite ?andb_false_r. }
    unfold ends_in_h. rewrite rev_app_distr. cbn [rev app]. rewrite Hhh. by rewrite removelast_last. }
  destruct Htok as [Hf | [Hf | [Hf | [Hf | Hf]]]].
  - apply (H digits); [done | | done]. by rewrite (has_0x_digits v), (ends_in_h_digits v).
  - apply (H _) in Hf; [done | done |]. by destruct digits.
  - apply (H _) in Hf; [done | done |]. by destruct digits.
  - by apply (H _) in Hf; [| apply Hsuffix ..].
  - by apply (H _) in Hf; [| apply Hsuffix ..].
Qed.

(** ** The engine's copy of the configuration *)

(** The configuration the engine exports, as the parser sees it. *)
Definition engine_cfg (e : engine) : parser_cfg :=
  mk_parser_cfg (m_generic_transition_cfg e) (m_generic_transition_fmt e) (m_exact_transition_cfgs e)
    (find_data_slot (m_generic_transition_cfg e) guest_rip).

Lemma parse_field_type_ok n : field_ok (parse_field_type n).
Proof.
  unfold parse_field_type. destruct (List.find _ named_fields) as [[f x] |] eqn:E; [| done].
  apply find_some in E as [Hin _]. cbn [fst]. clear -Hin.
  repeat (destruct Hin as [[= <- <-] | Hin]; [reflexivity |]). destruct Hin.
Qed.

Lemma parse_data_map_ok names : cfg_ok (parse_data_map names).
Proof.
  unfold parse_data_map. set (fields := map _ _). assert (length fields <= 6)%nat as Hl.
  { unfold fields. rewrite length_map, length_take. lia. }
  split; [rewrite length_app, repeat_length; lia |]. apply Forall_app. split.
  - apply List.Forall_forall. intros f (n & <- & _)%in_map_iff. apply parse_field_type_ok.
  - apply List.Forall_forall. intros f ->%repeat_spec. done.
Qed.

Lemma find_exact_update addr f l a :
  (forall e, ex_addr (f e) = ex_addr e) ->
  find_exact a (update_exact addr f l) = (if a =? addr then f else id) <$> find_exact a l.
Proof.
  intros Hf. unfold find_exact. induction l as [| e l IH]; cbn [update_exact List.find]; [done |].
  destruct (Z.eqb_spec (ex_addr e) addr) as [Ea | Ea]; cbn [List.find].
  - rewrite Hf. destruct (Z.eqb_spec (ex_addr e) a) as [<- | Hne].
    + rewrite Ea, Z.eqb_refl. done.
    + destruct (Z.eqb_spec a addr) as [-> | _]; [by rewrite Ea in Hne |].
      by destruct (List.find _ l).
  - destruct (Z.eqb_spec (ex_addr e) a) as [<- | Hne]; [| exact IH].
    destruct (Z.eqb_spec (ex_addr e) addr); [done | done].
Qed.

Lemma find_app_last {A} (p : A -> bool) l x :
  List.find p (l ++ [x]) = match List.find p l with Some y => Some y | None => if p x then Some x else None end.
Proof. induction l as [| y l IH]; cbn; [done |]. by destruct (p y). Qed.

(** The configurations of a core are those of the engine. *)
Lemma same_engine t e :
  same_configurations t (engine_cfg e) <->
  exists m, table_wf t /\ table_models t m /\ m_generic_transition_cfg e = generic_transition_cfg t /\
    forall a, a <> 0 -> m !! a = ex_cfg <$> find_exact a (m_exact_transition_cfgs e).
Proof. reflexivity. Qed.

Lemma mirror_exact addr cfg e a :
  ex_cfg <$> find_exact a (m_exact_transition_cfgs (mirror 1 addr cfg e)) =
    if a =? addr then Some cfg else ex_cfg <$> find_exact a (m_exact_transition_cfgs e).
Proof.
  unfold mirror. cbn [Z.eqb]. destruct e as [md pr pd st g gf l]. cbn [m_exact_transition_cfgs].
  destruct (find_exact addr l) as [x |] eqn:Ex; unfold set; cbn [m_exact_transition_cfgs].
  - rewrite find_exact_update by done. destruct (Z.eqb_spec a addr) as [-> | Hne].
    + by rewrite Ex.
    + by destruct (find_exact a l).
  - unfold find_exact at 1. rewrite find_app_last. fold (find_exact a l). cbn [ex_addr].
    rewrite (Z.eqb_sym addr a). destruct (Z.eqb_spec a addr) as [-> | Hne].
    + by rewrite Ex.
    + by destruct (find_exact a l).
Qed.

Lemma mirror_generic addr cfg e :
  m_generic_transition_cfg (mirror 1 addr cfg e) = m_generic_transition_cfg e.
Proof. unfold mirror. cbn [Z.eqb]. by destruct (find_exact _ _). Qed.

Lemma table_wf_generic t g : table_wf t -> table_wf (t <| generic_transition_cfg := g |>).
Proof.
  intros [H1 H2]. set (t' := t <| generic_transition_cfg := g |>).
  assert (exact_transition_cfgs t' = exact_transition_cfgs t) as E1 by reflexivity.
  assert (exact_transition_cfg_count t' = exact_transition_cfg_count t) as E2 by reflexivity.
  assert (forall s, occupied t' s = occupied t s) as E3 by (intros s; unfold occupied; by rewrite E1).
  clearbody t'. split.
  - intros s Hs Ho. rewrite E3 in Ho. destruct (H1 s Hs Ho) as (i & H). exists i. rewrite E1.
    destruct H as (Hi & He & Hb). split; [done |]. split; [done |]. intros j Hj. rewrite E3. by apply Hb.
  - rewrite E2, H2. f_equal. f_equal. apply filter_ext. intros s. by rewrite E3.
Qed.

Lemma table_models_generic t g m : table_models t m -> table_models (t <| generic_transition_cfg := g |>) m.
Proof. by destruct t. Qed.

Lemma configure_generic t e addr cfg :
  same_configurations t (engine_cfg e) ->
  same_configurations (snd (configure 0 addr cfg t)) (engine_cfg (mirror 0 addr cfg e)).
Proof.
  intros (m & Hwf & Hm & Hg & Hx)%same_engine. unfold configure, mirror. rewrite Z.eqb_refl. cbn [snd].
  apply same_engine. exists m. split; [by apply table_wf_generic |]. split; [by apply table_models_generic |].
  split; [done | exact Hx].
Qed.

Lemma configure_exact t e addr cfg :
  addr <> 0 -> same_configurations t (engine_cfg e) -> fst (configure 1 addr cfg t) = true ->
  same_configurations (snd (configure 1 addr cfg t)) (engine_cfg (mirror 1 addr cfg e)).
Proof.
  intros Haddr (m & Hwf & Hm & Hg & Hx)%same_engine. unfold configure. change (1 =? 0) with false. cbv iota.
  pose proof (insert_exact_transition_cfg_ok t m addr cfg Hwf Hm Haddr) as Hins.
  destruct (insert_exact_transition_cfg t addr cfg) as [ok t']. cbn [fst snd]. intros ->.
  destruct Hins as (Hwf' & Hm' & Hg'). apply same_engine.
  exists (<[addr := cfg]> m). split; [done |]. split; [done |]. rewrite mirror_generic.
  split; [by rewrite Hg' |]. intros a Ha. rewrite mirror_exact. destruct (Z.eqb_spec a addr) as [-> | Hne].
  - by rewrite lookup_insert_eq.
  - rewrite lookup_insert_ne by done. by apply Hx.
Qed.

(** A core that takes a request and the engine's mirror of it agree again. *)
Lemma configure_mirror t e scope addr cfg :
  scope = 0 \/ scope = 1 -> addr <> 0 \/ scope = 0 ->
  same_configurations t (engine_cfg e) -> fst (configure scope addr cfg t) = true ->
  same_configurations (snd (configure scope addr cfg t)) (engine_cfg (mirror scope addr cfg e)).
Proof.
  intros [-> | ->] Haddr Hs Hok; [by apply configure_generic |].
  apply configure_exact; [by destruct Haddr | done | done].
Qed.

Section mirror.
Context {ia32 : Ia32} {mtrr_layout : MtrrLayout} {exit_layout : ExitLayout} `{!Ia32Ok ia32}.
Variable supported : vmcs_field -> bool.
Variable env : nat -> environment.
Variable processors : nat.
Variables process_cr3 req : Z.
Variable h : Z -> Z.
Variable is_present : bool.
Variable read_vmemory : Z -> Z -> Z -> list Z.
Variable open_file : list Z -> option (list Z * Z).
Variable can_write : list Z -> bool.
Variable pdb_symbols : list Z -> list Z -> option (list symbol_info).
Hypothesis no_faults : forall c a n, env_copy_fault (env c) a n = None.

(** The engine's copy is what every core has, and calls can be made. *)
Definition mirrored (w : world) : Prop :=
  ready supported processors process_cr3 req h (sys w) /\
  forall c, (c < processors)%nat -> same_configurations (transitions (cores (sys w) c)) (engine_cfg (eng w)).

Abbreviation handle_config := (handle_at_config supported env processors process_cr3 req is_present
  read_vmemory open_file can_write pdb_symbols).
Abbreviation start := (engine_start supported env processors process_cr3 req is_present).
Abbreviation apply := (apply_config supported env processors process_cr3 req).
Abbreviation expression := (parse_expression is_present read_vmemory open_file pdb_symbols).

(** A request is taken by every core and mirrored, or refused by one. *)
Lemma apply_config_ok scope addr cfg w :
  scope = 0 \/ scope = 1 -> is_u64 addr -> addr <> 0 \/ scope = 0 -> cfg_ok cfg -> mirrored w ->
  exists w', apply scope addr cfg w = Ok w' /\
    (outs w' = outs w ++ [noted] /\ mirrored w' /\ engine_cfg (eng w') = engine_cfg (mirror scope addr cfg (eng w)) \/
     outs w' = outs w ++ [failed] /\ eng w' = eng w).
Proof.
  intros Hscope Ha Haddr Hc [Hr Hs]. unfold apply_config.
  destruct (config_ept_transition_ok supported env processors process_cr3 req h (sys w) scope addr cfg
    no_faults Ha Hc Hscope Hr) as (s' & E & Hr' & Ht). rewrite E. cbn [obind].
  destruct (forallb _ _) eqn:Ef; cbn [negb]; eexists; (split; [reflexivity |]); [left | right; done].
  split; [done |]. split; [| done]. split; [exact Hr' |]. intros c Hcc.
  rewrite forallb_forall in Ef.
  change (same_configurations (transitions (cores s' c)) (engine_cfg (mirror scope addr cfg (eng w)))).
  rewrite Ht by done. apply configure_mirror; [done | done | by apply Hs |].
  apply Ef. apply in_seq. lia.
Qed.

(** What a command that does not touch the configuration keeps. *)
Lemma mirrored_same w w' :
  sys w' = sys w -> m_generic_transition_cfg (eng w') = m_generic_transition_cfg (eng w) ->
  (forall a, ex_cfg <$> find_exact a (m_exact_transition_cfgs (eng w')) = ex_cfg <$> find_exact a (m_exact_transition_cfgs (eng w))) ->
  mirrored w -> mirrored w'.
Proof.
  intros E Eg Ex [Hr Hs]. split; [by rewrite E |]. intros c Hc. rewrite E.
  specialize (Hs c Hc). rewrite same_engine in *. destruct Hs as (m & Hwf & Hm & Hg & Hx).
  exists m. split; [done |]. split; [done |]. split; [by rewrite Eg |].
  intros a Ha. rewrite Ex. by apply Hx.
Qed.

Lemma mirrored_out o w : mirrored w -> mirrored (emit_out o w).
Proof. by apply mirrored_same. Qed.

Lemma mirrored_modules c w : mirrored w -> mirrored (on_eng (fun e => e <| modules := c |>) w).
Proof. by apply mirrored_same. Qed.

Lemma expression_mirrored w token w' a : expression w token = Ok (w', a) -> mirrored w -> mirrored w' /\ outs w' = outs w.
Proof.
  unfold parse_expression, resolve_symbol_of. destruct (parse_u64_token token); [by intros [= <- _] |].
  destruct (resolve_symbol _ _ _ _ _ _) as [[c r] | |]; cbn [obind]; [| done | done]. intros [= <- _] Hm.
  split; [by apply mirrored_modules | done].
Qed.

Lemma set_exact_fmt_mirrored addr fmt w : mirrored w -> mirrored (set_exact_fmt addr fmt w).
Proof.
  intros Hm. unfold set_exact_fmt. destruct (find_exact addr _); [| by apply mirrored_out].
  apply mirrored_out. apply (mirrored_same w); try done. intros a.
  cbn [eng on_eng set]. unfold set. cbn [m_exact_transition_cfgs eng].
  rewrite find_exact_update by done. destruct (a =? addr); by destruct (find_exact a _).
Qed.

Lemma save_mirrored path contents o w : mirrored w -> mirrored (save can_write path contents o w).
Proof. intros Hm. unfold save. destruct contents; [destruct (can_write path) |]; by repeat apply mirrored_out. Qed.

(** What the exported file can hold. *)
Record engine_ok (e : engine) : Prop := {
  generic_cfg_ok : cfg_ok (m_generic_transition_cfg e);
  generic_fmt_ok : nonzero (m_generic_transition_fmt e);
  exacts_ok : Forall exact_ok (m_exact_transition_cfgs e)
}.

Lemma update_exact_ok addr f l :
  (forall e, exact_ok e -> exact_ok (f e)) -> Forall exact_ok l -> Forall exact_ok (update_exact addr f l).
Proof.
  intros Hf. induction 1 as [| e l He Hl IH]; cbn [update_exact]; [constructor |].
  destruct (ex_addr e =? addr); constructor; auto.
Qed.

Lemma mirror_ok scope addr cfg e : is_u64 addr -> cfg_ok cfg -> engine_ok e -> engine_ok (mirror scope addr cfg e).
Proof.
  intros Ha Hc [H1 H2 H3]. unfold mirror. destruct (scope =? 0); [by split |].
  destruct (find_exact _ _); split; try done; cbn [m_exact_transition_cfgs set]; unfold set; cbn [m_exact_transition_cfgs].
  - apply update_exact_ok; [| done]. intros x (Hx1 & Hx2 & Hx3). by split.
  - apply Forall_app. split; [done |]. constructor; [| constructor]. split; [done |]. split; [done | constructor].
Qed.

Definition good (w : world) : Prop := mirrored w /\ engine_ok (eng w).

(** What a command has printed since. *)
Definition since (w w' : world) (l : list output) : Prop := outs w' = outs w ++ l.
Definition accepted (w w' : world) : Prop := exists l, since w w' l /\ ~ In failed l.

Lemma good_out o w : good w -> good (emit_out o w).
Proof. intros [H1 H2]. split; [by apply mirrored_out | done]. Qed.

Lemma save_good path contents o w : good w -> good (save can_write path contents o w).
Proof.
  intros [H1 H2]. split; [by apply save_mirrored |]. unfold save.
  destruct contents; [destruct (can_write path) |]; exact H2.
Qed.

Lemma set_exact_fmt_good addr fmt w : nonzero fmt -> good w -> good (set_exact_fmt addr fmt w).
Proof.
  intros Hf [H1 [G1 G2 G3]]. split; [by apply set_exact_fmt_mirrored |]. unfold set_exact_fmt.
  destruct (find_exact _ _); [| by split]. split; [exact G1 | exact G2 |].
  cbn [emit_out on_eng eng set]. unfold set. cbn [m_exact_transition_cfgs eng].
  apply update_exact_ok; [| done]. intros x (Hx1 & Hx2 & Hx3). by split.
Qed.

Lemma expression_good w token w' a :
  expression w token = Ok (w', a) -> good w -> good w' /\ outs w' = outs w.
Proof.
  intros E [H1 [G1 G2 G3]]. destruct (expression_mirrored w token w' a E H1) as [H Ho].
  split; [split; [done |] | done]. unfold parse_expression, resolve_symbol_of in E.
  destruct (parse_u64_token token); [by injection E as <- _ |].
  destruct (resolve_symbol _ _ _ _ _ _) as [[c r] | |]; cbn [obind] in E; [| done | done]. by injection E as <- _.
Qed.

Lemma arg_nonzero args i : Forall nonzero args -> nonzero (arg args i).
Proof.
  intros H. unfold arg. destruct (nth_in_or_default i args []) as [Hin | ->]; [| constructor].
  rewrite List.Forall_forall in H. by apply H.
Qed.

Lemma config_fmt_good args w w' :
  Forall nonzero args -> good w ->
  handle_at_config_fmt is_present read_vmemory open_file pdb_symbols args w = Ok w' -> good w'.
Proof.
  intros Hz Hg. unfold handle_at_config_fmt.
  assert (forall token k, (forall w1 a, good w1 -> k a w1 = Ok w' -> good w') ->
    (let! (w, addr) := expression w token in
     match addr with None => Ok (emit_out warned w) | Some addr => k addr w end) = Ok w' -> good w') as Hexpr.
  { intros token k Hk. destruct (expression w token) as [[w1 a] | |] eqn:E; cbn [obind]; [| done | done].
    destruct (expression_good w token w1 a E Hg) as [Hg1 _].
    destruct a as [a |]; [by apply Hk | intros [= <-]; by apply good_out]. }
  repeat match goal with
  | |- (if ?b then Ok (emit_out _ w) else _) = _ -> _ => destruct b; [intros [= <-]; by apply good_out |]
  end.
  destruct (is_text _ "clear").
  { destruct (_ <? 5)%nat; [intros [= <-]; by apply good_out |].
    destruct (is_text _ "generic").
    { intros [= <-]. apply good_out. destruct Hg as [H1 [G1 G2 G3]]. split; [by apply (mirrored_same w) |].
      split; [exact G1 | constructor | exact G3]. }
    destruct (is_text _ "exact"); [| intros [= <-]; by apply good_out].
    destruct (_ <? 6)%nat; [intros [= <-]; by apply good_out |].
    apply Hexpr. intros w1 a Hg1 [= <-]. apply set_exact_fmt_good; [constructor | done]. }
  destruct (is_text _ "generic").
  { destruct (negb _); [intros [= <-]; by apply good_out |].
    intros [= <-]. apply good_out. destruct Hg as [H1 [G1 G2 G3]]. split; [by apply (mirrored_same w) |].
    split; [exact G1 | by apply arg_nonzero | exact G3]. }
  destruct (is_text _ "exact"); [| intros [= <-]; by apply good_out].
  destruct (negb _); [intros [= <-]; by apply good_out |].
  apply Hexpr. intros w1 a Hg1 [= <-]. apply set_exact_fmt_good; [by apply arg_nonzero | done].
Qed.

(** The address an exact configuration is for. *)
Definition address_ok (args : list (list Z)) (w : world) : Prop :=
  forall w1 a, expression w (arg args 3) = Ok (w1, Some a) -> is_u64 a /\ a <> 0.

Lemma apply_good scope addr cfg w w' :
  scope = 0 \/ scope = 1 -> is_u64 addr -> addr <> 0 \/ scope = 0 -> cfg_ok cfg -> good w ->
  apply scope addr cfg w = Ok w' -> accepted w w' -> good w'.
Proof.
  intros Hs Ha Hn Hc [Hm He] E (l & Hl & Hno).
  destruct (apply_config_ok scope addr cfg w Hs Ha Hn Hc Hm) as (w2 & E2 & [(Ho & Hm2 & Eg) | [Ho _]]).
  - rewrite E in E2. injection E2 as ->. split; [done |].
    destruct (mirror_ok scope addr cfg (eng w) Ha Hc He) as [G1 G2 G3].
    injection Eg as E3 E4 E5 _. split; congruence.
  - rewrite E in E2. injection E2 as ->. exfalso. unfold since in Hl. rewrite Ho in Hl.
    apply app_inv_head in Hl. apply Hno. rewrite <- Hl. by left.
Qed.

Lemma handle_config_good args w w' :
  Forall nonzero args -> address_ok args w -> good w ->
  handle_config args w = Ok w' -> accepted w w' -> good w'.
Proof.
  intros Hz Haddr Hg. unfold handle_at_config.
  destruct (_ <? 3)%nat; [intros [= <-] _; by apply good_out |].
  destruct (is_text _ "export").
  { destruct (negb _); intros E _; [injection E as <-; by do 2 apply good_out |].
    assert (w' = save can_write (arg args 3) (Some (exported_config (eng w))) failed w) as -> by congruence.
    by apply save_good. }
  destruct (is_text _ "fmt"); [intros E _; by apply (config_fmt_good args w) |].
  destruct (negb is_present); [intros [= <-] _; by apply good_out |].
  destruct (is_text _ "generic").
  { apply apply_good; [by left | unfold is_u64; lia | by right | apply parse_data_map_ok | done]. }
  destruct (is_text _ "exact"); [| intros [= <-] _; by apply good_out].
  destruct (_ <? 4)%nat; [intros [= <-] _; by apply good_out |].
  destruct (expression w (arg args 3)) as [[w1 a] | |] eqn:E; cbn [obind]; [| done | done].
  destruct (expression_good w _ w1 a E Hg) as [Hg1 Ho]. destruct a as [a |]; [| intros [= <-] _; by apply good_out].
  destruct (Haddr w1 a E) as [Ha Hn]. intros E2 (l & Hl & Hno).
  apply (apply_good 1 a (parse_data_map (drop 4 args)) w1); [by right | done | by left | apply parse_data_map_ok | done | done |].
  exists l. unfold since in *. by rewrite Ho.
Qed.

(** A table nothing has been inserted in. *)
Definition unconfigured (t : transition_table) : Prop := table_wf t /\ table_models t ∅.

Lemma start_good ctx s w :
  is_present = true -> ready supported processors process_cr3 req h s ->
  (forall c, (c < processors)%nat -> unconfigured (transitions (cores s c))) ->
  start ctx s = Ok w -> good w.
Proof.
  intros Hp Hr Hu. unfold engine_start. rewrite Hp.
  destruct (config_ept_transition_ok supported env processors process_cr3 req h s 0 0 default_generic_cfg
    no_faults) as (s' & -> & Hr' & Ht); [unfold is_u64; lia | | by left | done |].
  { split; [done |]. by repeat constructor. }
  cbn [obind]. intros [= <-]. split; [split; [exact Hr' |] |].
  - intros c Hc. change (sys _) with s'. rewrite Ht by done. destruct (Hu c Hc) as [H1 H2].
    apply same_engine. exists ∅. unfold configure. cbn [Z.eqb snd]. split; [by apply table_wf_generic |].
    split; [by apply table_models_generic |]. split; [done |]. intros a _. apply lookup_empty.
  - split; [split; [done | by repeat constructor] | constructor | constructor].
Qed.

Lemma start_outs ctx s w : start ctx s = Ok w -> outs w = [].
Proof.
  unfold engine_start. destruct is_present; [| by intros [= <-]].
  destruct (config_ept_transition _ _ _ _ _ _ _ _ _) as [[s' b] | |]; cbn [obind]; [by intros [= <-] | done | done].
Qed.

(** The worlds of a controller: it starts on cores without exact configurations,
    its configuration commands are accepted by every core, and between commands
    the cores run, which does not change their configuration. *)
Inductive configured : world -> Prop :=
  | configured_start ctx s w :
      is_present = true -> ready supported processors process_cr3 req h s ->
      (forall c, (c < processors)%nat -> unconfigured (transitions (cores s c))) ->
      start ctx s = Ok w -> configured w
  | configured_command args w w' :
      configured w -> Forall nonzero args -> address_ok args w ->
      handle_config args w = Ok w' -> accepted w w' -> configured w'
  | configured_run w s :
      configured w -> ready supported processors process_cr3 req h s ->
      (forall c, (c < processors)%nat -> transitions (cores s c) = transitions (cores (sys w) c)) ->
      configured (w <| sys := s |>).

Lemma configured_good w : configured w -> good w.
Proof.
  induction 1 as [ctx s w Hp Hr Hu E | args w w' _ IH Hz Ha E Hacc | w s _ [[Hr Hs] He] Hr' Ht].
  - by apply (start_good ctx s).
  - by apply (handle_config_good args w).
  - split; [split; [exact Hr' |] | exact He]. intros c Hc.
    change (same_configurations (transitions (cores s c)) (engine_cfg (eng w))). rewrite Ht by done. by apply Hs.
Qed.

Lemma find_clip a l :
  ex_cfg <$> List.find (fun x => ex_addr x =? a) (map clip_exact l) = ex_cfg <$> find_exact a l.
Proof.
  unfold find_exact. induction l as [| e l IH]; cbn [map List.find]; [done |].
  change (ex_addr (clip_exact e)) with (ex_addr e). by destruct (ex_addr e =? a).
Qed.

(** What the parser loads from the exported file is the configuration of a core. *)
Lemma exported_same t e :
  engine_ok e -> Z.of_nat (length (m_exact_transition_cfgs e)) < 2 ^ 32 ->
  same_configurations t (engine_cfg e) -> same_configurations t (load_trace_cfg (Some (exported_config e))).
Proof.
  intros [Hg Hf Hx] Hl (m & Hwf & Hm & Eg & Hex)%same_engine.
  unfold exported_config. rewrite export_load_trace_cfg_ok by done.
  exists m. split; [done |]. split; [done |]. split; [exact Eg |]. intros a Ha. cbn [m_exact_cfgs].
  rewrite find_clip. by apply Hex.
Qed.


(** A controller that starts on cores which already have an exact configuration
    does not know it: from then on what it exports is not what they use. *)
Theorem restarted_controller_out_of_step ctx s w c m addr
    (Hp : is_present = true) (Hr : ready supported processors process_cr3 req h s)
    (Hc : (c < processors)%nat)
    (Hm : table_models (transitions (cores s c)) m) (Haddr : addr <> 0) (Hcfg : is_Some (m !! addr))
    (Hstart : start ctx s = Ok w) :
  ~ same_configurations (transitions (cores (sys w) c)) (engine_cfg (eng w)).
Proof.
  revert Hstart. unfold engine_start. rewrite Hp.
  destruct (config_ept_transition_ok supported env processors process_cr3 req h s 0 0 default_generic_cfg
    no_faults) as (s' & -> & _ & Ht); [unfold is_u64; lia | | by left | done |].
  { split; [done |]. by repeat constructor. }
  cbn [obind]. intros [= <-]. intros (m' & _ & Hm' & _ & Hx)%same_engine.
  change (table_models (transitions (cores s' c)) m') in Hm'. rewrite Ht in Hm' by done.
  unfold configure in Hm'. cbn [Z.eqb snd] in Hm'. destruct Hcfg as [cfg Hcfg].
  apply Hm, Hm' in Hcfg. rewrite Hx in Hcfg by done. discriminate Hcfg.
Qed.
End mirror.

(** ** Examples *)

(** Two cores in the sample address space, with the request block at 1100H. *)
Definition two_cores : system :=
  mk_system (fun _ => core (sample_caller sample_tables [])) (fun _ => true) sample_tables
    (fun _ _ => 0) (fun _ => 0%nat) (zero_hypervisor <| vcpu_count := 2 |>).
Definition nothing_read (_ _ _ : Z) : list Z := [].
Definition no_file (_ : list Z) : option (list Z * Z) := None.
Definition no_symbols (_ _ : list Z) : option (list symbol_info) := None.

Lemma two_cores_ready : ready (fun _ => true) 2 0x1000 0x1100 (fun i => 0x9000 + 0x100 + i) two_cores.
Proof.
  split; [apply (sample_writable sample_tables 0x100 16); [done | lia ..] |].
  intros c _. split; [done | reflexivity | reflexivity].
Qed.

Lemma two_cores_unconfigured c : unconfigured (transitions (cores two_cores c)).
Proof. exact empty_table_wf. Qed.

Abbreviation example_start :=
  (engine_start (fun _ => true) (fun _ => sample_env) 2 0x1000 0x1100 true empty_context two_cores).
Abbreviation example_args := (map bytes ["at"; "config"; "exact"; "0x5008"; "rip"; "rcx"]%string).
Abbreviation example_config := (handle_at_config (fun _ => true) (fun _ => sample_env) 2 0x1000 0x1100 true nothing_read
  no_file (fun _ => true) no_symbols example_args).
Abbreviation example_configured := (configured (fun _ => true) (fun _ => sample_env) 2 0x1000 0x1100
  (fun i => 0x9000 + 0x100 + i) true nothing_read no_file (fun _ => true) no_symbols).

Definition outcome_or {A} (a : A) (o : outcome A) : A := match o with Ok x => x | _ => a end.
Definition idle_world : world := mk_world (mk_engine empty_context false [] None [] [] []) two_cores [].
Definition example_world : world := outcome_or idle_world (let! w := example_start in example_config w).

(** The cores of a system at 5008H. *)
Definition at_5008 (v : vcpu) : vcpu :=
  v <| vcpu_vmcs := vmwrite (fun _ => true) (vcpu_vmcs v) VMCS_GUEST_RIP 0x5008 |>.
Definition running (s : system) : system :=
  mk_system (fun d => at_5008 (cores s d)) (virtualized s) (memory s) (core_msrs s) (core_invepts s) (g_hv s).

Lemma running_ready h s : ready (fun _ => true) 2 0x1000 0x1100 h s -> ready (fun _ => true) 2 0x1000 0x1100 h (running s).
Proof.
  intros [Hw Hp]. split; [exact Hw |]. intros c Hc. destruct (Hp c Hc) as [H1 H2 H3].
  split; [exact H1 | exact H2 |]. rewrite <- H3. reflexivity.
Qed.

Lemma sample_no_faults (c : nat) a n : env_copy_fault sample_env a n = None.
Proof. reflexivity. Qed.

Lemma running_configured h c w :
  configured (fun _ => true) (fun _ => sample_env) 2 0x1000 0x1100 h true nothing_read no_file c no_symbols w ->
  configured (fun _ => true) (fun _ => sample_env) 2 0x1000 0x1100 h true nothing_read no_file c no_symbols
    (w <| sys := running (sys w) |>).
Proof.
  intros Hw. apply configured_run; [exact Hw | | done]. apply running_ready.
  by destruct (configured_good _ _ _ _ _ _ _ _ _ _ _ sample_no_faults _ Hw) as [[Hr _] _].
Qed.

Lemma obind_or {A} (d : A) (o : outcome A) (f : A -> outcome A) :
  is_ok_b (obind o f) = true -> exists a r, o = Ok a /\ f a = Ok r /\ r = outcome_or d (obind o f).
Proof.
  destruct o as [a | |]; cbn [obind]; [| done | done].
  destruct (f a) as [r | |] eqn:E; [| done | done]. by exists a, r.
Qed.

Lemma parsed_address_ok args w v :
  parse_u64_token (arg args 3) = Some v -> is_u64 v -> v <> 0 ->
  address_ok true nothing_read no_file no_symbols args w.
Proof. intros E H1 H2 w1 a. unfold parse_expression. rewrite E. by intros [= _ <-]. Qed.

Lemma example_args_ok w :
  Forall nonzero example_args /\ address_ok true nothing_read no_file no_symbols example_args w.
Proof.
  split.
  - apply Forall_map. repeat (apply List.Forall_cons; [apply nonzero_check; reflexivity |]). constructor.
  - apply (parsed_address_ok _ _ 0x5008); [vm_compute; reflexivity | unfold is_u64; lia | lia].
Qed.

Lemma example_configured_ok : example_configured example_world.
Proof.
  assert (is_ok_b (let! w := example_start in example_config w) = true) as Hok by (vm_compute; reflexivity).
  assert (outs example_world = [noted]) as Hout by (vm_compute; reflexivity). revert Hout.
  apply (obind_or idle_world) in Hok as (w & w' & Es & Ec & Ew).
  assert (w' = example_world) as <- by (rewrite Ew; unfold example_world; reflexivity). intros Hout.
  apply (configured_command _ _ _ _ _ _ _ _ _ _ _ example_args w).
  - apply (configured_start _ _ _ _ _ _ _ _ _ _ _ empty_context two_cores);
      [done | exact two_cores_ready | intros c _; apply two_cores_unconfigured | exact Es].
  - apply (example_args_ok w).
  - apply (example_args_ok w).
  - exact Ec.
  - exists [noted]. split; [| intros [H | []]; discriminate H].
    unfold since. by rewrite (start_outs _ _ _ _ _ _ _ _ _ Es).
Qed.


(** A line with a quoted token. *)
Lemma tokenize_typed_line_witness :
  tokenize (bytes "at " ++ quote :: bytes "a b" ++ quote :: bytes "  x") = [bytes "at"; bytes "a b"; bytes "x"].
Proof.
  apply tokenize_typed_line.
  refine (typed_cons [] (bytes "at") (bytes "at") 32 [bytes "a b"; bytes "x"] _ _ _ _ _); [done | | done |].
  - apply typed_bare. split; [done |]. split; [| done]. vm_compute. by repeat constructor.
  - refine (typed_cons [32] (bytes "a b") (quote :: bytes "a b" ++ [quote]) 32 [bytes "x"] _ _ _ _ _).
    + by repeat constructor.
    + apply typed_quoted. vm_compute. by repeat constructor.
    + done.
    + refine (typed_last [32; 32] (bytes "x") (bytes "x") _ _); [by repeat constructor |].
      apply typed_bare. split; [done |]. split; [| done]. vm_compute. by repeat constructor.
Defined.
