(* ===== verification/UmMain.v ===== *)
(** * The controller's main program: [revhv-um/main.cpp], [revhv-um/logger.hpp]

    Main asks every core for the hypervisor, starts the thread that keeps the log file of
    the hypervisor, and runs the command line. The thread works beside the rest of the
    system, which may do anything between two of its rounds. *)
From Stdlib Require Import ZArith Lia String Ascii List Bool.
From stdpp Require Import base numbers list option gmap functions.
From S2P Require Import Prelude Ia32 Memory Mtrr Paging Trace TransitionCfg Vmcs Vcpu Introspection Logging Hv VmExit Hypercall.
From S2P Require Import TraceFiles StdFormat Pe TraceParser System UmMemory KModules Commands.

(** ** Lines on the console: [logger.hpp] *)

Module Logger.
Inductive level := trace | debug | info | warn | error | critical.

Definition level_name (l : level) : list Z :=
  match l with
  | trace => bytes "TRACE" | debug => bytes "DEBUG" | info => bytes "INFO"
  | warn => bytes "WARN" | error => bytes "ERROR" | critical => bytes "CRITICAL"
  end.

Definition escape : list Z := [27].
Definition reset_color : list Z := escape ++ bytes "[0m".
Definition level_color (l : level) : list Z :=
  escape ++ match l with
  | trace => bytes "[90m" | debug => bytes "[36m" | info => bytes "[96m"
  | warn => bytes "[33m" | error => bytes "[31m" | critical => bytes "[1;31m"
  end.

(** The time of day, from its hours, minutes, seconds and milliseconds. *)
Definition current_time (hour minute second milliseconds : Z) : list Z :=
  pad_left (chr "0") 2 (dec hour) ++ bytes ":" ++ pad_left (chr "0") 2 (dec minute) ++ bytes ":" ++
  pad_left (chr "0") 2 (dec second) ++ bytes "." ++ pad_left (chr "0") 3 (dec milliseconds).

Inductive stream := cout | cerr.

(** [log] of a formatted message: the stream and what goes to it. *)
Definition log (l : level) (time message : list Z) : stream * list Z :=
  let line := bytes "[" ++ time ++ bytes "] [revhv-um] [" ++ level_name l ++ bytes "] " ++ message in
  (match l with error | critical => cerr | _ => cout end, level_color l ++ line ++ reset_color ++ [10]).
End Logger.

(** ** The log thread *)

(** A [standard_log_message] in memory. *)
Definition decode_message (bs : list Z) : standard_log_message :=
  mk_message (le_combine (take 8 bs)) (take 256 (drop 8 bs)).
Fixpoint decode_messages (n : nat) (bs : list Z) : list standard_log_message :=
  match n with
  | O => []
  | S n => decode_message (take (Z.to_nat sizeof_message) bs) :: decode_messages n (drop (Z.to_nat sizeof_message) bs)
  end.

(** The text written for a message; its characters must end inside it. *)
Definition message_line (m : standard_log_message) : list Z :=
  bytes "#" ++ dec (message_number m) ++ bytes ": " ++ cstr (Logging.text m).
Definition write_message (m : standard_log_message) : outcome (list Z) :=
  if existsb (Z.eqb 0) (Logging.text m) then Ok (message_line m) else Undefined.
Fixpoint write_messages (ms : list standard_log_message) : outcome (list Z) :=
  match ms with
  | [] => Ok []
  | m :: ms => let! line := write_message m in let! rest := write_messages ms in Ok (line ++ rest)
  end.

Definition batch_size : Z := 100.

Section flush_thread.
Context {ia32 : Ia32} {mtrr_layout : MtrrLayout} {exit_layout : ExitLayout}.
Variable supported : vmcs_field -> bool.
Variable env : nat -> environment.
(** The page tables of the controller. *)
Variable process_cr3 : Z.

(** A round of the thread with its vector at [buffer]: the text for the file, and the
    seconds it sleeps. After a failure the vector still has its full size. *)
Definition flush_round (cpu : nat) (buffer : Z) (s : system) : outcome (system * list Z * Z) :=
  let! m := guest_store (memory s) process_cr3 buffer (repeat 0 (Z.to_nat (batch_size * sizeof_message))) in
  let! (s, flushed) := flush_std_logs supported env cpu buffer batch_size (with_memory s m) in
  match flushed with
  | Some n =>
      let! bs := guest_bytes (memory s) process_cr3 buffer (Z.to_nat (batch_size * sizeof_message)) in
      let messages := resize (Z.to_nat n) zero_message (decode_messages (Z.to_nat batch_size) bs) in
      let! lines := write_messages messages in
      Ok (s, lines, if Z.of_nat (length messages) <? batch_size then 5 else 0)
  | None => Ok (s, [], 1)
  end.

(** What comes before a round: the work of everybody else, the core on which the thread
    is scheduled and the address of its vector. *)
Record round := mk_round { others : system -> system; on_cpu : nat; vector_at : Z }.

(** The loop over the rounds until the stop flag is seen: the file. *)
Fixpoint flush_loop (rounds : list round) (file : list Z) (s : system) : outcome (system * list Z) :=
  match rounds with
  | [] => Ok (s, file)
  | r :: rounds =>
      let! (s, lines, _) := flush_round (on_cpu r) (vector_at r) (others r s) in
      flush_loop rounds (file ++ lines) s
  end.

(** [flush_thread]; [opened] tells whether the file can be created. *)
Definition flush_thread (opened : bool) (rounds : list round) (s : system) : outcome (system * option (list Z)) :=
  if negb opened then Ok (s, None)
  else let! (s, file) := flush_loop rounds [] s in Ok (s, Some file).

(** *** Lemmas *)

Context `{!Ia32Ok ia32}.

(** A message the logger writes. *)
Definition message_ok (m : standard_log_message) : Prop :=
  is_u64 (message_number m) /\ length (Logging.text m) = 256%nat /\ In 0 (Logging.text m).

Lemma decode_message_bytes m rest :
  is_u64 (message_number m) -> length (Logging.text m) = 256%nat ->
  decode_message (message_bytes m ++ rest) = m.
Proof.
  intros Hn Ht. unfold decode_message, message_bytes. rewrite <- app_assoc.
  rewrite drop_app_length' by (by rewrite le_split_length).
  rewrite take_app_length' by (by rewrite le_split_length).
  rewrite le_combine_split by done.
  rewrite take_app_length' by done. by destruct m.
Qed.

Lemma decode_messages_bytes ms rest n :
  Forall message_ok ms -> (length ms <= n)%nat ->
  take (length ms) (decode_messages n (concat (map message_bytes ms) ++ rest)) = ms.
Proof.
  intros Hok. revert n. induction Hok as [| m ms (Hn & Ht & H0) Hms IH]; intros n Hl; [done |].
  destruct n as [| n]; cbn [length] in Hl; [lia |]. cbn [map concat decode_messages length take].
  pose proof (message_bytes_length m Ht) as Hlen. change (Z.to_nat sizeof_message) with 264%nat.
  rewrite <- app_assoc. rewrite take_app_length', drop_app_length' by done.
  rewrite <- (app_nil_r (message_bytes m)), decode_message_bytes by done. f_equal. apply IH. lia.
Qed.

Lemma decode_messages_length n bs : length (decode_messages n bs) = n.
Proof. revert bs. induction n as [| n IH]; intros bs; [done |]. cbn [decode_messages length]. by rewrite IH. Qed.

Definition lines (ms : list standard_log_message) : list Z := concat (map message_line ms).

Lemma write_messages_ok ms : Forall message_ok ms -> write_messages ms = Ok (lines ms).
Proof.
  induction 1 as [| m ms (Hn & Ht & H0) Hms IH]; [done |]. cbn [write_messages]. unfold write_message.
  assert (existsb (Z.eqb 0) (Logging.text m) = true) as -> by (apply existsb_exists; exists 0; done).
  cbn [obind]. by rewrite IH.
Qed.

Lemma lines_app ms ms' : lines (ms ++ ms') = lines ms ++ lines ms'.
Proof. unfold lines. by rewrite map_app, concat_app. Qed.

(** The logger after [n] messages have been taken. *)
Definition taken (n : Z) (l : standard_logger) : standard_logger := l <| pending_count := pending_count l - n |>.

(** The machine after the handler. *)
Definition flushed (M : machine) (m : mem) (n : Z) : machine :=
  set_rax (M <| core := core M |> <| physical_memory := m |>
             <| shared := (shared M) <| logger := taken n (logger (shared M)) |> |>) n.

Lemma buffer_part m cr3 buffer g n :
  writable m cr3 buffer (batch_size * sizeof_message) g -> 0 <= n <= batch_size ->
  writable m cr3 buffer (n * sizeof_message) g.
Proof.
  intros Hw Hn. pose proof (writable_part m cr3 buffer _ g 0 (n * sizeof_message) Hw) as H.
  rewrite Z.add_0_r in H. change sizeof_message with 264 in *. apply H; lia.
Qed.

Lemma taken_0 l : taken 0 l = l.
Proof. unfold taken. rewrite Z.sub_0_r. by destruct l. Qed.

Lemma oldest_length l n :
  logger_ok l -> 0 <= n <= pending_count l ->
  Z.of_nat (length (concat (map message_bytes (take (Z.to_nat n) (pending_messages l))))) = n * sizeof_message.
Proof.
  intros Hok Hn. rewrite (concat_length_const _ 264), length_map, length_take, pending_length.
  - change sizeof_message with 264. lia.
  - apply Forall_map, Forall_take. unfold pending_messages. apply Forall_map, Forall_true. intros k.
    apply message_bytes_length, texts_ok, Hok.
Qed.

(** Flushing into the vector, also when nothing is pending. *)
Lemma flush_batch rdmsr crash copy_fault m v l buffer g :
  (forall a n, copy_fault a n = None) -> exception_occurred (exn_info v) = false ->
  get_guest_cr3 supported (vcpu_vmcs v) = process_cr3 -> logger_ok l ->
  writable m process_cr3 buffer (batch_size * sizeof_message) g ->
  let n := Z.min (pending_count l) batch_size in
  exists m', flush_standard_logs supported rdmsr crash copy_fault m v l buffer batch_size = Ok (m', v, taken n l, n) /\
    guest_bytes m' process_cr3 buffer (Z.to_nat (n * sizeof_message)) =
      Ok (concat (map message_bytes (take (Z.to_nat n) (pending_messages l)))) /\
    (forall a, outside (batch_size * sizeof_message) g a -> m' a = m a).
Proof.
  intros Hf Hq Hcr Hok Hw n. pose proof (pending_ok l Hok) as Hp.
  assert (0 <= n <= batch_size) as Hn by (unfold n, batch_size; lia).
  pose proof (buffer_part _ _ _ _ n Hw Hn) as Hw'. pose proof Hw' as [W1 W2 W3 W4 W5].
  destruct (Z.eq_dec n 0) as [E0 | E0].
  - exists m. rewrite E0, taken_0, take_0. split; [| done].
    unfold flush_standard_logs. fold n. rewrite E0.
    change (batch_size =? 0) with false. by destruct (Z.eqb_spec buffer 0); [lia |].
  - assert (0 < n) as Hn0 by lia.
    destruct (flush_ok supported rdmsr crash copy_fault Hf m v l buffer batch_size g Hok Hq W1 eq_refl) as (m' & E & W);
      rewrite ?Hcr; fold n; try done.
    exists m'. split; [exact E |]. split.
    + rewrite (written_read_back m process_cr3 buffer (n * sizeof_message) g (concat (map message_bytes (take (Z.to_nat n) (pending_messages l)))) m' Hw').
      * pose proof (oldest_length l n Hok ltac:(lia)) as Hl. f_equal. unfold slice.
        rewrite drop_0, take_ge by lia. done.
      * rewrite (oldest_length l n Hok) by lia. change sizeof_message with 264. lia.
      * exact W.
    + intros a Ha. apply (written_frame _ _ _ _ _ _ W). intros i Hi. apply Ha. change sizeof_message with 264 in *. lia.
Qed.

(** The handler on a core of the controller. *)
Lemma flush_handled s cpu buffer g :
  (forall a n, env_copy_fault (env cpu) a n = None) ->
  prepared supported process_cr3 s cpu -> logger_ok (logger (g_hv s)) ->
  writable (memory s) process_cr3 buffer (batch_size * sizeof_message) g ->
  let ms := pending_messages (logger (g_hv s)) in
  let n := Z.min (pending_count (logger (g_hv s))) batch_size in
  let M := called s cpu flush_standard_logs_number buffer batch_size 0 in
  exists m', run_hypercall supported (env cpu) M flush_standard_logs_number = Ok (flushed M m' n) /\
    guest_bytes m' process_cr3 buffer (Z.to_nat (n * sizeof_message)) = Ok (concat (map message_bytes (take (Z.to_nat n) ms))) /\
    (forall a, outside (batch_size * sizeof_message) g a -> m' a = memory s a).
Proof.
  intros Hf [Hv Hq Hcr] Hok Hw ms n M.
  destruct (flush_batch (msrs M) (env_crash_in_progress (env cpu)) (env_copy_fault (env cpu)) (memory s) (core M)
    (logger (g_hv s)) buffer g Hf Hq Hcr Hok Hw) as (m' & E & H).
  exists m'. split; [| exact H]. cbn [run_hypercall]. unfold handle_flush_standard_logs.
  change (gpr_of M rdx) with buffer. change (gpr_of M r8) with batch_size.
  change (physical_memory M) with (memory s). change (logger (shared M)) with (logger (g_hv s)).
  rewrite E. reflexivity.
Qed.

(** The vector after the call: its first [n] elements are kept. *)
Lemma decoded_batch l n bs :
  logger_ok l -> n = Z.min (pending_count l) batch_size -> Forall message_ok (pending_messages l) ->
  take (Z.to_nat (n * sizeof_message)) bs = concat (map message_bytes (take (Z.to_nat n) (pending_messages l))) ->
  resize (Z.to_nat n) zero_message (decode_messages (Z.to_nat batch_size) bs) = take 100 (pending_messages l).
Proof.
  intros Hok Hn Hms Hb. pose proof (pending_ok l Hok) as Hp. pose proof (pending_length l) as Hl.
  assert (take 100 (pending_messages l) = take (Z.to_nat n) (pending_messages l)) as ->.
  { destruct (Z.le_gt_cases (pending_count l) 100).
    - rewrite !take_ge; [done | unfold batch_size in Hn; lia ..].
    - f_equal. unfold batch_size in Hn. lia. }
  rewrite resize_le by (rewrite decode_messages_length; unfold batch_size in *; lia).
  rewrite <- (take_drop (Z.to_nat (n * sizeof_message)) bs), Hb. set (ms := take _ (pending_messages l)).
  assert (length ms = Z.to_nat n) as <- by (unfold ms; rewrite length_take; unfold batch_size in *; lia).
  apply decode_messages_bytes; [by apply Forall_take |]. unfold ms. rewrite length_take. unfold batch_size in *. lia.
Qed.

(** A round takes the oldest messages out of the queue and into the file. *)
Lemma round_flushes s cpu buffer g :
  (forall a n, env_copy_fault (env cpu) a n = None) ->
  prepared supported process_cr3 s cpu -> logger_ok (logger (g_hv s)) ->
  writable (memory s) process_cr3 buffer (batch_size * sizeof_message) g ->
  Forall message_ok (pending_messages (logger (g_hv s))) ->
  let l := logger (g_hv s) in
  exists s', flush_round cpu buffer s = Ok (s', lines (take 100 (pending_messages l)),
      if pending_count l <? batch_size then 5 else 0) /\
    logger (g_hv s') = taken (Z.min (pending_count l) batch_size) l /\
    (forall a, outside (batch_size * sizeof_message) g a -> memory s' a = memory s a) /\
    prepared supported process_cr3 s' cpu.
Proof.
  intros Hf Hp Hok Hw Hms l. set (n := Z.min (pending_count l) batch_size). pose proof (pending_ok _ Hok) as Hpc. fold l in Hpc.
  assert (Z.of_nat (length (repeat 0 (Z.to_nat (batch_size * sizeof_message)))) = batch_size * sizeof_message) as Ez.
  { rewrite repeat_length. apply Z2Nat.id. unfold batch_size, sizeof_message, max_standard_message_length. lia. }
  destruct (guest_store_ok (memory s) process_cr3 buffer (repeat 0 (Z.to_nat (batch_size * sizeof_message))) g) as (m1 & E1 & [_ Hm1]).
  { rewrite Ez. exact Hw. }
  rewrite Ez in Hm1.
  pose proof (writable_frame _ m1 _ _ _ _ Hm1 Hw) as Hw1.
  set (s1 := with_memory s m1).
  assert (prepared supported process_cr3 s1 cpu) as Hp1 by (destruct Hp; by split).
  destruct (flush_handled s1 cpu buffer g Hf Hp1 Hok Hw1) as (m2 & E2 & Hb & Hm2).
  change (logger (g_hv s1)) with l in E2, Hb. fold n in E2, Hb.
  pose proof (guest_bytes_writable _ _ _ _ _ (writable_frame _ m2 _ _ _ _ Hm2 Hw1) ltac:(done)) as Eg.
  set (bs := map (fun i => m2 (g i)) _) in Eg.
  unfold flush_round. rewrite E1. cbn [obind]. unfold flush_std_logs.
  rewrite vmcall_keyed by (apply Hp1 || done). fold s1. rewrite E2. cbn [obind].
  change (memory (leave s1 cpu _)) with m2. rewrite Eg. cbn [obind].
  change (gpr_of _ rax) with n. 
  rewrite (decoded_batch l n bs); [| done | done | done |].
  2: { rewrite (guest_bytes_prefix _ _ _ _ (Z.to_nat (n * sizeof_message)) _ Eg) in Hb; [by injection Hb |].
       change sizeof_message with 264. unfold n, batch_size. lia. }
  rewrite write_messages_ok by (by apply Forall_take). cbn [obind].
  eexists. split; [| split; [| split]].
  - do 2 f_equal. rewrite length_take, pending_length. unfold batch_size. zcases; lia.
  - reflexivity.
  - intros a Ha. change (m2 a = memory s a). rewrite Hm2 by done. exact (Hm1 a Ha).
  - destruct Hp as [P1 P2 P3]. split; [exact P1 | rewrite leave_same; exact P2 |].
    rewrite leave_same, advance_cr3. exact P3.
Qed.

(** *** The whole log *)

Lemma ring_pushes l news :
  logger_ok l -> Forall message_ok news -> (length (pending_messages l) + length news <= 512)%nat ->
  logger_ok (fold_left ring_push news l) /\ pending_messages (fold_left ring_push news l) = pending_messages l ++ news.
Proof.
  intros Hok Hn. revert l Hok. induction Hn as [| m news (_ & Hm & _) Hn IH]; intros l Hok Hl; cbn [fold_left length] in *.
  - split; [done | by rewrite app_nil_r].
  - destruct (ring_push_ok l m Hok Hm) as [Hok' Hp]. unfold last_n in Hp. rewrite length_app in Hp. cbn [length] in Hp.
    replace (length (pending_messages l) + 1 - 512)%nat with 0%nat in Hp by lia. rewrite drop_0 in Hp.
    destruct (IH _ Hok') as [H1 H2]; [rewrite Hp, length_app; cbn [length]; lia |].
    split; [exact H1 |]. by rewrite H2, Hp, <- app_assoc.
Qed.

(** What the rest of the system may do before a round: it logs the messages [news], which
    fit into the ring, and leaves a core and a vector the thread can use. *)
Record round_ok (r : round) (news : list standard_log_message) (s : system) : Prop := {
  news_ok : Forall message_ok news;
  news_fit : (length (pending_messages (logger (g_hv s))) + length news <= 512)%nat;
  news_logged : logger (g_hv (others r s)) = fold_left ring_push news (logger (g_hv s));
  round_prepared : prepared supported process_cr3 (others r s) (on_cpu r);
  round_writable : exists g, writable (memory (others r s)) process_cr3 (vector_at r) (batch_size * sizeof_message) g
}.
Fixpoint rounds_ok (rounds : list (round * list standard_log_message)) (s : system) : Prop :=
  match rounds with
  | [] => True
  | (r, news) :: rounds =>
      round_ok r news s /\
      forall s' text seconds, flush_round (on_cpu r) (vector_at r) (others r s) = Ok (s', text, seconds) -> rounds_ok rounds s'
  end.

Lemma loop_flushes rounds file s :
  (forall c a n, env_copy_fault (env c) a n = None) ->
  logger_ok (logger (g_hv s)) -> Forall message_ok (pending_messages (logger (g_hv s))) -> rounds_ok rounds s ->
  exists s' file', flush_loop (map fst rounds) file s = Ok (s', file') /\ logger_ok (logger (g_hv s')) /\
    file' ++ lines (pending_messages (logger (g_hv s'))) =
      file ++ lines (pending_messages (logger (g_hv s)) ++ concat (map snd rounds)).
Proof.
  intros Hf. revert file s. induction rounds as [| [r news] rounds IH]; intros file s Hok Hms Hr; cbn [map concat fst snd flush_loop].
  { exists s, file. by rewrite app_nil_r. }
  destruct Hr as [[Hn Hl Hlog Hp [g Hw]] Hr].
  destruct (ring_pushes _ news Hok Hn Hl) as [Hok1 Hp1]. rewrite <- Hlog in Hok1, Hp1.
  assert (Forall message_ok (pending_messages (logger (g_hv (others r s))))) as Hms1 by (rewrite Hp1; by apply Forall_app).
  destruct (round_flushes _ (on_cpu r) (vector_at r) g (Hf _) Hp Hok1 Hw Hms1) as (s2 & E & Hlog2 & _).
  specialize (Hr _ _ _ E). rewrite E. cbn [obind].
  pose proof (pending_ok _ Hok1) as Hpc. set (l := logger (g_hv (others r s))) in *.
  destruct (flushed_ring_ok l (Z.min (pending_count l) batch_size) Hok1 ltac:(unfold batch_size; lia)) as [Hok2 Hp2].
  fold (taken (Z.min (pending_count l) batch_size) l) in Hok2, Hp2. rewrite <- Hlog2 in Hok2, Hp2.
  assert (pending_messages (logger (g_hv s2)) = drop 100 (pending_messages l)) as Hp3.
  { rewrite Hp2. pose proof (pending_length l). destruct (Z.le_gt_cases (pending_count l) 100).
    - rewrite !drop_ge; [done | unfold batch_size; lia ..].
    - f_equal. unfold batch_size. lia. }
  destruct (IH (file ++ lines (take 100 (pending_messages l))) s2 Hok2) as (s' & file' & E' & Hok' & Hlines); [| done |].
  { rewrite Hp3. by apply Forall_drop. }
  exists s', file'. split; [exact E' |]. split; [exact Hok' |].
  rewrite Hlines, Hp3, !lines_app, <- app_assoc. f_equal.
  rewrite (app_assoc (lines (take 100 _))), <- lines_app, take_drop, Hp1, lines_app. by rewrite <- app_assoc.
Qed.

End flush_thread.

(** ** Example: a vector in the large page of the sample address space *)

Lemma large_walk_entries o :
  0 <= o < 26400 -> walk_entries sample_tables 4 (frame_address (address_of_page_directory 0x1000)) (0x40000000 + o) =
    [0x1000; 0x2008].
Proof.
  intros Ho. assert ((0x40000000 + o) / 2 ^ 39 = 0) as E4 by (apply Z.div_small; lia).
  assert ((0x40000000 + o) / 2 ^ 30 = 1) as E3.
  { symmetry. apply (Z.div_unique_pos _ _ _ o); lia. }
  cbn [walk_entries]. change (12 + 9 * Z.of_nat 3) with 39. change (12 + 9 * Z.of_nat 2) with 30.
  rewrite E4, E3. vm_compute. reflexivity.
Qed.

Lemma large_writable :
  writable sample_tables 0x1000 0x40000000 (batch_size * sizeof_message) (fun i => 0x40000000 + i).
Proof.
  change (batch_size * sizeof_message) with 26400. split; [lia | lia | | |].
  - intros i Hi. change host_physical_size with 0x8000000000. split; [lia |]. split; [lia |].
    assert (gva_to_gpa sample_tables 0x1000 0x40000000 0 = Ok (0x40000000, 0x40000000)) as E by (vm_compute; reflexivity).
    destruct (contiguous_ok _ _ _ _ _ _ i E ltac:(lia) ltac:(lia)) as [_ E2]. eexists. exact E2.
  - apply tables_apart_of_entries. intros i j Hi Hj. rewrite large_walk_entries by lia. repeat constructor; lia.
  - intros i j _ _. lia.
Qed.

Definition logging_system : system :=
  mk_system (fun _ => core (sample_caller sample_tables [])) (fun _ => true) sample_tables (fun _ _ => 0) (fun _ => 0%nat)
    (zero_hypervisor <| vcpu_count := 2 |> <| logger := wrapped_logger |>).

(** A core that logs a message. *)
Definition late_message : standard_log_message := mk_message 43 (bytes "late" ++ 10 :: repeat 0 251).
Definition logs (m : standard_log_message) (s : system) : system :=
  mk_system (cores s) (virtualized s) (memory s) (core_msrs s) (core_invepts s)
    ((g_hv s) <| logger := ring_push (logger (g_hv s)) m |>).

Definition is_message (m : standard_log_message) : bool :=
  (0 <=? message_number m) && (message_number m <? 2 ^ 64) && (length (Logging.text m) =? 256)%nat &&
  existsb (Z.eqb 0) (Logging.text m).
Lemma message_check m : is_message m = true -> message_ok m.
Proof.
  unfold is_message. intros H. apply andb_prop in H as [H H4]. apply andb_prop in H as [H H3]. apply andb_prop in H as [H1 H2].
  split; [unfold is_u64; lia |]. split; [by apply Nat.eqb_eq |]. apply existsb_exists in H4 as (x & Hx & E).
  by apply Z.eqb_eq in E as ->.
Qed.


(** ** Main *)

Section main.
Context {ia32 : Ia32} {mtrr_layout : MtrrLayout} {exit_layout : ExitLayout} `{MinHeap}.
Variable supported : vmcs_field -> bool.
Variable env : nat -> environment.
Variable processors : nat.
Variables process_cr3 req : Z.
(** What the commands take from Windows and from the file system. *)
Variable query : option (list raw_module).
Variable NtSystemRoot : list Z.
Variable open_file : list Z -> option (list Z * Z).
Variable can_write : list Z -> bool.
Variable pdb_symbols : list Z -> list Z -> option (list symbol_info).
Variable can_allocate : Z -> bool.
Variable current_cpu : nat.
Variable read_file : list Z -> option (list Z).
Variable list_dir : list Z -> option (list (list Z * option (list Z))).
Variable load : module_info -> option pe.

(** The loop over the cores: [all_cores_ok], which becomes [g_hv_present]. *)
Definition ping_cores (s : system) : outcome (system * bool) :=
  for_each_cpu processors (fun cpu '(s, all_cores_ok) =>
    let! (alive, s) := ping_hv supported env cpu s in Ok (s, if (alive : bool) then all_cores_ok else false)) (s, true).

(** A command that reads another line: the double-fault test asks before it runs. *)
Definition asks (present : bool) (line : list Z) : bool :=
  match tokenize line with
  | [] => false
  | t :: _ => is_text (to_lower t) "df" && negb (wants_help (tokenize line)) && present
  end.

Section console.
Variable present : bool.
Variable read_vmemory : Z -> Z -> Z -> list Z.

Abbreviation command response line w := (execute_line supported env processors process_cr3 req present query NtSystemRoot
  read_vmemory open_file can_write pdb_symbols can_allocate current_cpu read_file list_dir load response line w).

(** The loop over the lines typed until one ends the program or the input ends. *)
Fixpoint console (lines : list (list Z)) (w : world) : outcome world :=
  match lines with
  | [] => Ok w
  | line :: rest =>
      if asks present line then
        match rest with
        | [] => let! (w, _) := command [] line w in Ok w
        | response :: rest => let! (w, more) := command response line w in if (more : bool) then console rest w else Ok w
        end
      else let! (w, more) := command [] line w in if (more : bool) then console rest w else Ok w
  end.
End console.

(** [main] over the lines typed; the first one answers the question about a terminal for
    the log when the hypervisor is there. [Crash] is an exception that nothing catches. *)
Definition main (read_vmemory : Z -> Z -> Z -> list Z) (lines : list (list Z)) (s : system) : outcome world :=
  let! (s, present) := ping_cores s in
  let lines := if (present : bool) then drop 1 lines else lines in
  match refresh NtSystemRoot query empty_context with
  | None => Crash
  | Some kmodules =>
      let! w := engine_start supported env processors process_cr3 req present kmodules s in
      let! w := console present read_vmemory lines w in
      Ok (on_eng stop_trace_poller w)
  end.

(** *** Lemmas *)

Lemma ping_ok cpu s :
  exists s', ping_hv supported env cpu s = Ok (virtualized s cpu, s') /\ virtualized s' = virtualized s /\
    forall d, virtualized s d = false -> cores s' d = cores s d.
Proof.
  unfold ping_hv. destruct (virtualized s cpu) eqn:Hv.
  - rewrite vmcall_keyed by done. cbn [run_hypercall obind]. eexists. split; [reflexivity |]. split; [done |].
    intros d Hd. apply leave_other; [congruence | done].
  - exists s. unfold __vmcall. by rewrite Hv.
Qed.

(** The flag tells whether every core runs under the hypervisor. *)
Lemma ping_cores_ok s :
  exists s', ping_cores s = Ok (s', forallb (virtualized s) (seq 0 processors)) /\
    forall d, virtualized s d = false -> cores s' d = cores s d.
Proof.
  destruct (for_each_cpu_ok processors (fun i '(s', ok) => ok = forallb (virtualized s) (seq 0 i) /\ virtualized s' = virtualized s /\
      forall d, virtualized s d = false -> cores s' d = cores s d)
    (fun cpu '(s, all_cores_ok) => let! (alive, s) := ping_hv supported env cpu s in Ok (s, if (alive : bool) then all_cores_ok else false))
    (s, true)) as ([s' ok] & E & -> & _ & H'); [| done | by exists s'].
  intros i [s1 ok] Hi (-> & Hv1 & Hc1). destruct (ping_ok i s1) as (s2 & E2 & Hv2 & Hc2). rewrite E2. cbn [obind].
  eexists. split; [reflexivity |]. split; [| split; [by rewrite Hv2 |]].
  - rewrite Nat.add_comm, seq_S, forallb_app, Hv1. cbn [forallb Nat.add]. rewrite andb_true_r.
    by destruct (virtualized s i); rewrite ?andb_true_r, ?andb_false_r.
  - intros d Hd. rewrite Hc2 by (by rewrite Hv1). by apply Hc1.
Qed.

(** *** Without the hypervisor *)

Definition untouched (w : world) (m : outcome world) : Prop := ensures (fun w' => sys w' = sys w) m.

Section offline.
Variable read_vmemory : Z -> Z -> Z -> list Z.

Lemma refresh_untouched w k :
  (forall w', sys w' = sys w -> untouched w (k w')) -> untouched w (with_refresh query NtSystemRoot w k).
Proof. intros Hk. unfold with_refresh. destruct (refresh _ _ _); [by apply Hk | reflexivity]. Qed.

Lemma expression_untouched w token :
  ensures (fun r => sys (fst r) = sys w) (parse_expression false read_vmemory open_file pdb_symbols w token).
Proof.
  unfold parse_expression, resolve_symbol_of. destruct (parse_u64_token token); [reflexivity |].
  destruct (resolve_symbol _ _ _ _ _ _) as [[c r] | |]; reflexivity.
Qed.

Lemma print_untouched w0 a w :
  sys w = sys w0 -> untouched w0 (print_resolved false read_vmemory open_file pdb_symbols a w).
Proof.
  intros E. unfold print_resolved, resolve_address_of.
  by destruct (resolve_address _ _ _ _ _ _) as [[c r] | |]; cbn.
Qed.

Lemma save_untouched path contents o w : sys (save can_write path contents o w) = sys w.
Proof. unfold save. destruct contents; [destruct (can_write path) |]; reflexivity. Qed.

Lemma ln_untouched args w : untouched w (handle_ln false query NtSystemRoot read_vmemory open_file pdb_symbols args w).
Proof.
  unfold handle_ln. destruct (wants_help args); [reflexivity |]. destruct (negb _); [reflexivity |].
  apply refresh_untouched. intros w1 E1. unfold untouched. eapply ensures_bind; [apply expression_untouched |].
  intros [w2 [a |]] E2; cbn [fst] in E2; [apply print_untouched |]; exact (eq_trans E2 E1).
Qed.

Lemma emit_all_untouched {A} (f : A -> output) l w : sys (fold_left (fun w x => emit_out (f x) w) l w) = sys w.
Proof. revert w. induction l as [| x l IH]; intros w; [done |]. cbn [fold_left]. by rewrite IH. Qed.

Lemma lm_untouched args w : untouched w (handle_lm query NtSystemRoot can_write args w).
Proof.
  unfold handle_lm. destruct (wants_help args); [reflexivity |]. apply refresh_untouched. intros w1 E1.
  destruct (_ && _); [destruct (negb _); [exact E1 | exact (eq_trans (save_untouched _ _ _ _) E1)] |].
  destruct (List.filter _ _) as [| m ms] eqn:E; [exact E1 |].
  exact (eq_trans (emit_all_untouched (fun m => text (module_line m)) (m :: ms) w1) E1).
Qed.

Lemma trace_untouched args w : untouched w (handle_trace_parse can_write read_file list_dir load args w).
Proof.
  unfold handle_trace_parse. destruct (wants_help args); [reflexivity |]. destruct (_ || _); [reflexivity |].
  destruct (_ || _); [reflexivity |]. cbv zeta. destruct (TraceParser.run _ _ _ _ _); [apply save_untouched | reflexivity].
Qed.

(** The handlers that need the hypervisor refuse. *)
Lemma dump_untouched args kind w :
  untouched w (handle_dump false query NtSystemRoot read_vmemory open_file pdb_symbols can_allocate args kind w).
Proof. unfold handle_dump. cbv zeta. by destruct (wants_help args). Qed.

Lemma at_untouched args w :
  untouched w (handle_at supported env processors process_cr3 req false query NtSystemRoot read_vmemory open_file can_write
    pdb_symbols current_cpu args w).
Proof. unfold handle_at. by destruct (wants_help args). Qed.

Lemma apic_untouched args w : untouched w (handle_apic_info supported env process_cr3 req false current_cpu args w).
Proof. unfold handle_apic_info. by destruct (wants_help args). Qed.

Lemma df_untouched args response w : untouched w (handle_test_df supported env false current_cpu args response w).
Proof. unfold handle_test_df. by destruct (wants_help args). Qed.

(** Without the hypervisor no command makes a call. *)
Lemma execute_untouched response line w :
  ensures (fun r => sys (fst r) = sys w)
    (execute_line supported env processors process_cr3 req false query NtSystemRoot read_vmemory open_file can_write
      pdb_symbols can_allocate current_cpu read_file list_dir load response line w).
Proof.
  unfold execute_line. destruct (tokenize line) as [| t tokens]; [reflexivity |]. cbv zeta.
  assert (forall m, untouched w m -> ensures (fun r : world * bool => sys r.1 = sys w) (let! w := m in Ok (w, true))) as Hrun.
  { intros [w' | |] Hm; exact Hm. }
  destruct (_ || _); [reflexivity |]. destruct (_ || _ || is_text _ "exit"); [reflexivity |].
  repeat match goal with
  | |- ensures _ (if ?b then _ else _) =>
      destruct b; [apply Hrun; first
        [ apply dump_untouched | apply ln_untouched | apply lm_untouched | apply at_untouched | apply trace_untouched
        | apply apic_untouched | apply df_untouched ] |]
  end.
  apply Hrun, refresh_untouched. intros w1 E1. unfold untouched. eapply ensures_bind; [apply expression_untouched |].
  intros [w2 [a |]] E2; cbn [fst] in E2; [apply print_untouched |]; exact (eq_trans E2 E1).
Qed.

Lemma console_untouched lines w : untouched w (console false read_vmemory lines w).
Proof.
  assert (forall line, asks false line = false) as Ha by (intros line; unfold asks; destruct (tokenize line); by rewrite ?andb_false_r).
  revert w. induction lines as [| line lines IH]; intros w; cbn [console]; [reflexivity |]. rewrite Ha.
  pose proof (execute_untouched [] line w) as He. destruct (execute_line _ _ _ _ _ _ _ _ _ _ _ _ _ _ _ _ _ _ _ w) as [[w1 more] | |]; cbn [obind]; [| done | done].
  cbn in He. destruct more; [| exact He]. unfold untouched. rewrite <- He. exact (IH w1).
Qed.
End offline.

(** Nor does any read memory through it. *)
Lemma execute_reads_nothing rv rv' response line w :
  execute_line supported env processors process_cr3 req false query NtSystemRoot rv open_file can_write
    pdb_symbols can_allocate current_cpu read_file list_dir load response line w =
  execute_line supported env processors process_cr3 req false query NtSystemRoot rv' open_file can_write
    pdb_symbols can_allocate current_cpu read_file list_dir load response line w.
Proof. reflexivity. Qed.

Lemma console_reads_nothing rv rv' lines w : console false rv lines w = console false rv' lines w.
Proof.
  assert (forall line, asks false line = false) as Ha by (intros line; unfold asks; destruct (tokenize line); by rewrite ?andb_false_r).
  revert w. induction lines as [| line lines IH]; intros w; cbn [console]; [reflexivity |].
  rewrite Ha, (execute_reads_nothing rv rv'). set (r := execute_line _ _ _ _ _ _ _ _ _ _ _ _ _ _ _ _ _ _ _ w).
  clearbody r. destruct r as [[w1 more] | |]; cbn [obind]; [| reflexivity ..].
  destruct more; [exact (IH w1) | reflexivity].
Qed.

End main.

(** Two cores, of which the second has not loaded the hypervisor, and three lines. *)
Definition half_loaded : system :=
  mk_system (cores two_cores) (fun c => (c =? 0)%nat) (memory two_cores) (core_msrs two_cores) (core_invepts two_cores) (g_hv two_cores).
Abbreviation example_main := (main (fun _ => true) (fun _ => sample_env) 2 0x1000 0x1100 (Some []) (bytes "C:\Windows")
  no_file (fun _ => true) no_symbols (fun _ => true) 0 (fun _ => None) (fun _ => None) (fun _ => None)).
Definition typed_lines : list (list Z) := map bytes ["at disable"; "5008"; "q"; "at disable"]%string.

