(* ===== verification/Dump.v ===== *)
(** * Dumps from end to end: [handle_dump] of [revhv-um/commands.cpp] over [read_vmemory]

    The command prints a range of any address space. Here its read is the one of
    [UmMemory], on the system of all cores, and the lines are read back: each one has its
    address and the bytes that are there. *)
From Stdlib Require Import ZArith Lia String Ascii List Bool.
From stdpp Require Import base numbers list option gmap functions.
From S2P Require Import Prelude Ia32 Memory Mtrr Paging Trace TransitionCfg Vmcs Vcpu Introspection Hv VmExit Hypercall.
From S2P Require Import TraceFiles StdFormat Pe TraceParser System UmMemory KModules Commands.

(** ** Reading a line *)

(** The address at the front, and the bytes of the cells up to the first that is blank. *)
Definition line_address (line : list Z) : option Z := from_chars16 (take 16 line) 0.
Fixpoint cell_bytes (u n : nat) (line : list Z) : list Z :=
  match n with
  | O => []
  | S n =>
      match from_chars16 (take (2 * u) line) 0 with
      | Some v => le_split u v ++ cell_bytes u n (drop (2 * u + 1) line)
      | None => []
      end
  end.
Definition unit_of (kind : dump_kind) : nat := Z.to_nat (unit_size_for kind).
Definition line_bytes (kind : dump_kind) (line : list Z) : list Z :=
  cell_bytes (unit_of kind) (16 / unit_of kind) (drop 18 line).

(** ** Lemmas *)

Abbreviation bytes_ok bs := (Forall (fun b => 0 <= b < 256) bs).

Lemma le_split_combine bs : bytes_ok bs -> le_split (length bs) (le_combine bs) = bs.
Proof.
  induction 1 as [| b bs Hb Hbs IH]; [done |]. cbn [length le_combine le_split].
  rewrite (Z.mul_comm 256), Z.mod_add, Z.div_add, Z.mod_small, Z.div_small, Z.add_0_l, IH by lia. done.
Qed.

Lemma digits_length n fuel upper v :
  0 <= v < 16 ^ Z.of_nat (S n) -> (length (digits_acc fuel upper 16 v []) <= S n)%nat.
Proof.
  revert fuel v. induction n as [| n IH]; intros [| fuel] v Hv; [cbn; lia | | cbn; lia |]; rewrite digits_acc_snoc.
  - rewrite Z.div_small by lia. cbn. lia.
  - destruct (Z.eqb_spec (v / 16) 0); [cbn; lia |]. rewrite length_app. cbn [length].
    assert (0 <= v / 16 < 16 ^ Z.of_nat (S n)) as Hq.
    { split; [apply Z.div_pos; lia |]. apply Z.div_lt_upper_bound; [lia |].
      rewrite <- Z.pow_succ_r by lia. replace (Z.succ (Z.of_nat (S n))) with (Z.of_nat (S (S n))) by lia. lia. }
    pose proof (IH fuel _ Hq). lia.
Qed.

(** A number that fits its field is read back from it. *)
Lemma padded_number n v rest :
  is_u64 v -> v < 16 ^ Z.of_nat (S n) ->
  from_chars16 (take (S n) (pad_left (chr "0") (S n) (hex v) ++ rest)) 0 = Some v /\
  length (pad_left (chr "0") (S n) (hex v)) = S n.
Proof.
  intros Hv Hn. unfold is_u64 in Hv. pose proof (digits_length n 64 false v ltac:(lia)) as Hl. change (digits_acc 64 false 16 v []) with (hex v) in Hl.
  assert (length (pad_left (chr "0") (S n) (hex v)) = S n) as E by (unfold pad_left; rewrite length_app, repeat_length; lia).
  split; [| exact E]. rewrite take_app_length' by done. unfold pad_left. rewrite from_chars16_zeros.
  by apply from_chars16_number.
Qed.

Lemma unit_cases kind : kind <> d_pointers -> exists n, (unit_of kind = S n)%nat /\ (n < 8)%nat /\ (16 mod unit_of kind = 0)%nat.
Proof. destruct kind; intros H; [exists 0%nat | exists 1%nat | exists 3%nat | exists 7%nat | done]; vm_compute; repeat split; lia. Qed.

Lemma cell_read kind line rest :
  bytes_ok line -> (length line <= 8)%nat -> (0 < length line)%nat -> length line = unit_of kind ->
  from_chars16 (take (2 * unit_of kind) (cell kind line ++ rest)) 0 = Some (le_combine line) /\
  length (cell kind line) = (2 * unit_of kind)%nat.
Proof.
  intros Hb H8 H0 Hl. pose proof (le_combine_range line Hb) as Hr.
  assert (2 ^ 64 = 256 ^ 8) as E64 by reflexivity.
  assert (256 ^ Z.of_nat (length line) <= 256 ^ 8) by (apply Z.pow_le_mono_r; lia).
  assert (exists n, 2 * unit_of kind = S n)%nat as [n En] by (exists (2 * unit_of kind - 1)%nat; lia).
  unfold cell. replace (Z.to_nat (unit_size_for kind * 2)) with (2 * unit_of kind)%nat by (unfold unit_of in *; destruct kind; cbn; lia).
  rewrite En. apply padded_number; [unfold is_u64; lia |]. rewrite <- En.
  replace (Z.of_nat (2 * unit_of kind)) with (2 * Z.of_nat (length line)) by lia.
  rewrite Z.pow_mul_r by lia. change (16 ^ 2) with 256. lia.
Qed.

(** The cells of a line give the bytes of its whole units. *)
Lemma cells_read kind n line rest :
  kind <> d_pointers -> bytes_ok line ->
  cell_bytes (unit_of kind) n (cells kind n line ++ rest) = take (unit_of kind * Nat.min n (length line / unit_of kind)) line.
Proof.
  intros Hk. destruct (unit_cases kind Hk) as (k & Hu & Hk8 & _). revert line.
  induction n as [| n IH]; intros line Hb; [by rewrite Nat.min_0_l, Nat.mul_0_r |].
  cbn [cells cell_bytes]. fold (unit_of kind). destruct (Nat.leb_spec (unit_of kind) (length line)) as [Hle | Hlt].
  - assert (length (take (unit_of kind) line) = unit_of kind) as Ht by (rewrite length_take; lia).
    assert (bytes_ok (take (unit_of kind) line)) as Hbt by by apply Forall_take.
    rewrite <- !app_assoc. destruct (cell_read kind (take (unit_of kind) line)
      ([32] ++ cells kind n (drop (unit_of kind) line) ++ rest) Hbt ltac:(lia) ltac:(lia) Ht) as [-> Hlen].
    rewrite app_assoc, drop_app_length' by (rewrite length_app, Hlen; cbn; lia).
    rewrite IH by by apply Forall_drop.
    replace (le_split (unit_of kind) (le_combine (take (unit_of kind) line))) with (take (unit_of kind) line)
      by (rewrite <- Ht at 2; by rewrite le_split_combine).
    rewrite length_drop. assert (length line / unit_of kind = S ((length line - unit_of kind) / unit_of kind))%nat as ->.
    { replace (length line) with ((length line - unit_of kind) + 1 * unit_of kind)%nat at 1 by lia. rewrite Nat.div_add by lia. lia. }
    rewrite <- Nat.succ_min_distr, Nat.mul_succ_r, Nat.add_comm. by rewrite take_take_drop.
  - rewrite Nat.div_small, Nat.min_0_r, Nat.mul_0_r by lia. rewrite take_0. rewrite Hu. cbn [Nat.mul repeat app take Nat.add]. reflexivity.
Qed.

Lemma line_read kind address line :
  kind <> d_pointers -> bytes_ok line -> is_u64 address -> (length line <= 16)%nat ->
  line_address (dump_line kind address line) = Some address /\
  line_bytes kind (dump_line kind address line) = take (unit_of kind * (length line / unit_of kind)) line.
Proof.
  intros Hk Hb Ha Hl. destruct (unit_cases kind Hk) as (k & Hu & _).
  assert (address < 16 ^ Z.of_nat 16) as H16 by (unfold is_u64 in Ha; change (16 ^ Z.of_nat 16) with (2 ^ 64); lia).
  unfold line_address, line_bytes, dump_line.
  match goal with |- context [hex16 address ++ ?r] => destruct (padded_number 15 address r Ha H16) as [Hn Hlen] end.
  split; [exact Hn |]. fold (hex16 address) in Hlen. rewrite (app_assoc (hex16 address)), drop_app_length' by (rewrite length_app, Hlen; reflexivity).
  replace (Z.to_nat (16 / unit_size_for kind)) with (16 / unit_of kind)%nat by (by destruct kind).
  rewrite cells_read by done. rewrite Nat.min_r; [done |]. apply Nat.Div0.div_le_mono. lia.
Qed.

Lemma add64_assoc a b c : a +64 b +64 c = a +64 (b + c).
Proof. unfold add64, wrap. rewrite Z.add_mod_idemp_l by lia. by rewrite Z.add_assoc. Qed.

(** Whole units of 16 bytes and more. *)
Lemma whole_units u (buffer : list Z) :
  (0 < u)%nat -> (16 mod u = 0)%nat ->
  take (u * (length buffer / u)) buffer =
    take (u * (length (take 16 buffer) / u)) (take 16 buffer) ++ take (u * (length (drop 16 buffer) / u)) (drop 16 buffer).
Proof.
  intros Hu Hm. rewrite length_take, length_drop. destruct (Nat.le_gt_cases 16 (length buffer)) as [Hle | Hgt].
  - rewrite Nat.min_l by done. pose proof (Nat.div_mod 16 u ltac:(lia)) as E16. rewrite Hm, Nat.add_0_r in E16.
    rewrite <- E16. rewrite take_take, Nat.min_id. rewrite take_take_drop. f_equal.
    replace (length buffer) with (length buffer - 16 + 16 / u * u)%nat at 1 by lia. rewrite Nat.div_add by lia. lia.
  - rewrite Nat.min_r, (take_ge buffer 16), (drop_ge buffer 16) by lia.
    rewrite take_nil, app_nil_r. done.
Qed.

(** The lines read back: consecutive addresses, and the bytes of the whole units. *)
Lemma dump_read fuel kind address buffer :
  kind <> d_pointers -> bytes_ok buffer -> is_u64 address -> (length buffer <= fuel)%nat ->
  let lines := dump_lines fuel kind address buffer in
  map line_address lines = map (fun i => Some (address +64 16 * Z.of_nat i)) (seq 0 (length lines)) /\
  concat (map (line_bytes kind) lines) = take (unit_of kind * (length buffer / unit_of kind)) buffer.
Proof.
  intros Hk. destruct (unit_cases kind Hk) as (k & Hu & _ & Hm). revert address buffer.
  induction fuel as [| fuel IH]; intros address buffer Hb Ha Hl; cbn zeta.
  { destruct buffer; [| cbn in Hl; lia]. cbn [dump_lines map length seq concat]. by rewrite take_nil. }
  destruct buffer as [| b buffer]; [cbn [dump_lines map length seq concat]; by rewrite take_nil |].
  cbn [dump_lines]. set (bs := b :: buffer) in *. cbn [map length seq concat].
  destruct (line_read kind address (take 16 bs)) as [E1 E2]; [done | by apply Forall_take | done | rewrite length_take; lia |].
  destruct (IH (address +64 16) (drop 16 bs)) as [I1 I2].
  - by apply Forall_drop.
  - apply wrap_range. lia.
  - rewrite length_drop. unfold bs in *. cbn [length] in *. lia.
  - rewrite E1, E2, I1, I2. split; [| symmetry; apply whole_units; lia].
    rewrite <- seq_shift, map_map. f_equal.
    + f_equal. unfold is_u64 in Ha. symmetry. unfold add64. rewrite Z.mul_0_r, Z.add_0_r. by apply wrap_small.
    + apply map_ext. intros i. rewrite add64_assoc. do 2 f_equal. lia.
Qed.

Lemma outs_texts lines w : outs (fold_left (fun w l => emit_out (text l) w) lines w) = outs w ++ map text lines.
Proof.
  revert w. induction lines as [| l lines IH]; intros w; cbn [fold_left map]; [by rewrite app_nil_r |].
  rewrite IH. unfold emit_out, set. cbn [outs]. by rewrite <- app_assoc.
Qed.

(** ** The command *)

Section dump.
Context {ia32 : Ia32} {mtrr_layout : MtrrLayout} {exit_layout : ExitLayout}.
Variable supported : vmcs_field -> bool.
Variable env : nat -> environment.
Variable cpu : nat.
Variables process_cr3 req : Z.
(** Where the vector of the command is in the address space of the controller. *)
Variable buffer : Z.

(** What the command finds in its vector after the read, cut to the bytes read. *)
Definition delivered (s : system) (va n cr3 : Z) : list Z :=
  match UmMemory.read_vmemory supported env cpu process_cr3 req va buffer n cr3 s with
  | Ok (s', k) => match guest_bytes (memory s') process_cr3 buffer (Z.to_nat k) with Ok bs => bs | _ => [] end
  | _ => []
  end.

Variable query : option (list raw_module).
Variable NtSystemRoot : list Z.
Variable open_file : list Z -> option (list Z * Z).
Variable pdb_symbols : list Z -> list Z -> option (list symbol_info).
Variable can_allocate : Z -> bool.

Context `{!Ia32Ok ia32}.
Hypothesis no_faults : forall a n, env_copy_fault (env cpu) a n = None.

(** What arrives is what is mapped at the address. *)
Lemma delivered_ok s va n cr3 bs g h :
  prepared supported process_cr3 s cpu -> transfer_ok process_cr3 req reading va buffer n cr3 s bs g h ->
  delivered s va n cr3 = bs /\ guest_bytes (memory s) (target_space cr3 s) va (Z.to_nat n) = Ok bs.
Proof.
  intros Hp Hok. split; [| by apply (ok_source _ _ _ _ _ _ _ _ _ _ _ Hok)].
  destruct (move_moves supported env cpu process_cr3 req reading va buffer n cr3 s bs g h no_faults Hp Hok) as (s' & E & Hm).
  pose proof (moved_delivered _ _ _ _ _ _ _ _ _ _ _ _ _ _ Hok Hm) as Hg.
  unfold delivered. change (UmMemory.read_vmemory supported env cpu process_cr3 req) with (move supported env cpu process_cr3 req reading).
  change (guest_bytes (memory s') process_cr3 buffer (length bs) = Ok bs) in Hg. rewrite E, Nat2Z.id. by rewrite Hg.
Qed.

Abbreviation dump := (handle_dump true query NtSystemRoot).

(** (C38) A dump of a range shows what is in memory: when the hypervisor is there and the arguments are
    numbers, the command prints one line for every 16 bytes, with consecutive addresses, and
    the cells of the lines, read back, are the bytes at the address in the address space
    asked for, up to the first byte that is not mapped, in whole units; a warning follows
    when the range was not mapped to its end. *)
Theorem dump_shows_memory kind args w c address count cr3 bs g h
    (Hkind : kind <> d_pointers) (Hhelp : wants_help args = false) (Hargs : (2 <= length args <= 4)%nat)
    (Hrefresh : refresh NtSystemRoot query (modules (eng w)) = Some c)
    (Haddress : parse_u64_token (arg args 1) = Some address)
    (Hcount : (if (3 <=? length args)%nat then parse_u64_token (arg args 2) else Some (default_count kind)) = Some count)
    (Hcr3 : (if (4 <=? length args)%nat then parse_u64_token (arg args 3) else Some 0) = Some cr3)
    (Hfits : count * unit_size_for kind < 2 ^ 64) (Halloc : can_allocate (count * unit_size_for kind) = true)
    (Hprepared : prepared supported process_cr3 (sys w) cpu)
    (Hrange : transfer_ok process_cr3 req reading address buffer (count * unit_size_for kind) cr3 (sys w) bs g h)
    (Hbytes : bytes_ok bs) (Hsome : bs <> []) :
  exists w' lines, dump (delivered (sys w)) open_file pdb_symbols can_allocate args kind w = Ok w' /\
    outs w' = outs w ++ map text lines ++ (if Z.of_nat (length bs) <? count * unit_size_for kind then [warned] else []) /\
    guest_bytes (memory (sys w)) (target_space cr3 (sys w)) address (Z.to_nat (count * unit_size_for kind)) = Ok bs /\
    map line_address lines = map (fun i => Some (address +64 16 * Z.of_nat i)) (seq 0 (length lines)) /\
    concat (map (line_bytes kind) lines) = take (unit_of kind * (length bs / unit_of kind)) bs.
Proof.
  destruct (delivered_ok (sys w) address (count * unit_size_for kind) cr3 bs g h Hprepared Hrange) as [Ed Eg].
  pose proof (ok_size _ _ _ _ _ _ _ _ _ _ _ Hrange) as [Hs _].
  assert (0 < unit_size_for kind) as Hu by (by destruct kind).
  destruct (dump_read (length bs) kind address bs Hkind Hbytes) as [Ha Hb]; [| lia |].
  { pose proof (ok_range _ _ _ _ _ _ _ _ _ _ _ Hrange) as (R1 & R2 & _). unfold source in *. unfold is_u64. lia. }
  set (lines := dump_lines (length bs) kind address bs) in *.
  set (w1 := fold_left (fun w l => emit_out (text l) w) lines (on_eng (fun e => e <| modules := c |>) w)).
  exists (if Z.of_nat (length bs) <? count * unit_size_for kind then emit_out warned w1 else w1), lines.
  split; [| split; [| split; [exact Eg | split; [exact Ha | exact Hb]]]].
  - unfold handle_dump. rewrite Hhelp. cbn [negb]. destruct (Nat.ltb_spec (length args) 2); [lia |].
    unfold with_refresh. rewrite Hrefresh. unfold parse_expression. rewrite Haddress. cbn [obind].
    rewrite Hcount. destruct (Z.eqb_spec count 0) as [-> |]; [lia |]. rewrite Hcr3.
    destruct (Nat.ltb_spec 4 (length args)); [lia |].
    assert (count <= (2 ^ 64 - 1) / unit_size_for kind) by (apply Z.div_le_lower_bound; lia).
    destruct (Z.ltb_spec ((2 ^ 64 - 1) / unit_size_for kind) count); [lia |]. rewrite Halloc, Ed. cbn [negb].
    destruct (Z.eqb_spec (Z.of_nat (length bs)) 0) as [E0 |]; [destruct bs; [done | cbn in E0; lia] |].
    destruct kind; first [reflexivity | done].
  - assert (outs w1 = outs w ++ map text lines) as Eo by (unfold w1; by rewrite outs_texts).
    destruct (_ <? _); [| by rewrite app_nil_r]. cbn [emit_out]. unfold emit_out, set. cbn [outs]. by rewrite Eo, app_assoc.
Qed.
End dump.

(** ** Example: three bytes at 1300H of the sample address space *)
Definition dump_args : list (list Z) := map bytes ["db"; "0x1300"; "3"; "1000h"]%string.
Definition dump_world : world := mk_world (mk_engine empty_context false [] None [] [] []) reading_system [].

Lemma dump_shows_memory_witness :
  exists w' lines, handle_dump true None (bytes "C:\Windows")
      (delivered (fun _ => true) (fun _ => sample_env) 0 0x1000 0x1100 0x1200 reading_system) no_file no_symbols (fun _ => true)
      dump_args d_bytes dump_world = Ok w' /\
    outs w' = map text lines /\ map line_address lines = map (fun i => Some (0x1300 +64 16 * Z.of_nat i)) (seq 0 (length lines)) /\
    concat (map (line_bytes d_bytes) lines) = [0xAA; 0xBB; 0xCC].
Proof.
  destruct (dump_shows_memory (fun _ => true) (fun _ => sample_env) 0 0x1000 0x1100 0x1200 None (bytes "C:\Windows") no_file no_symbols
    (fun _ => true) (fun _ _ => eq_refl) d_bytes dump_args dump_world empty_context 0x1300 3 0x1000 [0xAA; 0xBB; 0xCC]
    (fun i => 0x9000 + 0x200 + i) (fun i => 0x9000 + 0x100 + i)) as (w' & lines & E & Eo & _ & Ea & Eb).
  - discriminate.
  - reflexivity.
  - cbn. lia.
  - reflexivity.
  - vm_compute. reflexivity.
  - vm_compute. reflexivity.
  - vm_compute. reflexivity.
  - cbn. lia.
  - reflexivity.
  - split; vm_compute; reflexivity.
  - exact reading_ok.
  - repeat constructor; lia.
  - discriminate.
  - exists w', lines. split; [exact E |]. split; [| split; [exact Ea | exact Eb]].
    rewrite Eo. exact (app_nil_r (map text lines)).
Defined.
